(* ===== verification/_CoqProject ===== *)
-Q . S2P
Prelude.v
Machine.v
Ring.v
Spinlock.v
Str.v
Types.v
Proc.v
ProcSpec.v
Rely.v
Sleeplock.v
Bio.v
BioSpec.v
BioContent.v
BioRep.v
Bytes.v
Log.v
LogSpec.v
LogRun.v
LogView.v
Fs.v
Dir.v
FsFormat.v
FsBlock.v
FsData.v
FsFile.v
FsWrite.v
FsTrunc.v
FsDir.v
FsPath.v
Kalloc.v
Vm.v
PageTable.v
VmSpec.v
VmUser.v
VmCopy.v
VmRun.v
Pipe.v
PipeSpec.v
Vma.v
File.v
ProcLife.v
KernelVm.v
VmaSpec.v
Exec.v
Sysargs.v
Console.v
ConsoleSpec.v
Sysfile.v
Sysproc.v
Trap.v
Virtio.v
VirtioSpec.v
Grep.v
Ulib.v
Sh.v
ShSpec.v
Umalloc.v
UmallocSpec.v
Mkfs.v
MkfsSpec.v
Reboot.v
Asm.v
Boot.v
Uspace.v
Progs.v
ProgsSpec.v
