(* ===== verification/Prelude.v ===== *)
(** * A verification of the xv6 kernel (RISC-V)

    xv6 is a small Unix: processes with page-table address spaces, pipes, a
    lottery scheduler, spin locks and a page allocator with reference counts
    (src/kernel/).  The development embeds these parts as executable functions
    on an explicit kernel state and proves what each of them promises.

    ** The setting

    - [Prelude] has the monad of kernel code.  [M S A] maps a state to an
      [outcome]: [Ok a s] returns, [Stop w s] is a panic, an [exit], a fault on
      an unmapped kernel address or exhausted fuel, and [Switch s resume] gives
      the CPU to the scheduler; [resume] is the rest of the thread, applied to
      whatever state the thread finds when it runs again.  Interleavings are
      explicit in this way: a theorem about a thread quantifies over the state
      it is resumed in.
    - [Machine] has the constants of param.h, memlayout.h and riscv.h, the
      machine-width wrap-arounds and the page arithmetic.  The addresses the
      linker script defines are the class [Linker].
    - [Types] has the structs and the global state [kstate]: memory is a map
      from addresses to bytes, each static table of the kernel is a list.

    ** The components

    - [Str] (string.c): [memmove] for overlapping ranges, comparisons and
      string copies against their byte-list meaning.
    - [Spinlock] (spinlock.c): a step relation for any number of CPUs with one
      step per atomic instruction; mutual exclusion, the panics in [acquire]
      and [release], and nesting of [push_off] and [pop_off], by induction on
      reachability.
    - [Kalloc] (kalloc.c): the free list through [kmem.runs] as a chain, its
      invariant [free_pages], every operation on every branch.
    - [Proc], [ProcSpec] (proc.c, random.c): [sleep], [wakeup], [kill] and the
      lottery: which process a pass of [scheduler] runs, and that each process
      holds as many winning numbers as it has tickets.
    - [Vm] (vm.c): walks and updates of three-level page tables in physical
      memory, and the copies between kernel and user memory.
      [PageTable] is the theory of a table as a partial map from pages to
      entries; [VmSpec] relates memory to it and proves [walk], [mappages] and
      [walkaddr]; [VmUser] proves [uvmunmap], [uvmalloc] and [uvmdealloc] for
      address spaces whose frames are disjoint and allocated; [VmCopy] proves
      [uvmcopy], [copyout], [copyin] and [copyinstr]; [VmRun] runs all of them
      on a machine with eight free pages.
    - [Pipe], [PipeSpec] (pipe.c): the ring buffer refines a bounded queue, and
      [pipewrite] and [piperead] append to and take from that queue, in order,
      for every interleaving with other threads.

    ** Bounds and fuel

    Loops over addresses carry fuel computed from their bounds; the theorems
    show that a result is reached, so the fuel is enough.  The loops that wait
    ([pipewrite], [piperead]) take their fuel as an argument, as no bound on
    the number of waits exists; the theorems hold for every fuel.

    ** What is not modelled

    The bodies of critical sections are taken as atomic: the locks that make
    them so are verified on their own in [Spinlock].  Console output of
    [printf], device registers and assembly are left out.  The page-fault
    handler [check_vmas] is an argument of the user copies. *)

From Stdlib Require Export ZArith Lia Bool.
From stdpp Require Export base tactics option list gmap strings numbers.

(** ** Outcomes of kernel code

    A kernel function returns to its caller ([Ok]), or control leaves it for
    good ([Stop]), or its thread gives the CPU away in [swtch] and goes on from
    there when the scheduler resumes it ([Switch]; the function is what is left
    to do, from the state it finds then).

    The ways to stop: [panic(msg)] spins forever; [exit(status)] makes the
    thread run the body of [exit], which does not come back; [Faults] is an
    access C does not define (a null pointer, an index outside an array); and
    [NoFuel] only arises when a model loop is run with too little fuel. *)

Inductive stop : Type :=
  | Panics (msg : string)
  | Exits (status : Z)
  | Faults
  | NoFuel.

Inductive outcome (S A : Type) : Type :=
  | Ok (a : A) (s : S)
  | Stop (w : stop) (s : S)
  | Switch (s : S) (resume : S → outcome S A).
Arguments Ok {S A} a s.
Arguments Stop {S A} w s.
Arguments Switch {S A} s resume.

(** ** The kernel monad: state passing with early termination and switches *)

Definition M (S A : Type) : Type := S → outcome S A.

Fixpoint obind {S A B} (o : outcome S A) (f : A → S → outcome S B) : outcome S B :=
  match o with
  | Ok a s => f a s
  | Stop w s => Stop w s
  | Switch s k => Switch s (λ s', obind (k s') f)
  end.

#[global] Instance M_ret S : MRet (M S) := λ A a s, Ok a s.
#[global] Instance M_bind S : MBind (M S) := λ A B f m s, obind (m s) f.

Definition halt {S A} (w : stop) : M S A := λ s, Stop w s.
Definition panic {S A} (msg : string) : M S A := halt (Panics msg).
Definition fault {S A} : M S A := halt Faults.
Definition gets {S A} (f : S → A) : M S A := λ s, Ok (f s) s.
Definition modify {S} (f : S → S) : M S unit := λ s, Ok tt (f s).
(** [swtch] to the scheduler. *)
Definition switch {S} : M S unit := λ s, Switch s (λ s', Ok tt s').
Definition when {S} (b : bool) (m : M S unit) : M S unit :=
  if b then m else mret tt.

(** [for (x in l) body(x)] *)
Fixpoint forM_ {S A} (l : list A) (f : A → M S unit) : M S unit :=
  match l with
  | [] => mret tt
  | x :: l' => f x;; forM_ l' f
  end.

(** A loop with [return v] in its body: [Some v] leaves the loop. *)
Fixpoint for_ret {S A B} (l : list A) (f : A → M S (option B)) : M S (option B) :=
  match l with
  | [] => mret None
  | x :: l' => r ← f x; match r with Some v => mret (Some v) | None => for_ret l' f end
  end.

(** ** Reasoning about runs *)

Lemma bind_ok {S A B} (m : M S A) (f : A → M S B) s a s' :
  m s = Ok a s' → (m ≫= f) s = f a s'.
Proof. intros E. unfold mbind, M_bind. by rewrite E. Qed.

Lemma seq_ok {S B} (m : M S unit) (k : M S B) s s' :
  m s = Ok tt s' → (m;; k) s = k s'.
Proof. apply bind_ok. Qed.

Lemma bind_stop {S A B} (m : M S A) (f : A → M S B) s w s' :
  m s = Stop w s' → (m ≫= f) s = Stop w s'.
Proof. intros E. unfold mbind, M_bind. by rewrite E. Qed.

Lemma bind_inv {S A B} (m : M S A) (f : A → M S B) s b s2 :
  (m ≫= f) s = Ok b s2 → ∃ a s1, m s = Ok a s1 ∧ f a s1 = Ok b s2.
Proof. unfold mbind, M_bind. destruct (m s) as [a s1| |]; simpl; [by eauto|by intros [=]..]. Qed.

(** Total correctness: from [P] the code returns, and the result is in [Q]. *)
Definition triple {S A} (P : S → Prop) (m : M S A) (Q : A → S → Prop) : Prop :=
  ∀ s, P s → ∃ a s', m s = Ok a s' ∧ Q a s'.

Lemma triple_bind {S A B} P (m : M S A) Q (f : A → M S B) R :
  triple P m Q → (∀ a, triple (Q a) (f a) R) → triple P (m ≫= f) R.
Proof.
  intros Hm Hf s HP. destruct (Hm s HP) as (a & s' & E & HQ).
  destruct (Hf a s' HQ) as (b & s'' & E' & HR).
  exists b, s''. split; [by rewrite (bind_ok _ _ _ _ _ E) | done].
Qed.

Lemma forM_app {S A} (l1 l2 : list A) (f : A → M S unit) s s' :
  forM_ l1 f s = Ok tt s' → forM_ (l1 ++ l2) f s = forM_ l2 f s'.
Proof.
  revert s. induction l1 as [|x l1 IH]; intros s; cbn [forM_ app]; [by intros [=<-]|].
  intros H. apply bind_inv in H as ([] & s1 & E & H). rewrite (bind_ok _ _ _ _ _ E). by apply IH.
Qed.

(** Loop rule: an invariant indexed by what is left of the list. *)
Lemma forM_triple {S A} (I : list A → S → Prop) (f : A → M S unit) l :
  (∀ x l', triple (I (x :: l')) (f x) (λ _, I l')) →
  triple (I l) (forM_ l f) (λ _, I []).
Proof.
  intros Hf. induction l as [|x l IH]; intros s HI; cbn.
  - by exists tt, s.
  - destruct (Hf x l s HI) as ([] & s' & E & HI').
    destruct (IH s' HI') as (a & s'' & E' & HI'').
    exists a, s''. split; [by rewrite (bind_ok _ _ _ _ _ E) | done].
Qed.

(** Steps a run whose next call's result is known. *)
Ltac mstep :=
  match goal with
  | E : ?m ?s = Ok _ _ |- context [mbind ?f ?m ?s] => rewrite (bind_ok m f s _ _ E)
  | E : ?m ?s = Stop _ _ |- context [mbind ?f ?m ?s] => rewrite (bind_stop m f s _ _ E)
  end.

(** Inverts a run that returned into the runs of its parts. *)
Ltac minv H :=
  let a := fresh "r" in let s := fresh "s" in
  let E := fresh "E" in
  apply bind_inv in H as (a & s & E & H).

Ltac munfold := unfold mret, M_ret, gets, modify, when, panic, fault, halt in *.

(** ** Hint databases of the development *)

Create HintDb xv6.
#[export] Hint Resolve Z.mod_pos_bound Z.div_pos : xv6.

(** ** Integers *)

Open Scope Z_scope.
Coercion Z.of_nat : nat >-> Z.

(** Linear arithmetic with division and remainder by constants. *)
Ltac dlia := Z.div_mod_to_equations; lia.

Lemma Z_land_low n k x : 0 ≤ k → n = 2 ^ k - 1 → Z.land x n = x mod 2 ^ k.
Proof.
  intros Hk ->. replace (2 ^ k - 1) with (Z.ones k) by (rewrite Z.ones_equiv; lia).
  by apply Z.land_ones.
Qed.
