(* ===== verification/Machine.v ===== *)
(** Machine integers, the RISC-V page-table format and the memory layout:
    src/kernel/types.h, the constants of src/kernel/param.h,
    src/kernel/memlayout.h and the paging macros of src/kernel/riscv.h.
    Integers are [Z] kept in range by an explicit wrap-around; the values
    the linker chooses ([end], [etext], [trampoline]) are a type class. *)

From S2P Require Import Prelude.

(** ** Fixed-width integers (types.h) *)

Definition u8 (x : Z) : Z := x mod 2 ^ 8.
Definition u16 (x : Z) : Z := x mod 2 ^ 16.
Definition u32 (x : Z) : Z := x mod 2 ^ 32.
Definition u64 (x : Z) : Z := x mod 2 ^ 64.
(** Two's complement [int] and [char]. *)
Definition s32 (x : Z) : Z := (x + 2 ^ 31) mod 2 ^ 32 - 2 ^ 31.
Definition s16 (x : Z) : Z := (x + 2 ^ 15) mod 2 ^ 16 - 2 ^ 15.
Definition s8 (x : Z) : Z := (x + 2 ^ 7) mod 2 ^ 8 - 2 ^ 7.

Lemma u8_range x : 0 ≤ u8 x < 256.
Proof. unfold u8. apply Z.mod_pos_bound. lia. Qed.
Lemma u32_range x : 0 ≤ u32 x < 2 ^ 32.
Proof. unfold u32. apply Z.mod_pos_bound. lia. Qed.
Lemma u64_range x : 0 ≤ u64 x < 2 ^ 64.
Proof. unfold u64. apply Z.mod_pos_bound. lia. Qed.
Lemma s32_range x : - 2 ^ 31 ≤ s32 x < 2 ^ 31.
Proof. unfold s32. pose proof (Z.mod_pos_bound (x + 2 ^ 31) (2 ^ 32)). lia. Qed.
Lemma u8_small x : 0 ≤ x < 256 → u8 x = x.
Proof. intros. unfold u8. apply Z.mod_small. lia. Qed.
Lemma u32_small x : 0 ≤ x < 2 ^ 32 → u32 x = x.
Proof. intros. unfold u32. by apply Z.mod_small. Qed.
Lemma u64_small x : 0 ≤ x < 2 ^ 64 → u64 x = x.
Proof. intros. unfold u64. by apply Z.mod_small. Qed.
Lemma s32_small x : - 2 ^ 31 ≤ x < 2 ^ 31 → s32 x = x.
Proof. intros. unfold s32. rewrite Z.mod_small; lia. Qed.
Lemma u32_u32 x : u32 (u32 x) = u32 x.
Proof. apply u32_small, u32_range. Qed.

#[export] Hint Resolve u8_range u32_range u64_range s32_range : xv6.
Create Rewrite HintDb xv6.
#[export] Hint Rewrite u8_small u32_small u64_small s32_small using lia : xv6.

(** ** param.h *)

Definition NPROC : nat := 64.
Definition NCPU : nat := 8.
Definition NOFILE : nat := 16.
Definition NFILE : nat := 100.
Definition NINODE : nat := 50.
Definition NDEV : Z := 10.
Definition ROOTDEV : Z := 1.
Definition MAXARG : nat := 32.
Definition MAXOPBLOCKS : Z := 10.
Definition LOGSIZE : Z := MAXOPBLOCKS * 3.
Definition NBUF : nat := 30.
Definition FSSIZE : Z := 2000.
Definition MAXPATH : Z := 128.
Definition PER_PROCESS_VMAS : nat := 4.
Definition NVMAS : nat := PER_PROCESS_VMAS * NPROC.

(** ** riscv.h: pages and page-table entries *)

Definition PGSIZE : Z := 4096.
Definition PGSHIFT : Z := 12.

Definition PGROUNDUP (sz : Z) : Z := Z.land (u64 (sz + PGSIZE - 1)) (Z.lnot (PGSIZE - 1)).
Definition PGROUNDDOWN (a : Z) : Z := Z.land a (Z.lnot (PGSIZE - 1)).

Definition PTE_V : Z := Z.shiftl 1 0.
Definition PTE_R : Z := Z.shiftl 1 1.
Definition PTE_W : Z := Z.shiftl 1 2.
Definition PTE_X : Z := Z.shiftl 1 3.
Definition PTE_U : Z := Z.shiftl 1 4.

Definition PA2PTE (pa : Z) : Z := u64 (Z.shiftl (Z.shiftr pa 12) 10).
Definition PTE2PA (pte : Z) : Z := u64 (Z.shiftl (Z.shiftr pte 10) 12).
Definition PTE_FLAGS (pte : Z) : Z := Z.land pte 0x3FF.

Definition PXMASK : Z := 0x1FF.
Definition PXSHIFT (level : Z) : Z := PGSHIFT + 9 * level.
Definition PX (level va : Z) : Z := Z.land (Z.shiftr va (PXSHIFT level)) PXMASK.

Definition MAXVA : Z := Z.shiftl 1 (9 + 9 + 9 + 12 - 1).

(** ** memlayout.h *)

Definition UART0 : Z := 0x10000000.
Definition VIRTIO0 : Z := 0x10001000.
Definition PLIC : Z := 0x0c000000.
Definition KERNBASE : Z := 0x80000000.
Definition PHYSTOP : Z := KERNBASE + 128 * 1024 * 1024.
Definition TRAMPOLINE : Z := MAXVA - PGSIZE.
Definition KSTACK (p : Z) : Z := TRAMPOLINE - (p + 1) * 2 * PGSIZE.
Definition TRAPFRAME : Z := TRAMPOLINE - PGSIZE.

(** The addresses kernel.ld gives to [end], [etext] and [trampoline]: the
    kernel image starts at KERNBASE, its text ends at [etext] and the free
    RAM starts at [end]. *)
Class Linker : Type := {
  ld_end : Z;
  ld_etext : Z;
  ld_trampoline : Z;
  ld_etext_lo : KERNBASE < ld_etext;
  ld_end_lo : ld_etext ≤ ld_end;
  ld_end_hi : ld_end < PHYSTOP;
  ld_tramp_lo : KERNBASE ≤ ld_trampoline;
  ld_tramp_hi : ld_trampoline < ld_etext;
  ld_etext_page : ld_etext mod PGSIZE = 0;
  ld_tramp_page : ld_trampoline mod PGSIZE = 0 }.

Lemma MAXVA_eq : MAXVA = 274877906944.
Proof. done. Qed.

(** Linear arithmetic over page addresses; [pgd] also knows division. *)
Ltac pg_unfold := unfold PGSIZE in *; rewrite ?MAXVA_eq in *.
Ltac pg := pg_unfold; lia.
Ltac pgd := pg_unfold; dlia.

(** ** Facts about pages *)

Lemma land_lnot_page a : 0 ≤ a → Z.land a (Z.lnot (PGSIZE - 1)) = PGSIZE * (a / PGSIZE).
Proof.
  intros Ha. rewrite <- Z.ldiff_land. change (PGSIZE - 1) with (Z.ones 12).
  rewrite Z.ldiff_ones_r by lia. rewrite Z.shiftl_mul_pow2, Z.shiftr_div_pow2 by lia.
  change (2 ^ 12) with PGSIZE. lia.
Qed.

Lemma PGROUNDDOWN_eq a : 0 ≤ a → PGROUNDDOWN a = PGSIZE * (a / PGSIZE).
Proof. apply land_lnot_page. Qed.

Lemma PGROUNDUP_eq a :
  0 ≤ a ≤ 2 ^ 64 - PGSIZE → PGROUNDUP a = PGSIZE * ((a + PGSIZE - 1) / PGSIZE).
Proof.
  unfold PGROUNDUP, PGSIZE. intros Ha. rewrite u64_small by lia.
  apply land_lnot_page. lia.
Qed.

Lemma PGROUNDDOWN_aligned a : 0 ≤ a → PGROUNDDOWN a mod PGSIZE = 0.
Proof. intros. rewrite PGROUNDDOWN_eq, Z.mul_comm by done. by apply Z_mod_mult. Qed.

Lemma PGROUNDDOWN_id a : 0 ≤ a → a mod PGSIZE = 0 → PGROUNDDOWN a = a.
Proof.
  unfold PGSIZE. intros ? H. rewrite PGROUNDDOWN_eq by done. unfold PGSIZE.
  pose proof (Z.div_mod a 4096). lia.
Qed.

Lemma PGROUNDDOWN_bounds a : 0 ≤ a → PGROUNDDOWN a ≤ a < PGROUNDDOWN a + PGSIZE.
Proof.
  intros. rewrite PGROUNDDOWN_eq by done. unfold PGSIZE.
  pose proof (Z.div_mod a 4096). pose proof (Z.mod_pos_bound a 4096). lia.
Qed.

Lemma PGROUNDDOWN_sub a : 0 ≤ a → PGROUNDDOWN a = a - a mod PGSIZE.
Proof. intros. rewrite PGROUNDDOWN_eq by done. pgd. Qed.

Lemma PGROUNDUP_bounds a :
  0 ≤ a ≤ 2 ^ 64 - PGSIZE → a ≤ PGROUNDUP a < a + PGSIZE ∧ PGROUNDUP a mod PGSIZE = 0.
Proof.
  intros H. rewrite PGROUNDUP_eq by done. unfold PGSIZE in *.
  pose proof (Z.div_mod (a + 4096 - 1) 4096).
  pose proof (Z.mod_pos_bound (a + 4096 - 1) 4096).
  rewrite (Z.mul_comm 4096), Z_mod_mult. lia.
Qed.

Lemma PGROUNDUP_id a : 0 ≤ a ≤ 2 ^ 64 - PGSIZE → a mod PGSIZE = 0 → PGROUNDUP a = a.
Proof.
  intros H Ha. destruct (PGROUNDUP_bounds a H) as [H1 H2]. unfold PGSIZE in *.
  pose proof (Z.div_mod a 4096). pose proof (Z.div_mod (PGROUNDUP a) 4096). lia.
Qed.

(** ** Facts about page-table entries *)

Lemma PX_eq level va : 0 ≤ level → PX level va = (va / 2 ^ (12 + 9 * level)) mod 512.
Proof.
  intros. unfold PX, PXSHIFT, PGSHIFT, PXMASK.
  rewrite (Z_land_low _ 9), Z.shiftr_div_pow2; [done|lia..].
Qed.

Lemma PX_range level va : 0 ≤ level → 0 ≤ PX level va < 512.
Proof. intros. rewrite PX_eq by done. apply Z.mod_pos_bound. lia. Qed.

Lemma PTE2PA_eq pte : 0 ≤ pte < 2 ^ 54 → PTE2PA pte = 4096 * (pte / 1024).
Proof.
  intros. unfold PTE2PA. rewrite Z.shiftl_mul_pow2, Z.shiftr_div_pow2 by lia.
  change (2 ^ 10) with 1024. change (2 ^ 12) with 4096.
  pose proof (Z.div_mod pte 1024). pose proof (Z.mod_pos_bound pte 1024).
  rewrite u64_small; lia.
Qed.

Lemma PA2PTE_eq pa : 0 ≤ pa < 2 ^ 56 → PA2PTE pa = 1024 * (pa / 4096).
Proof.
  intros. unfold PA2PTE. rewrite Z.shiftl_mul_pow2, Z.shiftr_div_pow2 by lia.
  change (2 ^ 10) with 1024. change (2 ^ 12) with 4096.
  pose proof (Z.div_mod pa 4096). pose proof (Z.mod_pos_bound pa 4096).
  rewrite u64_small; lia.
Qed.

(** Bits or-ed below bit 10 do not disturb the page number. *)
Lemma lor_low_add hi lo :
  0 ≤ hi → 0 ≤ lo < 1024 → Z.lor (1024 * hi) lo = 1024 * hi + lo.
Proof.
  intros. assert (Z.land (1024 * hi) lo = 0) as E.
  { apply Z.bits_inj'. intros n Hn. rewrite Z.bits_0, Z.land_spec.
    change 1024 with (2 ^ 10) in *. rewrite (Z.mul_comm (2 ^ 10)), Z.mul_pow2_bits by lia.
    destruct (decide (n < 10)); [by rewrite Z.testbit_neg_r by lia|].
    apply andb_false_intro2. rewrite <- (Z.mod_small lo (2 ^ 10)) by lia.
    apply Z.mod_pow2_bits_high. lia. }
  rewrite <- Z.lxor_lor by done. symmetry. by apply Z.add_nocarry_lxor.
Qed.

Lemma lor_range k a b : 0 ≤ k → 0 ≤ a < 2 ^ k → 0 ≤ b < 2 ^ k → 0 ≤ Z.lor a b < 2 ^ k.
Proof.
  intros Hk Ha Hb. rewrite <- (Z.mod_small a (2 ^ k)), <- (Z.mod_small b (2 ^ k)) by lia.
  rewrite <- !Z.land_ones, <- Z.land_lor_distr_l, Z.land_ones by lia.
  apply Z.mod_pos_bound, Z.pow_pos_nonneg; lia.
Qed.

(** An entry built by [PA2PTE(pa) | perm | PTE_V]. *)
Lemma pte_make pa perm :
  0 ≤ pa < 2 ^ 56 → 0 ≤ perm < 1024 →
  Z.lor (Z.lor (PA2PTE pa) perm) PTE_V = 1024 * (pa / 4096) + Z.lor perm PTE_V
  ∧ 0 ≤ Z.lor perm PTE_V < 1024.
Proof.
  intros Hpa Hp. assert (0 ≤ Z.lor perm PTE_V < 2 ^ 10) as Hr.
  { apply lor_range; [lia|done|]. change PTE_V with 1. lia. }
  split; [|done]. rewrite <- Z.lor_assoc, PA2PTE_eq by done.
  apply lor_low_add; [apply Z.div_pos; lia | done].
Qed.

(** A page-aligned entry: its page and flag fields read back. *)
Lemma pte_fields hi lo :
  0 ≤ hi < 2 ^ 44 → 0 ≤ lo < 1024 →
  PTE2PA (1024 * hi + lo) = 4096 * hi ∧ PTE_FLAGS (1024 * hi + lo) = lo.
Proof.
  intros. split.
  - rewrite PTE2PA_eq by lia. do 2 f_equal. symmetry. eapply Z.div_unique; [left|]; eauto.
  - unfold PTE_FLAGS. rewrite (Z_land_low _ 10) by done. change (2 ^ 10) with 1024.
    symmetry. eapply Z.mod_unique; [left|]; eauto.
Qed.

Lemma land_V_flags pte : Z.land pte PTE_V = Z.land (PTE_FLAGS pte) PTE_V.
Proof. unfold PTE_FLAGS. by rewrite <- Z.land_assoc. Qed.

Lemma land_U_flags pte : Z.land pte PTE_U = Z.land (PTE_FLAGS pte) PTE_U.
Proof. unfold PTE_FLAGS. by rewrite <- Z.land_assoc. Qed.

Lemma lor_V_valid perm : Z.land (Z.lor perm PTE_V) PTE_V = PTE_V.
Proof.
  apply Z.bits_inj'. intros n Hn. rewrite Z.land_spec, Z.lor_spec.
  destruct (Z.testbit perm n), (Z.testbit PTE_V n); done.
Qed.

(** A kernel image that leaves eight pages of RAM free: small enough to run
    the allocator on. *)
Definition small_linker : Linker.
Proof.
  refine {| ld_end := PHYSTOP - 8 * PGSIZE; ld_etext := PHYSTOP - 16 * PGSIZE;
            ld_trampoline := KERNBASE |}; by vm_compute.
Defined.

#[global] Arguments u8 : simpl never.
#[global] Arguments u16 : simpl never.
#[global] Arguments u32 : simpl never.
#[global] Arguments u64 : simpl never.
#[global] Arguments s32 : simpl never.
#[global] Arguments s16 : simpl never.
#[global] Arguments s8 : simpl never.
#[global] Arguments PX : simpl never.
#[global] Arguments PA2PTE : simpl never.
#[global] Arguments PTE2PA : simpl never.
#[global] Arguments PTE_FLAGS : simpl never.
#[global] Arguments PGROUNDUP : simpl never.
#[global] Arguments PGROUNDDOWN : simpl never.
#[global] Arguments Z.land : simpl never.
#[global] Arguments Z.lor : simpl never.
#[global] Arguments Z.shiftl : simpl never.
#[global] Arguments Z.shiftr : simpl never.
#[global] Arguments Z.pow : simpl never.
#[global] Arguments Z.modulo : simpl never.
#[global] Arguments Z.div : simpl never.
