(* ===== verification/Ring.v ===== *)
(** Ring buffers: an array of [N] cells written and read at counters modulo [N],
    seen as the list of the cells between two counters. *)

From S2P Require Import Prelude Machine.

(** [n] bytes of a ring of [N] from counter [a] on. *)
Definition ring (N : Z) (buf : list Z) (a : Z) (n : nat) : list Z :=
  (λ k : nat, default 0 (buf !! Z.to_nat ((a + k) mod N))) <$> seq 0 n.

Lemma length_ring N buf a n : length (ring N buf a n) = n.
Proof. unfold ring. by rewrite length_fmap, length_seq. Qed.

Lemma ring_app N buf a m n : ring N buf a (m + n) = ring N buf a m ++ ring N buf (a + m) n.
Proof.
  unfold ring. rewrite seq_app, fmap_app. f_equal. apply list_eq. intros j. rewrite !list_lookup_fmap.
  destruct (decide (j < n)%nat); [|by rewrite !lookup_seq_ge by lia]. rewrite !lookup_seq_lt by done. cbn.
  do 5 f_equal. lia.
Qed.

Lemma ring_mod N buf a b n : a mod N = b mod N → ring N buf a n = ring N buf b n.
Proof.
  intros H. unfold ring. apply list_fmap_ext. intros j k _. do 3 f_equal. by rewrite <- Zplus_mod_idemp_l, H, Zplus_mod_idemp_l.
Qed.

Lemma ring_insert_out N buf a (n : nat) p v : 0 < N → (∀ k, 0 ≤ k < n → (a + k) mod N ≠ p mod N) →
  ring N (<[Z.to_nat (p mod N) := v]> buf) a n = ring N buf a n.
Proof.
  intros HN H. unfold ring. apply list_fmap_ext. intros j k Hk. apply lookup_seq in Hk as [-> Hk]. f_equal.
  apply list_lookup_insert_ne. specialize (H (0 + j)%nat ltac:(lia)).
  pose proof (Z.mod_pos_bound p N). pose proof (Z.mod_pos_bound (a + (0 + j)%nat) N). lia.
Qed.

Lemma ring_last N buf a p v : 0 < N → Z.of_nat (length buf) = N → a mod N = p mod N →
  ring N (<[Z.to_nat (p mod N) := v]> buf) a 1 = [v].
Proof.
  intros HN Hl Hp. unfold ring. cbn. rewrite Z.add_0_r, Hp, list_lookup_insert_eq; [done|].
  pose proof (Z.mod_pos_bound p N). lia.
Qed.

(** The cells between two counters that wrap around at [W]. *)
Definition window (N W : Z) (buf : list Z) (a b : Z) : list Z := ring N buf a (Z.to_nat ((b - a) mod W)).

Section window.
Context (N W : Z) (HN : 0 < N) (HW : (N | W)) (HW0 : 0 < W).

Lemma wrap_mod a : (a mod W) mod N = a mod N.
Proof using HN HW HW0. by apply Z.mod_mod_divide. Qed.

Lemma window_nil buf a : window N W buf a a = [].
Proof. unfold window. by rewrite Z.sub_diag, Zmod_0_l. Qed.

Lemma window_pop buf a b : 0 ≤ a < W → 0 ≤ b < W → a ≠ b →
  window N W buf a b = default 0 (buf !! Z.to_nat (a mod N)) :: window N W buf ((a + 1) mod W) b.
Proof using HN HW HW0.
  intros Ha Hb Hab. unfold window.
  assert (E : (b - a) mod W = 1 + (b - (a + 1) mod W) mod W).
  { rewrite Zminus_mod_idemp_r. assert (0 < (b - a) mod W < W) as H.
    { pose proof (Z.mod_pos_bound (b - a) W HW0). assert ((b - a) mod W ≠ 0); [|lia]. intros H0.
      apply Z.mod_divide in H0 as [k Hk]; [|lia]. destruct (Z.lt_trichotomy k 0) as [?|[->|?]]; nia. }
    replace (b - (a + 1)) with ((b - a) - 1) by lia. rewrite <- (Zminus_mod_idemp_l (b - a)).
    rewrite (Z.mod_small ((b - a) mod W - 1)); lia. }
  rewrite E. pose proof (Z.mod_pos_bound (b - (a + 1) mod W) W HW0). rewrite Z2Nat.inj_add by lia.
  rewrite ring_app. change (Z.to_nat 1) with 1%nat. unfold ring at 1. cbn [seq fmap list_fmap app].
  change (Z.of_nat 0) with 0. rewrite Z.add_0_r. f_equal. apply ring_mod. rewrite wrap_mod. f_equal.
Qed.

Lemma window_push buf a b v : 0 ≤ a < W → 0 ≤ b < W → N < W → Z.of_nat (length buf) = N →
  Z.of_nat (length (window N W buf a b)) < N →
  window N W (<[Z.to_nat (b mod N) := v]> buf) a ((b + 1) mod W) = window N W buf a b ++ [v].
Proof using HN HW HW0.
  unfold window. rewrite length_ring. intros Ha Hb HNW Hl Hn. pose proof (Z.mod_pos_bound (b - a) W HW0) as Hm.
  assert (E : ((b + 1) mod W - a) mod W = (b - a) mod W + 1).
  { rewrite Zminus_mod_idemp_l. replace (b + 1 - a) with ((b - a) + 1) by lia. rewrite <- (Zplus_mod_idemp_l (b - a)).
    apply Z.mod_small. lia. }
  assert (Hab : (a + (b - a) mod W) mod N = b mod N).
  { rewrite <- (wrap_mod (a + _)), Zplus_mod_idemp_r, wrap_mod. f_equal. lia. }
  rewrite E, Z2Nat.inj_add by lia. rewrite ring_app. f_equal.
  - apply ring_insert_out; [done|]. intros k Hk. rewrite <- Hab. intros Heq.
    assert (H0 : ((a + (b - a) mod W) - (a + k)) mod N = 0) by (rewrite Zminus_mod, Heq, Z.sub_diag; by apply Z.mod_0_l; lia).
    apply Z.mod_divide in H0 as [q Hq]; [|lia]. destruct (Z.lt_trichotomy q 0) as [?|[->|?]]; nia.
  - apply ring_last; [done..|]. rewrite <- Hab. f_equal. lia.
Qed.
End window.
