(* ===== verification/Spinlock.v ===== *)
(** Spin locks and interrupt nesting on several CPUs: src/kernel/spinlock.c.

    The operations are functions on the state of the locks and the CPUs, with
    the acting CPU ([mycpu()]) as an argument.  [acquire] and [release] are
    several atomic accesses to memory that other CPUs can observe in between, so
    a CPU also has a program counter, and [step] interleaves the accesses of all
    CPUs. *)

From S2P Require Import Prelude Machine.

Module Spinlock.

(** struct spinlock, without the name; [lk_cpu] is the holder. *)
Record spinlock : Type := mkLock { locked : bool; lk_cpu : option nat }.

(** The fields of struct cpu that [push_off] and [pop_off] use, and the
    interrupt-enable bit of the CPU ([sstatus.SIE]). *)
Record cpu : Type := mkCpu { noff : Z; intena : bool; intr : bool }.

(** Where a CPU is inside [acquire] or [release]. *)
Inductive pc : Type :=
  | Run
  | Spin (l : nat)      (** in the loop of [acquire], before the swap *)
  | Own (l : nat)       (** the swap returned 0, before [lk->cpu = mycpu()] *)
  | Rel (l : nat)       (** after [lk->cpu = 0], before the release swap *)
  | Popping.            (** before the [pop_off] of [release] *)

#[global] Instance pc_eq_dec : EqDecision pc.
Proof. solve_decision. Defined.

(** [held c] are the locks CPU [c] is using: acquired and not yet released. *)
Record state : Type := mkSt {
  locks : nat → spinlock;
  cpus : nat → cpu;
  at_ : nat → pc;
  held : nat → list nat }.

Definition initlock : spinlock := mkLock false None.

Definition upd {A} (f : nat → A) (i : nat) (x : A) : nat → A :=
  λ j, if decide (j = i) then x else f j.

(** ** The operations *)

Definition holding (lk : spinlock) (c : nat) : bool :=
  locked lk && bool_decide (lk_cpu lk = Some c).

Definition push_off (k : cpu) : cpu :=
  let old := intr k in
  mkCpu (noff k + 1) (if noff k =? 0 then old else intena k) false.

(** [inr msg] is [panic(msg)]. *)
Definition pop_off (k : cpu) : cpu + string :=
  if intr k then inr "pop_off - interruptible"
  else if noff k <? 1 then inr "pop_off"
  else
    let n := noff k - 1 in
    inl (mkCpu n (intena k) (if (n =? 0) && intena k then true else intr k)).

(** [__sync_lock_test_and_set(&lk->locked, 1)]: the old value. *)
Definition test_and_set (lk : spinlock) : bool * spinlock := (locked lk, mkLock true (lk_cpu lk)).
Definition sync_lock_release (lk : spinlock) : spinlock := mkLock false (lk_cpu lk).

(** One access of CPU [c]; [Some msg] is a panic. *)
Inductive step (c : nat) (s : state) : option string → state → Prop :=
  | step_acquire l :
      at_ s c = Run → holding (locks s l) c = false →
      step c s None (mkSt (locks s) (upd (cpus s) c (push_off (cpus s c)))
                       (upd (at_ s) c (Spin l)) (held s))
  | step_acquire_panic l :
      at_ s c = Run → holding (locks s l) c = true →
      step c s (Some "acquire") (mkSt (locks s) (upd (cpus s) c (push_off (cpus s c))) (at_ s) (held s))
  | step_spin l lk :
      (** the swap writes 1 over 1 and the loop goes on *)
      at_ s c = Spin l → test_and_set (locks s l) = (true, lk) → step c s None s
  | step_swap l lk :
      at_ s c = Spin l → test_and_set (locks s l) = (false, lk) →
      step c s None (mkSt (upd (locks s) l lk) (cpus s)
                       (upd (at_ s) c (Own l)) (upd (held s) c (held s c)))
  | step_own l :
      at_ s c = Own l →
      step c s None (mkSt (upd (locks s) l (mkLock (locked (locks s l)) (Some c))) (cpus s)
                       (upd (at_ s) c Run) (upd (held s) c (l :: held s c)))
  | step_release l :
      at_ s c = Run → holding (locks s l) c = true →
      step c s None (mkSt (upd (locks s) l (mkLock (locked (locks s l)) None)) (cpus s)
                       (upd (at_ s) c (Rel l))
                       (upd (held s) c (filter (λ l', l' ≠ l) (held s c))))
  | step_release_panic l :
      at_ s c = Run → holding (locks s l) c = false → step c s (Some "release") s
  | step_release_swap l :
      at_ s c = Rel l →
      step c s None (mkSt (upd (locks s) l (sync_lock_release (locks s l))) (cpus s)
                       (upd (at_ s) c Popping) (upd (held s) c (held s c)))
  | step_pop k :
      at_ s c = Popping → pop_off (cpus s c) = inl k →
      step c s None (mkSt (locks s) (upd (cpus s) c k) (upd (at_ s) c Run) (held s))
  | step_pop_panic msg :
      at_ s c = Popping → pop_off (cpus s c) = inr msg → step c s (Some msg) s
  | step_intr b :
      at_ s c = Run → noff (cpus s c) = 0 →
      step c s None (mkSt (locks s) (upd (cpus s) c (mkCpu 0 (intena (cpus s c)) b))
                       (upd (at_ s) c Run) (held s)).

(** All locks free, no CPU inside a critical section. *)
Definition initial (s : state) : Prop :=
  (∀ l, locks s l = initlock) ∧ (∀ c, at_ s c = Run) ∧ (∀ c, held s c = []) ∧
  (∀ c, noff (cpus s c) = 0).

Inductive reachable : state → Prop :=
  | reach_init s : initial s → reachable s
  | reach_step s c s' : reachable s → step c s None s' → reachable s'.

(** ** Mutual exclusion *)

(** CPU [c] owns [l]: its swap took it and it has not given it back. *)
Definition owns (s : state) (c l : nat) : Prop :=
  l ∈ held s c ∨ at_ s c = Own l ∨ at_ s c = Rel l.

(** The accesses still to come that [push_off] has counted. *)
Definition pending (p : pc) : nat := match p with Run => 0 | _ => 1 end.

Record inv (s : state) : Prop := {
  inv_own l c : owns s c l → locked (locks s l) = true;
  inv_excl l c c' : owns s c l → owns s c' l → c = c';
  inv_cpu l c : lk_cpu (locks s l) = Some c ↔ l ∈ held s c;
  inv_pc l c : l ∈ held s c → at_ s c ≠ Own l ∧ at_ s c ≠ Rel l;
  inv_nodup c : NoDup (held s c);
  inv_noff c : noff (cpus s c) = (length (held s c) + pending (at_ s c))%nat;
  inv_intr c : 0 < noff (cpus s c) → intr (cpus s c) = false }.

Lemma inv_initial s : initial s → inv s.
Proof.
  intros (Hl & Hp & Hh & Hn). split.
  - intros l c [H|[H|H]]; [rewrite Hh in H; by apply elem_of_nil in H|by rewrite Hp in H..].
  - intros l c c' [H|[H|H]]; [rewrite Hh in H; by apply elem_of_nil in H|by rewrite Hp in H..].
  - intros l c. rewrite Hl, Hh, elem_of_nil. done.
  - intros l c. rewrite Hh, elem_of_nil. done.
  - intros c. rewrite Hh. constructor.
  - intros c. by rewrite Hn, Hh, Hp.
  - intros c. rewrite Hn. lia.
Qed.

Lemma supd_eq {A} (f : nat → A) i x : upd f i x i = x.
Proof. unfold upd. by rewrite decide_True. Qed.
Lemma supd_ne {A} (f : nat → A) i j x : j ≠ i → upd f i x j = f j.
Proof. intros H. unfold upd. by rewrite decide_False. Qed.

Ltac upd_at c c' :=
  destruct (decide (c' = c)) as [->|]; [rewrite ?supd_eq in *|rewrite ?supd_ne in * by done].

(** A step of [c] that touches no lock. *)
Lemma inv_local s c k p :
  inv s →
  (∀ l, p = Own l ∨ p = Rel l ↔ at_ s c = Own l ∨ at_ s c = Rel l) →
  noff k = (length (held s c) + pending p)%nat → (0 < noff k → intr k = false) →
  inv (mkSt (locks s) (upd (cpus s) c k) (upd (at_ s) c p) (held s)).
Proof.
  intros [Ho He Hc Hp Hd Hn Hi] Hat Hk Hik.
  assert (∀ l c', owns (mkSt (locks s) (upd (cpus s) c k) (upd (at_ s) c p) (held s)) c' l ↔ owns s c' l)
    as Hown.
  { intros l c'. unfold owns. simpl. upd_at c c'; [|done]. by rewrite Hat. }
  split; simpl.
  - intros l c' H%Hown. by eapply Ho.
  - intros l c1 c2 H1%Hown H2%Hown. by eapply He.
  - done.
  - intros l c' Hin. upd_at c c'; [|by apply Hp]. destruct (Hp l c Hin). specialize (Hat l). tauto.
  - done.
  - intros c'. upd_at c c'; [done|apply Hn].
  - intros c'. upd_at c c'; [done|apply Hi].
Qed.

(** A step of [c] on lock [l], which no other CPU owns: afterwards [c] holds
    [h] and is at [p]. *)
Lemma inv_lock s c l lk p h :
  inv s → (∀ c', owns s c' l → c' = c) →
  let s' := mkSt (upd (locks s) l lk) (cpus s) (upd (at_ s) c p) (upd (held s) c h) in
  (∀ l', l' ≠ l → owns s' c l' ↔ owns s c l') →
  (∀ l', l' ≠ l → l' ∈ h ↔ l' ∈ held s c) →
  (owns s' c l → locked lk = true) →
  (lk_cpu lk = if decide (l ∈ h) then Some c else None) →
  (∀ l', l' ∈ h → p ≠ Own l' ∧ p ≠ Rel l') → NoDup h →
  (length h + pending p = length (held s c) + pending (at_ s c))%nat →
  inv s'.
Proof.
  intros [Ho He Hc Hp Hd Hn Hi] Hexcl s' Hown Hheld Hlk Hcpu Hph Hnd Hlen.
  assert (∀ c' l', c' ≠ c → owns s' c' l' ↔ owns s c' l') as Hoth.
  { intros c' l' Hne. unfold owns, s'. simpl. by rewrite !supd_ne. }
  assert (∀ c', c' ≠ c → ¬ owns s c' l) as Hno by (intros c' Hne H; by apply Hne, Hexcl).
  split.
  - intros l' c' H. unfold s'; simpl. upd_at l l'.
    + destruct (decide (c' = c)) as [->|]; [by apply Hlk|]. apply Hoth in H; [|done]. by destruct (Hno c').
    + destruct (decide (c' = c)) as [->|]; [apply (Ho _ c); by apply Hown|].
      apply (Ho _ c'). by apply Hoth.
  - intros l' c1 c2 H1 H2. destruct (decide (c1 = c)) as [->|], (decide (c2 = c)) as [->|]; [done|..].
    + apply Hoth in H2; [|done]. destruct (decide (l' = l)) as [->|]; [by destruct (Hno c2)|].
      apply Hown in H1; [|done]. by eapply He.
    + apply Hoth in H1; [|done]. destruct (decide (l' = l)) as [->|]; [by destruct (Hno c1)|].
      apply Hown in H2; [|done]. by eapply He.
    + apply Hoth in H1, H2; [|done..]. by eapply He.
  - intros l' c'. unfold s'; simpl. upd_at l l'; upd_at c c'.
    + rewrite Hcpu. case_decide; by split.
    + rewrite Hcpu. split; [case_decide; congruence|]. intros H.
      by destruct (Hno c'); [|left].
    + by rewrite Hc, Hheld.
    + apply Hc.
  - intros l' c'. unfold s'; simpl. upd_at c c'; [apply Hph|apply Hp].
  - intros c'. unfold s'; simpl. upd_at c c'; [done|apply Hd].
  - intros c'. unfold s'; simpl. upd_at c c'; [rewrite Hn; lia|apply Hn].
  - done.
Qed.

Lemma holding_spec s l c : inv s → holding (locks s l) c = true ↔ l ∈ held s c.
Proof.
  intros I. unfold holding. rewrite andb_true_iff, bool_decide_eq_true, (inv_cpu s I).
  split; [by intros [_ ?]|]. intros H. split; [|done]. by apply (inv_own s I l c); left.
Qed.

(** Taking a free lock. *)
Lemma inv_swap s c l lk :
  inv s → at_ s c = Spin l → test_and_set (locks s l) = (false, lk) →
  inv (mkSt (upd (locks s) l lk) (cpus s) (upd (at_ s) c (Own l)) (upd (held s) c (held s c))).
Proof.
  intros I Hat Hts. unfold test_and_set in Hts. injection Hts as Hfree <-.
  assert (∀ c', ¬ owns s c' l) as Hno.
  { intros c' H. apply (inv_own s I) in H. congruence. }
  apply inv_lock; [done|by intros c' ?; destruct (Hno c')|..].
  - intros l' Hne. unfold owns. simpl. rewrite !supd_eq, Hat.
    split; (intros [?|[?|?]]; [by left|congruence..]).
  - done.
  - done.
  - simpl. rewrite decide_False by (intros H; destruct (Hno c); by left).
    destruct (lk_cpu (locks s l)) as [c'|] eqn:E; [|done].
    apply (inv_cpu s I) in E. destruct (Hno c'). by left.
  - intros l' Hin. split; [|done]. intros [=<-]. destruct (Hno c). by left.
  - apply I.
  - rewrite Hat. done.
Qed.

(** Recording the holder. *)
Lemma inv_own_cpu s c l :
  inv s → at_ s c = Own l →
  inv (mkSt (upd (locks s) l (mkLock (locked (locks s l)) (Some c))) (cpus s)
         (upd (at_ s) c Run) (upd (held s) c (l :: held s c))).
Proof.
  intros I Hat. assert (owns s c l) as Hown by (right; by left).
  assert (l ∉ held s c) as Hnin by (intros H; by destruct (inv_pc s I l c H)).
  apply inv_lock; [done|by intros c' ?; eapply (inv_excl s I)|..].
  - intros l' Hne. unfold owns. simpl. rewrite !supd_eq, Hat, elem_of_cons.
    split; [intros [[?|?]|[?|?]]|intros [?|[?|?]]]; try congruence; [by left|by left; right].
  - intros l' Hne. rewrite elem_of_cons. tauto.
  - intros _. by apply (inv_own s I l c).
  - simpl. by rewrite decide_True by (apply elem_of_cons; by left).
  - done.
  - apply list.NoDup_cons. split; [done|apply I].
  - rewrite Hat. simpl. lia.
Qed.

Lemma filter_absent (l : nat) (h : list nat) : l ∉ h → filter (λ l', l' ≠ l) h = h.
Proof.
  induction h as [|x h IH]; [done|]. intros [Hx Hh]%not_elem_of_cons.
  rewrite filter_cons, decide_True by done. by rewrite IH.
Qed.

Lemma length_remove (l : nat) (h : list nat) :
  NoDup h → l ∈ h → S (length (filter (λ l', l' ≠ l) h)) = length h.
Proof.
  induction 1 as [|x h Hx Hnd IH]; [by intros ?%elem_of_nil|]. rewrite filter_cons.
  intros [->|Hin]%elem_of_cons.
  - rewrite decide_False by tauto. by rewrite filter_absent.
  - rewrite decide_True by (intros ->; done). simpl. by rewrite IH.
Qed.

(** Clearing the holder, the first half of [release]. *)
Lemma inv_clear_cpu s c l :
  inv s → at_ s c = Run → holding (locks s l) c = true →
  inv (mkSt (upd (locks s) l (mkLock (locked (locks s l)) None)) (cpus s) (upd (at_ s) c (Rel l))
         (upd (held s) c (filter (λ l', l' ≠ l) (held s c)))).
Proof.
  intros I Hat Hh. apply (holding_spec s l c I) in Hh as Hin.
  assert (owns s c l) as Hown by by left.
  apply inv_lock; [done|by intros c' ?; eapply (inv_excl s I)|..].
  - intros l' Hne. unfold owns. simpl. rewrite !supd_eq, Hat, list_elem_of_filter.
    split; [intros [[_ ?]|[?|?]]|intros [?|[?|?]]]; try congruence; by left.
  - intros l' Hne. rewrite list_elem_of_filter. tauto.
  - intros _. by apply (inv_own s I l c).
  - simpl. rewrite decide_False; [done|]. rewrite list_elem_of_filter. tauto.
  - intros l' [Hne _]%list_elem_of_filter. split; congruence.
  - apply list.NoDup_filter, I.
  - rewrite Hat. simpl. rewrite <- (length_remove l (held s c)); [lia|apply I|done].
Qed.

(** The release swap. *)
Lemma inv_release_swap s c l :
  inv s → at_ s c = Rel l →
  inv (mkSt (upd (locks s) l (sync_lock_release (locks s l))) (cpus s) (upd (at_ s) c Popping)
         (upd (held s) c (held s c))).
Proof.
  intros I Hat. assert (owns s c l) as Hown by (right; by right).
  assert (l ∉ held s c) as Hnin by (intros H; by destruct (inv_pc s I l c H)).
  apply inv_lock; [done|by intros c' ?; eapply (inv_excl s I)|..].
  - intros l' Hne. unfold owns. simpl. rewrite !supd_eq, Hat.
    split; (intros [?|[?|?]]; [by left|congruence..]).
  - done.
  - unfold owns. simpl. rewrite !supd_eq. intros [?|[?|?]]; done.
  - simpl. rewrite decide_False by done. destruct (lk_cpu (locks s l)) as [c'|] eqn:E; [|done].
    apply (inv_cpu s I) in E as Hin. assert (c' = c) as ->; [|done].
    eapply (inv_excl s I); [by left|done].
  - done.
  - apply I.
  - by rewrite Hat.
Qed.

Lemma inv_step s c s' : inv s → step c s None s' → inv s'.
Proof.
  intros I Hs. pose proof (inv_noff s I c) as Hn.
  inversion Hs as [l Hat Hh| | |l lk Hat Hts|l Hat|l Hat Hh| |l Hat|k Hat Hk| |b Hat Hz]; subst; clear Hs.
  - apply inv_local; [done| | |done].
    + intros l'. rewrite Hat. split; intros [?|?]; congruence.
    + simpl. rewrite Hn, Hat. simpl. lia.
  - done.
  - by apply inv_swap.
  - by apply inv_own_cpu.
  - by apply inv_clear_cpu.
  - by apply inv_release_swap.
  - unfold pop_off in Hk. destruct (intr (cpus s c)) eqn:Hint; [done|].
    destruct (Z.ltb_spec (noff (cpus s c)) 1); [done|]. injection Hk as <-.
    apply inv_local; [done| | |].
    + intros l. rewrite Hat. split; intros [?|?]; congruence.
    + simpl. rewrite Hn, Hat. simpl. lia.
    + simpl. intros Hpos. destruct (Z.eqb_spec (noff (cpus s c) - 1) 0); [lia|done].
  - rewrite Hat in Hn. simpl in Hn. apply inv_local; [done| | |simpl; lia].
    + intros l. by rewrite Hat.
    + simpl. lia.
Qed.

Lemma reachable_inv s : reachable s → inv s.
Proof. induction 1; [by apply inv_initial|by eapply inv_step]. Qed.

(** C22: mutual exclusion.  In every interleaving of the accesses of all CPUs, a
    lock is in use by at most one CPU, the one [lk->cpu] names, and is marked
    locked meanwhile; and a CPU that uses a lock has its interrupts off. *)
Theorem mutual_exclusion s l c c' :
  reachable s → l ∈ held s c →
  locked (locks s l) = true ∧ lk_cpu (locks s l) = Some c ∧ intr (cpus s c) = false ∧
  (l ∈ held s c' → c' = c).
Proof.
  intros I%reachable_inv Hin. split_and!.
  - apply (inv_own s I l c). by left.
  - by apply (inv_cpu s I).
  - apply (inv_intr s I). rewrite (inv_noff s I). destruct (held s c); [by apply elem_of_nil in Hin|].
    simpl. lia.
  - intros Hin'. eapply (inv_excl s I l); by left.
Qed.

(** [holding] answers correctly for the asking CPU in every interleaving,
    also while other CPUs are inside [acquire] or [release]; so [acquire] panics
    exactly for a lock the CPU already uses and [release] exactly for one it
    does not use.  The [pop_off] of [release] never panics. *)
Theorem lock_checks s c l :
  reachable s →
  (holding (locks s l) c = true ↔ l ∈ held s c) ∧
  (at_ s c = Popping → ∃ k, pop_off (cpus s c) = inl k).
Proof.
  intros I%reachable_inv. split; [by apply holding_spec|]. intros Hat.
  pose proof (inv_noff s I c) as Hn. rewrite Hat in Hn. simpl in Hn.
  unfold pop_off. rewrite (inv_intr s I) by lia.
  destruct (Z.ltb_spec (noff (cpus s c)) 1); [lia|]. by eexists.
Qed.

(** [push_off] and [pop_off] nest: after as many [pop_off]s as
    [push_off]s the interrupt bit is what it was before the first one, and it
    is off in between. *)
Theorem push_pop_nested (n : nat) k :
  noff k = 0 →
  let k1 := Nat.iter n push_off k in
  (0 < n → intr k1 = false)%nat ∧
  Nat.iter n (λ o, match o with inl k => pop_off k | inr m => inr m end) (inl k1) =
    inl (mkCpu 0 (if decide (n = 0%nat) then intena k else intr k) (intr k)).
Proof.
  intros Hk k1.
  assert (∀ m : nat, Nat.iter (S m) push_off k = mkCpu (S m) (intr k) false) as Hpush.
  { induction m as [|m IH]; [simpl; unfold push_off; by rewrite Hk|].
    change (Nat.iter (S (S m)) push_off k) with (push_off (Nat.iter (S m) push_off k)). rewrite IH.
    unfold push_off. simpl noff. destruct (Z.eqb_spec (Z.of_nat (S m)) 0); [lia|]. f_equal. simpl. lia. }
  assert (∀ m : nat, Nat.iter (S m) (λ o, match o with inl k => pop_off k | inr m => inr m end)
      (inl (mkCpu (S m) (intr k) false)) = inl (mkCpu 0 (intr k) (intr k))) as Hpop.
  { induction m as [|m IH]; [by destruct (intr k)|].
    rewrite Nat.iter_succ_r. rewrite <- IH. f_equal. unfold pop_off. simpl noff.
    destruct (Z.ltb_spec (Z.of_nat (S (S m))) 1); [lia|].
    destruct (Z.eqb_spec (Z.of_nat (S (S m)) - 1) 0); [lia|]. simpl. do 2 f_equal. lia. }
  destruct n as [|n]; unfold k1.
  - split; [lia|]. simpl. destruct k; simpl in *. by subst.
  - rewrite Hpush. split; [done|]. rewrite decide_False by done. apply Hpop.
Qed.

(** CPU 0 takes lock 5 and CPU 1 spins on it. *)
Definition ex_init : state :=
  mkSt (λ _, initlock) (λ _, mkCpu 0 false true) (λ _, Run) (λ _, []).

Lemma ex_init_reachable : reachable ex_init.
Proof. by apply reach_init. Qed.

Lemma ex_contention : ∃ s, reachable s ∧ 5%nat ∈ held s 0 ∧ at_ s 1 = Spin 5.
Proof.
  eexists. split_and!.
  - eapply (reach_step _ 1); [|apply (step_acquire 1 _ 5)].
    + eapply (reach_step _ 0); [|apply (step_own 0 _ 5)].
      * eapply (reach_step _ 0); [|apply (step_swap 0 _ 5)].
        -- eapply (reach_step _ 0); [apply ex_init_reachable|by apply (step_acquire 0 _ 5)].
        -- done.
        -- done.
      * done.
    + done.
    + done.
  - simpl. apply elem_of_cons. by left.
  - done.
Qed.

Lemma mutual_exclusion_witness : ∃ s, reachable s ∧ at_ s 1 = Spin 5 ∧
  lk_cpu (locks s 5) = Some 0%nat.
Proof.
  destruct ex_contention as (s & Hr & Hin & Hat). exists s. split_and!; [done|done|].
  by destruct (mutual_exclusion s 5 0 1 Hr Hin) as (_ & ? & _).
Defined.

Lemma lock_checks_witness : ∃ s, reachable s ∧ holding (locks s 5) 0 = true.
Proof.
  destruct ex_contention as (s & Hr & Hin & Hat). exists s. split; [done|].
  by apply (lock_checks s 0 5 Hr).
Defined.

Lemma push_pop_nested_witness :
  Nat.iter 2 (λ o, match o with inl k => pop_off k | inr m => inr m end)
    (inl (Nat.iter 2 push_off (mkCpu 0 false true))) = inl (mkCpu 0 true true).
Proof. apply (push_pop_nested 2 (mkCpu 0 false true) eq_refl). Defined.
End Spinlock.
