(* ===== verification/Str.v ===== *)
(** Byte-addressed memory and the string routines of src/kernel/string.c.

    Memory is a finite map from addresses to bytes, zero where it was never
    written.  [memset], [memmove], [memcmp] and the [str*] functions are the
    loops of string.c, one byte per iteration, the overlap test of [memmove]
    included; the specifications say what each of them leaves in every byte
    of memory. *)

From S2P Require Import Prelude Machine.

Abbreviation memory := (gmap Z Z).

(** ** Loads and stores *)

Definition ld8 (m : memory) (a : Z) : Z := u8 (default 0 (m !! a)).
Definition st8 (m : memory) (a v : Z) : memory := <[a := u8 v]> m.

Fixpoint ld_bytes (m : memory) (a : Z) (n : nat) : list Z :=
  match n with
  | O => []
  | S n' => ld8 m a :: ld_bytes m (a + 1) n'
  end.

Fixpoint st_bytes (m : memory) (a : Z) (bs : list Z) : memory :=
  match bs with
  | [] => m
  | b :: bs' => st_bytes (st8 m a b) (a + 1) bs'
  end.

(** Little-endian composition of bytes, as a RISC-V load or store does. *)
Fixpoint le_combine (bs : list Z) : Z :=
  match bs with
  | [] => 0
  | b :: bs' => b + 256 * le_combine bs'
  end.

Fixpoint le_split (n : nat) (v : Z) : list Z :=
  match n with
  | O => []
  | S n' => v mod 256 :: le_split n' (v / 256)
  end.

Definition ld64 (m : memory) (a : Z) : Z := le_combine (ld_bytes m a 8).
Definition st64 (m : memory) (a v : Z) : memory := st_bytes m a (le_split 8 v).
Definition ld32 (m : memory) (a : Z) : Z := le_combine (ld_bytes m a 4).
Definition st32 (m : memory) (a v : Z) : memory := st_bytes m a (le_split 4 v).

(** ** string.c *)

Fixpoint memset_loop (k : nat) (m : memory) (cdst i c : Z) : memory :=
  match k with
  | O => m
  | S k' => memset_loop k' (st8 m (cdst + i) c) cdst (i + 1) c
  end.
Definition memset (m : memory) (dst c n : Z) : memory :=
  memset_loop (Z.to_nat n) m dst 0 c.

(** The result of [memcmp] is the difference of the first two bytes that
    differ, 0 when there is none. *)
Fixpoint memcmp_loop (n : nat) (m : memory) (s1 s2 : Z) : Z :=
  match n with
  | O => 0
  | S n' =>
      if negb (ld8 m s1 =? ld8 m s2) then ld8 m s1 - ld8 m s2
      else memcmp_loop n' m (s1 + 1) (s2 + 1)
  end.
Definition memcmp (m : memory) (v1 v2 n : Z) : Z := memcmp_loop (Z.to_nat n) m v1 v2.

Fixpoint copy_down (n : nat) (m : memory) (d s : Z) : memory :=
  match n with
  | O => m
  | S n' => copy_down n' (st8 m (d - 1) (ld8 m (s - 1))) (d - 1) (s - 1)
  end.
Fixpoint copy_up (n : nat) (m : memory) (d s : Z) : memory :=
  match n with
  | O => m
  | S n' => copy_up n' (st8 m d (ld8 m s)) (d + 1) (s + 1)
  end.
Definition memmove (m : memory) (dst src n : Z) : memory :=
  if n =? 0 then m
  else if (src <? dst) && (src + n >? dst) then copy_down (Z.to_nat n) m (dst + n) (src + n)
  else copy_up (Z.to_nat n) m dst src.
Definition memcpy (m : memory) (dst src n : Z) : memory := memmove m dst src n.

Fixpoint strncmp_loop (n : nat) (m : memory) (p q : Z) : Z :=
  match n with
  | O => 0
  | S n' =>
      if negb (ld8 m p =? 0) && (ld8 m p =? ld8 m q) then strncmp_loop n' m (p + 1) (q + 1)
      else ld8 m p - ld8 m q
  end.
Definition strncmp (m : memory) (p q n : Z) : Z := strncmp_loop (Z.to_nat n) m p q.

(** The second loop of [strncpy]: NUL padding up to [n] bytes. *)
Fixpoint strncpy_pad (n : nat) (m : memory) (s : Z) : memory :=
  match n with
  | O => m
  | S n' => strncpy_pad n' (st8 m s 0) (s + 1)
  end.
(** The first loop of [strncpy] copies up to and including the NUL, then
    the padding loop runs. *)
Fixpoint strncpy_loop (n : nat) (m : memory) (s t : Z) : memory :=
  match n with
  | O => m
  | S n' =>
      let c := ld8 m t in
      let m' := st8 m s c in
      if c =? 0 then strncpy_pad n' m' (s + 1) else strncpy_loop n' m' (s + 1) (t + 1)
  end.
Definition strncpy (m : memory) (s t n : Z) : memory := strncpy_loop (Z.to_nat n) m s t.

(** The loop test of [safestrcpy] decrements [n] before it compares it;
    here [n] is the value before that decrement.  When the NUL is copied, [s]
    has moved past it and the final store writes a second NUL. *)
Fixpoint safestrcpy_loop (n : nat) (m : memory) (s t : Z) : memory :=
  match n with
  | O | S O => st8 m s 0
  | S n' =>
      let c := ld8 m t in
      let m' := st8 m s c in
      if c =? 0 then st8 m' (s + 1) 0 else safestrcpy_loop n' m' (s + 1) (t + 1)
  end.
Definition safestrcpy (m : memory) (s t n : Z) : memory :=
  if n <=? 0 then m else safestrcpy_loop (Z.to_nat n) m s t.

(** The string in an array of characters: its bytes up to the NUL. *)
Fixpoint cstr_of (a : list Z) : list Z :=
  match a with
  | c :: a' => if c =? 0 then [] else c :: cstr_of a'
  | [] => []
  end.

(** [strlen] with fuel: [None] when no NUL occurs within the fuel. *)
Fixpoint strlen_loop (fuel : nat) (m : memory) (s n : Z) : option Z :=
  match fuel with
  | O => None
  | S fuel' => if ld8 m (s + n) =? 0 then Some n else strlen_loop fuel' m s (n + 1)
  end.
Definition strlen (fuel : nat) (m : memory) (s : Z) : option Z := strlen_loop fuel m s 0.

(** ** Loads after stores *)

Lemma ld8_range m a : 0 ≤ ld8 m a < 256.
Proof. apply u8_range. Qed.

Lemma ld8_st8 m a b v : ld8 (st8 m a v) b = if decide (b = a) then u8 v else ld8 m b.
Proof.
  unfold ld8, st8. rewrite lookup_insert. do 2 case_decide; subst; try done.
  simpl. apply u8_small, u8_range.
Qed.

Lemma ld8_st_bytes m a bs b :
  ld8 (st_bytes m a bs) b =
  match bs !! Z.to_nat (b - a) with
  | Some v => if decide (a ≤ b) then u8 v else ld8 m b
  | None => ld8 m b
  end.
Proof.
  revert m a. induction bs as [|v bs IH]; intros m a; [done|].
  cbn [st_bytes]. rewrite IH, ld8_st8.
  destruct (decide (b = a)) as [->|].
  { rewrite Z.sub_diag. simpl. rewrite (decide_True (P := a ≤ a)) by lia.
    destruct (_ !! _); [rewrite decide_False by lia|]; done. }
  destruct (decide (a < b)).
  - replace (Z.to_nat (b - a)) with (S (Z.to_nat (b - (a + 1)))) by lia. simpl.
    destruct (bs !! _); [|done]. do 2 (rewrite decide_True by lia). done.
  - replace (Z.to_nat (b - a)) with O by lia. simpl.
    rewrite (decide_False (P := a ≤ b)) by lia.
    destruct (bs !! _); [rewrite decide_False by lia|]; done.
Qed.

Lemma ld8_st_bytes_out m a bs b :
  b < a ∨ a + length bs ≤ b → ld8 (st_bytes m a bs) b = ld8 m b.
Proof.
  intros H. rewrite ld8_st_bytes. destruct (bs !! _) eqn:E; [|done].
  apply lookup_lt_Some in E. case_decide; [lia|done].
Qed.

Lemma length_ld_bytes m a n : length (ld_bytes m a n) = n.
Proof. revert a. induction n as [|n IH]; intros a; [done|]. simpl. by rewrite IH. Qed.

Lemma lookup_ld_bytes m a n i :
  (i < n)%nat → ld_bytes m a n !! i = Some (ld8 m (a + i)).
Proof.
  revert a i. induction n as [|n IH]; intros a i H; [lia|].
  destruct i as [|i]; simpl; [by rewrite Z.add_0_r|].
  rewrite IH by lia. do 2 f_equal. lia.
Qed.

Lemma ld_bytes_ext m m' a (n : nat) :
  (∀ b, a ≤ b < a + n → ld8 m' b = ld8 m b) → ld_bytes m' a n = ld_bytes m a n.
Proof.
  revert a. induction n as [|n IH]; intros a H; [done|].
  simpl. f_equal; [apply H; lia|]. apply IH. intros. apply H. lia.
Qed.

Lemma length_le_split n v : length (le_split n v) = n.
Proof. revert v. induction n; intros; simpl; [done|]. by f_equal. Qed.

Lemma le_combine_split (n : nat) v : 0 ≤ v < 256 ^ n → le_combine (le_split n v) = v.
Proof.
  revert v. induction n as [|n IH]; intros v H.
  { simpl in *. change (256 ^ 0%nat) with 1 in H. lia. }
  cbn [le_split le_combine]. rewrite IH; [pose proof (Z.div_mod v 256); lia|].
  rewrite Nat2Z.inj_succ, Z.pow_succ_r in H by lia.
  split; [apply Z.div_pos; lia|]. apply Z.div_lt_upper_bound; lia.
Qed.

Lemma le_combine_range bs :
  Forall (λ b, 0 ≤ b < 256) bs → 0 ≤ le_combine bs < 256 ^ length bs.
Proof.
  induction 1 as [|b bs Hb _ IH]; [simpl; lia|]. cbn [le_combine length].
  rewrite Nat2Z.inj_succ, Z.pow_succ_r by lia. lia.
Qed.

Lemma le_split_bytes n v i b : le_split n v !! i = Some b → 0 ≤ b < 256.
Proof.
  revert v i. induction n as [|n IH]; intros v i H; [done|].
  destruct i as [|i]; simpl in H; [|by eapply IH].
  simplify_eq. by apply Z.mod_pos_bound.
Qed.

Lemma ld_bytes_Forall m a n : Forall (λ b, 0 ≤ b < 256) (ld_bytes m a n).
Proof.
  revert a. induction n as [|n IH]; intros a; simpl; constructor;
    [apply ld8_range|apply IH].
Qed.

Lemma ld64_range m a : 0 ≤ ld64 m a < 2 ^ 64.
Proof.
  unfold ld64. pose proof (le_combine_range _ (ld_bytes_Forall m a 8)) as H.
  rewrite length_ld_bytes in H. done.
Qed.

Lemma ld_bytes_st_bytes_same m a bs :
  Forall (λ b, 0 ≤ b < 256) bs → ld_bytes (st_bytes m a bs) a (length bs) = bs.
Proof.
  intros Hbs. apply list_eq. intros i. destruct (decide (i < length bs)%nat) as [Hi|Hi].
  - rewrite lookup_ld_bytes by done. rewrite ld8_st_bytes.
    replace (Z.to_nat (a + i - a)) with i by lia.
    destruct (bs !! i) as [v|] eqn:E; [|apply lookup_ge_None in E; lia].
    rewrite decide_True by lia. f_equal. apply u8_small.
    by apply (Forall_lookup_1 _ _ _ _ Hbs E).
  - rewrite !lookup_ge_None_2; [done|lia|]. rewrite length_ld_bytes. lia.
Qed.

Lemma ld64_ext m m' a :
  (∀ b, a ≤ b < a + 8 → ld8 m' b = ld8 m b) → ld64 m' a = ld64 m a.
Proof. intros H. unfold ld64. f_equal. by apply ld_bytes_ext. Qed.

Lemma ld64_st64_eq m a v : 0 ≤ v < 2 ^ 64 → ld64 (st64 m a v) a = v.
Proof.
  intros Hv. unfold ld64, st64. replace 8%nat with (length (le_split 8 v)) at 2 by done.
  rewrite ld_bytes_st_bytes_same; [by apply le_combine_split|].
  apply Forall_lookup_2. intros. by eapply le_split_bytes.
Qed.

Lemma ld8_st64_out m a b v : b < a ∨ a + 8 ≤ b → ld8 (st64 m a v) b = ld8 m b.
Proof. intros. apply ld8_st_bytes_out. rewrite length_le_split. lia. Qed.

Lemma ld64_st64_ne m a b v : b + 8 ≤ a ∨ a + 8 ≤ b → ld64 (st64 m a v) b = ld64 m b.
Proof. intros. apply ld64_ext. intros. apply ld8_st64_out. lia. Qed.

(** ** What the routines leave in memory *)

Lemma ld8_memset_loop k m dst i c a :
  ld8 (memset_loop k m dst i c) a =
  if decide (dst + i ≤ a < dst + i + k) then u8 c else ld8 m a.
Proof.
  revert m i. induction k as [|k IH]; intros m i; cbn [memset_loop].
  - case_decide; [lia|done].
  - rewrite IH, ld8_st8. repeat case_decide; try done; lia.
Qed.

Lemma ld8_memset m dst c n a :
  ld8 (memset m dst c n) a = if decide (dst ≤ a < dst + n) then u8 c else ld8 m a.
Proof. unfold memset. rewrite ld8_memset_loop. repeat case_decide; try done; lia. Qed.

Lemma ld8_copy_up (n : nat) m d s a :
  d ≤ s ∨ s + n ≤ d →
  ld8 (copy_up n m d s) a = if decide (d ≤ a < d + n) then ld8 m (s + (a - d)) else ld8 m a.
Proof.
  revert m d s. induction n as [|n IH]; intros m d s H; cbn [copy_up].
  { case_decide; [lia|done]. }
  rewrite IH by lia. rewrite !ld8_st8, u8_small by apply ld8_range.
  destruct (decide (a = d)) as [->|].
  - rewrite decide_False, decide_True by lia. f_equal. lia.
  - repeat case_decide; try done; try lia; f_equal; lia.
Qed.

Lemma ld8_copy_down (n : nat) m d s a :
  s ≤ d →
  ld8 (copy_down n m d s) a = if decide (d - n ≤ a < d) then ld8 m (s + (a - d)) else ld8 m a.
Proof.
  revert m d s. induction n as [|n IH]; intros m d s H; cbn [copy_down].
  { case_decide; [lia|done]. }
  rewrite IH by lia. rewrite !ld8_st8, u8_small by apply ld8_range.
  destruct (decide (a = d - 1)) as [->|].
  - rewrite decide_False, decide_True by lia. f_equal. lia.
  - repeat case_decide; try done; try lia; f_equal; lia.
Qed.

Lemma ld8_memmove m dst src n a :
  0 ≤ n →
  ld8 (memmove m dst src n) a =
  if decide (dst ≤ a < dst + n) then ld8 m (src + (a - dst)) else ld8 m a.
Proof.
  intros Hn. unfold memmove. destruct (Z.eqb_spec n 0); [by case_decide; [lia|]|].
  destruct (Z.ltb_spec src dst), (Z.gtb_spec (src + n) dst); cbn [andb].
  2-4: rewrite ld8_copy_up by lia; repeat case_decide; try done; lia.
  rewrite ld8_copy_down by lia. repeat case_decide; try done; try lia. f_equal. lia.
Qed.

(** [memmove(dst, src, n)] leaves in [dst..dst+n) the bytes that were in
    [src..src+n) before the call and changes nothing else, also when the two
    ranges overlap in either direction. *)
Theorem memmove_correct m dst src n :
  0 ≤ n →
  ld_bytes (memmove m dst src n) dst (Z.to_nat n) = ld_bytes m src (Z.to_nat n) ∧
  ∀ a, a < dst ∨ dst + n ≤ a → ld8 (memmove m dst src n) a = ld8 m a.
Proof.
  intros Hn. split.
  - apply list_eq. intros i. destruct (decide (i < Z.to_nat n)%nat).
    + rewrite !lookup_ld_bytes, ld8_memmove, decide_True by lia. do 2 f_equal. lia.
    + rewrite !lookup_ge_None_2; rewrite ?length_ld_bytes; [done|lia..].
  - intros a Ha. rewrite ld8_memmove, decide_False by lia. done.
Qed.

Lemma memmove_correct_witness :
  0 ≤ 3 ∧ ld_bytes (memmove (st_bytes ∅ 10 [1; 2; 3; 4]) 11 10 3) 11 3 = [1; 2; 3].
Proof.
  split; [lia|].
  exact (proj1 (memmove_correct (st_bytes ∅ 10 [1; 2; 3; 4]) 11 10 3 ltac:(lia))).
Defined.

(** The C string at [a], at most [n] bytes of it: the bytes before the NUL. *)
Fixpoint cstr (n : nat) (m : memory) (a : Z) : list Z :=
  match n with
  | O => []
  | S n' => if ld8 m a =? 0 then [] else ld8 m a :: cstr n' m (a + 1)
  end.

Lemma cstr_ext n m m' a :
  (∀ b, a ≤ b < a + Z.of_nat n → ld8 m' b = ld8 m b) → cstr n m' a = cstr n m a.
Proof.
  revert a. induction n as [|n IH]; intros a H; [done|]. simpl.
  rewrite (H a) by lia. case_match; [done|]. f_equal. apply IH. intros. apply H. lia.
Qed.

Lemma strncmp_loop_zero n m p q : strncmp_loop n m p q = 0 ↔ cstr n m p = cstr n m q.
Proof.
  revert p q. induction n as [|n IH]; intros p q; [done|]. cbn [strncmp_loop cstr].
  destruct (Z.eqb_spec (ld8 m p) 0) as [E|E]; cbn [negb andb].
  - rewrite E. destruct (Z.eqb_spec (ld8 m q) 0); split; intros; try done; lia.
  - destruct (Z.eqb_spec (ld8 m p) (ld8 m q)) as [E2|E2].
    + rewrite <- E2. destruct (Z.eqb_spec (ld8 m p) 0); [done|]. rewrite IH.
      split; [by intros ->|by intros [=]].
    + destruct (Z.eqb_spec (ld8 m q) 0); split; intros; simplify_eq; lia.
Qed.

(** [strncmp(p, q, n)] is zero exactly when the two C strings agree on
    their first [n] bytes (or up to their common end). *)
Theorem strncmp_zero_iff m p q n :
  strncmp m p q n = 0 ↔ cstr (Z.to_nat n) m p = cstr (Z.to_nat n) m q.
Proof. apply strncmp_loop_zero. Qed.

(** [memcmp(v1, v2, n)] is zero exactly when the two ranges hold the
    same bytes. *)
Theorem memcmp_zero_iff m v1 v2 n :
  memcmp m v1 v2 n = 0 ↔ ld_bytes m v1 (Z.to_nat n) = ld_bytes m v2 (Z.to_nat n).
Proof.
  unfold memcmp. generalize (Z.to_nat n) as k. clear n. intros k. revert v1 v2.
  induction k as [|k IH]; intros v1 v2; [done|]. cbn [memcmp_loop ld_bytes].
  destruct (Z.eqb_spec (ld8 m v1) (ld8 m v2)) as [E|E]; cbn [negb].
  - rewrite IH, E. split; [by intros ->|by intros [=]].
  - split; [lia|]. by intros [=].
Qed.

Lemma ld8_strncpy_pad (n : nat) m s a :
  ld8 (strncpy_pad n m s) a = if decide (s ≤ a < s + n) then 0 else ld8 m a.
Proof.
  revert m s. induction n as [|n IH]; intros m s; cbn [strncpy_pad].
  { case_decide; [lia|done]. }
  rewrite IH, ld8_st8. repeat case_decide; try done; lia.
Qed.

Lemma ld_bytes_zero m a (n : nat) :
  (∀ b, a ≤ b < a + n → ld8 m b = 0) → ld_bytes m a n = replicate n 0.
Proof.
  revert a. induction n as [|n IH]; intros a H; [done|]. simpl.
  f_equal; [apply H; lia|]. apply IH. intros. apply H. lia.
Qed.

Lemma ld8_strncpy_out (n : nat) m s t a :
  a < s ∨ s + n ≤ a → ld8 (strncpy_loop n m s t) a = ld8 m a.
Proof.
  revert m s t. induction n as [|n IH]; intros m s t H; [done|]. cbn [strncpy_loop].
  case_match.
  - rewrite ld8_strncpy_pad, ld8_st8. repeat case_decide; try done; lia.
  - rewrite IH, ld8_st8 by lia. case_decide; [lia|done].
Qed.

Lemma length_cstr n m a : (length (cstr n m a) ≤ n)%nat.
Proof.
  revert a. induction n as [|n IH]; intros a; simpl; [lia|].
  case_match; simpl; [lia|]. specialize (IH (a + 1)). lia.
Qed.

Lemma strncpy_loop_bytes n m s t :
  t + Z.of_nat n ≤ s ∨ s + Z.of_nat n ≤ t →
  ld_bytes (strncpy_loop n m s t) s n =
  cstr n m t ++ replicate (n - length (cstr n m t)) 0.
Proof.
  revert m s t. induction n as [|n IH]; intros m s t H; [done|].
  cbn [strncpy_loop cstr]. destruct (Z.eqb_spec (ld8 m t) 0) as [E|E].
  - cbn [length app]. rewrite Nat.sub_0_r. apply ld_bytes_zero. intros b Hb.
    rewrite ld8_strncpy_pad, ld8_st8, E. repeat case_decide; try done; lia.
  - cbn [ld_bytes length app Nat.sub]. f_equal.
    + rewrite ld8_strncpy_out by lia. rewrite ld8_st8, decide_True by done.
      apply u8_small, ld8_range.
    + rewrite IH by lia. rewrite (cstr_ext n m) by
        (intros; rewrite ld8_st8, decide_False by lia; done). done.
Qed.

Lemma cstr_nonzero n m a : Forall (λ c, c ≠ 0) (cstr n m a).
Proof.
  revert a. induction n as [|n IH]; intros a; simpl; [done|].
  destruct (Z.eqb_spec (ld8 m a) 0); by constructor.
Qed.

Lemma cstr_of_bytes n m s l :
  Forall (λ c, c ≠ 0) l → (length l ≤ n)%nat →
  ld_bytes m s n = l ++ replicate (n - length l) 0 → cstr n m s = l.
Proof.
  revert s l. induction n as [|n IH]; intros s l Hl Hlen Hb.
  { destruct l; simpl in *; [done|lia]. }
  cbn [ld_bytes cstr] in *. destruct Hl as [|c l Hc Hl]; simpl in Hb.
  - injection Hb as Hb0 _. by rewrite Hb0.
  - injection Hb as Hb0 Hb. rewrite Hb0.
    destruct (Z.eqb_spec c 0); [done|]. f_equal. apply IH; [done|simpl in *; lia|done].
Qed.

Lemma ld64_zero m a : (∀ b, a ≤ b < a + 8 → ld8 m b = 0) → ld64 m a = 0.
Proof. intros H. unfold ld64. by rewrite (ld_bytes_zero _ _ 8). Qed.

(** [strncpy(s, t, n)] fills the [n] bytes at [s] with the string at [t]
    cut to [n] bytes and padded with NULs, and touches nothing else; the
    name then compares equal under [strncmp] with the same bound. *)
Theorem strncpy_correct m s t n :
  0 ≤ n → t + n ≤ s ∨ s + n ≤ t →
  let m' := strncpy m s t n in
  let str := cstr (Z.to_nat n) m t in
  ld_bytes m' s (Z.to_nat n) = str ++ replicate (Z.to_nat n - length str) 0 ∧
  (∀ a, a < s ∨ s + n ≤ a → ld8 m' a = ld8 m a) ∧
  strncmp m' t s n = 0.
Proof.
  intros Hn Hd m' str.
  assert (ld_bytes m' s (Z.to_nat n) = str ++ replicate (Z.to_nat n - length str) 0) as Hb.
  { apply strncpy_loop_bytes. lia. }
  assert (∀ a, a < s ∨ s + n ≤ a → ld8 m' a = ld8 m a) as Ho.
  { intros a Ha. apply ld8_strncpy_out. lia. }
  split_and!; [done..|]. apply strncmp_loop_zero.
  rewrite (cstr_ext _ m m' t) by (intros; apply Ho; lia). fold str.
  symmetry. apply cstr_of_bytes; [apply cstr_nonzero|apply length_cstr|done].
Qed.

Lemma strncpy_correct_witness :
  0 ≤ 4 ∧ (20 + 4 ≤ 10 ∨ 10 + 4 ≤ 20) ∧
  strncmp (strncpy (st_bytes ∅ 20 [97; 98]) 10 20 4) 20 10 4 = 0.
Proof.
  split_and!; [lia..|].
  exact (proj2 (proj2 (strncpy_correct (st_bytes ∅ 20 [97; 98]) 10 20 4
    ltac:(lia) ltac:(lia)))).
Defined.

Lemma safestrcpy_loop_SS n m s t :
  safestrcpy_loop (S (S n)) m s t =
  if ld8 m t =? 0 then st8 (st8 m s (ld8 m t)) (s + 1) 0
  else safestrcpy_loop (S n) (st8 m s (ld8 m t)) (s + 1) (t + 1).
Proof. done. Qed.

Lemma ld8_safestrcpy_out (n : nat) m s t a :
  (1 ≤ n)%nat → a < s ∨ s + n ≤ a → ld8 (safestrcpy_loop n m s t) a = ld8 m a.
Proof.
  revert m s t. induction n as [|[|n] IH]; intros m s t Hn H; [lia|..].
  { cbn [safestrcpy_loop]. rewrite ld8_st8. case_decide; [lia|done]. }
  rewrite safestrcpy_loop_SS. case_match.
  - rewrite !ld8_st8. repeat case_decide; try done; lia.
  - rewrite IH, ld8_st8 by lia. case_decide; [lia|done].
Qed.

Lemma safestrcpy_loop_cstr (n : nat) m s t :
  t + S n ≤ s ∨ s + S n ≤ t →
  cstr (S n) (safestrcpy_loop (S n) m s t) s = cstr n m t.
Proof.
  revert m s t. induction n as [|n IH]; intros m s t H.
  { cbn [safestrcpy_loop cstr]. by rewrite ld8_st8, decide_True. }
  rewrite safestrcpy_loop_SS. remember (S n) as k. cbn [cstr].
  destruct (Z.eqb_spec (ld8 m t) 0) as [E|E]; subst k.
  - rewrite !ld8_st8. rewrite decide_False, decide_True, E by lia. cbn [cstr]. by rewrite E.
  - rewrite ld8_safestrcpy_out, ld8_st8, decide_True, u8_small by (lia || apply ld8_range).
    destruct (Z.eqb_spec (ld8 m t) 0); [done|].
    rewrite IH by lia. cbn [cstr]. destruct (Z.eqb_spec (ld8 m t) 0); [done|].
    f_equal. apply cstr_ext. intros. rewrite ld8_st8, decide_False by lia. done.
Qed.

(** [safestrcpy(s, t, n)] with [n > 0] always leaves a NUL-terminated
    string within the [n] bytes at [s]: the string at [t] cut to [n-1]
    bytes; no byte outside is written. *)
Theorem safestrcpy_correct m s t n :
  0 < n → t + n ≤ s ∨ s + n ≤ t →
  let m' := safestrcpy m s t n in
  cstr (Z.to_nat n) m' s = cstr (Z.to_nat (n - 1)) m t ∧
  (length (cstr (Z.to_nat n) m' s) < Z.to_nat n)%nat ∧
  ∀ a, a < s ∨ s + n ≤ a → ld8 m' a = ld8 m a.
Proof.
  intros Hn Hd m'. unfold m', safestrcpy. destruct (Z.leb_spec n 0); [lia|].
  replace (Z.to_nat n) with (S (Z.to_nat (n - 1))) by lia.
  rewrite safestrcpy_loop_cstr by lia. split_and!; [done|..].
  - pose proof (length_cstr (Z.to_nat (n - 1)) m t). lia.
  - intros a Ha. apply ld8_safestrcpy_out; lia.
Qed.

Lemma safestrcpy_correct_witness :
  0 < 3 ∧ (20 + 3 ≤ 10 ∨ 10 + 3 ≤ 20) ∧
  cstr 3 (safestrcpy (st_bytes ∅ 20 [97; 98; 99; 100]) 10 20 3) 10 = [97; 98].
Proof.
  split_and!; [lia..|].
  exact (proj1 (safestrcpy_correct (st_bytes ∅ 20 [97; 98; 99; 100]) 10 20 3
    ltac:(lia) ltac:(lia))).
Defined.

(** From here on the routines are known through their specifications. *)
#[global] Opaque memset memmove memcpy memcmp strncmp strncpy safestrcpy.
#[global] Opaque ld64 st64 ld32 st32.
