(* ===== verification/Types.v ===== *)
(** The kernel's data: the structs of src/kernel/proc.h, src/kernel/buf.h,
    src/kernel/sleeplock.h, src/kernel/file.h, src/kernel/fs.h and of the .c
    files that own them, and the global state [kstate] the kernel monad threads.

    Pointers into a static table ([struct proc *], [struct buf *], ...) are
    [option nat], the index of the slot, [None] for the null pointer.  Pointers
    to pages are physical addresses ([Z], 0 for null).  Spin locks are not part
    of these records: the operations on them are the bodies of the critical
    sections, and the locks themselves are modelled in [Spinlock]. *)

From S2P Require Import Prelude Machine Str.

(** ** kalloc.c *)

Record run : Type := mkRun {
  run_next : option Z;
  run_ref : Z }.

(** [kmem.runs] has one element per physical page; it lives in the BSS, so an
    element that was never written is all zeroes. *)
Record kmem_t : Type := mkKmem {
  freelist : option Z;
  runs : gmap Z run }.

Definition run_at (k : kmem_t) (i : Z) : run := default (mkRun None 0) (runs k !! i).

(** ** Wait channels: the addresses passed to [sleep] and [wakeup] *)

Inductive chan : Type :=
  | ChTicks
  | ChProc (p : nat)
  | ChLog
  | ChBufLock (b : nat)
  | ChInodeLock (i : nat)
  | ChPipeRead (pi : Z)
  | ChPipeWrite (pi : Z)
  | ChCons
  | ChUart
  | ChDiskFree
  | ChDiskBuf (b : nat).

#[global] Instance chan_eq_dec : EqDecision chan.
Proof. solve_decision. Defined.

(** ** proc.h *)

Inductive procstate : Type := UNUSED | USED | SLEEPING | RUNNABLE | RUNNING | ZOMBIE.

#[global] Instance procstate_eq_dec : EqDecision procstate.
Proof. solve_decision. Defined.

(** [mfile] is an index into [ftable.file], [ip] one into [itable.inode]. *)
Record vma : Type := mkVma {
  v_used : bool;
  v_mfile : option nat;
  v_fd : Z;
  v_ip : option nat;
  v_addr : Z;
  v_prot : Z;
  v_flags : Z;
  v_size : Z;
  v_filesize : Z;
  v_offset : Z }.
Definition set_v_used (v : bool) (x : vma) : vma :=
  mkVma v (v_mfile x) (v_fd x) (v_ip x) (v_addr x) (v_prot x) (v_flags x) (v_size x)
    (v_filesize x) (v_offset x).
Definition set_v_mfile (v : option nat) (x : vma) : vma :=
  mkVma (v_used x) v (v_fd x) (v_ip x) (v_addr x) (v_prot x) (v_flags x) (v_size x)
    (v_filesize x) (v_offset x).
Definition set_v_fd (v : Z) (x : vma) : vma :=
  mkVma (v_used x) (v_mfile x) v (v_ip x) (v_addr x) (v_prot x) (v_flags x) (v_size x)
    (v_filesize x) (v_offset x).
Definition set_v_ip (v : option nat) (x : vma) : vma :=
  mkVma (v_used x) (v_mfile x) (v_fd x) v (v_addr x) (v_prot x) (v_flags x) (v_size x)
    (v_filesize x) (v_offset x).
Definition set_v_addr (v : Z) (x : vma) : vma :=
  mkVma (v_used x) (v_mfile x) (v_fd x) (v_ip x) v (v_prot x) (v_flags x) (v_size x)
    (v_filesize x) (v_offset x).
Definition set_v_prot (v : Z) (x : vma) : vma :=
  mkVma (v_used x) (v_mfile x) (v_fd x) (v_ip x) (v_addr x) v (v_flags x) (v_size x)
    (v_filesize x) (v_offset x).
Definition set_v_flags (v : Z) (x : vma) : vma :=
  mkVma (v_used x) (v_mfile x) (v_fd x) (v_ip x) (v_addr x) (v_prot x) v (v_size x)
    (v_filesize x) (v_offset x).
Definition set_v_size (v : Z) (x : vma) : vma :=
  mkVma (v_used x) (v_mfile x) (v_fd x) (v_ip x) (v_addr x) (v_prot x) (v_flags x) v
    (v_filesize x) (v_offset x).
Definition set_v_filesize (v : Z) (x : vma) : vma :=
  mkVma (v_used x) (v_mfile x) (v_fd x) (v_ip x) (v_addr x) (v_prot x) (v_flags x) (v_size x) v
    (v_offset x).
Definition set_v_offset (v : Z) (x : vma) : vma :=
  mkVma (v_used x) (v_mfile x) (v_fd x) (v_ip x) (v_addr x) (v_prot x) (v_flags x) (v_size x)
    (v_filesize x) v.

Definition vma0 : vma := mkVma false None 0 None 0 0 0 0 0 0.

(** The saved kernel context is not a field: a thread that gave the CPU away is
    the continuation of its [Switch] outcome. *)
Record proc : Type := mkProc {
  p_state : procstate;
  p_chan : option chan;
  p_killed : Z;
  p_xstate : Z;
  p_pid : Z;
  p_nmp : Z;
  p_vmas : list (option nat);
  p_text : vma;
  p_data : vma;
  p_page_faults : Z;
  p_parent : option nat;
  p_tickets : Z;
  p_ticks : Z;
  p_kstack : Z;
  p_sz : Z;
  p_pagetable : Z;
  p_trapframe : Z;
  p_ofile : list (option nat);
  p_cwd : option nat;
  p_name : list Z }.
Definition set_state (v : procstate) (x : proc) : proc :=
  mkProc v (p_chan x) (p_killed x) (p_xstate x) (p_pid x) (p_nmp x) (p_vmas x) (p_text x)
    (p_data x) (p_page_faults x) (p_parent x) (p_tickets x) (p_ticks x) (p_kstack x) (p_sz x)
    (p_pagetable x) (p_trapframe x) (p_ofile x) (p_cwd x) (p_name x).
Definition set_chan (v : option chan) (x : proc) : proc :=
  mkProc (p_state x) v (p_killed x) (p_xstate x) (p_pid x) (p_nmp x) (p_vmas x) (p_text x)
    (p_data x) (p_page_faults x) (p_parent x) (p_tickets x) (p_ticks x) (p_kstack x) (p_sz x)
    (p_pagetable x) (p_trapframe x) (p_ofile x) (p_cwd x) (p_name x).
Definition set_killed (v : Z) (x : proc) : proc :=
  mkProc (p_state x) (p_chan x) v (p_xstate x) (p_pid x) (p_nmp x) (p_vmas x) (p_text x)
    (p_data x) (p_page_faults x) (p_parent x) (p_tickets x) (p_ticks x) (p_kstack x) (p_sz x)
    (p_pagetable x) (p_trapframe x) (p_ofile x) (p_cwd x) (p_name x).
Definition set_xstate (v : Z) (x : proc) : proc :=
  mkProc (p_state x) (p_chan x) (p_killed x) v (p_pid x) (p_nmp x) (p_vmas x) (p_text x)
    (p_data x) (p_page_faults x) (p_parent x) (p_tickets x) (p_ticks x) (p_kstack x) (p_sz x)
    (p_pagetable x) (p_trapframe x) (p_ofile x) (p_cwd x) (p_name x).
Definition set_pid (v : Z) (x : proc) : proc :=
  mkProc (p_state x) (p_chan x) (p_killed x) (p_xstate x) v (p_nmp x) (p_vmas x) (p_text x)
    (p_data x) (p_page_faults x) (p_parent x) (p_tickets x) (p_ticks x) (p_kstack x) (p_sz x)
    (p_pagetable x) (p_trapframe x) (p_ofile x) (p_cwd x) (p_name x).
Definition set_nmp (v : Z) (x : proc) : proc :=
  mkProc (p_state x) (p_chan x) (p_killed x) (p_xstate x) (p_pid x) v (p_vmas x) (p_text x)
    (p_data x) (p_page_faults x) (p_parent x) (p_tickets x) (p_ticks x) (p_kstack x) (p_sz x)
    (p_pagetable x) (p_trapframe x) (p_ofile x) (p_cwd x) (p_name x).
Definition set_pvmas (v : list (option nat)) (x : proc) : proc :=
  mkProc (p_state x) (p_chan x) (p_killed x) (p_xstate x) (p_pid x) (p_nmp x) v (p_text x)
    (p_data x) (p_page_faults x) (p_parent x) (p_tickets x) (p_ticks x) (p_kstack x) (p_sz x)
    (p_pagetable x) (p_trapframe x) (p_ofile x) (p_cwd x) (p_name x).
Definition set_ptext (v : vma) (x : proc) : proc :=
  mkProc (p_state x) (p_chan x) (p_killed x) (p_xstate x) (p_pid x) (p_nmp x) (p_vmas x) v
    (p_data x) (p_page_faults x) (p_parent x) (p_tickets x) (p_ticks x) (p_kstack x) (p_sz x)
    (p_pagetable x) (p_trapframe x) (p_ofile x) (p_cwd x) (p_name x).
Definition set_pdata (v : vma) (x : proc) : proc :=
  mkProc (p_state x) (p_chan x) (p_killed x) (p_xstate x) (p_pid x) (p_nmp x) (p_vmas x)
    (p_text x) v (p_page_faults x) (p_parent x) (p_tickets x) (p_ticks x) (p_kstack x) (p_sz x)
    (p_pagetable x) (p_trapframe x) (p_ofile x) (p_cwd x) (p_name x).
Definition set_page_faults (v : Z) (x : proc) : proc :=
  mkProc (p_state x) (p_chan x) (p_killed x) (p_xstate x) (p_pid x) (p_nmp x) (p_vmas x)
    (p_text x) (p_data x) v (p_parent x) (p_tickets x) (p_ticks x) (p_kstack x) (p_sz x)
    (p_pagetable x) (p_trapframe x) (p_ofile x) (p_cwd x) (p_name x).
Definition set_parent (v : option nat) (x : proc) : proc :=
  mkProc (p_state x) (p_chan x) (p_killed x) (p_xstate x) (p_pid x) (p_nmp x) (p_vmas x)
    (p_text x) (p_data x) (p_page_faults x) v (p_tickets x) (p_ticks x) (p_kstack x) (p_sz x)
    (p_pagetable x) (p_trapframe x) (p_ofile x) (p_cwd x) (p_name x).
Definition set_tickets (v : Z) (x : proc) : proc :=
  mkProc (p_state x) (p_chan x) (p_killed x) (p_xstate x) (p_pid x) (p_nmp x) (p_vmas x)
    (p_text x) (p_data x) (p_page_faults x) (p_parent x) v (p_ticks x) (p_kstack x) (p_sz x)
    (p_pagetable x) (p_trapframe x) (p_ofile x) (p_cwd x) (p_name x).
Definition set_pticks (v : Z) (x : proc) : proc :=
  mkProc (p_state x) (p_chan x) (p_killed x) (p_xstate x) (p_pid x) (p_nmp x) (p_vmas x)
    (p_text x) (p_data x) (p_page_faults x) (p_parent x) (p_tickets x) v (p_kstack x) (p_sz x)
    (p_pagetable x) (p_trapframe x) (p_ofile x) (p_cwd x) (p_name x).
Definition set_kstack (v : Z) (x : proc) : proc :=
  mkProc (p_state x) (p_chan x) (p_killed x) (p_xstate x) (p_pid x) (p_nmp x) (p_vmas x)
    (p_text x) (p_data x) (p_page_faults x) (p_parent x) (p_tickets x) (p_ticks x) v (p_sz x)
    (p_pagetable x) (p_trapframe x) (p_ofile x) (p_cwd x) (p_name x).
Definition set_sz (v : Z) (x : proc) : proc :=
  mkProc (p_state x) (p_chan x) (p_killed x) (p_xstate x) (p_pid x) (p_nmp x) (p_vmas x)
    (p_text x) (p_data x) (p_page_faults x) (p_parent x) (p_tickets x) (p_ticks x) (p_kstack x)
    v (p_pagetable x) (p_trapframe x) (p_ofile x) (p_cwd x) (p_name x).
Definition set_pagetable (v : Z) (x : proc) : proc :=
  mkProc (p_state x) (p_chan x) (p_killed x) (p_xstate x) (p_pid x) (p_nmp x) (p_vmas x)
    (p_text x) (p_data x) (p_page_faults x) (p_parent x) (p_tickets x) (p_ticks x) (p_kstack x)
    (p_sz x) v (p_trapframe x) (p_ofile x) (p_cwd x) (p_name x).
Definition set_trapframe (v : Z) (x : proc) : proc :=
  mkProc (p_state x) (p_chan x) (p_killed x) (p_xstate x) (p_pid x) (p_nmp x) (p_vmas x)
    (p_text x) (p_data x) (p_page_faults x) (p_parent x) (p_tickets x) (p_ticks x) (p_kstack x)
    (p_sz x) (p_pagetable x) v (p_ofile x) (p_cwd x) (p_name x).
Definition set_ofile (v : list (option nat)) (x : proc) : proc :=
  mkProc (p_state x) (p_chan x) (p_killed x) (p_xstate x) (p_pid x) (p_nmp x) (p_vmas x)
    (p_text x) (p_data x) (p_page_faults x) (p_parent x) (p_tickets x) (p_ticks x) (p_kstack x)
    (p_sz x) (p_pagetable x) (p_trapframe x) v (p_cwd x) (p_name x).
Definition set_cwd (v : option nat) (x : proc) : proc :=
  mkProc (p_state x) (p_chan x) (p_killed x) (p_xstate x) (p_pid x) (p_nmp x) (p_vmas x)
    (p_text x) (p_data x) (p_page_faults x) (p_parent x) (p_tickets x) (p_ticks x) (p_kstack x)
    (p_sz x) (p_pagetable x) (p_trapframe x) (p_ofile x) v (p_name x).
Definition set_name (v : list Z) (x : proc) : proc :=
  mkProc (p_state x) (p_chan x) (p_killed x) (p_xstate x) (p_pid x) (p_nmp x) (p_vmas x)
    (p_text x) (p_data x) (p_page_faults x) (p_parent x) (p_tickets x) (p_ticks x) (p_kstack x)
    (p_sz x) (p_pagetable x) (p_trapframe x) (p_ofile x) (p_cwd x) v.

Definition proc0 : proc :=
  mkProc UNUSED None 0 0 0 0 (replicate PER_PROCESS_VMAS None) vma0 vma0 0 None 0 0 0 0 0 0
    (replicate NOFILE None) None (replicate 16 0).

(** ** buf.h and sleeplock.h *)

Record sleeplock : Type := mkSlk {
  sl_locked : bool;
  sl_pid : Z }.

Definition slk0 : sleeplock := mkSlk false 0.

Record buf : Type := mkBuf {
  b_valid : bool;
  b_dev : Z;
  b_blockno : Z;
  b_lock : sleeplock;
  b_refcnt : Z;
  b_prev : nat;
  b_next : nat;
  b_data : list Z }.
Definition set_b_valid (v : bool) (x : buf) : buf :=
  mkBuf v (b_dev x) (b_blockno x) (b_lock x) (b_refcnt x) (b_prev x) (b_next x) (b_data x).
Definition set_b_dev (v : Z) (x : buf) : buf :=
  mkBuf (b_valid x) v (b_blockno x) (b_lock x) (b_refcnt x) (b_prev x) (b_next x) (b_data x).
Definition set_b_blockno (v : Z) (x : buf) : buf :=
  mkBuf (b_valid x) (b_dev x) v (b_lock x) (b_refcnt x) (b_prev x) (b_next x) (b_data x).
Definition set_b_lock (v : sleeplock) (x : buf) : buf :=
  mkBuf (b_valid x) (b_dev x) (b_blockno x) v (b_refcnt x) (b_prev x) (b_next x) (b_data x).
Definition set_b_refcnt (v : Z) (x : buf) : buf :=
  mkBuf (b_valid x) (b_dev x) (b_blockno x) (b_lock x) v (b_prev x) (b_next x) (b_data x).
Definition set_b_prev (v : nat) (x : buf) : buf :=
  mkBuf (b_valid x) (b_dev x) (b_blockno x) (b_lock x) (b_refcnt x) v (b_next x) (b_data x).
Definition set_b_next (v : nat) (x : buf) : buf :=
  mkBuf (b_valid x) (b_dev x) (b_blockno x) (b_lock x) (b_refcnt x) (b_prev x) v (b_data x).
Definition set_b_data (v : list Z) (x : buf) : buf :=
  mkBuf (b_valid x) (b_dev x) (b_blockno x) (b_lock x) (b_refcnt x) (b_prev x) (b_next x) v.

Definition buf0 : buf := mkBuf false 0 0 slk0 0 0 0 (replicate 1024 0).

(** ** log.c *)

Record log_t : Type := mkLog {
  lg_start : Z;
  lg_size : Z;
  lg_outstanding : Z;
  lg_committing : bool;
  lg_dev : Z;
  lh_n : Z;
  lh_block : list Z }.
Definition set_lg_start (v : Z) (x : log_t) : log_t :=
  mkLog v (lg_size x) (lg_outstanding x) (lg_committing x) (lg_dev x) (lh_n x) (lh_block x).
Definition set_lg_size (v : Z) (x : log_t) : log_t :=
  mkLog (lg_start x) v (lg_outstanding x) (lg_committing x) (lg_dev x) (lh_n x) (lh_block x).
Definition set_lg_outstanding (v : Z) (x : log_t) : log_t :=
  mkLog (lg_start x) (lg_size x) v (lg_committing x) (lg_dev x) (lh_n x) (lh_block x).
Definition set_lg_committing (v : bool) (x : log_t) : log_t :=
  mkLog (lg_start x) (lg_size x) (lg_outstanding x) v (lg_dev x) (lh_n x) (lh_block x).
Definition set_lg_dev (v : Z) (x : log_t) : log_t :=
  mkLog (lg_start x) (lg_size x) (lg_outstanding x) (lg_committing x) v (lh_n x) (lh_block x).
Definition set_lh_n (v : Z) (x : log_t) : log_t :=
  mkLog (lg_start x) (lg_size x) (lg_outstanding x) (lg_committing x) (lg_dev x) v (lh_block x).
Definition set_lh_block (v : list Z) (x : log_t) : log_t :=
  mkLog (lg_start x) (lg_size x) (lg_outstanding x) (lg_committing x) (lg_dev x) (lh_n x) v.

(** ** fs.h and file.h *)

Record superblock : Type := mkSb {
  sb_magic : Z;
  sb_size : Z;
  sb_nblocks : Z;
  sb_ninodes : Z;
  sb_nlog : Z;
  sb_logstart : Z;
  sb_inodestart : Z;
  sb_bmapstart : Z }.

Record inode : Type := mkInode {
  i_dev : Z;
  i_inum : Z;
  i_ref : Z;
  i_lock : sleeplock;
  i_valid : bool;
  i_type : Z;
  i_major : Z;
  i_minor : Z;
  i_nlink : Z;
  i_size : Z;
  i_addrs : list Z }.
Definition set_i_dev (v : Z) (x : inode) : inode :=
  mkInode v (i_inum x) (i_ref x) (i_lock x) (i_valid x) (i_type x) (i_major x) (i_minor x)
    (i_nlink x) (i_size x) (i_addrs x).
Definition set_i_inum (v : Z) (x : inode) : inode :=
  mkInode (i_dev x) v (i_ref x) (i_lock x) (i_valid x) (i_type x) (i_major x) (i_minor x)
    (i_nlink x) (i_size x) (i_addrs x).
Definition set_i_ref (v : Z) (x : inode) : inode :=
  mkInode (i_dev x) (i_inum x) v (i_lock x) (i_valid x) (i_type x) (i_major x) (i_minor x)
    (i_nlink x) (i_size x) (i_addrs x).
Definition set_i_lock (v : sleeplock) (x : inode) : inode :=
  mkInode (i_dev x) (i_inum x) (i_ref x) v (i_valid x) (i_type x) (i_major x) (i_minor x)
    (i_nlink x) (i_size x) (i_addrs x).
Definition set_i_valid (v : bool) (x : inode) : inode :=
  mkInode (i_dev x) (i_inum x) (i_ref x) (i_lock x) v (i_type x) (i_major x) (i_minor x)
    (i_nlink x) (i_size x) (i_addrs x).
Definition set_i_type (v : Z) (x : inode) : inode :=
  mkInode (i_dev x) (i_inum x) (i_ref x) (i_lock x) (i_valid x) v (i_major x) (i_minor x)
    (i_nlink x) (i_size x) (i_addrs x).
Definition set_i_major (v : Z) (x : inode) : inode :=
  mkInode (i_dev x) (i_inum x) (i_ref x) (i_lock x) (i_valid x) (i_type x) v (i_minor x)
    (i_nlink x) (i_size x) (i_addrs x).
Definition set_i_minor (v : Z) (x : inode) : inode :=
  mkInode (i_dev x) (i_inum x) (i_ref x) (i_lock x) (i_valid x) (i_type x) (i_major x) v
    (i_nlink x) (i_size x) (i_addrs x).
Definition set_i_nlink (v : Z) (x : inode) : inode :=
  mkInode (i_dev x) (i_inum x) (i_ref x) (i_lock x) (i_valid x) (i_type x) (i_major x)
    (i_minor x) v (i_size x) (i_addrs x).
Definition set_i_size (v : Z) (x : inode) : inode :=
  mkInode (i_dev x) (i_inum x) (i_ref x) (i_lock x) (i_valid x) (i_type x) (i_major x)
    (i_minor x) (i_nlink x) v (i_addrs x).
Definition set_i_addrs (v : list Z) (x : inode) : inode :=
  mkInode (i_dev x) (i_inum x) (i_ref x) (i_lock x) (i_valid x) (i_type x) (i_major x)
    (i_minor x) (i_nlink x) (i_size x) v.

Definition inode0 : inode := mkInode 0 0 0 slk0 false 0 0 0 0 0 (replicate 13 0).

Inductive fdtype : Type := FD_NONE | FD_PIPE | FD_INODE | FD_DEVICE.

#[global] Instance fdtype_eq_dec : EqDecision fdtype.
Proof. solve_decision. Defined.

Record file : Type := mkFile {
  f_type : fdtype;
  f_ref : Z;
  f_readable : bool;
  f_writable : bool;
  f_pipe : Z;
  f_ip : option nat;
  f_off : Z;
  f_major : Z }.
Definition set_f_type (v : fdtype) (x : file) : file :=
  mkFile v (f_ref x) (f_readable x) (f_writable x) (f_pipe x) (f_ip x) (f_off x) (f_major x).
Definition set_f_ref (v : Z) (x : file) : file :=
  mkFile (f_type x) v (f_readable x) (f_writable x) (f_pipe x) (f_ip x) (f_off x) (f_major x).
Definition set_f_readable (v : bool) (x : file) : file :=
  mkFile (f_type x) (f_ref x) v (f_writable x) (f_pipe x) (f_ip x) (f_off x) (f_major x).
Definition set_f_writable (v : bool) (x : file) : file :=
  mkFile (f_type x) (f_ref x) (f_readable x) v (f_pipe x) (f_ip x) (f_off x) (f_major x).
Definition set_f_pipe (v : Z) (x : file) : file :=
  mkFile (f_type x) (f_ref x) (f_readable x) (f_writable x) v (f_ip x) (f_off x) (f_major x).
Definition set_f_ip (v : option nat) (x : file) : file :=
  mkFile (f_type x) (f_ref x) (f_readable x) (f_writable x) (f_pipe x) v (f_off x) (f_major x).
Definition set_f_off (v : Z) (x : file) : file :=
  mkFile (f_type x) (f_ref x) (f_readable x) (f_writable x) (f_pipe x) (f_ip x) v (f_major x).
Definition set_f_major (v : Z) (x : file) : file :=
  mkFile (f_type x) (f_ref x) (f_readable x) (f_writable x) (f_pipe x) (f_ip x) (f_off x) v.

Definition file0 : file := mkFile FD_NONE 0 false false 0 None 0 0.

(** ** pipe.c *)

Record pipe : Type := mkPipe {
  pi_data : list Z;
  pi_nread : Z;
  pi_nwrite : Z;
  pi_readopen : Z;
  pi_writeopen : Z }.
Definition set_pi_data (v : list Z) (x : pipe) : pipe :=
  mkPipe v (pi_nread x) (pi_nwrite x) (pi_readopen x) (pi_writeopen x).
Definition set_pi_nread (v : Z) (x : pipe) : pipe :=
  mkPipe (pi_data x) v (pi_nwrite x) (pi_readopen x) (pi_writeopen x).
Definition set_pi_nwrite (v : Z) (x : pipe) : pipe :=
  mkPipe (pi_data x) (pi_nread x) v (pi_readopen x) (pi_writeopen x).
Definition set_pi_readopen (v : Z) (x : pipe) : pipe :=
  mkPipe (pi_data x) (pi_nread x) (pi_nwrite x) v (pi_writeopen x).
Definition set_pi_writeopen (v : Z) (x : pipe) : pipe :=
  mkPipe (pi_data x) (pi_nread x) (pi_nwrite x) (pi_readopen x) v.

(** ** console.c and uart.c *)

Record cons_t : Type := mkCons {
  c_buf : list Z;
  c_r : Z;
  c_w : Z;
  c_e : Z }.
Definition set_c_buf (v : list Z) (x : cons_t) : cons_t :=
  mkCons v (c_r x) (c_w x) (c_e x).
Definition set_c_r (v : Z) (x : cons_t) : cons_t :=
  mkCons (c_buf x) v (c_w x) (c_e x).
Definition set_c_w (v : Z) (x : cons_t) : cons_t :=
  mkCons (c_buf x) (c_r x) v (c_e x).
Definition set_c_e (v : Z) (x : cons_t) : cons_t :=
  mkCons (c_buf x) (c_r x) (c_w x) v.

(** The transmit buffer with its counters [uart_tx_w] and [uart_tx_r], and what
    the device has seen: the bytes written to THR, and how often LSR and RHR were
    read. *)
Record uart_t : Type := mkUart {
  u_buf : list Z;
  u_w : Z;
  u_r : Z;
  u_out : list Z;
  u_lsr : nat;
  u_rhr : nat }.
Definition set_u_buf (v : list Z) (x : uart_t) : uart_t :=
  mkUart v (u_w x) (u_r x) (u_out x) (u_lsr x) (u_rhr x).
Definition set_u_w (v : Z) (x : uart_t) : uart_t :=
  mkUart (u_buf x) v (u_r x) (u_out x) (u_lsr x) (u_rhr x).
Definition set_u_r (v : Z) (x : uart_t) : uart_t :=
  mkUart (u_buf x) (u_w x) v (u_out x) (u_lsr x) (u_rhr x).
Definition set_u_out (v : list Z) (x : uart_t) : uart_t :=
  mkUart (u_buf x) (u_w x) (u_r x) v (u_lsr x) (u_rhr x).
Definition set_u_lsr (v : nat) (x : uart_t) : uart_t :=
  mkUart (u_buf x) (u_w x) (u_r x) (u_out x) v (u_rhr x).
Definition set_u_rhr (v : nat) (x : uart_t) : uart_t :=
  mkUart (u_buf x) (u_w x) (u_r x) (u_out x) (u_lsr x) v.

Definition uart0 : uart_t := mkUart (replicate 32 0) 0 0 [] 0 0.

(** ** The kernel state

    [k_bufs] has NBUF + 1 elements: the last one is [bcache.head].  [k_disk]
    is the disk (block number to its BSIZE bytes) and [k_dwrites] records, in
    order, the block writes the disk has performed; it is only used to speak
    about crashes.  A pipe lives in a page of its own, [k_pipes] is keyed by the
    address of that page. *)
Record kstate : Type := mkK {
  k_mem : memory;
  k_kmem : kmem_t;
  k_kpgtbl : Z;
  k_procs : list proc;
  k_vmas : list vma;
  k_initproc : option nat;
  k_cur : option nat;
  k_nextpid : Z;
  k_ticks : Z;
  k_bufs : list buf;
  k_log : log_t;
  k_disk : gmap Z (list Z);
  k_dwrites : list (Z * list Z);
  k_sb : superblock;
  k_inodes : list inode;
  k_files : list file;
  k_pipes : gmap Z pipe;
  k_cons : cons_t;
  k_uart : uart_t }.
Definition set_mem (v : memory) (x : kstate) : kstate :=
  mkK v (k_kmem x) (k_kpgtbl x) (k_procs x) (k_vmas x) (k_initproc x) (k_cur x) (k_nextpid x)
    (k_ticks x) (k_bufs x) (k_log x) (k_disk x) (k_dwrites x) (k_sb x) (k_inodes x) (k_files x)
    (k_pipes x) (k_cons x) (k_uart x).
Definition set_kmem (v : kmem_t) (x : kstate) : kstate :=
  mkK (k_mem x) v (k_kpgtbl x) (k_procs x) (k_vmas x) (k_initproc x) (k_cur x) (k_nextpid x)
    (k_ticks x) (k_bufs x) (k_log x) (k_disk x) (k_dwrites x) (k_sb x) (k_inodes x) (k_files x)
    (k_pipes x) (k_cons x) (k_uart x).
Definition set_kpgtbl (v : Z) (x : kstate) : kstate :=
  mkK (k_mem x) (k_kmem x) v (k_procs x) (k_vmas x) (k_initproc x) (k_cur x) (k_nextpid x)
    (k_ticks x) (k_bufs x) (k_log x) (k_disk x) (k_dwrites x) (k_sb x) (k_inodes x) (k_files x)
    (k_pipes x) (k_cons x) (k_uart x).
Definition set_procs (v : list proc) (x : kstate) : kstate :=
  mkK (k_mem x) (k_kmem x) (k_kpgtbl x) v (k_vmas x) (k_initproc x) (k_cur x) (k_nextpid x)
    (k_ticks x) (k_bufs x) (k_log x) (k_disk x) (k_dwrites x) (k_sb x) (k_inodes x) (k_files x)
    (k_pipes x) (k_cons x) (k_uart x).
Definition set_kvmas (v : list vma) (x : kstate) : kstate :=
  mkK (k_mem x) (k_kmem x) (k_kpgtbl x) (k_procs x) v (k_initproc x) (k_cur x) (k_nextpid x)
    (k_ticks x) (k_bufs x) (k_log x) (k_disk x) (k_dwrites x) (k_sb x) (k_inodes x) (k_files x)
    (k_pipes x) (k_cons x) (k_uart x).
Definition set_initproc (v : option nat) (x : kstate) : kstate :=
  mkK (k_mem x) (k_kmem x) (k_kpgtbl x) (k_procs x) (k_vmas x) v (k_cur x) (k_nextpid x)
    (k_ticks x) (k_bufs x) (k_log x) (k_disk x) (k_dwrites x) (k_sb x) (k_inodes x) (k_files x)
    (k_pipes x) (k_cons x) (k_uart x).
Definition set_cur (v : option nat) (x : kstate) : kstate :=
  mkK (k_mem x) (k_kmem x) (k_kpgtbl x) (k_procs x) (k_vmas x) (k_initproc x) v (k_nextpid x)
    (k_ticks x) (k_bufs x) (k_log x) (k_disk x) (k_dwrites x) (k_sb x) (k_inodes x) (k_files x)
    (k_pipes x) (k_cons x) (k_uart x).
Definition set_nextpid (v : Z) (x : kstate) : kstate :=
  mkK (k_mem x) (k_kmem x) (k_kpgtbl x) (k_procs x) (k_vmas x) (k_initproc x) (k_cur x) v
    (k_ticks x) (k_bufs x) (k_log x) (k_disk x) (k_dwrites x) (k_sb x) (k_inodes x) (k_files x)
    (k_pipes x) (k_cons x) (k_uart x).
Definition set_kticks (v : Z) (x : kstate) : kstate :=
  mkK (k_mem x) (k_kmem x) (k_kpgtbl x) (k_procs x) (k_vmas x) (k_initproc x) (k_cur x)
    (k_nextpid x) v (k_bufs x) (k_log x) (k_disk x) (k_dwrites x) (k_sb x) (k_inodes x)
    (k_files x) (k_pipes x) (k_cons x) (k_uart x).
Definition set_bufs (v : list buf) (x : kstate) : kstate :=
  mkK (k_mem x) (k_kmem x) (k_kpgtbl x) (k_procs x) (k_vmas x) (k_initproc x) (k_cur x)
    (k_nextpid x) (k_ticks x) v (k_log x) (k_disk x) (k_dwrites x) (k_sb x) (k_inodes x)
    (k_files x) (k_pipes x) (k_cons x) (k_uart x).
Definition set_log (v : log_t) (x : kstate) : kstate :=
  mkK (k_mem x) (k_kmem x) (k_kpgtbl x) (k_procs x) (k_vmas x) (k_initproc x) (k_cur x)
    (k_nextpid x) (k_ticks x) (k_bufs x) v (k_disk x) (k_dwrites x) (k_sb x) (k_inodes x)
    (k_files x) (k_pipes x) (k_cons x) (k_uart x).
Definition set_disk (v : gmap Z (list Z)) (x : kstate) : kstate :=
  mkK (k_mem x) (k_kmem x) (k_kpgtbl x) (k_procs x) (k_vmas x) (k_initproc x) (k_cur x)
    (k_nextpid x) (k_ticks x) (k_bufs x) (k_log x) v (k_dwrites x) (k_sb x) (k_inodes x)
    (k_files x) (k_pipes x) (k_cons x) (k_uart x).
Definition set_dwrites (v : list (Z * list Z)) (x : kstate) : kstate :=
  mkK (k_mem x) (k_kmem x) (k_kpgtbl x) (k_procs x) (k_vmas x) (k_initproc x) (k_cur x)
    (k_nextpid x) (k_ticks x) (k_bufs x) (k_log x) (k_disk x) v (k_sb x) (k_inodes x)
    (k_files x) (k_pipes x) (k_cons x) (k_uart x).
Definition set_sb (v : superblock) (x : kstate) : kstate :=
  mkK (k_mem x) (k_kmem x) (k_kpgtbl x) (k_procs x) (k_vmas x) (k_initproc x) (k_cur x)
    (k_nextpid x) (k_ticks x) (k_bufs x) (k_log x) (k_disk x) (k_dwrites x) v (k_inodes x)
    (k_files x) (k_pipes x) (k_cons x) (k_uart x).
Definition set_inodes (v : list inode) (x : kstate) : kstate :=
  mkK (k_mem x) (k_kmem x) (k_kpgtbl x) (k_procs x) (k_vmas x) (k_initproc x) (k_cur x)
    (k_nextpid x) (k_ticks x) (k_bufs x) (k_log x) (k_disk x) (k_dwrites x) (k_sb x) v
    (k_files x) (k_pipes x) (k_cons x) (k_uart x).
Definition set_files (v : list file) (x : kstate) : kstate :=
  mkK (k_mem x) (k_kmem x) (k_kpgtbl x) (k_procs x) (k_vmas x) (k_initproc x) (k_cur x)
    (k_nextpid x) (k_ticks x) (k_bufs x) (k_log x) (k_disk x) (k_dwrites x) (k_sb x)
    (k_inodes x) v (k_pipes x) (k_cons x) (k_uart x).
Definition set_pipes (v : gmap Z pipe) (x : kstate) : kstate :=
  mkK (k_mem x) (k_kmem x) (k_kpgtbl x) (k_procs x) (k_vmas x) (k_initproc x) (k_cur x)
    (k_nextpid x) (k_ticks x) (k_bufs x) (k_log x) (k_disk x) (k_dwrites x) (k_sb x)
    (k_inodes x) (k_files x) v (k_cons x) (k_uart x).
Definition set_cons (v : cons_t) (x : kstate) : kstate :=
  mkK (k_mem x) (k_kmem x) (k_kpgtbl x) (k_procs x) (k_vmas x) (k_initproc x) (k_cur x)
    (k_nextpid x) (k_ticks x) (k_bufs x) (k_log x) (k_disk x) (k_dwrites x) (k_sb x)
    (k_inodes x) (k_files x) (k_pipes x) v (k_uart x).
Definition set_uart (v : uart_t) (x : kstate) : kstate :=
  mkK (k_mem x) (k_kmem x) (k_kpgtbl x) (k_procs x) (k_vmas x) (k_initproc x) (k_cur x)
    (k_nextpid x) (k_ticks x) (k_bufs x) (k_log x) (k_disk x) (k_dwrites x) (k_sb x)
    (k_inodes x) (k_files x) (k_pipes x) (k_cons x) v.

Abbreviation K := (M kstate).

(** The statically initialised state: everything zero but [nextpid = 1]. *)
Definition kstate0 : kstate :=
  mkK ∅ (mkKmem None ∅) 0 (replicate NPROC proc0) (replicate NVMAS vma0) None None 1 0
    (replicate (S NBUF) buf0) (mkLog 0 0 0 false 0 0 (replicate (Z.to_nat LOGSIZE) 0)) ∅
    [] (mkSb 0 0 0 0 0 0 0 0) (replicate NINODE inode0) (replicate NFILE file0) ∅
    (mkCons (replicate 128 0) 0 0 0) uart0.

(** [s'] differs from [s] in its memory and page allocator only. *)
Definition same_rest (s s' : kstate) : Prop :=
  s' = set_kmem (k_kmem s') (set_mem (k_mem s') s).

Lemma same_rest_refl s : same_rest s s.
Proof. by destruct s. Qed.
Lemma same_rest_trans s1 s2 s3 : same_rest s1 s2 → same_rest s2 s3 → same_rest s1 s3.
Proof. unfold same_rest. intros -> ->. done. Qed.
Lemma same_rest_mem s s' m : same_rest s s' → same_rest s (set_mem m s').
Proof. unfold same_rest. intros ->. done. Qed.
Lemma same_rest_kmem s s' k : same_rest s s' → same_rest s (set_kmem k s').
Proof. unfold same_rest. intros ->. done. Qed.

#[export] Hint Resolve same_rest_refl same_rest_mem same_rest_kmem : xv6.

Lemma k_kmem_set_mem m s : k_kmem (set_mem m s) = k_kmem s.
Proof. done. Qed.
Lemma k_mem_set_mem m s : k_mem (set_mem m s) = m.
Proof. done. Qed.
Lemma k_mem_set_kmem k s : k_mem (set_kmem k s) = k_mem s.
Proof. done. Qed.
Lemma k_kmem_set_kmem k s : k_kmem (set_kmem k s) = k.
Proof. done. Qed.

Lemma set_mem_set_mem m m' s : set_mem m (set_mem m' s) = set_mem m s.
Proof. done. Qed.

Create Rewrite HintDb kst.
#[export] Hint Rewrite set_mem_set_mem k_kmem_set_mem k_mem_set_mem k_mem_set_kmem k_kmem_set_kmem : kst.
