(* ===== verification/Proc.v ===== *)
(** The process table and the CPU: src/kernel/random.c and the parts of
    src/kernel/proc.c that only touch the table ([wakeup], [sleep], [sched],
    [yield], [kill], [reparent], [scheduler], ...).

    [k_cur] is this CPU's [c->proc].  [swtch] to the scheduler is the [Switch]
    outcome; [swtch] to a process is a parameter of [scheduler_pass]. *)

From S2P Require Import Prelude Machine Str Types.

(** ** random.c *)

Definition NROUNDS : nat := 10.

(** [(a * xn + c) % m] on 32-bit [int]s; C's [%] is [Z.rem].  The product
    overflows, which C leaves undefined and RISC-V computes modulo 2^32. *)
Definition random_step (xn : Z) : Z :=
  Z.rem (s32 (s32 (1103515245 * xn) + 12345)) 32768.

Definition random (seed : Z) : Z := u32 (Nat.iter NROUNDS random_step seed).

(** [random] returns a [uint], so [%] and [+] are unsigned. *)
Definition randomrange (seed lo hi : Z) : Z :=
  let '(lo, hi) := if hi <? lo then (hi, lo) else (lo, hi) in
  let range := s32 (s32 (hi - lo) + 1) in
  s32 (u32 (random seed mod u32 range + u32 lo)).

(** ** Access to the table *)

Definition proc_at (s : kstate) (i : nat) : proc := default proc0 (k_procs s !! i).
Definition getp (i : nat) : K proc := gets (λ s, proc_at s i).
Definition setp (i : nat) (f : proc → proc) : K unit :=
  modify (λ s, set_procs (alter f i (k_procs s)) s).

(** [for(p = proc; p < &proc[NPROC]; p++)] *)
Definition all_procs : list nat := seq 0 NPROC.

(** [c->proc]; reading through a null [myproc()] faults. *)
Definition myproc : K (option nat) := gets k_cur.
Definition curproc : K nat :=
  p ← myproc; match p with Some i => mret i | None => fault end.

(** ** proc.c *)

Definition allocpid : K Z :=
  pid ← gets k_nextpid;
  modify (λ s, set_nextpid (s32 (pid + 1)) s);;
  mret pid.

Definition procinit : K unit :=
  forM_ all_procs (λ i, setp i (set_state UNUSED);; setp i (set_kstack (KSTACK i)));;
  modify (λ s, set_kvmas (set_v_used false <$> k_vmas s) s).

Definition wakeup (ch : chan) : K unit :=
  forM_ all_procs (λ i,
    me ← myproc;
    if decide (me = Some i) then mret tt
    else
      p ← getp i;
      when (bool_decide (p_state p = SLEEPING ∧ p_chan p = Some ch))
        (setp i (set_state RUNNABLE))).

Definition sched : K unit :=
  i ← curproc;
  p ← getp i;
  if decide (p_state p = RUNNING) then panic "sched running" else switch.

Definition yield : K unit :=
  i ← curproc;
  setp i (set_state RUNNABLE);;
  sched.

Definition sleep (ch : chan) : K unit :=
  i ← curproc;
  setp i (set_chan (Some ch));;
  setp i (set_state SLEEPING);;
  sched;;
  setp i (set_chan None).

Definition kill (pid : Z) : K Z :=
  r ← for_ret all_procs (λ i,
    p ← getp i;
    if p_pid p =? pid then
      setp i (set_killed 1);;
      when (bool_decide (p_state p = SLEEPING)) (setp i (set_state RUNNABLE));;
      mret (Some 0)
    else mret None);
  mret (default (-1) r).

Definition setkilled (i : nat) : K unit := setp i (set_killed 1).
Definition killed (i : nat) : K bool := p ← getp i; mret (negb (p_killed p =? 0)).

(** [wakeup(initproc)] wakes the sleepers on the address of init's slot. *)
Definition reparent (i : nat) : K unit :=
  forM_ all_procs (λ j,
    pp ← getp j;
    if decide (p_parent pp = Some i) then
      ini ← gets k_initproc;
      setp j (set_parent ini);;
      match ini with Some k => wakeup (ChProc k) | None => mret tt end
    else mret tt).

(** ** The lottery scheduler *)

Section scheduler.
(** [swtch(&c->context, &p->context)]: runs process [p] until it switches
    back. *)
Variable swtch : nat → K unit.

(** The first loop: the tickets of the runnable processes and all the ticks. *)
Definition sum_tickets (ps : list proc) : Z * Z :=
  foldl (λ '(tickets, ticks) p,
    (if decide (p_state p = RUNNABLE) then s32 (tickets + p_tickets p) else tickets,
     s32 (ticks + p_ticks p))) (0, 0) ps.

(** "HAS BEEN SELECTED" *)
Definition dispatch (i : nat) (p : proc) : K unit :=
  setp i (set_state RUNNING);;
  setp i (set_pticks (s32 (p_ticks p + 1)));;
  modify (set_cur (Some i));;
  swtch i;;
  modify (set_cur None).

(** The second loop, with what is left of [random]. *)
Fixpoint draw (ps : list nat) (random : Z) : K unit :=
  match ps with
  | [] => mret tt
  | i :: ps' =>
      if random >? 0 then
        p ← getp i;
        if decide (p_state p = RUNNABLE) then
          when (random <=? p_tickets p) (dispatch i p);;
          p' ← getp i;
          draw ps' (s32 (random - p_tickets p'))
        else draw ps' random
      else mret tt
  end.

(** One iteration of the scheduler's [for(;;)]. *)
Definition scheduler_pass : K unit :=
  sums ← gets (λ s, sum_tickets (k_procs s));
  let '(total_tickets, total_ticks) := sums in
  if total_tickets <? 1 then mret tt
  else
    let seed := s32 (total_tickets + total_ticks) in
    draw all_procs (randomrange seed 1 total_tickets).
End scheduler.
