(* ===== verification/Rely.v ===== *)
(** Reasoning about code that gives the CPU away: [wp E G R Q o] says that the
    run [o] stops only as [E] allows, has [G] whenever it switches, and returns
    with [Q], if the state it is resumed in is related by [R] to the one it
    left.

    [idle] is the relation of a thread whose peers make no kernel calls while
    it waits: interrupt handlers and the scheduler only change scheduling
    states, the tick counter and the console. *)

From S2P Require Import Prelude Machine Str Types Proc ProcSpec.

Section wp.
Context {S : Type} (E : stop → Prop) (G : S → Prop) (R : S → S → Prop).

Fixpoint wp {A} (Q : A → S → Prop) (o : outcome S A) : Prop :=
  match o with
  | Ok a s => Q a s
  | Stop w _ => E w
  | Switch s k => G s ∧ ∀ s', R s s' → wp Q (k s')
  end.

Lemma wp_mono {A} (Q Q' : A → S → Prop) o :
  (∀ a s, Q a s → Q' a s) → wp Q o → wp Q' o.
Proof.
  intros H. induction o as [a s|w s|s k IH]; simpl; [by apply H|done|].
  intros [HG Hk]. split; [done|]. intros s' HR. by apply IH, Hk.
Qed.

Lemma wp_bind {A B} (m : M S A) (f : A → M S B) Q s :
  wp (λ a s1, wp Q (f a s1)) (m s) → wp Q ((m ≫= f) s).
Proof.
  unfold mbind, M_bind. induction (m s) as [a s1|w s1|s1 k IH]; simpl; [done|done|].
  intros [HG Hk]. split; [done|]. intros s' HR. by apply IH, Hk.
Qed.

Lemma wp_bind_mono {A B} (P : A → S → Prop) (m : M S A) (f : A → M S B) Q s :
  wp P (m s) → (∀ a s1, P a s1 → wp Q (f a s1)) → wp Q ((m ≫= f) s).
Proof. intros Hm Hf. apply wp_bind. by apply (wp_mono P). Qed.

Lemma wp_ok {A B} (m : M S A) (f : A → M S B) Q s a s1 :
  m s = Ok a s1 → wp Q (f a s1) → wp Q ((m ≫= f) s).
Proof. intros E' H. apply wp_bind. by rewrite E'. Qed.
End wp.

(** A weaker environment, more stops. *)
Lemma wp_weaken {S A} (E E' : stop → Prop) (G G' : S → Prop) (R R' : S → S → Prop) (Q : A → S → Prop) o :
  (∀ w, E w → E' w) → (∀ s, G s → G' s) → (∀ s s', R' s s' → R s s') →
  wp E G R Q o → wp E' G' R' Q o.
Proof.
  intros HE HG HR. induction o as [a s|w s|s k IH]; simpl; [done|apply HE|].
  intros [Hg Hk]. split; [by apply HG|]. intros s' Hs'. by apply IH, Hk, HR.
Qed.

(** Loops over a list, in two parts. *)
Lemma wp_forM_app {S A} E (G : S → Prop) R (Q : unit → S → Prop) (l1 l2 : list A) (f : A → M S unit) s :
  wp E G R (λ _ s1, wp E G R Q (forM_ l2 f s1)) (forM_ l1 f s) → wp E G R Q (forM_ (l1 ++ l2) f s).
Proof.
  revert s. induction l1 as [|x l1 IH]; intros s; cbn [forM_ app]; [done|]. intros H. apply wp_bind.
  assert (∀ o : outcome S unit, wp E G R (λ _ s1, wp E G R Q (forM_ l2 f s1)) (obind o (λ _, forM_ l1 f)) →
    wp E G R (λ _ s1, wp E G R Q (forM_ (l1 ++ l2) f s1)) o) as Ho; [|by apply Ho].
  clear H. intros o. induction o as [[] s1|w s1|s1 k IHo]; cbn; [by apply IH|done|].
  intros [HG Hk]. split; [done|]. intros s' HR. by apply IHo, Hk.
Qed.

(** The final state of a run that returns without waiting. *)
Definition returns {S A} (o : outcome S A) : bool := match o with Ok _ _ => true | _ => false end.
Definition state_of {S A} (d : S) (o : outcome S A) : S := match o with Ok _ s => s | _ => d end.

Lemma wp_state {S A} E (G : S → Prop) R (P : S → Prop) (o : outcome S A) d :
  wp E G R (λ _, P) o → returns o = true → P (state_of d o).
Proof. by destruct o. Qed.

(** ** Processes up to scheduling *)

Definition resched_proc (p p' : proc) : Prop :=
  p' = set_state (p_state p') (set_chan (p_chan p') p).

#[global] Instance resched_proc_preorder : PreOrder resched_proc.
Proof.
  split; [by intros []|]. unfold resched_proc. intros p1 p2 p3 -> ->. done.
Qed.

(** [s'] is [s] up to scheduling states, ticks and the console. *)
Record idle (s s' : kstate) : Prop := {
  idle_procs : Forall2 resched_proc (k_procs s) (k_procs s');
  idle_rest : s' = set_procs (k_procs s') (set_kticks (k_ticks s') (set_cons (k_cons s')
                     (set_uart (k_uart s') s))) }.

#[global] Instance idle_preorder : PreOrder idle.
Proof.
  split.
  - intros s. split; [|by destruct s]. reflexivity.
  - intros s1 s2 s3 [H1 E1] [H2 E2]. split; [by etrans|]. rewrite E2, E1. done.
Qed.

(** [idle] goes along with updates of everything else. *)
Lemma idle_bufs s s' v : idle s s' → idle (set_bufs v s) (set_bufs v s').
Proof. intros [H E]. split; [done|]. by rewrite E. Qed.
Lemma idle_log s s' v : idle s s' → idle (set_log v s) (set_log v s').
Proof. intros [H E]. split; [done|]. by rewrite E. Qed.
Lemma idle_disk s s' v : idle s s' → idle (set_disk v s) (set_disk v s').
Proof. intros [H E]. split; [done|]. by rewrite E. Qed.
Lemma idle_dwrites s s' v : idle s s' → idle (set_dwrites v s) (set_dwrites v s').
Proof. intros [H E]. split; [done|]. by rewrite E. Qed.
Lemma idle_inodes s s' v : idle s s' → idle (set_inodes v s) (set_inodes v s').
Proof. intros [H E]. split; [done|]. by rewrite E. Qed.

Lemma idle_get s s' : idle s s' →
  k_bufs s' = k_bufs s ∧ k_log s' = k_log s ∧ k_disk s' = k_disk s ∧ k_dwrites s' = k_dwrites s ∧
  k_sb s' = k_sb s ∧ k_inodes s' = k_inodes s ∧ k_cur s' = k_cur s ∧ k_mem s' = k_mem s ∧
  k_kmem s' = k_kmem s.
Proof. intros [_ ->]. done. Qed.

(** Thread [i] runs. *)
Record runs_on (i : nat) (s : kstate) : Prop := {
  ro_cur : k_cur s = Some i;
  ro_range : (i < NPROC)%nat;
  ro_procs : length (k_procs s) = NPROC }.

Lemma idle_runs i s s' : idle s s' → runs_on i s → runs_on i s'.
Proof.
  intros [H E] [H1 H2 H3]. split; [by rewrite E|done|]. by rewrite <- (list.Forall2_length _ _ _ H).
Qed.

Lemma idle_proc_at s s' i : idle s s' → resched_proc (proc_at s i) (proc_at s' i).
Proof.
  intros [H _]. unfold proc_at. destruct (k_procs s !! i) as [p|] eqn:Hp.
  - destruct (Forall2_lookup_l _ _ _ _ _ H Hp) as (p' & -> & Hr). done.
  - apply lookup_ge_None in Hp. rewrite (list.Forall2_length _ _ _ H) in Hp.
    apply lookup_ge_None in Hp. by rewrite Hp.
Qed.

Lemma idle_pid s s' i : idle s s' → p_pid (proc_at s' i) = p_pid (proc_at s i).
Proof. intros H. by rewrite (idle_proc_at _ _ i H). Qed.

(** Steps of the scheduler's book-keeping are idle. *)
Lemma idle_set_procs s ps : Forall2 resched_proc (k_procs s) ps → idle s (set_procs ps s).
Proof. intros H. by split. Qed.

Lemma idle_alter s f i : (∀ p, resched_proc p (f p)) → idle s (set_procs (alter f i (k_procs s)) s).
Proof.
  intros Hf. apply idle_set_procs. apply Forall2_same_length_lookup_2; [by rewrite length_alter|].
  intros j p p' Hp Hp'. destruct (decide (i = j)) as [->|Hne].
  - rewrite list_lookup_alter_eq, Hp in Hp'. injection Hp' as <-. apply Hf.
  - rewrite list_lookup_alter_ne, Hp in Hp' by done. by injection Hp' as <-.
Qed.

Lemma wakeup_idle ch s :
  length (k_procs s) = NPROC → ∃ s', wakeup ch s = Ok tt s' ∧ idle s s' ∧ s' = set_procs (k_procs s') s.
Proof.
  intros H. destruct (wakeup_run ch s H) as (ps & -> & Hlen & Hps). eexists. split_and!; [done| |done].
  apply idle_set_procs, Forall2_same_length_lookup_2; [by rewrite Hlen|].
  intros i p p' Hp Hp'. rewrite Hps, Hp in Hp'. injection Hp' as <-.
  unfold woken, wakes. by case_match; destruct p.
Qed.

Section wp_sched.
Context (E : stop → Prop) (G : kstate → Prop) (R : kstate → kstate → Prop).

Lemma wp_wakeup {A} ch (f : K A) Q s :
  length (k_procs s) = NPROC →
  (∀ s', idle s s' → s' = set_procs (k_procs s') s → wp E G R Q (f s')) → wp E G R Q ((wakeup ch;; f) s).
Proof. intros H Hf. destruct (wakeup_idle ch s H) as (s' & E' & Hi & Hs). eapply wp_ok; [done|by apply Hf]. Qed.

Lemma wp_sleep ch i Q s :
  runs_on i s → (∀ s1, idle s s1 → G s1) →
  (∀ s1 s2 s3, idle s s1 → R s1 s2 → idle s2 s3 → Q tt s3) →
  wp E G R Q (sleep ch s).
Proof.
  intros [Hc Hi Hl] HG HQ. destruct (lookup_lt_is_Some_2 (k_procs s) i) as [p Hp]; [lia|].
  rewrite (sleep_run ch i s p Hc Hp). simpl.
  assert (idle s (set_procs (alter (asleep ch) i (k_procs s)) s)) as H1.
  { apply idle_alter. by intros []. }
  split; [by apply HG|]. intros s' HR. eapply HQ; [done|done|]. apply idle_alter. by intros [].
Qed.
End wp_sched.

(** Waiting in an idle system. *)
Lemma wp_sleep_idle E ch i Q s :
  runs_on i s → (∀ s', idle s s' → Q tt s') → wp E (λ _, True) idle Q (sleep ch s).
Proof.
  intros Hr HQ. apply (wp_sleep _ _ _ ch i); [done..|]. intros s1 s2 s3 H1 H2 H3. apply HQ.
  by do 2 (etrans; [done|]).
Qed.
