(* ===== verification/Sleeplock.v ===== *)
(** Sleep locks: src/kernel/sleeplock.c.  A sleep lock is a field of a buffer or
    of an inode; [slref] says where it is and which address its waiters sleep
    on. *)

From S2P Require Import Prelude Machine Str Types Proc ProcSpec Rely.

(** How often a loop that waits may find that it has to wait again.  No bound
    exists in the code; theorems hold for every value. *)
Class Waits : Type := max_waits : nat.

Record slref : Type := {
  sl_get : kstate → sleeplock;
  sl_put : sleeplock → kstate → kstate;
  sl_chan : chan }.

Definition initsleeplock (lk : slref) : K unit := modify (sl_put lk (mkSlk false 0)).

(** [myproc()->pid] *)
Definition mypid : K Z := i ← curproc; p ← getp i; mret (p_pid p).

(** [while (lk->locked) sleep(lk, &lk->lk)] *)
Fixpoint acquiresleep_wait (fuel : nat) (lk : slref) : K unit :=
  l ← gets (sl_get lk);
  if sl_locked l then
    match fuel with
    | O => halt NoFuel
    | S fuel' => sleep (sl_chan lk);; acquiresleep_wait fuel' lk
    end
  else mret tt.

Definition acquiresleep `{Waits} (lk : slref) : K unit :=
  acquiresleep_wait max_waits lk;;
  pid ← mypid;
  modify (sl_put lk (mkSlk true pid)).

Definition releasesleep (lk : slref) : K unit :=
  modify (sl_put lk (mkSlk false 0));;
  wakeup (sl_chan lk).

Definition holdingsleep (lk : slref) : K bool :=
  l ← gets (sl_get lk);
  if sl_locked l then pid ← mypid; mret (sl_pid l =? pid) else mret false.

(** ** What they do *)

(** The pid of the current process. *)
Definition cur_pid (s : kstate) : Z := default 0 (i ← k_cur s; Some (p_pid (proc_at s i))).

Lemma mypid_run i s : runs_on i s → mypid s = Ok (cur_pid s) s.
Proof.
  intros [Hc _ _]. unfold mypid, curproc, myproc, getp, cur_pid, mbind, M_bind, gets. cbn [obind].
  by rewrite Hc.
Qed.

Lemma cur_pid_idle s s' : idle s s' → cur_pid s' = cur_pid s.
Proof.
  intros H. pose proof (idle_get _ _ H) as (_ & _ & _ & _ & _ & _ & Hc & _). unfold cur_pid.
  rewrite Hc. destruct (k_cur s) as [i|]; [|done]. cbn. by apply idle_pid.
Qed.

(** Held by the running process. *)
Definition holds (lk : slref) (s : kstate) : Prop := sl_get lk s = mkSlk true (cur_pid s).
#[global] Instance sleeplock_eq_dec : EqDecision sleeplock.
Proof. solve_decision. Defined.
#[global] Instance holds_dec lk s : Decision (holds lk s).
Proof. unfold holds. apply _. Defined.
Definition free (lk : slref) (s : kstate) : Prop := sl_locked (sl_get lk s) = false.

Lemma acquiresleep_free `{Waits} lk i s :
  runs_on i s → free lk s → acquiresleep lk s = Ok tt (sl_put lk (mkSlk true (cur_pid s)) s).
Proof.
  intros Hr Hf. unfold acquiresleep. rewrite (seq_ok _ _ _ s).
  - by rewrite (bind_ok _ _ _ _ _ (mypid_run i s Hr)).
  - unfold free in Hf. destruct max_waits; cbn [acquiresleep_wait]; unfold mbind, M_bind, gets;
      cbn [obind]; by rewrite Hf.
Qed.

Lemma holdingsleep_holds lk i s : runs_on i s → holds lk s → holdingsleep lk s = Ok true s.
Proof.
  intros Hr Hh. unfold holdingsleep. rewrite (bind_ok _ _ _ _ _ (eq_refl : gets (sl_get lk) s = Ok _ s)).
  rewrite Hh. cbn [sl_locked]. rewrite (bind_ok _ _ _ _ _ (mypid_run i s Hr)). cbn. by rewrite Z.eqb_refl.
Qed.

Lemma holdingsleep_run lk i s :
  runs_on i s → ∃ b, holdingsleep lk s = Ok b s ∧
    (b = true ↔ sl_locked (sl_get lk s) = true ∧ sl_pid (sl_get lk s) = cur_pid s).
Proof.
  intros Hr. unfold holdingsleep. rewrite (bind_ok _ _ _ _ _ (eq_refl : gets (sl_get lk) s = Ok _ s)).
  destruct (sl_locked (sl_get lk s)).
  - rewrite (bind_ok _ _ _ _ _ (mypid_run i s Hr)). eexists. split; [done|]. rewrite Z.eqb_eq. tauto.
  - exists false. split; [done|]. split; [done|]. by intros [? _].
Qed.
