(* ===== verification/Bio.v ===== *)
(** The buffer cache: src/kernel/bio.c.

    [k_bufs] holds the buffers 0 .. NBUF-1 and, at index NBUF, the list head
    [bcache.head]; [b_prev] and [b_next] are indices.  The disk driver is the
    class [Disk]: what the cache relies on is that a transfer that returns has
    been made, whatever the thread waited for in between. *)

From S2P Require Import Prelude Machine Str Types Proc ProcSpec Rely Sleeplock.

Definition BSIZE : Z := 1024.
Definition HEAD : nat := NBUF.

Definition buf_at (s : kstate) (b : nat) : buf := default buf0 (k_bufs s !! b).
Definition getb (b : nat) : K buf := gets (λ s, buf_at s b).
Definition upd_buf (b : nat) (f : buf → buf) (s : kstate) : kstate :=
  set_bufs (alter f b (k_bufs s)) s.
Definition setb (b : nat) (f : buf → buf) : K unit := modify (upd_buf b f).

Definition buf_lock (b : nat) : slref := {|
  sl_get := λ s, b_lock (buf_at s b);
  sl_put := λ l, upd_buf b (set_b_lock l);
  sl_chan := ChBufLock b |}.

(** ** The disk *)

(** A block of the disk, BSIZE bytes. *)
Definition disk_block (d : gmap Z (list Z)) (n : Z) : list Z := default (replicate 1024 0) (d !! n).

(** The transfer of a buffer: [write] to the disk or from it. *)
Definition transferred (b : nat) (write : bool) (s : kstate) : kstate :=
  let x := buf_at s b in
  if write then
    set_dwrites (k_dwrites s ++ [(b_blockno x, b_data x)])
      (set_disk (<[b_blockno x := b_data x]> (k_disk s)) s)
  else upd_buf b (set_b_data (disk_block (k_disk s) (b_blockno x))) s.

Class Disk : Type := {
  virtio_disk_rw : nat → bool → K unit;
  (** The caller waits for the transfer, which is complete on return. *)
  virtio_disk_rw_spec E (G : kstate → Prop) (R : kstate → kstate → Prop) b write i s (Q : unit → kstate → Prop) :
    PreOrder R → (∀ s1 s2, idle s1 s2 → R s1 s2) → (∀ s1 s2, R s1 s2 → runs_on i s1 → runs_on i s2) →
    runs_on i s → (∀ s1, R s s1 → G s1) →
    (∀ s1, R s s1 → Q tt (transferred b write s1)) →
    wp E G R Q (virtio_disk_rw b write s) }.

(** ** bio.c *)

Section bio.
Context `{D : Disk} `{W : Waits}.

Definition binit : K unit :=
  setb HEAD (set_b_prev HEAD);;
  setb HEAD (set_b_next HEAD);;
  forM_ (seq 0 NBUF) (λ b,
    h ← getb HEAD;
    setb b (set_b_next (b_next h));;
    setb b (set_b_prev HEAD);;
    initsleeplock (buf_lock b);;
    h ← getb HEAD;
    setb (b_next h) (set_b_prev b);;
    setb HEAD (set_b_next b)).

(** [for(b = bcache.head.next; b != &bcache.head; b = b->next)]: the buffer of
    the block, if it is cached. *)
Fixpoint bget_find (fuel : nat) (dev blockno : Z) (b : nat) : K (option nat) :=
  if decide (b = HEAD) then mret None
  else
    match fuel with
    | O => halt NoFuel
    | S fuel' =>
        x ← getb b;
        if (b_dev x =? dev) && (b_blockno x =? blockno) then mret (Some b)
        else bget_find fuel' dev blockno (b_next x)
    end.

(** [for(b = bcache.head.prev; b != &bcache.head; b = b->prev)]: the least
    recently used buffer without references. *)
Fixpoint bget_lru (fuel : nat) (b : nat) : K (option nat) :=
  if decide (b = HEAD) then mret None
  else
    match fuel with
    | O => halt NoFuel
    | S fuel' =>
        x ← getb b;
        if b_refcnt x =? 0 then mret (Some b) else bget_lru fuel' (b_prev x)
    end.

Definition bget (dev blockno : Z) : K nat :=
  h ← getb HEAD;
  r ← bget_find NBUF dev blockno (b_next h);
  match r with
  | Some b =>
      setb b (λ x, set_b_refcnt (u32 (b_refcnt x + 1)) x);;
      acquiresleep (buf_lock b);;
      mret b
  | None =>
      h ← getb HEAD;
      r ← bget_lru NBUF (b_prev h);
      match r with
      | Some b =>
          setb b (set_b_dev dev);;
          setb b (set_b_blockno blockno);;
          setb b (set_b_valid false);;
          setb b (set_b_refcnt 1);;
          acquiresleep (buf_lock b);;
          mret b
      | None => panic "bget: no buffers"
      end
  end.

Definition bread (dev blockno : Z) : K nat :=
  b ← bget dev blockno;
  x ← getb b;
  (if negb (b_valid x) then
     virtio_disk_rw b false;;
     setb b (set_b_valid true)
   else mret tt);;
  mret b.

Definition bwrite (b : nat) : K unit :=
  h ← holdingsleep (buf_lock b);
  if negb h then panic "bwrite" else virtio_disk_rw b true.

Definition brelse (b : nat) : K unit :=
  h ← holdingsleep (buf_lock b);
  if negb h then panic "brelse"
  else
    releasesleep (buf_lock b);;
    setb b (λ x, set_b_refcnt (u32 (b_refcnt x - 1)) x);;
    x ← getb b;
    if b_refcnt x =? 0 then
      setb (b_next x) (set_b_prev (b_prev x));;
      x ← getb b;
      setb (b_prev x) (set_b_next (b_next x));;
      h ← getb HEAD;
      setb b (set_b_next (b_next h));;
      setb b (set_b_prev HEAD);;
      h ← getb HEAD;
      setb (b_next h) (set_b_prev b);;
      setb HEAD (set_b_next b)
    else mret tt.

Definition bpin (b : nat) : K unit := setb b (λ x, set_b_refcnt (u32 (b_refcnt x + 1)) x).
Definition bunpin (b : nat) : K unit := setb b (λ x, set_b_refcnt (u32 (b_refcnt x - 1)) x).
End bio.
