(* ===== verification/BioSpec.v ===== *)
(** The buffer cache is a set of blocks in least-recently-used order: its
    doubly linked list always visits every buffer exactly once, and no block is
    cached twice, under any interleaving; a thread that holds a buffer sees the
    block's contents. *)

From S2P Require Import Prelude Machine Str Types Proc ProcSpec Rely Sleeplock Bio.

(** ** Doubly linked lists in an array of buffers *)

Definition bufi (bs : list buf) (i : nat) : buf := default buf0 (bs !! i).
Definition nxt (bs : list buf) (i : nat) : nat := b_next (bufi bs i).
Definition prv (bs : list buf) (i : nat) : nat := b_prev (bufi bs i).

(** Following [next] from [x] visits [l] and ends at [y]; [prev] goes back. *)
Fixpoint links (nx pv : nat → nat) (x : nat) (l : list nat) (y : nat) : Prop :=
  match l with
  | [] => nx x = y ∧ pv y = x
  | z :: l' => nx x = z ∧ pv z = x ∧ links nx pv z l' y
  end.

Lemma links_app nx pv x l1 z l2 y :
  links nx pv x (l1 ++ z :: l2) y ↔ links nx pv x l1 z ∧ links nx pv z l2 y.
Proof.
  revert x. induction l1 as [|w l1 IH]; intros x; simpl; [tauto|]. rewrite IH. tauto.
Qed.

Lemma links_ext nx pv nx' pv' x l y :
  (∀ i, i ∈ x :: l → nx' i = nx i) → (∀ i, i ∈ y :: l → pv' i = pv i) →
  links nx pv x l y → links nx' pv' x l y.
Proof.
  revert x. induction l as [|z l IH]; intros x Hn Hp; simpl.
  - intros [H1 H2]. rewrite Hn, Hp by (by left). done.
  - intros (H1 & H2 & H). rewrite Hn by by left. rewrite Hp by (by right; left). split_and!; [done..|].
    revert H. apply IH; intros i Hi.
    + apply Hn. by right.
    + apply Hp. apply elem_of_cons in Hi as [->|Hi]; [by left|by do 2 right].
Qed.

Lemma last_cons (z : nat) l x : List.last (z :: l) x = List.last l z.
Proof. revert z x. induction l as [|w l IH]; intros z x; [done|]. change (List.last (w :: l) x = List.last (w :: l) z). by rewrite !IH. Qed.

(** The neighbours of an element. *)
Lemma links_neighbours nx pv x l1 b l2 y :
  links nx pv x (l1 ++ b :: l2) y →
  pv b = List.last l1 x ∧ nx b = hd y l2.
Proof.
  rewrite links_app. intros [H1 H2]. split.
  - clear H2. revert x H1. induction l1 as [|z l1 IH]; intros x; [by intros [_ ->]|].
    intros (_ & _ & H). by rewrite (IH _ H), last_cons.
  - destruct l2; [by destruct H2|by destruct H2].
Qed.

Lemma links_last nx pv x l y : links nx pv x l y → pv y = List.last l x.
Proof.
  revert x. induction l as [|z l IH]; intros x; [by intros [_ ->]|].
  intros (_ & _ & H). by rewrite (IH _ H), last_cons.
Qed.

Lemma last_elem x (l : list nat) : List.last l x ∈ x :: l.
Proof.
  induction l as [|z l IH] using rev_ind; [by left|]. rewrite List.last_last. right. apply elem_of_app.
  right. by left.
Qed.
Lemma hd_elem y (l : list nat) : hd y l ∈ y :: l.
Proof. destruct l; [by left|right; by left]. Qed.

(** Unlinking [b]: its neighbours are joined. *)
Lemma links_remove nx pv nx' pv' x l1 b l2 y :
  links nx pv x (l1 ++ b :: l2) y →
  NoDup (x :: l1 ++ b :: l2) → y ∉ l1 ++ b :: l2 →
  (∀ i, nx' i = if decide (i = pv b) then nx b else nx i) →
  (∀ i, pv' i = if decide (i = nx b) then pv b else pv i) →
  links nx' pv' x (l1 ++ l2) y.
Proof.
  intros H Hnd Hy Hn Hp. revert x H Hnd. induction l1 as [|z l1 IH]; intros x H Hnd.
  - simpl in *. destruct H as (Hx & Hpb & H).
    apply list.NoDup_cons in Hnd as [Hxn Hnd]. apply list.NoDup_cons in Hnd as [Hbn Hnd].
    destruct l2 as [|n l2]; simpl in *.
    + rewrite Hn, Hp, Hpb. destruct H as [-> _]. by rewrite !decide_True.
    + destruct H as (Hbn' & _ & H). rewrite Hn, Hp, Hpb, Hbn', !decide_True by done. split_and!; [done..|].
      apply list.NoDup_cons in Hnd as [Hnn Hnd].
      apply (links_ext nx pv); [..|done]; intros i Hi.
      * rewrite Hn, Hpb, decide_False; [done|]. clear -Hi Hxn. set_solver.
      * rewrite Hp, Hbn', decide_False; [done|]. clear -Hi Hnn Hy. set_solver.
  - destruct (links_neighbours _ _ _ _ _ _ _ H) as [Hpb Hnb]. simpl in H. destruct H as (Hx & Hz & H).
    assert (pv b ∈ z :: l1) as Hpb'.
    { rewrite (proj1 (links_neighbours _ _ _ _ _ _ _ H)). apply last_elem. }
    pose proof (hd_elem y l2) as Hh. rewrite <- Hnb in Hh.
    apply list.NoDup_cons in Hnd as [Hxn Hnd]. pose proof Hnd as Hnd'.
    simpl in Hnd. apply list.NoDup_cons in Hnd as [Hzn _]. simpl. split_and!.
    + rewrite Hn, decide_False; [done|]. intros ->. apply Hxn. clear -Hpb'. set_solver.
    + rewrite Hp, decide_False; [done|]. intros ->. clear -Hh Hy Hzn. set_solver.
    + apply IH; [clear -Hy; set_solver|done|done].
Qed.

(** Linking [b] in after [x]. *)
Lemma links_push nx pv nx' pv' x l b y :
  links nx pv x l y → NoDup (b :: x :: l) → y ∉ b :: l →
  (∀ i, nx' i = if decide (i = x) then b else if decide (i = b) then nx x else nx i) →
  (∀ i, pv' i = if decide (i = nx x) then b else if decide (i = b) then x else pv i) →
  links nx' pv' x (b :: l) y.
Proof.
  intros H Hnd Hy Hn Hp. apply list.NoDup_cons in Hnd as [Hb Hnd]. apply list.NoDup_cons in Hnd as [Hx Hnd].
  destruct l as [|z l]; simpl in *.
  - destruct H as [Hxy _]. rewrite !Hn, !Hp, Hxy. clear -Hb Hx Hy. split_and!; repeat case_decide; set_solver.
  - destruct H as (Hxz & _ & H). rewrite !Hn, !Hp, Hxz. apply list.NoDup_cons in Hnd as [Hz Hnd].
    split_and!; [clear -Hb Hx Hy Hz; repeat case_decide; set_solver..|].
    apply (links_ext nx pv); [..|done]; intros i Hi; rewrite ?Hn, ?Hp; clear -Hi Hb Hx Hy Hz Hxz;
      repeat case_decide; set_solver.
Qed.

(** ** The cache's invariant *)

Record bcache_ok (l : list nat) (bs : list buf) : Prop := {
  bc_len : length bs = S NBUF;
  bc_links : links (nxt bs) (prv bs) HEAD l HEAD;
  bc_perm : l ≡ₚ seq 0 NBUF;
  bc_uniq : ∀ i j, (i < NBUF)%nat → (j < NBUF)%nat → b_dev (bufi bs i) ≠ 0 →
    b_dev (bufi bs i) = b_dev (bufi bs j) → b_blockno (bufi bs i) = b_blockno (bufi bs j) → i = j }.

Lemma bufi_alter f i bs j : (i < length bs)%nat →
  bufi (alter f i bs) j = if decide (j = i) then f (bufi bs j) else bufi bs j.
Proof.
  intros Hi. unfold bufi. case_decide as Hji.
  - subst j. rewrite list_lookup_alter_eq. destruct (lookup_lt_is_Some_2 bs i Hi) as [x ->]. done.
  - by rewrite list_lookup_alter_ne by done.
Qed.

Lemma upd_buf_upd_buf b f g s : upd_buf b g (upd_buf b f s) = upd_buf b (λ x, g (f x)) s.
Proof. unfold upd_buf. cbn [k_bufs set_bufs]. rewrite alter_alter. done. Qed.

Lemma bc_elem l bs i : bcache_ok l bs → (i ∈ l ↔ (i < NBUF)%nat).
Proof. intros H. rewrite (bc_perm _ _ H), elem_of_seq. lia. Qed.

Lemma bc_nodup l bs : bcache_ok l bs → NoDup (HEAD :: l) ∧ (HEAD ∉ l) ∧ length l = NBUF.
Proof.
  intros H. assert (HEAD ∉ l) as Hh by (rewrite (bc_elem _ _ _ H); unfold HEAD; lia).
  split_and!; [|done|by rewrite (bc_perm _ _ H), length_seq].
  apply list.NoDup_cons. split; [done|]. rewrite (bc_perm _ _ H). apply NoDup_seq.
Qed.

(** Updates that leave the links and the block numbers alone. *)
Definition keeps_place (f : buf → buf) : Prop :=
  ∀ x, b_next (f x) = b_next x ∧ b_prev (f x) = b_prev x ∧ b_dev (f x) = b_dev x ∧
       b_blockno (f x) = b_blockno x.

Lemma bcache_alter l bs f i : keeps_place f → bcache_ok l bs → bcache_ok l (alter f i bs).
Proof.
  intros Hf [Hlen Hlk Hp Hu].
  destruct (decide (i < length bs)%nat) as [Hi|Hi].
  2: { rewrite (alter_same f bs i); [done|]. intros x Hx. apply lookup_lt_Some in Hx. lia. }
  assert (∀ j, let x := bufi (alter f i bs) j in let y := bufi bs j in
    b_next x = b_next y ∧ b_prev x = b_prev y ∧ b_dev x = b_dev y ∧ b_blockno x = b_blockno y) as H.
  { intros j. rewrite bufi_alter by done. case_decide; [apply Hf|done]. }
  split; [by rewrite length_alter| |done|].
  - revert Hlk. apply links_ext; intros j _; unfold nxt, prv; apply H.
  - intros a b Ha Hb. destruct (H a) as (_ & _ & -> & ->). destruct (H b) as (_ & _ & -> & ->). by apply Hu.
Qed.

(** ** [bget] *)

Definition matches (bs : list buf) (dev blockno : Z) (b : nat) : Prop :=
  b_dev (bufi bs b) = dev ∧ b_blockno (bufi bs b) = blockno.
#[global] Instance matches_dec bs dev blockno b : Decision (matches bs dev blockno b).
Proof. unfold matches. apply _. Defined.
Definition unused (bs : list buf) (b : nat) : Prop := b_refcnt (bufi bs b) = 0.
#[global] Instance unused_dec bs b : Decision (unused bs b).
Proof. unfold unused. apply _. Defined.

Lemma bget_find_run dev blockno s (fuel : nat) : ∀ l x,
  links (nxt (k_bufs s)) (prv (k_bufs s)) x l HEAD → HEAD ∉ l → (length l ≤ fuel)%nat →
  bget_find fuel dev blockno (nxt (k_bufs s) x) s =
    Ok (head (filter (matches (k_bufs s) dev blockno) l)) s.
Proof.
  induction fuel as [|fuel IH]; intros [|b l] x Hl Hh Hf; simpl in Hf; try lia;
    simpl in Hl; cbn [bget_find].
  - destruct Hl as [-> _]. by rewrite decide_True.
  - destruct Hl as [-> _]. by rewrite decide_True.
  - destruct Hl as (-> & _ & Hl). apply not_elem_of_cons in Hh as [Hb Hh]. rewrite decide_False by done.
    rewrite (bind_ok _ _ _ _ _ (eq_refl : getb b s = Ok (bufi (k_bufs s) b) s)).
    rewrite filter_cons. unfold matches at 2.
    destruct (Z.eqb_spec (b_dev (bufi (k_bufs s) b)) dev), (Z.eqb_spec (b_blockno (bufi (k_bufs s) b)) blockno);
      simpl; [by rewrite decide_True|rewrite decide_False by tauto; by apply IH; [..|lia]..].
Qed.

Lemma bget_lru_run s l : ∀ (fuel : nat) y,
  links (nxt (k_bufs s)) (prv (k_bufs s)) HEAD l y → HEAD ∉ l → (length l ≤ fuel)%nat →
  bget_lru fuel (prv (k_bufs s) y) s = Ok (list.last (filter (unused (k_bufs s)) l)) s.
Proof.
  induction l as [|b l IH] using rev_ind; intros fuel y Hl Hh Hf.
  - destruct Hl as [_ ->]. destruct fuel; cbn [bget_lru]; by rewrite decide_True.
  - rewrite length_app in Hf. simpl in Hf. destruct fuel as [|fuel]; [lia|]. cbn [bget_lru].
    apply links_app in Hl as [Hl [_ ->]]. apply not_elem_of_app in Hh as [Hh Hb].
    rewrite decide_False by (clear -Hb; set_solver).
    rewrite (bind_ok _ _ _ _ _ (eq_refl : getb b s = Ok (bufi (k_bufs s) b) s)).
    rewrite list.filter_app, filter_cons, filter_nil. unfold unused at 2.
    destruct (Z.eqb_spec (b_refcnt (bufi (k_bufs s) b)) 0).
    + rewrite decide_True by done. by rewrite last_snoc.
    + rewrite decide_False by done. rewrite app_nil_r. apply IH; [done|done|lia].
Qed.

(** The buffer [bget] takes: the one that caches the block ([true]) or else the
    least recently used one without references. *)
Definition bget_choice (l : list nat) (bs : list buf) (dev blockno : Z) : option (nat * bool) :=
  match head (filter (matches bs dev blockno) l) with
  | Some b => Some (b, true)
  | None => (λ b, (b, false)) <$> list.last (filter (unused bs) l)
  end.

Definition claimed (hit : bool) (dev blockno : Z) (x : buf) : buf :=
  if hit then set_b_refcnt (u32 (b_refcnt x + 1)) x
  else mkBuf false dev blockno (b_lock x) 1 (b_prev x) (b_next x) (b_data x).

Section bget.
Context `{D : Disk} `{W : Waits}.

Lemma bget_run l dev blockno s :
  bcache_ok l (k_bufs s) →
  bget dev blockno s =
    match bget_choice l (k_bufs s) dev blockno with
    | Some (b, hit) =>
        (acquiresleep (buf_lock b);; mret b) (upd_buf b (claimed hit dev blockno) s)
    | None => Stop (Panics "bget: no buffers") s
    end.
Proof.
  intros H. destruct (bc_nodup _ _ H) as (_ & Hh & Hlen). unfold bget, bget_choice.
  rewrite (bind_ok _ _ _ _ _ (eq_refl : getb HEAD s = Ok (bufi (k_bufs s) HEAD) s)).
  rewrite (bind_ok _ _ _ _ _ (bget_find_run dev blockno s NBUF l HEAD (bc_links _ _ H) Hh ltac:(lia))).
  destruct (head _) as [b|]; [done|].
  rewrite (bind_ok _ _ _ _ _ (eq_refl : getb HEAD s = Ok (bufi (k_bufs s) HEAD) s)).
  rewrite (bind_ok _ _ _ _ _ (bget_lru_run s l NBUF HEAD (bc_links _ _ H) Hh ltac:(lia))).
  destruct (list.last _) as [b|]; [|done]. cbn [fmap option_fmap option_map].
  unfold setb. do 4 (rewrite (seq_ok _ _ _ _ (eq_refl : modify _ _ = Ok tt _))).
  by rewrite !upd_buf_upd_buf.
Qed.
End bget.

(** What the choice tells. *)
Lemma bget_choice_some l bs dev blockno b hit :
  bcache_ok l bs → bget_choice l bs dev blockno = Some (b, hit) →
  (b < NBUF)%nat ∧
  if hit then matches bs dev blockno b
  else unused bs b ∧ ∀ i, (i < NBUF)%nat → ¬ matches bs dev blockno i.
Proof.
  intros H. unfold bget_choice. destruct (head _) as [b'|] eqn:Hh.
  - intros [= <- <-]. apply head_Some_elem_of in Hh. apply list_elem_of_filter in Hh as [Hm Hb].
    split; [by apply (bc_elem _ _ _ H)|done].
  - destruct (list.last _) as [b'|] eqn:Hl; [|done]. intros [= <- <-].
    apply last_Some_elem_of in Hl. apply list_elem_of_filter in Hl as [Hu Hb].
    split_and!; [by apply (bc_elem _ _ _ H)|done|]. intros i Hi Hm.
    apply head_None in Hh. apply (filter_nil_not_elem_of _ _ i Hh Hm). by apply (bc_elem _ _ _ H).
Qed.

Lemma bcache_claimed l bs dev blockno b hit :
  bcache_ok l bs → bget_choice l bs dev blockno = Some (b, hit) →
  bcache_ok l (alter (claimed hit dev blockno) b bs).
Proof.
  intros H Hc. destruct (bget_choice_some _ _ _ _ _ _ H Hc) as [Hb Hh]. destruct hit.
  - by apply bcache_alter.
  - destruct H as [Hlen Hlk Hp Hu]. assert (b < length bs)%nat as Hb' by lia.
    destruct Hh as [_ Hno].
    split; [by rewrite length_alter| |done|].
    + revert Hlk. apply links_ext; intros j _; unfold nxt, prv; rewrite bufi_alter by done; by case_decide.
    + intros i j Hi Hj. rewrite !bufi_alter by done. specialize (Hno i Hi) as Hni. specialize (Hno j Hj).
      unfold matches in *. repeat case_decide; simpl; intros; [congruence|naive_solver|naive_solver|by apply Hu].
Qed.

Lemma nxt_set_next bs i v j : (i < length bs)%nat →
  nxt (alter (set_b_next v) i bs) j = if decide (j = i) then v else nxt bs j.
Proof. intros Hi. unfold nxt. rewrite bufi_alter by done. by case_decide. Qed.
Lemma nxt_set_prev bs i v j : nxt (alter (set_b_prev v) i bs) j = nxt bs j.
Proof.
  unfold nxt, bufi. destruct (decide (j = i)) as [->|]; [|by rewrite list_lookup_alter_ne].
  rewrite list_lookup_alter_eq. by destruct (bs !! i).
Qed.
Lemma prv_set_prev bs i v j : (i < length bs)%nat →
  prv (alter (set_b_prev v) i bs) j = if decide (j = i) then v else prv bs j.
Proof. intros Hi. unfold prv. rewrite bufi_alter by done. by case_decide. Qed.
Lemma prv_set_next bs i v j : prv (alter (set_b_next v) i bs) j = prv bs j.
Proof.
  unfold prv, bufi. destruct (decide (j = i)) as [->|]; [|by rewrite list_lookup_alter_ne].
  rewrite list_lookup_alter_eq. by destruct (bs !! i).
Qed.

(** [b->next->prev = b->prev; b->prev->next = b->next] *)
Definition unlink (b : nat) (bs : list buf) : list buf :=
  let bs1 := alter (set_b_prev (prv bs b)) (nxt bs b) bs in
  alter (set_b_next (nxt bs1 b)) (prv bs1 b) bs1.

(** [b->next = head.next; b->prev = &head; head.next->prev = b; head.next = b] *)
Definition push (b : nat) (bs : list buf) : list buf :=
  let bs1 := alter (set_b_prev HEAD) b (alter (set_b_next (nxt bs HEAD)) b bs) in
  alter (set_b_next b) HEAD (alter (set_b_prev b) (nxt bs1 HEAD) bs1).

Lemma unlink_links l1 b l2 bs :
  links (nxt bs) (prv bs) HEAD (l1 ++ b :: l2) HEAD → NoDup (HEAD :: l1 ++ b :: l2) →
  Forall (λ i, i < length bs)%nat (HEAD :: l1 ++ b :: l2) →
  links (nxt (unlink b bs)) (prv (unlink b bs)) HEAD (l1 ++ l2) HEAD.
Proof.
  intros H Hnd Hr. pose proof Hnd as Hnd'. apply list.NoDup_cons in Hnd' as [Hh Hnd'].
  destruct (links_neighbours _ _ _ _ _ _ _ H) as [Hp Hn].
  pose proof (last_elem HEAD l1) as Hp'. rewrite <- Hp in Hp'.
  pose proof (hd_elem HEAD l2) as Hn'. rewrite <- Hn in Hn'.
  rewrite list.Forall_forall in Hr.
  assert (nxt bs b < length bs)%nat as Hln by (apply Hr; clear -Hn'; set_solver).
  assert (prv bs b < length bs)%nat as Hlp by (apply Hr; clear -Hp'; set_solver).
  assert (b ≠ nxt bs b) as Hbn.
  { intros E. rewrite <- E in Hn'. apply list.NoDup_app in Hnd' as (_ & _ & Hnd2).
    apply list.NoDup_cons in Hnd2 as [Hb _]. clear -Hn' Hb Hh. set_solver. }
  unfold unlink. rewrite nxt_set_prev, prv_set_prev, decide_False by done.
  apply (links_remove _ _ _ _ _ _ _ _ _ H Hnd Hh); intros i.
  - rewrite nxt_set_next by by rewrite length_alter. by rewrite nxt_set_prev.
  - rewrite prv_set_next. by rewrite prv_set_prev.
Qed.

Lemma push_links b l bs :
  links (nxt bs) (prv bs) HEAD l HEAD → NoDup (b :: HEAD :: l) →
  Forall (λ i, i < length bs)%nat (b :: HEAD :: l) →
  links (nxt (push b bs)) (prv (push b bs)) HEAD (b :: l) HEAD.
Proof.
  intros H Hnd Hr. pose proof Hnd as Hnd'. apply list.NoDup_cons in Hnd' as [Hb Hnd'].
  apply list.NoDup_cons in Hnd' as [Hh _].
  assert (nxt bs HEAD < length bs)%nat as Hln.
  { rewrite list.Forall_forall in Hr. apply Hr. destruct l; simpl in H; [destruct H as [-> _]|destruct H as [-> _]]; set_solver. }
  apply list.Forall_cons in Hr as [Hrb Hr]. apply list.Forall_cons in Hr as [Hrh _].
  unfold push. rewrite nxt_set_prev, nxt_set_next, decide_False by (done || clear -Hb; set_solver).
  apply (links_push _ _ _ _ _ _ _ _ H Hnd); [clear -Hb Hh; set_solver|intros i..].
  - rewrite nxt_set_next by by rewrite !length_alter. rewrite !nxt_set_prev. by rewrite nxt_set_next.
  - rewrite prv_set_next, !prv_set_prev by by rewrite ?length_alter. by rewrite prv_set_next.
Qed.

(** Moving [b] to the front of the list. *)
Definition brelse_links (b : nat) (s : kstate) : kstate :=
  let x := buf_at s b in
  let s := upd_buf (b_next x) (set_b_prev (b_prev x)) s in
  let x := buf_at s b in
  let s := upd_buf (b_prev x) (set_b_next (b_next x)) s in
  let s := upd_buf b (set_b_next (b_next (buf_at s HEAD))) s in
  let s := upd_buf b (set_b_prev HEAD) s in
  let s := upd_buf (b_next (buf_at s HEAD)) (set_b_prev b) s in
  upd_buf HEAD (set_b_next b) s.

(** Updates of links only. *)
Definition same_place (bs bs' : list buf) : Prop :=
  length bs' = length bs ∧
  ∀ i, set_b_prev 0 (set_b_next 0 (bufi bs' i)) = set_b_prev 0 (set_b_next 0 (bufi bs i)).

Lemma same_place_upd bs i f :
  (∀ x, set_b_prev 0 (set_b_next 0 (f x)) = set_b_prev 0 (set_b_next 0 x)) →
  same_place bs (alter f i bs).
Proof.
  intros Hf. split; [by rewrite length_alter|]. intros j.
  destruct (decide (i < length bs)%nat) as [Hi|Hi].
  - rewrite bufi_alter by done. case_decide; [apply Hf|done].
  - rewrite (alter_same f bs i); [done|]. intros x Hx. apply lookup_lt_Some in Hx. lia.
Qed.

#[global] Instance same_place_preorder : PreOrder same_place.
Proof.
  split; [done|]. intros b1 b2 b3 [L1 H1] [L2 H2]. split; [congruence|]. intros i. by rewrite H2.
Qed.

Lemma brelse_links_place b s : same_place (k_bufs s) (k_bufs (brelse_links b s)).
Proof.
  unfold brelse_links, upd_buf. cbn [k_bufs set_bufs].
  do 6 (etrans; [|apply same_place_upd; by intros []]). done.
Qed.

Lemma brelse_links_ok l1 b l2 s :
  bcache_ok (l1 ++ b :: l2) (k_bufs s) → bcache_ok (b :: l1 ++ l2) (k_bufs (brelse_links b s)).
Proof.
  intros H. destruct (bc_nodup _ _ H) as (Hnd & Hh & Hlen). pose proof (brelse_links_place b s) as [Hl' Hsame].
  assert (b < NBUF)%nat as Hb by (apply (bc_elem _ _ _ H), elem_of_app; right; by left).
  split; [rewrite Hl'; apply H| | |].
  - change (k_bufs (brelse_links b s)) with (push b (unlink b (k_bufs s))).
    assert (Forall (λ i, i < length (k_bufs s))%nat (HEAD :: l1 ++ b :: l2)) as Hr.
    { rewrite (bc_len _ _ H). constructor; [unfold HEAD; lia|]. rewrite list.Forall_forall.
      intros i Hi. apply (bc_elem _ _ _ H) in Hi. lia. }
    apply push_links; [by apply unlink_links; [apply H|..]| |].
    + by rewrite Permutation_swap, (Permutation_middle l1 l2 b).
    + unfold unlink. rewrite !length_alter. by rewrite Permutation_swap, (Permutation_middle l1 l2 b).
  - rewrite <- (bc_perm _ _ H). by apply Permutation_middle.
  - intros i j Hi Hj.
    assert (∀ k, b_dev (bufi (k_bufs (brelse_links b s)) k) = b_dev (bufi (k_bufs s) k) ∧
      b_blockno (bufi (k_bufs (brelse_links b s)) k) = b_blockno (bufi (k_bufs s) k)) as Hk.
    { intros k. specialize (Hsame k). destruct (bufi _ k), (bufi (k_bufs s) k). injection Hsame. naive_solver. }
    destruct (Hk i) as [-> ->], (Hk j) as [-> ->]. by apply (bc_uniq _ _ H).
Qed.

(** ** [brelse] *)

Definition released (b : nat) (s : kstate) : kstate :=
  let s1 := upd_buf b (λ x, set_b_refcnt (u32 (b_refcnt x - 1)) (set_b_lock slk0 x)) s in
  if b_refcnt (buf_at s1 b) =? 0 then brelse_links b s1 else s1.

Lemma brelse_run b i s :
  runs_on i s →
  if decide (holds (buf_lock b) s)
  then ∃ ps, brelse b s = Ok tt (set_procs ps (released b s)) ∧ Forall2 resched_proc (k_procs s) ps
  else brelse b s = Stop (Panics "brelse") s.
Proof.
  intros Hr. destruct (holdingsleep_run (buf_lock b) i s Hr) as (h & E & Hh). unfold brelse.
  rewrite (bind_ok _ _ _ _ _ E). case_decide as Hd; unfold holds in Hd.
  - rewrite (proj2 Hh) by by rewrite Hd. cbn [negb].
    unfold releasesleep. set (s0 := sl_put (buf_lock b) (mkSlk false 0) s).
    destruct (wakeup_idle (ChBufLock b) s0 (ro_procs _ _ Hr)) as (s1 & Ew & Hi & Hs1).
    exists (k_procs s1). split; [|apply Hi].
    rewrite (seq_ok _ _ _ s1) by (by rewrite (seq_ok _ _ _ s0)). rewrite Hs1. unfold released.
    rewrite (seq_ok _ _ _ _ (eq_refl : setb _ _ _ = Ok tt _)).
    rewrite (bind_ok _ _ _ _ _ (eq_refl : getb _ _ = Ok _ _)).
    change (buf_at (upd_buf b ?f (set_procs ?ps s0)) b) with (buf_at (upd_buf b f s0) b).
    replace (upd_buf b (λ x, set_b_refcnt (u32 (b_refcnt x - 1)) (set_b_lock slk0 x)) s)
      with (upd_buf b (λ x, set_b_refcnt (u32 (b_refcnt x - 1)) x) s0)
      by (unfold s0; cbn [sl_put buf_lock]; by rewrite upd_buf_upd_buf).
    by case_match.
  - destruct h; [|done]. exfalso. apply Hd. destruct Hh as [Hh _]. destruct (Hh eq_refl) as [H1 H2].
    destruct (sl_get (buf_lock b) s). simpl in *. by subst.
Qed.

Lemma released_ok l b s :
  bcache_ok l (k_bufs s) → (b < NBUF)%nat →
  ∃ l', bcache_ok l' (k_bufs (released b s)) ∧
    (l' = l ∨ b_refcnt (buf_at (released b s) b) = 0 ∧ ∃ l1 l2, l = l1 ++ b :: l2 ∧ l' = b :: l1 ++ l2).
Proof.
  intros H Hb. unfold released.
  set (s1 := upd_buf b _ s). assert (bcache_ok l (k_bufs s1)) as H1 by by apply bcache_alter.
  destruct (Z.eqb_spec (b_refcnt (buf_at s1 b)) 0) as [H0|]; [|exists l; auto].
  apply (bc_elem _ _ _ H), list_elem_of_split in Hb as (l1 & l2 & ->).
  eexists. split; [by apply brelse_links_ok|]. right. split; [|by eauto].
  destruct (brelse_links_place b s1) as [_ Hs]. specialize (Hs b). unfold buf_at in *.
  fold (bufi (k_bufs (brelse_links b s1)) b). fold (bufi (k_bufs s1) b) in H0.
  destruct (bufi _ b), (bufi (k_bufs s1) b). injection Hs. simpl in *. congruence.
Qed.

(** ** The invariant under any interleaving *)

Definition bio_inv (s : kstate) : Prop := ∃ l, bcache_ok l (k_bufs s).

(** Other threads keep the invariant while [i] waits. *)
Definition bio_env (i : nat) (s s' : kstate) : Prop :=
  (runs_on i s → runs_on i s') ∧ (bio_inv s → bio_inv s').

Definition bio_stop (w : stop) : Prop :=
  w = NoFuel ∨ w = Panics "bget: no buffers" ∨ w = Panics "brelse" ∨ w = Panics "bwrite".

#[global] Instance bio_env_preorder i : PreOrder (bio_env i).
Proof. split; [by split|]. intros s1 s2 s3 [] []. split; auto. Qed.

Lemma idle_bio_inv s s' : idle s s' → bio_inv s → bio_inv s'.
Proof. intros H. destruct (idle_get _ _ H) as (Hb & _). unfold bio_inv. by rewrite Hb. Qed.

Lemma idle_bio_env i s s' : idle s s' → bio_env i s s'.
Proof. intros H. split; [by apply idle_runs|by apply idle_bio_inv]. Qed.

Definition ok_run (i : nat) (s : kstate) : Prop := runs_on i s ∧ bio_inv s.

Lemma bio_inv_upd b f s : keeps_place f → bio_inv s → bio_inv (upd_buf b f s).
Proof. intros Hf [l H]. exists l. by apply bcache_alter. Qed.

Lemma runs_upd i b f s : runs_on i s → runs_on i (upd_buf b f s).
Proof. by intros []. Qed.

Section interleaved.
Context `{D : Disk} `{W : Waits}.
Variable i : nat.
Abbreviation seg := (wp bio_stop bio_inv (bio_env i)).

Lemma acquiresleep_seg b s :
  ok_run i s → seg (λ _, ok_run i) (acquiresleep (buf_lock b) s).
Proof.
  intros H. apply (wp_bind_mono _ _ _ (λ _, ok_run i)).
  - revert s H. induction max_waits as [|n IH]; intros s [Hr Hv]; cbn [acquiresleep_wait];
      apply (wp_ok _ _ _ _ _ _ _ _ _ (eq_refl : gets _ s = Ok _ s)); destruct (sl_locked _);
      [by left|done| |done].
    apply (wp_bind_mono _ _ _ (λ _, ok_run i)); [|intros [] s1 H1; by apply IH].
    apply (wp_sleep _ _ _ _ i); [done|intros s1 H1; by apply (idle_bio_inv s)|].
    intros s1 s2 s3 H1 [Hr2 Hv2] H3. split.
    + by apply (idle_runs i s2), Hr2, (idle_runs i s).
    + by apply (idle_bio_inv s2), Hv2, (idle_bio_inv s).
  - intros [] s1 [Hr Hv]. apply (wp_ok _ _ _ _ _ _ _ _ _ (mypid_run i s1 Hr)). cbn.
    split; [by apply runs_upd|by apply bio_inv_upd].
Qed.

Lemma disk_seg b write s : ok_run i s → seg (λ _, ok_run i) (virtio_disk_rw b write s).
Proof.
  intros [Hr Hv]. apply (virtio_disk_rw_spec _ _ _ _ _ i); try done.
  - apply _.
  - apply idle_bio_env.
  - by intros s1 s2 [? _].
  - intros s1 [_ H]. by apply H.
  - intros s1 [Hr1 Hv1]. specialize (Hr1 Hr). specialize (Hv1 Hv). unfold transferred. destruct write.
    + split; [by destruct Hr1|done].
    + split; [by apply runs_upd|by apply bio_inv_upd].
Qed.

Lemma bread_seg dev blockno s : ok_run i s → seg (λ _, ok_run i) (bread dev blockno s).
Proof.
  intros [Hr [l Hl]]. apply (wp_bind_mono _ _ _ (λ _, ok_run i)).
  - rewrite (bget_run l) by done. destruct (bget_choice _ _ _ _) as [[b hit]|] eqn:Hc; [|by right; left].
    apply (wp_bind_mono _ _ _ (λ _, ok_run i)); [|by intros [] s1 H1].
    apply acquiresleep_seg. split; [by apply runs_upd|]. exists l. by apply bcache_claimed.
  - intros b s1 H1. apply (wp_ok _ _ _ _ _ _ _ _ _ (eq_refl : getb b s1 = Ok _ s1)).
    apply (wp_bind_mono _ _ _ (λ _, ok_run i)); [|by intros [] s2 H2].
    destruct (negb _); [|done].
    apply (wp_bind_mono _ _ _ (λ _, ok_run i)); [by apply disk_seg|]. intros [] s2 [Hr2 Hv2].
    split; [by apply runs_upd|by apply bio_inv_upd].
Qed.

Lemma bwrite_seg b s : ok_run i s → seg (λ _, ok_run i) (bwrite b s).
Proof.
  intros [Hr Hv]. destruct (holdingsleep_run (buf_lock b) i s Hr) as (h & E & _).
  apply (wp_ok _ _ _ _ _ _ _ _ _ E). destruct h; [by apply disk_seg|by do 3 right].
Qed.

Lemma brelse_seg b s : (b < NBUF)%nat → ok_run i s → seg (λ _, ok_run i) (brelse b s).
Proof.
  intros Hb [Hr [l Hl]]. pose proof (brelse_run b i s Hr) as H. case_decide.
  - destruct H as (ps & -> & Hps). destruct (released_ok l b s Hl Hb) as (l' & Hl' & _).
    split; [|by exists l']. destruct Hr as [H1 H2 H3]. split.
    + unfold released. by case_match.
    + done.
    + cbn. by rewrite <- (list.Forall2_length _ _ _ Hps).
  - rewrite H. by do 2 right; left.
Qed.
End interleaved.


(** ** [binit] *)

Lemma nxt_set_lock bs i v j : nxt (alter (set_b_lock v) i bs) j = nxt bs j.
Proof.
  unfold nxt, bufi. destruct (decide (j = i)) as [->|]; [|by rewrite list_lookup_alter_ne].
  rewrite list_lookup_alter_eq. by destruct (bs !! i).
Qed.
Lemma prv_set_lock bs i v j : prv (alter (set_b_lock v) i bs) j = prv bs j.
Proof.
  unfold prv, bufi. destruct (decide (j = i)) as [->|]; [|by rewrite list_lookup_alter_ne].
  rewrite list_lookup_alter_eq. by destruct (bs !! i).
Qed.

(** The body of the loop of [binit]. *)
Definition binit_put (b : nat) (bs : list buf) : list buf :=
  let bs1 := alter (set_b_lock slk0) b (alter (set_b_prev HEAD) b (alter (set_b_next (nxt bs HEAD)) b bs)) in
  alter (set_b_next b) HEAD (alter (set_b_prev b) (nxt bs1 HEAD) bs1).

Lemma binit_put_links b l bs :
  links (nxt bs) (prv bs) HEAD l HEAD → NoDup (b :: HEAD :: l) →
  Forall (λ i, i < length bs)%nat (b :: HEAD :: l) →
  links (nxt (binit_put b bs)) (prv (binit_put b bs)) HEAD (b :: l) HEAD.
Proof.
  intros H Hnd Hr. pose proof (push_links b l bs H Hnd Hr) as Hp. revert Hp.
  assert (b < length bs ∧ HEAD < length bs)%nat as [Hb Hh].
  { apply list.Forall_cons in Hr as [? Hr]. by apply list.Forall_cons in Hr as [? _]. }
  assert (nxt bs HEAD < length bs)%nat as Hln.
  { rewrite list.Forall_forall in Hr. apply Hr. destruct l; simpl in H; destruct H as [-> _]; set_solver. }
  assert (b ≠ HEAD) by (apply list.NoDup_cons in Hnd as [Hn _]; set_solver).
  apply links_ext; intros i _; unfold binit_put, push;
    rewrite ?nxt_set_next, ?nxt_set_prev, ?nxt_set_lock, ?nxt_set_prev, ?nxt_set_next, ?prv_set_next,
      ?decide_False by (rewrite ?length_alter; congruence || lia).
  - done.
  - rewrite !prv_set_prev, prv_set_lock, prv_set_prev by (rewrite ?length_alter; lia). done.
Qed.

(** Elements outside the links. *)
Lemma binit_put_other b bs i :
  (b < length bs)%nat → let x := bufi (binit_put b bs) i in let y := bufi bs i in
  b_dev x = b_dev y ∧ b_refcnt x = b_refcnt y ∧ b_valid x = b_valid y ∧ b_data x = b_data y ∧
  b_blockno x = b_blockno y ∧ b_lock x = if decide (i = b) then slk0 else b_lock y.
Proof.
  intros Hb x y. unfold x, binit_put. set (bs1 := alter (set_b_lock slk0) b _).
  assert (same_place bs1 (alter (set_b_next b) HEAD (alter (set_b_prev b) (nxt bs1 HEAD) bs1))) as [_ Hs].
  { do 2 (etrans; [|apply same_place_upd; by intros []]). done. }
  assert (bufi bs1 i = if decide (i = b) then set_b_lock slk0 (set_b_prev HEAD (set_b_next (nxt bs HEAD) y))
                       else y) as Hi.
  { unfold bs1. rewrite !bufi_alter by by rewrite ?length_alter. by case_decide. }
  specialize (Hs i). rewrite Hi in Hs. clear Hi.
  destruct (bufi (alter (set_b_next b) HEAD _) i) as [? ? ? ? ? ? ? ?].
  unfold y. destruct (bufi bs i). case_decide; cbn in *; by injection Hs as -> -> -> -> -> ->.
Qed.

Record binit_done (k : nat) (bs bs' : list buf) : Prop := {
  bd_len : length bs' = length bs;
  bd_links : links (nxt bs') (prv bs') HEAD (reverse (seq 0 k)) HEAD;
  bd_same : ∀ i, let x := bufi bs' i in let y := bufi bs i in
    b_dev x = b_dev y ∧ b_refcnt x = b_refcnt y ∧ b_valid x = b_valid y ∧ b_data x = b_data y ∧
    b_blockno x = b_blockno y ∧ ((i < k)%nat → b_lock x = slk0) }.

Lemma binit_loop s (k : nat) : (k ≤ NBUF)%nat → length (k_bufs s) = S NBUF →
  ∃ bs', binit_done k (k_bufs s) bs' ∧
    (setb HEAD (set_b_prev HEAD);; setb HEAD (set_b_next HEAD);; forM_ (seq 0 k) (λ b,
      h ← getb HEAD; setb b (set_b_next (b_next h));; setb b (set_b_prev HEAD);;
      initsleeplock (buf_lock b);; h ← getb HEAD; setb (b_next h) (set_b_prev b);;
      setb HEAD (set_b_next b))) s = Ok tt (set_bufs bs' s).
Proof.
  intros Hk Hlen. induction k as [|k IH].
  - exists (alter (set_b_next HEAD) HEAD (alter (set_b_prev HEAD) HEAD (k_bufs s))). split; [|done].
    split; [by rewrite !length_alter| |].
    + simpl. rewrite nxt_set_next, prv_set_next, prv_set_prev by (rewrite ?length_alter, Hlen; unfold HEAD; lia).
      by rewrite !decide_True.
    + intros i x y. unfold x, y. rewrite !bufi_alter by (rewrite ?length_alter, Hlen; unfold HEAD; lia).
      case_decide; cbn; split_and!; done || lia.
  - destruct IH as (bs' & [L Hl Hs] & E); [lia|]. exists (binit_put k bs'). split.
    + split; [unfold binit_put; by rewrite !length_alter| |].
      * rewrite seq_S, reverse_snoc. apply binit_put_links; [done|..].
        -- apply list.NoDup_cons. split; [|apply list.NoDup_cons; split].
           ++ rewrite not_elem_of_cons, elem_of_reverse, elem_of_seq. unfold HEAD. lia.
           ++ rewrite elem_of_reverse, elem_of_seq. unfold HEAD. lia.
           ++ rewrite reverse_Permutation. apply NoDup_seq.
        -- rewrite L, Hlen. rewrite list.Forall_forall. intros j Hj.
           rewrite !elem_of_cons, elem_of_reverse, elem_of_seq in Hj. unfold HEAD in Hj. lia.
      * intros i x y. unfold y. destruct (Hs i) as (<- & <- & <- & <- & <- & Hlk).
        destruct (binit_put_other k bs' i) as (H1 & H2 & H3 & H4 & H5 & H6); [lia|].
        unfold x. split_and!; [done..|]. intros Hi. rewrite H6. case_decide; [done|]. apply Hlk. lia.
    + rewrite seq_S. cbn [plus].
      minv E. rewrite (bind_ok _ _ _ _ _ E0). minv E. rewrite (bind_ok _ _ _ _ _ E1).
      by rewrite (forM_app _ _ _ _ _ E).
Qed.

Lemma binit_run s :
  k_bufs s = replicate (S NBUF) buf0 →
  ∃ bs', binit s = Ok tt (set_bufs bs' s) ∧ bcache_ok (reverse (seq 0 NBUF)) bs' ∧
    ∀ i, (i < NBUF)%nat → b_lock (bufi bs' i) = slk0 ∧ b_refcnt (bufi bs' i) = 0 ∧
      b_valid (bufi bs' i) = false ∧ b_dev (bufi bs' i) = 0.
Proof.
  intros Hz. assert (length (k_bufs s) = S NBUF) as Hlen by by rewrite Hz, length_replicate.
  destruct (binit_loop s NBUF) as (bs' & [L Hl Hs] & E); [lia|done|].
  assert (∀ i, bufi (k_bufs s) i = buf0) as Hb.
  { intros i. unfold bufi. rewrite Hz. destruct (replicate _ _ !! i) eqn:Hi; [|done].
    by apply lookup_replicate in Hi as [-> _]. }
  exists bs'. split_and!; [exact E| |].
  - split; [congruence|done|apply reverse_Permutation|]. intros i j Hi Hj Hd. destruct Hd.
    destruct (Hs i) as [-> _]. by rewrite Hb.
  - intros i Hi. destruct (Hs i) as (-> & -> & -> & _ & _ & Hk). rewrite Hb. by auto.
Qed.
