(* ===== verification/BioContent.v ===== *)
(** What a thread sees through the buffer cache when no other thread uses the
    file system meanwhile: each block has one content, in its cached copy or on
    the disk, and [bread], [bwrite] and [brelse] never change it. *)

From S2P Require Import Prelude Machine Str Types Proc ProcSpec Rely Sleeplock Bio BioSpec.

Lemma buf_at_upd b f s j : (b < length (k_bufs s))%nat →
  buf_at (upd_buf b f s) j = if decide (j = b) then f (buf_at s j) else buf_at s j.
Proof. apply bufi_alter. Qed.

Lemma idle_upd_buf b f s s' : idle s s' → idle (upd_buf b f s) (upd_buf b f s').
Proof.
  intros H. unfold upd_buf. destruct (idle_get _ _ H) as (-> & _). by apply idle_bufs.
Qed.

Lemma idle_buf_at b s s' : idle s s' → buf_at s' b = buf_at s b.
Proof. intros H. unfold buf_at. by destruct (idle_get _ _ H) as (-> & _). Qed.

Lemma idle_transferred b w s s' : idle s s' → idle (transferred b w s) (transferred b w s').
Proof.
  intros H. unfold transferred. rewrite (idle_buf_at b _ _ H).
  destruct (idle_get _ _ H) as (_ & _ & -> & -> & _). destruct w.
  - by apply idle_dwrites, idle_disk.
  - by apply idle_upd_buf.
Qed.

(** The content of a block of device [dev]: the cached copy, or the disk's. *)
Definition content (s : kstate) (dev n : Z) : list Z :=
  match head (filter (λ b, matches (k_bufs s) dev n b ∧ b_valid (buf_at s b) = true) (seq 0 NBUF)) with
  | Some b => b_data (buf_at s b)
  | None => disk_block (k_disk s) n
  end.

(** Buffers without references hold what is on the disk. *)
Definition clean (s : kstate) : Prop :=
  ∀ b, (b < NBUF)%nat → b_refcnt (buf_at s b) = 0 → b_valid (buf_at s b) = true →
    b_data (buf_at s b) = disk_block (k_disk s) (b_blockno (buf_at s b)).

Lemma content_hit l s dev n b :
  bcache_ok l (k_bufs s) → dev ≠ 0 → (b < NBUF)%nat → matches (k_bufs s) dev n b →
  content s dev n = if b_valid (buf_at s b) then b_data (buf_at s b) else disk_block (k_disk s) n.
Proof.
  intros H Hdev Hb Hm. unfold content.
  assert (∀ c, (c < NBUF)%nat → matches (k_bufs s) dev n c → c = b) as Hu.
  { intros c Hc [H1 H2]. destruct Hm as [H3 H4]. apply (bc_uniq _ _ H); [done|done|congruence..]. }
  destruct (head _) as [c|] eqn:Hh.
  - apply head_Some_elem_of, list_elem_of_filter in Hh as [[Hc Hv] Hin]. apply elem_of_seq in Hin.
    assert (c = b) as -> by (apply Hu; [lia|done]). by rewrite Hv.
  - apply head_None in Hh. destruct (b_valid (buf_at s b)) eqn:Hv; [|done].
    exfalso. eapply (filter_nil_not_elem_of _ _ b Hh); [done|]. apply elem_of_seq. lia.
Qed.

Lemma content_miss s dev n :
  (∀ b, (b < NBUF)%nat → ¬ matches (k_bufs s) dev n b) → content s dev n = disk_block (k_disk s) n.
Proof.
  intros Hno. unfold content. destruct (head _) as [c|] eqn:Hh; [|done].
  apply head_Some_elem_of, list_elem_of_filter in Hh as [[Hc _] Hin]. apply elem_of_seq in Hin.
  exfalso. apply (Hno c); [lia|done].
Qed.

(** Content is determined by what the buffers and the disk hold. *)
Lemma content_eq l l' s s' dev n :
  bcache_ok l (k_bufs s) → bcache_ok l' (k_bufs s') → dev ≠ 0 →
  (∀ b, (b < NBUF)%nat → matches (k_bufs s') dev n b →
     (if b_valid (buf_at s' b) then b_data (buf_at s' b) else disk_block (k_disk s') n) = content s dev n) →
  ((∀ b, (b < NBUF)%nat → ¬ matches (k_bufs s') dev n b) → disk_block (k_disk s') n = content s dev n) →
  content s' dev n = content s dev n.
Proof.
  intros H H' Hdev Hhit Hmiss.
  destruct (head (filter (matches (k_bufs s') dev n) (seq 0 NBUF))) as [b|] eqn:Hh.
  - apply head_Some_elem_of, list_elem_of_filter in Hh as [Hm Hin]. apply elem_of_seq in Hin.
    rewrite (content_hit l' s' dev n b) by (done || lia). apply Hhit; [lia|done].
  - apply head_None in Hh.
    assert (∀ b, (b < NBUF)%nat → ¬ matches (k_bufs s') dev n b) as Hno.
    { intros b Hb Hm. apply (filter_nil_not_elem_of _ _ b Hh Hm). apply elem_of_seq. lia. }
    rewrite content_miss by done. by apply Hmiss.
Qed.

Lemma content_idle s s' dev n : idle s s' → content s' dev n = content s dev n.
Proof.
  intros H. unfold content, buf_at. by destruct (idle_get _ _ H) as (-> & _ & -> & _).
Qed.
Lemma clean_idle s s' : idle s s' → clean s → clean s'.
Proof. intros H. unfold clean, buf_at. by destruct (idle_get _ _ H) as (-> & _ & -> & _). Qed.

(** ** [bread] *)

(** The buffer [bread] returns. *)
Definition fetched (hit : bool) (dev n : Z) (s : kstate) (x : buf) : buf :=
  mkBuf true dev n (mkSlk true (cur_pid s)) (if hit then u32 (b_refcnt x + 1) else 1)
    (b_prev x) (b_next x) (if hit && b_valid x then b_data x else disk_block (k_disk s) n).

Section run.
Context `{D : Disk} `{W : Waits}.
Variable E : stop → Prop.
Abbreviation wpi := (wp E (λ _, True) idle).

Lemma wp_disk b w i s Q :
  runs_on i s → (∀ s', idle (transferred b w s) s' → Q tt s') → wpi Q (virtio_disk_rw b w s).
Proof.
  intros Hr HQ. apply (virtio_disk_rw_spec _ _ _ _ _ i); [apply _|done| |done|done|].
  - intros s1 s2. apply idle_runs.
  - intros s1 H. by apply HQ, idle_transferred.
Qed.

Lemma wp_bread i l s dev n b hit Q :
  runs_on i s → bcache_ok l (k_bufs s) → bget_choice l (k_bufs s) dev n = Some (b, hit) →
  free (buf_lock b) s →
  (∀ s', idle (upd_buf b (fetched hit dev n s) s) s' → Q b s') →
  wpi Q (bread dev n s).
Proof.
  intros Hr Hl Hc Hf HQ. destruct (bget_choice_some _ _ _ _ _ _ Hl Hc) as [Hb Hh].
  assert (b < length (k_bufs s))%nat as Hlen by (rewrite (bc_len _ _ Hl); lia).
  set (s1 := upd_buf b (claimed hit dev n) s).
  assert (free (buf_lock b) s1) as Hf1.
  { unfold free, s1. cbn. rewrite buf_at_upd, decide_True by done. by destruct hit. }
  set (s2 := upd_buf b (set_b_lock (mkSlk true (cur_pid s))) s1).
  assert (bget dev n s = Ok b s2) as Eg.
  { rewrite (bget_run l), Hc by done. fold s1.
    by rewrite (seq_ok _ _ _ _ (acquiresleep_free _ i s1 (runs_upd _ _ _ _ Hr) Hf1)). }
  apply (wp_ok _ _ _ _ _ _ _ _ _ Eg).
  apply (wp_ok _ _ _ _ _ _ _ _ _ (eq_refl : getb b s2 = Ok (buf_at s2 b) s2)).
  assert (buf_at s2 b = set_b_lock (mkSlk true (cur_pid s)) (claimed hit dev n (buf_at s b))) as Hb2.
  { unfold s2, s1. rewrite !buf_at_upd, !decide_True by (try done; cbn; by rewrite length_alter). done. }
  assert (∀ f, upd_buf b f s2 = upd_buf b (λ x, f (set_b_lock (mkSlk true (cur_pid s)) (claimed hit dev n x))) s) as Hu.
  { intros f. unfold s2, s1. by rewrite !upd_buf_upd_buf. }
  rewrite Hb2. destruct (b_valid _) eqn:Hv; cbn [negb]; apply (wp_bind_mono _ _ _ (λ _ s', idle (upd_buf b (fetched hit dev n s) s) s')).
  - simpl. destruct hit; [|done]. cbn in Hv, Hh. destruct Hh as [Hd Hn].
    replace s2 with (upd_buf b (λ x, x) s2).
    2:{ unfold upd_buf. rewrite (alter_same (λ x, x)) by done. done. }
    rewrite Hu. unfold upd_buf. erewrite alter_ext; [reflexivity|]. intros x Hx.
    unfold bufi in Hd, Hn. rewrite Hx in Hd, Hn. unfold buf_at in Hv. rewrite Hx in Hv. cbn in *.
    unfold fetched. destruct x; cbn in *. by subst.
  - intros [] s3 H3. by apply HQ.
  - apply (wp_bind_mono _ _ _ (λ _ s', idle (transferred b false s2) s')).
    + apply (wp_disk _ _ i); [by do 2 apply runs_upd|done].
    + intros [] s3 H3. cbn. etrans; [|by apply (idle_upd_buf b _ _ _ H3)].
      unfold transferred. rewrite Hu, !upd_buf_upd_buf. unfold upd_buf. erewrite alter_ext; [reflexivity|].
      intros x Hx. rewrite Hb2. unfold fetched, buf_at in *. rewrite Hx in *.
      destruct hit; [|done]. destruct Hh as [Hd Hn]. unfold bufi in *. rewrite Hx in *. destruct x; cbn in *.
      by subst.
  - intros [] s3 H3. by apply HQ.
Qed.
End run.

Lemma idle_bufi s s' b : idle s s' → bufi (k_bufs s') b = bufi (k_bufs s) b.
Proof. apply idle_buf_at. Qed.

Lemma fetched_bcache l s dev n b hit :
  bcache_ok l (k_bufs s) → bget_choice l (k_bufs s) dev n = Some (b, hit) →
  bcache_ok l (k_bufs (upd_buf b (fetched hit dev n s) s)).
Proof.
  intros H Hc. destruct (bget_choice_some _ _ _ _ _ _ H Hc) as [Hb Hh].
  pose proof (bcache_claimed _ _ _ _ _ _ H Hc) as H1.
  set (g := λ x, mkBuf true (b_dev x) (b_blockno x) (mkSlk true (cur_pid s)) (b_refcnt x) (b_prev x) (b_next x)
              (if hit && b_valid x then b_data x else disk_block (k_disk s) n)).
  assert (keeps_place g) as Hg by done. pose proof (bcache_alter _ _ g b Hg H1) as H2.
  rewrite alter_alter in H2. unfold upd_buf. cbn [k_bufs set_bufs].
  erewrite alter_ext; [exact H2|]. intros x Hx. unfold fetched, g, claimed. destruct hit; [|done].
  destruct Hh as [Hd Hn]. unfold bufi in *. rewrite Hx in *. cbn in *. by subst.
Qed.

(** The state after [bread], up to idling. *)
Lemma fetched_ok l s dev n b hit :
  bcache_ok l (k_bufs s) → clean s → dev ≠ 0 → bget_choice l (k_bufs s) dev n = Some (b, hit) →
  0 ≤ b_refcnt (buf_at s b) < 2 ^ 32 - 1 →
  let s' := upd_buf b (fetched hit dev n s) s in
  bcache_ok l (k_bufs s') ∧ clean s' ∧ b_data (buf_at s' b) = content s dev n ∧
  (∀ dev' m, dev' ≠ 0 → content s' dev' m = content s dev' m).
Proof.
  intros H Hcl Hdev Hc Hrc s'. destruct (bget_choice_some _ _ _ _ _ _ H Hc) as [Hb Hh].
  assert (b < length (k_bufs s))%nat as Hlen by (rewrite (bc_len _ _ H); lia).
  assert (∀ j, buf_at s' j = if decide (j = b) then fetched hit dev n s (buf_at s j) else buf_at s j) as Hat
    by (intros j; by apply buf_at_upd).
  pose proof (fetched_bcache l s dev n b hit H Hc) as H'. fold s' in H'.
  assert (b_data (buf_at s' b) = content s dev n) as Hdata.
  { rewrite Hat, decide_True by done. unfold fetched. cbn [b_data]. destruct hit.
    - by rewrite (content_hit l s dev n b).
    - by rewrite content_miss by apply Hh. }
  split_and!; [done| |done|].
  - intros j Hj. rewrite Hat. change (k_disk s') with (k_disk s). case_decide; [|by apply Hcl].
    cbn. subst. intros Hz _. destruct hit; [|done]. rewrite u32_small in Hz by lia. lia.
  - intros dev' m Hdev'. apply (content_eq l l); [done..| |].
    + intros j Hj Hm. change (k_disk s') with (k_disk s). destruct (decide (j = b)) as [->|Hne].
      * destruct Hm as [Hm1 Hm2]. change (bufi (k_bufs s') b) with (buf_at s' b) in Hm1, Hm2.
        rewrite Hat, decide_True in Hm1, Hm2 by done. cbn in Hm1, Hm2. subst dev' m. rewrite <- Hdata.
        by rewrite Hat, decide_True.
      * assert (matches (k_bufs s) dev' m j) as Hm'.
        { unfold matches in *. change (bufi (k_bufs s') j) with (buf_at s' j) in Hm.
          by rewrite Hat, decide_False in Hm. }
        rewrite (content_hit l s dev' m j) by done. by rewrite Hat, decide_False.
    + intros Hno. change (k_disk s') with (k_disk s). destruct hit.
      * rewrite content_miss; [done|]. intros j Hj Hm. apply (Hno j Hj). unfold matches.
        change (bufi (k_bufs s') j) with (buf_at s' j). rewrite Hat. case_decide; [|done].
        subst. destruct Hh as [<- <-]. destruct Hm as [<- <-]. done.
      * (* the recycled buffer was clean *)
        destruct (decide (matches (k_bufs s) dev' m b)) as [Hm|Hm].
        -- rewrite (content_hit l s dev' m b) by done. case_match; [|done].
           destruct Hm as [_ <-]. symmetry. apply Hcl; [done|apply Hh|done].
        -- rewrite content_miss; [done|]. intros j Hj Hmj. destruct (decide (j = b)) as [->|Hne]; [done|].
           apply (Hno j Hj). unfold matches. change (bufi (k_bufs s') j) with (buf_at s' j).
           by rewrite Hat, decide_False.
Qed.

(** [bread] returns, locked, the buffer with the block's content, from the
    cache or from the disk; it recycles only the least recently used buffer
    without references, and no block changes its content.  It panics exactly when
    the block is not cached and every buffer is in use. *)
Theorem bread_correct `{D : Disk} `{W : Waits} i l s dev n :
  runs_on i s → bcache_ok l (k_bufs s) → clean s → dev ≠ 0 →
  match bget_choice l (k_bufs s) dev n with
  | None => bread dev n s = Stop (Panics "bget: no buffers") s
  | Some (b, hit) =>
      free (buf_lock b) s → 0 ≤ b_refcnt (buf_at s b) < 2 ^ 32 - 1 →
      wp (λ _, False) (λ _, True) idle (λ r s',
        r = b ∧ holds (buf_lock b) s' ∧ matches (k_bufs s') dev n b ∧
        b_data (buf_at s' b) = content s dev n ∧ bcache_ok l (k_bufs s') ∧ clean s' ∧
        (∀ dev' m, dev' ≠ 0 → content s' dev' m = content s dev' m) ∧
        ∀ c, c ≠ b → buf_at s' c = buf_at s c) (bread dev n s)
  end.
Proof.
  intros Hr H Hcl Hdev. destruct (bget_choice _ _ _ _) as [[b hit]|] eqn:Hc.
  - intros Hf Hrc. apply (wp_bread _ i l s dev n b hit); [done..|]. intros s' Hi.
    destruct (fetched_ok l s dev n b hit H Hcl Hdev Hc Hrc) as (H1 & H2 & H3 & H4).
    destruct (bget_choice_some _ _ _ _ _ _ H Hc) as [Hb _].
    assert (b < length (k_bufs s))%nat as Hlen by (rewrite (bc_len _ _ H); lia).
    destruct (idle_get _ _ Hi) as (Ebufs & _). split_and!; [done|..].
    + unfold holds. cbn. rewrite (idle_buf_at _ _ _ Hi), (cur_pid_idle _ _ Hi), buf_at_upd, decide_True by done. done.
    + unfold matches. rewrite (idle_bufi _ _ _ Hi). cbn. rewrite bufi_alter, decide_True by done. done.
    + by rewrite (idle_buf_at _ _ _ Hi).
    + by rewrite Ebufs.
    + by apply (clean_idle _ _ Hi).
    + intros dev' m Hd. rewrite (content_idle _ _ _ _ Hi). by apply H4.
    + intros c Hc'. by rewrite (idle_buf_at _ _ _ Hi), buf_at_upd, decide_False.
  - unfold bread. apply bind_stop. by rewrite (bget_run l), Hc.
Qed.
