(* ===== verification/BioRep.v ===== *)
(** The file system's view of the buffer cache, for one thread that uses it
    alone: [brep] says that every block of the device has a content [C], what
    the disk holds ([D]), which blocks are pinned in the cache ([P]) and which
    buffers the thread has locked ([H]).  Each operation of bio.c changes this
    view in one way, and panics only when no buffer is left. *)

From S2P Require Import Prelude Machine Str Types Proc ProcSpec Rely Sleeplock Bio BioSpec BioContent.

(** Maps from block numbers to contents, up to extensionality. *)
Definition upd (f : Z → list Z) (n : Z) (v : list Z) : Z → list Z :=
  λ m, if decide (m = n) then v else f m.

Lemma upd_eq f n v : upd f n v n = v.
Proof. unfold upd. by rewrite decide_True. Qed.
Lemma upd_ne f n v m : m ≠ n → upd f n v m = f m.
Proof. intros. unfold upd. by rewrite decide_False. Qed.

(** ** Frames *)

(** [s'] is [s] up to the cache, the disk and idling. *)
Definition bframe (s s' : kstate) : Prop :=
  idle (set_bufs (k_bufs s') (set_disk (k_disk s') (set_dwrites (k_dwrites s') s))) s'.

#[global] Instance bframe_preorder : PreOrder bframe.
Proof.
  split; [intros s; unfold bframe; by destruct s|]. unfold bframe. intros s1 s2 s3 H1 H2.
  etrans; [|exact H2]. by apply (idle_bufs _ _ (k_bufs s3)), (idle_disk _ _ (k_disk s3)),
    (idle_dwrites _ _ (k_dwrites s3)) in H1.
Qed.

Lemma idle_bframe s s' : idle s s' → bframe s s'.
Proof.
  intros H. unfold bframe. destruct (idle_get _ _ H) as (-> & _ & -> & -> & _). by destruct s.
Qed.

Lemma bframe_get s s' : bframe s s' →
  k_log s' = k_log s ∧ k_sb s' = k_sb s ∧ k_inodes s' = k_inodes s ∧ k_cur s' = k_cur s ∧
  k_mem s' = k_mem s ∧ k_kmem s' = k_kmem s.
Proof. intros H. by destruct (idle_get _ _ H) as (_ & -> & _ & _ & -> & -> & -> & -> & ->). Qed.

Lemma bframe_set_bufs bs s : bframe s (set_bufs bs s).
Proof. unfold bframe. by destruct s. Qed.
Lemma bframe_upd b f s : bframe s (upd_buf b f s).
Proof. apply bframe_set_bufs. Qed.
Lemma bframe_released b s : bframe s (released b s).
Proof.
  unfold released. case_match; [|apply bframe_upd]. etrans; [apply bframe_upd|].
  unfold brelse_links. by do 6 (etrans; [apply bframe_upd|]).
Qed.

Lemma bframe_pid s s' : bframe s s' → cur_pid s' = cur_pid s.
Proof. intros H. by rewrite (cur_pid_idle _ _ H). Qed.

(** ** The view *)

Record brep (i : nat) (dev : Z) (s : kstate) (C D : Z → list Z) (P : gset Z) (H : gmap nat Z)
    (w : list (Z * list Z)) : Prop := {
  br_runs : runs_on i s;
  br_dev : dev ≠ 0;
  br_ok : bio_inv s;
  br_disk n : disk_block (k_disk s) n = D n;
  br_writes : k_dwrites s = w;
  br_ref b : (b < NBUF)%nat → b_refcnt (buf_at s b) =
    (if decide (b_dev (buf_at s b) = dev ∧ b_blockno (buf_at s b) ∈ P) then 1 else 0) +
    match H !! b with Some _ => 1 | None => 0 end;
  br_held b n : H !! b = Some n →
    (b < NBUF)%nat ∧ holds (buf_lock b) s ∧ matches (k_bufs s) dev n b ∧ b_valid (buf_at s b) = true;
  br_free b : (b < NBUF)%nat → H !! b = None → free (buf_lock b) s;
  br_data b : (b < NBUF)%nat → b_valid (buf_at s b) = true → b_dev (buf_at s b) = dev →
    b_data (buf_at s b) = C (b_blockno (buf_at s b));
  br_pin n : n ∈ P → ∃ b, (b < NBUF)%nat ∧ matches (k_bufs s) dev n b ∧ b_valid (buf_at s b) = true;
  br_clean n : n ∉ P → (∀ b, H !! b ≠ Some n) → C n = D n }.

#[global] Instance brep_proper i dev s :
  Proper (pointwise_relation Z eq ==> pointwise_relation Z eq ==> (=) ==> (=) ==> (=) ==> iff) (brep i dev s).
Proof.
  intros C C' HC D D' HD P ? <- H ? <- w ? <-. split; intros []; split; try done.
  - intros n. by rewrite <- HD.
  - intros b Hb Hv Hd. rewrite <- HC. by auto.
  - intros n Hn Hh. rewrite <- HC, <- HD. by auto.
  - intros n. by rewrite HD.
  - intros b Hb Hv Hd. rewrite HC. by auto.
  - intros n Hn Hh. rewrite HC, HD. by auto.
Qed.

(** The data of a locked buffer is the content of its block. *)
Lemma brep_data i dev s C D P H w b n :
  brep i dev s C D P H w → H !! b = Some n → b_data (buf_at s b) = C n ∧ b_blockno (buf_at s b) = n.
Proof.
  intros Hb Hh. destruct (br_held _ _ _ _ _ _ _ _ Hb b n Hh) as (Hlt & _ & [Hd Hn] & Hv).
  rewrite (br_data _ _ _ _ _ _ _ _ Hb b Hlt Hv Hd). unfold buf_at in *. unfold bufi in Hn. by rewrite Hn.
Qed.

(** A block is locked at most once. *)
Lemma brep_held_inj i dev s C D P H w b c n :
  brep i dev s C D P H w → H !! b = Some n → H !! c = Some n → b = c.
Proof.
  intros Hb H1 H2. destruct (br_ok _ _ _ _ _ _ _ _ Hb) as [l Hl].
  destruct (br_held _ _ _ _ _ _ _ _ Hb b n H1) as (Hlb & _ & [Hd1 Hn1] & _).
  destruct (br_held _ _ _ _ _ _ _ _ Hb c n H2) as (Hlc & _ & [Hd2 Hn2] & _).
  apply (bc_uniq _ _ Hl); [done|done|rewrite Hd1; apply Hb|congruence..].
Qed.

(** Idling keeps the view. *)
Lemma brep_idle i dev s s' C D P H w : idle s s' → brep i dev s C D P H w → brep i dev s' C D P H w.
Proof.
  intros Hi [H1 H2 H3 H4 H5 H6 H7 H8 H9 H10 H11]. destruct (idle_get _ _ Hi) as (Eb & _ & Ed & Ew & _).
  pose proof (cur_pid_idle _ _ Hi) as Ep. unfold buf_at, holds, free in *. cbn in *. unfold buf_at in *.
  split; unfold buf_at, holds, free; cbn; unfold buf_at; rewrite ?Eb, ?Ed, ?Ew, ?Ep; try done.
  - by apply (idle_runs i s).
  - by apply (idle_bio_inv s).
Qed.

(** ** The operations *)

Lemma length_filter_compl {A} (Q : A → Prop) `{!∀ x, Decision (Q x)} (l : list A) :
  (length (filter Q l) + length (filter (λ x, ¬ Q x) l) = length l)%nat.
Proof. induction l as [|x l IH]; [done|]. rewrite !filter_cons. repeat case_decide; cbn; lia || done. Qed.

(** A buffer in use that is not locked is pinned. *)
Lemma brep_used i dev s C D P H w b :
  brep i dev s C D P H w → (b < NBUF)%nat → ¬ unused (k_bufs s) b → H !! b = None →
  b_dev (bufi (k_bufs s) b) = dev ∧ b_blockno (bufi (k_bufs s) b) ∈ P.
Proof.
  intros Hb Hlt Hu Hh. pose proof (br_ref _ _ _ _ _ _ _ _ Hb b Hlt) as Hr. rewrite Hh in Hr.
  destruct (decide _) as [?|_]; [done|]. destruct Hu. unfold unused, bufi. unfold buf_at in Hr. lia.
Qed.

(** The pins and locks leave a buffer for another block. *)
Lemma brep_choice i dev s C D P H w l n :
  brep i dev s C D P H w → bcache_ok l (k_bufs s) → n ∈ P ∨ (size P + size H < NBUF)%nat →
  ∃ b hit, bget_choice l (k_bufs s) dev n = Some (b, hit).
Proof.
  intros Hb Hl Hn. unfold bget_choice.
  destruct (head _) as [b|] eqn:Hh; [by eauto|]. apply head_None in Hh.
  destruct (list.last (filter (unused (k_bufs s)) l)) as [b|] eqn:Hlast; [by eauto|]. exfalso.
  apply last_None in Hlast.
  destruct Hn as [Hn|Hn].
  - destruct (br_pin _ _ _ _ _ _ _ _ Hb n Hn) as (b & Hlt & Hm & _).
    apply (filter_nil_not_elem_of _ _ b Hh Hm). by apply (bc_elem _ _ _ Hl).
  - assert (∀ b, b ∈ filter (λ b, H !! b = None) l →
      (b < NBUF)%nat ∧ b_dev (bufi (k_bufs s) b) = dev ∧ b_blockno (bufi (k_bufs s) b) ∈ P) as Hu.
    { intros b Hx. apply list_elem_of_filter in Hx as [Hx Hin].
      assert (b < NBUF)%nat as Hlt by by apply (bc_elem _ _ _ Hl). split; [done|].
      apply (brep_used _ _ _ _ _ _ _ _ _ Hb Hlt); [|done]. intros Hu. by apply (filter_nil_not_elem_of _ _ b Hlast Hu). }
    destruct (bc_nodup _ _ Hl) as (Hnd & _ & Hlen). apply list.NoDup_cons in Hnd as [_ Hnd].
    pose proof (length_filter_compl (λ b, H !! b = None) l) as Hsum.
    assert (length (filter (λ b, H !! b = None) l) ≤ size P)%nat as H1.
    { rewrite <- (length_fmap (λ b, b_blockno (bufi (k_bufs s) b))).
      rewrite <- (size_list_to_set (C := gset Z)).
      - apply subseteq_size. intros m. rewrite elem_of_list_to_set, list_elem_of_fmap.
        intros (b & -> & Hx). by apply Hu.
      - apply NoDup_fmap_2_strong; [|by apply list.NoDup_filter]. intros b c Hx Hy E.
        destruct (Hu b Hx) as (? & Hdb & _), (Hu c Hy) as (? & Hdc & _).
        apply (bc_uniq _ _ Hl); [done|done|rewrite Hdb; apply Hb|congruence|done]. }
    assert (length (filter (λ b, H !! b ≠ None) l) ≤ size H)%nat as H2.
    { rewrite <- (size_dom (D := gset nat) H).
      rewrite <- (size_list_to_set (C := gset nat)) by by apply list.NoDup_filter. apply subseteq_size. intros b.
      rewrite elem_of_list_to_set, list_elem_of_filter, elem_of_dom. intros [Hx _].
      destruct (H !! b); [by eauto|done]. }
    lia.
Qed.

(** An update of buffer [b], which then caches a block of the device, is
    locked ([h]) or not, and may have another content or be pinned. *)
Lemma brep_upd i dev s C D P H w b f C' P' h :
  brep i dev s C D P H w → (b < NBUF)%nat → bio_inv (upd_buf b f s) →
  let x := buf_at s b in let x' := f x in
  b_dev x' = dev →
  b_refcnt x' = (if decide (b_blockno x' ∈ P') then 1 else 0) + match h with Some _ => 1 | None => 0 end →
  match h with
  | Some n => b_lock x' = mkSlk true (cur_pid s) ∧ b_blockno x' = n ∧ b_valid x' = true
  | None => sl_locked (b_lock x') = false
  end →
  (b_valid x' = true → b_data x' = C' (b_blockno x')) →
  (∀ n, n ≠ b_blockno x' → C' n = C n ∧ (n ∈ P' ↔ n ∈ P)) →
  (b_blockno x' ∈ P' → b_valid x' = true) →
  (b_dev x = dev → b_blockno x ≠ b_blockno x' → b_blockno x ∉ P) →
  (∀ n, n ∉ P' → (∀ c, partial_alter (λ _, h) b H !! c ≠ Some n) → C' n = D n) →
  brep i dev (upd_buf b f s) C' D P' (partial_alter (λ _, h) b H) w.
Proof.
  intros Hb Hlt Hv' x x' Hd Href Hh Hdata Hoth Hpv Hpo Hcl. destruct (br_ok _ _ _ _ _ _ _ _ Hb) as [l Hl].
  assert (b < length (k_bufs s))%nat as Hlen by (rewrite (bc_len _ _ Hl); lia).
  set (s' := upd_buf b f s) in *.
  assert (∀ j, buf_at s' j = if decide (j = b) then f (buf_at s j) else buf_at s j) as Hat
    by (intros j; by apply buf_at_upd).
  assert (buf_at s' b = x') as Hx' by by rewrite Hat, decide_True.
  assert (∀ c, c ≠ b → buf_at s' c = buf_at s c) as Hne by (intros c Hc; by rewrite Hat, decide_False).
  assert (∀ j, bufi (k_bufs s') j = buf_at s' j) as Hbi by done.
  destruct Hb as [H1 H2 H3 H4 H5 H6 H7 H8 H9 H10 H11].
  assert (∀ c, (c < NBUF)%nat → c ≠ b → b_dev (buf_at s c) = dev → b_blockno (buf_at s c) ≠ b_blockno x') as Hu.
  { intros c Hc Hcb Hcd E. destruct Hv' as [l' Hl']. apply Hcb, (bc_uniq _ _ Hl'); [done|done|..];
      rewrite !Hbi, ?Hx', Hne by done; congruence. }
  split; try done; [by apply runs_upd|..].
  - intros c Hc. destruct (decide (c = b)) as [->|Hcb].
    + rewrite Hx', lookup_partial_alter_eq, Href. clear -Hd. repeat case_decide; naive_solver.
    + rewrite Hne, lookup_partial_alter_ne, H6 by done. f_equal. specialize (Hu c Hc Hcb).
      clear -Hu Hoth. repeat case_decide; naive_solver.
  - intros c n Hc. destruct (decide (c = b)) as [->|Hcb].
    + rewrite lookup_partial_alter_eq in Hc. subst h. destruct Hh as (? & ? & ?). unfold holds, matches. cbn.
      fold s'. by rewrite Hbi, Hx'.
    + rewrite lookup_partial_alter_ne in Hc by done. unfold holds, matches. cbn. fold s'.
      rewrite Hbi, Hne by done. by apply H7.
  - intros c Hc Hn. unfold free. cbn. destruct (decide (c = b)) as [->|Hcb].
    + rewrite lookup_partial_alter_eq in Hn. subst h. fold s'. by rewrite Hx'.
    + rewrite lookup_partial_alter_ne in Hn by done. fold s'. rewrite Hne by done. by apply H8.
  - intros c Hc. destruct (decide (c = b)) as [->|Hcb]; [rewrite Hx'; by auto|]. rewrite Hne by done.
    intros Hvc Hdc. rewrite H9 by done. symmetry. by apply Hoth, Hu.
  - intros n Hn. destruct (decide (n = b_blockno x')) as [->|Hnx].
    + exists b. unfold matches. rewrite Hbi, Hx'. by auto.
    + destruct (H10 n) as (c & Hc & [Hm1 Hm2] & Hvc); [by apply Hoth|]. exists c. split; [done|].
      assert (c ≠ b) as Hcb. { intros ->. change (bufi (k_bufs s) b) with x in *. apply (Hpo Hm1); [congruence|]. rewrite Hm2. by apply Hoth. }
      unfold matches. by rewrite Hbi, Hne.
Qed.

Lemma brep_fetched i dev s C D P H w l n b hit :
  brep i dev s C D P H w → bcache_ok l (k_bufs s) → bget_choice l (k_bufs s) dev n = Some (b, hit) →
  (∀ c, H !! c ≠ Some n) →
  H !! b = None ∧ (b < NBUF)%nat ∧
  brep i dev (upd_buf b (fetched hit dev n s) s) C D P (<[b := n]> H) w.
Proof.
  intros Hb Hl Hc Hn. destruct (bget_choice_some _ _ _ _ _ _ Hl Hc) as [Hlt Hh].
  pose proof (br_ref _ _ _ _ _ _ _ _ Hb b Hlt) as Href.
  assert (n ∈ P → hit = true ∧ b_valid (buf_at s b) = true) as Hpin.
  { intros HP. destruct (br_pin _ _ _ _ _ _ _ _ Hb n HP) as (c & Hc1 & Hc2 & Hc3). destruct hit; [|by apply Hh in Hc2].
    destruct Hh, Hc2. assert (c = b) as <-; [|done]. apply (bc_uniq _ _ Hl); [done|done| |congruence..].
    by replace (b_dev _) with dev; apply Hb. }
  assert (n ∉ P → C n = D n) as Hcl by (intros; by apply (br_clean _ _ _ _ _ _ _ _ Hb)).
  assert (H !! b = None) as HN.
  { destruct (H !! b) as [m|] eqn:E; [|done]. exfalso. destruct hit.
    - destruct (br_held _ _ _ _ _ _ _ _ Hb b m E) as (_ & _ & [_ Hm] & _). destruct Hh as [_ Hh].
      apply (Hn b). congruence.
    - destruct Hh as [Hu _]. unfold unused in Hu. change (bufi (k_bufs s) b) with (buf_at s b) in Hu. case_decide; lia. }
  split_and!; [done|done|]. rewrite HN in Href.
  apply brep_upd with (1 := Hb) (2 := Hlt); cbn [fetched b_dev b_refcnt b_blockno b_valid b_data b_lock]; try done.
  - exists l. by apply fetched_bcache.
  - destruct hit.
    + destruct Hh as [Hd Hm]. change (bufi (k_bufs s) b) with (buf_at s b) in *. rewrite Hd, Hm in Href.
      rewrite Href, u32_small by (case_decide; lia). repeat case_decide; naive_solver.
    + rewrite decide_False; [done|]. intros HP. by destruct (Hpin HP).
  - intros _. destruct hit; cbn [andb].
    + destruct Hh as [Hd Hm]. change (bufi (k_bufs s) b) with (buf_at s b) in *.
      destruct (b_valid (buf_at s b)) eqn:Hv; [by rewrite (br_data _ _ _ _ _ _ _ _ Hb), Hm|].
      rewrite (br_disk _ _ _ _ _ _ _ _ Hb), Hcl; [done|]. naive_solver.
    + rewrite (br_disk _ _ _ _ _ _ _ _ Hb), Hcl; naive_solver.
  - intros Hd Hne HP. destruct hit; [by destruct Hh|]. destruct Hh as [Hu _]. unfold unused in Hu.
    change (bufi (k_bufs s) b) with (buf_at s b) in Hu. rewrite decide_True in Href by done. lia.
  - intros m Hm Hno. apply (br_clean _ _ _ _ _ _ _ _ Hb); [done|]. intros c E. apply (Hno c).
    rewrite lookup_partial_alter_ne; [done|]. intros ->. congruence.
Qed.

(** Updates of a locked buffer that stays locked. *)
Lemma brep_ref_held i dev s C D P H w b n :
  brep i dev s C D P H w → H !! b = Some n → b_refcnt (buf_at s b) = if decide (n ∈ P) then 2 else 1.
Proof.
  intros Hb Hh. destruct (br_held _ _ _ _ _ _ _ _ Hb b n Hh) as (Hlt & Hho & [Hd Hn] & Hv).
  pose proof (br_ref _ _ _ _ _ _ _ _ Hb b Hlt) as Hr. rewrite Hh in Hr.
  change (bufi (k_bufs s) b) with (buf_at s b) in *. rewrite Hd, Hn in Hr. repeat case_decide; naive_solver.
Qed.

Lemma brep_upd_held i dev s C D P H w b n f C' P' :
  brep i dev s C D P H w → H !! b = Some n →
  keeps_place f → (∀ x, b_lock (f x) = b_lock x ∧ b_valid (f x) = b_valid x) →
  b_refcnt (f (buf_at s b)) = (if decide (n ∈ P') then 2 else 1) → b_data (f (buf_at s b)) = C' n →
  (∀ m, m ≠ n → C' m = C m ∧ (m ∈ P' ↔ m ∈ P)) →
  brep i dev (upd_buf b f s) C' D P' H w.
Proof.
  intros Hb Hh Hk Hlv Hr Hda Hoth.
  destruct (br_held _ _ _ _ _ _ _ _ Hb b n Hh) as (Hlt & Hho & [Hd Hn] & Hv).
  change (bufi (k_bufs s) b) with (buf_at s b) in *.
  destruct (Hk (buf_at s b)) as (_ & _ & Hd' & Hn'). destruct (Hlv (buf_at s b)) as [Hl' Hv'].
  assert (partial_alter (λ _, Some n) b H = H) as EH by (rewrite <- Hh; apply partial_alter_self).
  rewrite <- EH. apply brep_upd with (1 := Hb) (2 := Hlt); rewrite ?Hd', ?Hn', ?Hl', ?Hv', ?Hd, ?Hn, ?Hv; try done.
  - by apply bio_inv_upd; [|apply Hb].
  - rewrite Hr. by case_decide.
  - intros m Hm Hno. rewrite EH in Hno. assert (m ≠ n) as Hmn by (intros ->; by apply (Hno b)).
    destruct (Hoth m Hmn) as [-> Hiff]. apply (br_clean _ _ _ _ _ _ _ _ Hb); [by rewrite <- Hiff|done].
Qed.

(** Only the links of the list change. *)
Lemma brep_place i dev s C D P H w bs :
  brep i dev s C D P H w → same_place (k_bufs s) bs → bio_inv (set_bufs bs s) →
  brep i dev (set_bufs bs s) C D P H w.
Proof.
  intros [H1 H2 H3 H4 H5 H6 H7 H8 H9 H10 H11] [_ Hs] Hv.
  assert (∀ b, let x := bufi bs b in let y := bufi (k_bufs s) b in b_refcnt x = b_refcnt y ∧ b_dev x = b_dev y ∧
    b_blockno x = b_blockno y ∧ b_lock x = b_lock y ∧ b_valid x = b_valid y ∧ b_data x = b_data y) as Hb.
  { intros b. specialize (Hs b). destruct (bufi bs b), (bufi (k_bufs s) b). by injection Hs as -> -> -> -> -> ->. }
  split; try done; unfold holds, free, matches; cbn [sl_get buf_lock k_bufs set_bufs]; try (change (buf_at (set_bufs bs s)) with (bufi bs)).
  - by destruct H1.
  - intros b Hlt. destruct (Hb b) as (-> & -> & -> & _). by apply H6.
  - intros b n Hn. destruct (Hb b) as (_ & -> & -> & -> & -> & _). by apply H7.
  - intros b Hlt Hn. destruct (Hb b) as (_ & _ & _ & -> & _). by apply (H8 b).
  - intros b Hlt. destruct (Hb b) as (_ & -> & -> & _ & -> & ->). by apply H9.
  - intros n Hn. destruct (H10 n Hn) as (b & Hlt & Hm & Hvl). exists b.
    destruct (Hb b) as (_ & -> & -> & _ & -> & _). done.
Qed.

Lemma brep_released i dev s C D P H w b n :
  brep i dev s C D P H w → H !! b = Some n → n ∈ P ∨ C n = D n →
  brep i dev (released b s) C D P (delete b H) w.
Proof.
  intros Hb Hh HP. destruct (br_held _ _ _ _ _ _ _ _ Hb b n Hh) as (Hlt & Hho & [Hd Hn] & Hv).
  pose proof (brep_ref_held _ _ _ _ _ _ _ _ _ _ Hb Hh) as Hr.
  destruct (brep_data _ _ _ _ _ _ _ _ _ _ Hb Hh) as [Hda _].
  change (bufi (k_bufs s) b) with (buf_at s b) in *. destruct (br_ok _ _ _ _ _ _ _ _ Hb) as [l Hl].
  destruct (released_ok l b s Hl Hlt) as (l' & Hl' & _). unfold released in *.
  set (s1 := upd_buf b _ s) in *. assert (brep i dev s1 C D P (delete b H) w) as H1.
  { apply brep_upd with (h := None) (1 := Hb) (2 := Hlt); cbn; rewrite ?Hd, ?Hn, ?Hv; try done.
    - by apply bio_inv_upd; [|exists l].
    - rewrite Hr. by case_decide.
    - intros m Hm Hno. destruct (decide (m = n)) as [->|Hmn]; [by destruct HP|].
      apply (br_clean _ _ _ _ _ _ _ _ Hb); [done|]. intros c Hc. apply (Hno c).
      destruct (decide (c = b)) as [->|]; [congruence|]. by rewrite lookup_partial_alter_ne. }
  case_match; [|done]. change (brelse_links b s1) with (set_bufs (k_bufs (brelse_links b s1)) s1).
  apply brep_place; [done|apply brelse_links_place|by exists l'].
Qed.

Section rules.
Context `{DK : Disk} `{W : Waits}.
Variables (E : stop → Prop) (i : nat) (dev : Z).
Abbreviation wpi := (wp E (λ _, True) idle).

Lemma wp_bread_rep s C D P H w n Q :
  brep i dev s C D P H w → (∀ c, H !! c ≠ Some n) → n ∈ P ∨ (size P + size H < NBUF)%nat →
  (∀ b s', H !! b = None → bframe s s' → brep i dev s' C D P (<[b := n]> H) w → Q b s') →
  wpi Q (bread dev n s).
Proof.
  intros Hb Hn HP HQ. destruct (br_ok _ _ _ _ _ _ _ _ Hb) as [l Hl].
  destruct (brep_choice _ _ _ _ _ _ _ _ _ _ Hb Hl HP) as (b & hit & Hc).
  destruct (brep_fetched _ _ _ _ _ _ _ _ _ _ _ _ Hb Hl Hc Hn) as (HN & Hlt & Hb').
  apply (wp_bread _ i l s dev n b hit); [apply Hb|done|done|by apply (br_free _ _ _ _ _ _ _ _ Hb)|].
  intros s' Hi. apply HQ; [done| |by apply (brep_idle _ _ _ _ _ _ _ _ _ Hi)].
  etrans; [apply bframe_upd|by apply idle_bframe].
Qed.

(** [memmove(b->data, ...)] and other writes to the data of a locked buffer. *)
Lemma brep_set_data s C D P H w b n f :
  brep i dev s C D P H w → H !! b = Some n →
  brep i dev (upd_buf b (λ x, set_b_data (f (b_data x)) x) s) (upd C n (f (C n))) D P H w.
Proof.
  intros Hb Hh. apply brep_upd_held with (1 := Hb) (2 := Hh); [done|done| | |].
  - cbn. by apply (brep_ref_held _ _ _ _ _ _ _ _ _ _ Hb).
  - cbn. rewrite upd_eq. f_equal. by apply (brep_data _ _ _ _ _ _ _ _ _ _ Hb).
  - intros m Hm. by rewrite upd_ne.
Qed.

Lemma brep_pin s C D P H w b n :
  brep i dev s C D P H w → H !! b = Some n → n ∉ P →
  brep i dev (upd_buf b (λ x, set_b_refcnt (u32 (b_refcnt x + 1)) x) s) C D ({[n]} ∪ P) H w.
Proof.
  intros Hb Hh HP. apply brep_upd_held with (1 := Hb) (2 := Hh); [done|done| | |].
  - cbn. rewrite (brep_ref_held _ _ _ _ _ _ _ _ _ _ Hb Hh), decide_False, decide_True by set_solver. done.
  - by apply (brep_data _ _ _ _ _ _ _ _ _ _ Hb).
  - intros m Hm. clear -Hm. set_solver.
Qed.

Lemma brep_unpin s C D P H w b n :
  brep i dev s C D P H w → H !! b = Some n → n ∈ P →
  brep i dev (upd_buf b (λ x, set_b_refcnt (u32 (b_refcnt x - 1)) x) s) C D (P ∖ {[n]}) H w.
Proof.
  intros Hb Hh HP. apply brep_upd_held with (1 := Hb) (2 := Hh); [done|done| | |].
  - cbn. rewrite (brep_ref_held _ _ _ _ _ _ _ _ _ _ Hb Hh), decide_True, decide_False by set_solver. done.
  - by apply (brep_data _ _ _ _ _ _ _ _ _ _ Hb).
  - intros m Hm. clear -Hm. set_solver.
Qed.

Lemma wp_bwrite_rep s C D P H w b n Q :
  brep i dev s C D P H w → H !! b = Some n →
  (∀ s', bframe s s' → brep i dev s' C (upd D n (C n)) P H (w ++ [(n, C n)]) → Q tt s') →
  wpi Q (bwrite b s).
Proof.
  intros Hb Hh HQ. destruct (br_held _ _ _ _ _ _ _ _ Hb b n Hh) as (Hlt & Hho & _).
  destruct (brep_data _ _ _ _ _ _ _ _ _ _ Hb Hh) as [Hda Hn].
  apply (wp_ok _ _ _ _ _ _ _ _ _ (holdingsleep_holds (buf_lock b) i s (br_runs _ _ _ _ _ _ _ _ Hb) Hho)).
  apply (wp_disk _ _ _ i); [apply Hb|]. intros s' Hi. apply HQ.
  - etrans; [|by apply idle_bframe]. unfold bframe. by destruct s.
  - apply (brep_idle _ _ _ _ _ _ _ _ _ Hi). unfold transferred. rewrite Hda, Hn.
    destruct Hb as [H1 H2 H3 H4 H5 H6 H7 H8 H9 H10 H11]. split; try done.
    + by destruct H1.
    + intros m. unfold disk_block, upd. cbn. rewrite lookup_insert. destruct (decide (m = n)) as [->|].
      * by rewrite decide_True.
      * rewrite decide_False by done. apply H4.
    + cbn. by rewrite H5.
    + intros m Hm Hno. unfold upd. case_decide; [by subst|]. by apply H11.
Qed.


Lemma wp_brelse_rep s C D P H w b n Q :
  brep i dev s C D P H w → H !! b = Some n → n ∈ P ∨ C n = D n →
  (∀ s', bframe s s' → brep i dev s' C D P (delete b H) w → Q tt s') →
  wpi Q (brelse b s).
Proof.
  intros Hb Hh HP HQ. destruct (br_held _ _ _ _ _ _ _ _ Hb b n Hh) as (_ & Hho & _).
  pose proof (brelse_run b i s (br_runs _ _ _ _ _ _ _ _ Hb)) as Hr. rewrite decide_True in Hr by done.
  destruct Hr as (ps & -> & Hps). cbn. assert (k_procs (released b s) = k_procs s) as Ep.
  { unfold released. by case_match. }
  assert (idle (released b s) (set_procs ps (released b s))) as Hi by (apply idle_set_procs; by rewrite Ep).
  apply HQ; [|by apply (brep_idle _ _ _ _ _ _ _ _ _ Hi), (brep_released _ _ _ _ _ _ _ _ _ n)].
  etrans; [apply bframe_released|by apply idle_bframe].
Qed.
End rules.

(** A cache in which no buffer was used yet. *)
Lemma brep_init i dev l s :
  runs_on i s → dev ≠ 0 → bcache_ok l (k_bufs s) →
  (∀ b, (b < NBUF)%nat → b_lock (bufi (k_bufs s) b) = slk0 ∧ b_refcnt (bufi (k_bufs s) b) = 0 ∧
     b_valid (bufi (k_bufs s) b) = false ∧ b_dev (bufi (k_bufs s) b) = 0) →
  brep i dev s (disk_block (k_disk s)) (disk_block (k_disk s)) ∅ ∅ (k_dwrites s).
Proof.
  intros Hr Hd Hok Hb. assert (∀ b, (b < NBUF)%nat → b_dev (buf_at s b) ≠ dev) as Hne.
  { intros b Hlt. destruct (Hb b Hlt) as (_ & _ & _ & H). unfold bufi in H. unfold buf_at. by rewrite H. }
  split; [done|done|by exists l|done|done|..].
  - intros b Hlt. rewrite decide_False by (intros [H _]; by apply (Hne b)). rewrite lookup_empty. by apply (Hb b).
  - intros b n Hn. by rewrite lookup_empty in Hn.
  - intros b Hlt _. unfold free. cbn. destruct (Hb b Hlt) as (H & _). unfold bufi in H. unfold buf_at. by rewrite H.
  - intros b Hlt _ H. destruct (Hne b Hlt H).
  - intros n Hn. by apply elem_of_empty in Hn.
  - done.
Qed.

(** [binit] builds the list with every buffer on it once; from then on a
    process sees every block as it is on the disk, with nothing pinned and
    nothing locked. *)
Theorem binit_correct s :
  k_bufs s = replicate (S NBUF) buf0 →
  ∃ bs', binit s = Ok tt (set_bufs bs' s) ∧ bcache_ok (reverse (seq 0 NBUF)) bs' ∧
    ∀ i dev s', runs_on i s' → dev ≠ 0 → k_bufs s' = bs' →
      brep i dev s' (disk_block (k_disk s')) (disk_block (k_disk s')) ∅ ∅ (k_dwrites s').
Proof.
  intros Hz. destruct (binit_run s Hz) as (bs' & E & Hok & Hb). exists bs'. split_and!; [exact E|exact Hok|].
  clear E Hz. intros i dev s' Hr Hd <-. by apply (brep_init i dev (reverse (seq 0 NBUF))).
Qed.

(** ** A disk that answers at once *)

Definition ram_disk : Disk.
Proof.
  refine {| virtio_disk_rw := λ b write s, Ok tt (transferred b write s) |}.
  intros E G R b write i s Q HR _ _ _ _ HQ. cbn. by apply HQ.
Defined.

(** Process 0 runs; the disk is empty. *)
Definition ex_boot : kstate := set_cur (Some 0%nat) kstate0.
Definition ex_bufs : list buf := match binit ex_boot with Ok _ s => k_bufs s | _ => [] end.
Definition ex_fs : kstate := set_bufs ex_bufs ex_boot.

Lemma runs_ex_boot bs : runs_on 0 (set_bufs bs ex_boot).
Proof. split; [done|unfold NPROC; lia|apply length_replicate]. Qed.

(** The same with other contents. *)
Lemma ex_fs_rep s : k_bufs s = ex_bufs → runs_on 0 s →
  brep 0 1 s (disk_block (k_disk s)) (disk_block (k_disk s)) ∅ ∅ (k_dwrites s).
Proof.
  intros Es Hr. destruct (binit_run ex_boot eq_refl) as (bs' & E & Hok & Hb).
  assert (ex_bufs = bs') as Eb by (unfold ex_bufs; by rewrite E). rewrite Eb in Es. clear E Eb.
  apply (brep_init 0 1 (reverse (seq 0 NBUF))); [done|done|by rewrite Es|by rewrite Es].
Qed.

Lemma ex_fs_run : binit ex_boot = Ok tt ex_fs ∧ brep 0 1 ex_fs (disk_block ∅) (disk_block ∅) ∅ ∅ [].
Proof.
  destruct (binit_run ex_boot eq_refl) as (bs' & E & Hok & Hb).
  assert (ex_bufs = bs') as Eb by (unfold ex_bufs; by rewrite E). unfold ex_fs. rewrite Eb.
  split; [exact E|]. clear E Eb. apply (brep_init 0 1 (reverse (seq 0 NBUF)) (set_bufs bs' ex_boot)); [apply runs_ex_boot|done..].
Qed.

Lemma binit_correct_witness :
  k_bufs ex_boot = replicate (S NBUF) buf0 ∧ binit ex_boot = Ok tt ex_fs ∧
  brep 0 1 ex_fs (disk_block ∅) (disk_block ∅) ∅ ∅ [].
Proof.
  split; [done|]. destruct (binit_correct ex_boot eq_refl) as (bs' & E & _ & H).
  assert (ex_bufs = bs') as Eb by (unfold ex_bufs; by rewrite E). unfold ex_fs. rewrite Eb.
  split; [exact E|]. clear E. by apply (H 0%nat 1 (set_bufs bs' ex_boot)); [apply runs_ex_boot|..].
Defined.


Lemma bread_correct_witness :
  bget_choice (reverse (seq 0 NBUF)) (k_bufs ex_fs) 1 7 = Some (0%nat, false) ∧
  wp (λ _, False) (λ _, True) idle (λ r s', r = 0%nat ∧ b_data (buf_at s' 0) = content ex_fs 1 7)
    (@bread ram_disk 0%nat 1 7 ex_fs).
Proof.
  assert (bget_choice (reverse (seq 0 NBUF)) (k_bufs ex_fs) 1 7 = Some (0%nat, false)) as Hc by by vm_compute.
  split; [exact Hc|].
  assert (runs_on 0 ex_fs ∧ bcache_ok (reverse (seq 0 NBUF)) (k_bufs ex_fs) ∧ clean ex_fs) as (Hr & Hok & Hcl).
  { destruct (binit_run ex_boot eq_refl) as (bs' & E & Hok & Hb).
    assert (ex_bufs = bs') as Eb by (unfold ex_bufs; by rewrite E). unfold ex_fs. rewrite Eb. clear E Eb Hc.
    split_and!; [apply runs_ex_boot|done|]. intros b Hlt _ Hv. unfold buf_at in Hv. cbn in Hv.
    destruct (Hb b Hlt) as (_ & _ & Hv' & _). unfold bufi in Hv'. congruence. }
  pose proof (@bread_correct ram_disk 0%nat 0 (reverse (seq 0 NBUF)) ex_fs 1 7 Hr Hok Hcl ltac:(lia)) as H.
  rewrite Hc in H. clear Hc. assert (free (buf_lock 0) ex_fs ∧ b_refcnt (buf_at ex_fs 0) = 0) as [Hf H0].
  { split; [vm_cast_no_check (eq_refl false)|vm_cast_no_check (eq_refl 0)]. }
  eapply wp_mono; [|apply H; [exact Hf|rewrite H0; lia]]. intros r s' (Er & _ & _ & Hd & _). exact (conj Er Hd).
Defined.
