(* ===== verification/Bytes.v ===== *)
(** Little-endian integers inside the bytes of a disk block: [get_le] and
    [put_le] are loads and stores of C structs that lie in a block. *)

From S2P Require Import Prelude Machine Str.

Definition get_le (n off : nat) (bs : list Z) : Z := le_combine (take n (drop off bs)).
Definition put_le (n off : nat) (v : Z) (bs : list Z) : list Z := list_inserts off (le_split n v) bs.
Definition get16 : nat → list Z → Z := get_le 2.
Definition get32 : nat → list Z → Z := get_le 4.
Definition put16 : nat → Z → list Z → list Z := put_le 2.
Definition put32 : nat → Z → list Z → list Z := put_le 4.

Lemma length_put_le n off v bs : length (put_le n off v bs) = length bs.
Proof. apply length_inserts. Qed.

(** The bytes of a block after bytes were stored at [off]. *)
Lemma lookup_inserts_at {A} (off : nat) (vs bs : list A) j : (off + length vs ≤ length bs)%nat →
  list_inserts off vs bs !! j =
    if decide (off ≤ j < off + length vs)%nat then vs !! (j - off)%nat else bs !! j.
Proof.
  intros Hl. case_decide as Hj.
  - rewrite list_lookup_inserts by lia. done.
  - destruct (decide (j < off)%nat); [rewrite list_lookup_inserts_lt by lia|rewrite list_lookup_inserts_ge by lia]; done.
Qed.

Lemma lookup_take_drop {A} n off (bs : list A) j :
  take n (drop off bs) !! j = if decide (j < n)%nat then bs !! (off + j)%nat else None.
Proof. rewrite lookup_take. case_decide; [by rewrite lookup_drop|done]. Qed.

Lemma le_combine_split_mod n v : le_combine (le_split n v) = v mod 256 ^ n.
Proof.
  revert v. induction n as [|n IH]; intros v; [simpl; by rewrite Z.mod_1_r|].
  cbn [le_split le_combine]. rewrite IH. rewrite Nat2Z.inj_succ, Z.pow_succ_r by lia.
  pose proof (Z.pow_pos_nonneg 256 n). rewrite Z.rem_mul_r by lia. lia.
Qed.

Lemma get_put_same n off v bs : (off + n ≤ length bs)%nat →
  get_le n off (put_le n off v bs) = v mod 256 ^ n.
Proof.
  intros Hl. unfold get_le, put_le. rewrite <- le_combine_split_mod. f_equal. apply list_eq. intros j.
  rewrite lookup_take_drop, lookup_inserts_at by by rewrite length_le_split.
  rewrite length_le_split. case_decide.
  - rewrite decide_True by lia. f_equal. lia.
  - symmetry. apply lookup_ge_None. rewrite length_le_split. lia.
Qed.

Lemma get_put_other n n' off off' v bs :
  (off' + n' ≤ length bs)%nat → (off + n ≤ off' ∨ off' + n' ≤ off)%nat →
  get_le n off (put_le n' off' v bs) = get_le n off bs.
Proof.
  intros Hl Hd. unfold get_le, put_le. f_equal. apply list_eq. intros j.
  rewrite !lookup_take_drop, lookup_inserts_at by by rewrite length_le_split.
  rewrite length_le_split. case_decide; [|done]. by rewrite decide_False by lia.
Qed.

Lemma u32_s32 x : u32 (s32 x) = u32 x.
Proof. unfold u32, s32. rewrite Zminus_mod_idemp_l. f_equal. lia. Qed.
Lemma s32_u32 x : s32 (u32 x) = s32 x.
Proof. unfold u32, s32. rewrite Zplus_mod_idemp_l. done. Qed.

Lemma get32_put32 off v bs : (off + 4 ≤ length bs)%nat → get32 off (put32 off v bs) = u32 v.
Proof. apply (get_put_same 4). Qed.

Lemma le_split_mod n v : le_split n (v mod 256 ^ Z.of_nat n) = le_split n v.
Proof.
  revert v. induction n as [|n IH]; intros v; [done|]. cbn [le_split]. rewrite Nat2Z.inj_succ, Z.pow_succ_r by lia.
  pose proof (Z.pow_pos_nonneg 256 n). rewrite Z.rem_mul_r by lia. f_equal.
  - by rewrite (Z.mul_comm 256), Z_mod_plus_full, Zmod_mod.
  - rewrite (Z.mul_comm 256), Z.div_add, Z.div_small, Z.add_0_l by (done || apply Z.mod_pos_bound; lia). apply IH.
Qed.

Lemma put32_s32 off v bs : put32 off (s32 v) bs = put32 off v bs.
Proof.
  unfold put32, put_le. f_equal. rewrite <- (le_split_mod 4 (s32 v)), <- (le_split_mod 4 v). f_equal.
  exact (u32_s32 v).
Qed.
