(* ===== verification/Log.v ===== *)
(** The redo log: src/kernel/log.c.

    The header block on disk is [n] followed by the block numbers, 32-bit
    little-endian integers.  The loops that wait for log space take at most [max_waits] turns. *)

From S2P Require Import Prelude Machine Str Types Proc ProcSpec Rely Sleeplock Bio Bytes.

Section log.
Context `{D : Disk} `{W : Waits}.

Definition getlog : K log_t := gets k_log.
Definition setlog (f : log_t → log_t) : K unit := modify (λ s, set_log (f (k_log s)) s).

(** [log.lh.block[i]]; an index outside the array is a fault. *)
Definition lh_get (i : Z) : K Z :=
  l ← getlog;
  match lh_block l !! Z.to_nat i with Some b => mret b | None => fault end.
Definition lh_set (i b : Z) : K unit :=
  if i <? LOGSIZE then setlog (λ l, set_lh_block (<[Z.to_nat i := b]> (lh_block l)) l) else fault.

(** [for (tail = 0; tail < log.lh.n; tail++)], at most LOGSIZE times. *)
Fixpoint for_tail (fuel : nat) (tail : Z) (body : Z → K unit) : K unit :=
  l ← getlog;
  if tail <? lh_n l then
    match fuel with
    | O => fault
    | S fuel' => body tail;; for_tail fuel' (tail + 1) body
    end
  else mret tt.

Definition install_trans (recovering : bool) : K unit :=
  for_tail (Z.to_nat LOGSIZE) 0 (λ tail,
    l ← getlog;
    lbuf ← bread (u32 (lg_dev l)) (u32 (lg_start l + tail + 1));
    l ← getlog;
    blk ← lh_get tail;
    dbuf ← bread (u32 (lg_dev l)) (u32 blk);
    x ← getb lbuf;
    setb dbuf (set_b_data (b_data x));;
    bwrite dbuf;;
    (if recovering then mret tt else bunpin dbuf);;
    brelse lbuf;;
    brelse dbuf).

Definition read_head : K unit :=
  l ← getlog;
  b ← bread (u32 (lg_dev l)) (u32 (lg_start l));
  x ← getb b;
  setlog (set_lh_n (s32 (get32 0 (b_data x))));;
  for_tail (Z.to_nat LOGSIZE) 0 (λ i,
    x ← getb b;
    lh_set i (s32 (get32 (Z.to_nat (4 + 4 * i)) (b_data x))));;
  brelse b.

Definition write_head : K unit :=
  l ← getlog;
  b ← bread (u32 (lg_dev l)) (u32 (lg_start l));
  l ← getlog;
  setb b (λ x, set_b_data (put32 0 (lh_n l) (b_data x)) x);;
  for_tail (Z.to_nat LOGSIZE) 0 (λ i,
    v ← lh_get i;
    setb b (λ x, set_b_data (put32 (Z.to_nat (4 + 4 * i)) v (b_data x)) x));;
  bwrite b;;
  brelse b.

Definition recover_from_log : K unit :=
  read_head;;
  install_trans true;;
  setlog (set_lh_n 0);;
  write_head.

(** [sizeof(struct logheader)] is 4 + 4 * LOGSIZE. *)
Definition initlog (dev : Z) (sb : superblock) : K unit :=
  if 4 + 4 * LOGSIZE >=? BSIZE then panic "initlog: too big logheader"
  else
    setlog (set_lg_start (s32 (sb_logstart sb)));;
    setlog (set_lg_size (s32 (sb_nlog sb)));;
    setlog (set_lg_dev dev);;
    recover_from_log.

Fixpoint begin_op_loop (fuel : nat) : K unit :=
  l ← getlog;
  let wait := match fuel with O => halt NoFuel | S fuel' => sleep ChLog;; begin_op_loop fuel' end in
  if lg_committing l then wait
  else if lh_n l + (lg_outstanding l + 1) * MAXOPBLOCKS >? LOGSIZE then wait
  else setlog (set_lg_outstanding (lg_outstanding l + 1)).
Definition begin_op : K unit := begin_op_loop max_waits.

Definition write_log : K unit :=
  for_tail (Z.to_nat LOGSIZE) 0 (λ tail,
    l ← getlog;
    to ← bread (u32 (lg_dev l)) (u32 (lg_start l + tail + 1));
    l ← getlog;
    blk ← lh_get tail;
    from ← bread (u32 (lg_dev l)) (u32 blk);
    x ← getb from;
    setb to (set_b_data (b_data x));;
    bwrite to;;
    brelse from;;
    brelse to).

Definition commit : K unit :=
  l ← getlog;
  if lh_n l >? 0 then
    write_log;;
    write_head;;
    install_trans false;;
    setlog (set_lh_n 0);;
    write_head
  else mret tt.

Definition end_op : K unit :=
  setlog (λ l, set_lg_outstanding (lg_outstanding l - 1) l);;
  l ← getlog;
  if lg_committing l then panic "log.committing"
  else
    do_commit ← (if lg_outstanding l =? 0 then setlog (set_lg_committing true);; mret true
                 else wakeup ChLog;; mret false);
    if (do_commit : bool) then
      commit;;
      setlog (set_lg_committing false);;
      wakeup ChLog
    else mret tt.

(** [for (i = 0; i < log.lh.n; i++) if (log.lh.block[i] == b->blockno) break;] *)
Fixpoint absorb (fuel : nat) (i n blockno : Z) (blocks : list Z) : Z :=
  match fuel with
  | O => i
  | S fuel' =>
      if i <? n then
        if u32 (default 0 (blocks !! Z.to_nat i)) =? blockno then i
        else absorb fuel' (i + 1) n blockno blocks
      else i
  end.

Definition log_write (b : nat) : K unit :=
  l ← getlog;
  if (lh_n l >=? LOGSIZE) || (lh_n l >=? lg_size l - 1) then panic "too big a transaction"
  else if lg_outstanding l <? 1 then panic "log_write outside of trans"
  else
    x ← getb b;
    let i := absorb (Z.to_nat LOGSIZE) 0 (lh_n l) (b_blockno x) (lh_block l) in
    lh_set i (s32 (b_blockno x));;
    if i =? lh_n l then
      bpin b;;
      setlog (set_lh_n (lh_n l + 1))
    else mret tt.
End log.
