(* ===== verification/LogSpec.v ===== *)
(** Crash safety of the redo log.

    [commit] issues a fixed sequence of block writes.  Whatever prefix of it has
    reached the disk when the machine stops, recovery finds either the state
    before the transaction or the state after it, and recovery itself may stop
    and start again.  The write sequence is that of the code: [commit] and
    [recover_from_log] are run on the view [brep] of the buffer cache. *)

From S2P Require Import Prelude Machine Str Types Proc ProcSpec Rely Sleeplock Bio BioSpec BioContent BioRep Bytes Log.

(** ** Sequences of block writes *)

Definition apply_writes (ws : list (Z * list Z)) (D : Z → list Z) : Z → list Z :=
  foldl (λ D w, upd D w.1 w.2) D ws.

Lemma apply_writes_app ws1 ws2 D : apply_writes (ws1 ++ ws2) D = apply_writes ws2 (apply_writes ws1 D).
Proof. apply foldl_app. Qed.
Lemma apply_writes_snoc ws n v D : apply_writes (ws ++ [(n, v)]) D = upd (apply_writes ws D) n v.
Proof. by rewrite apply_writes_app. Qed.

Lemma apply_writes_notin ws D n : n ∉ ws.*1 → apply_writes ws D n = D n.
Proof.
  induction ws as [|[m v] ws IH] using rev_ind; [done|]. rewrite fmap_app, apply_writes_snoc. intros Hn.
  rewrite upd_ne by (clear -Hn; set_solver). apply IH. clear -Hn. set_solver.
Qed.

(** What a sequence leaves in a block it writes does not depend on the disk. *)
Lemma apply_writes_in ws D D' n : n ∈ ws.*1 → apply_writes ws D n = apply_writes ws D' n.
Proof.
  induction ws as [|[m v] ws IH] using rev_ind; [by intros ?%elem_of_nil|].
  rewrite fmap_app, !apply_writes_snoc. intros Hn.
  destruct (decide (n = m)) as [->|Hne]; [by rewrite !upd_eq|]. rewrite !upd_ne by done.
  apply IH. clear -Hn Hne. set_solver.
Qed.

Lemma apply_writes_ext ws D D' n : D n = D' n → apply_writes ws D n = apply_writes ws D' n.
Proof.
  intros E. destruct (decide (n ∈ ws.*1)); [by apply apply_writes_in|]. by rewrite !apply_writes_notin.
Qed.

(** Writing a sequence again after a part of it was written changes nothing. *)
Lemma apply_writes_again ws k D n : apply_writes ws (apply_writes (take k ws) D) n = apply_writes ws D n.
Proof.
  destruct (decide (n ∈ ws.*1)) as [|Hn]; [by apply apply_writes_in|]. rewrite !apply_writes_notin; try done.
  intros Hn'. apply Hn. rewrite <- (take_drop k ws), fmap_app. apply elem_of_app. by left.
Qed.

(** Writes that agree with a content. *)
Lemma apply_writes_content ws (C D : Z → list Z) n :
  Forall (λ w, w.2 = C w.1) ws → n ∈ ws.*1 → apply_writes ws D n = C n.
Proof.
  induction ws as [|[m v] ws IH] using rev_ind; [by intros _ ?%elem_of_nil|].
  rewrite Forall_app, list.Forall_singleton, fmap_app, apply_writes_snoc. intros [Hw Hv] Hn. cbn in Hv, Hn. subst v.
  destruct (decide (n = m)) as [->|Hne]; [by rewrite upd_eq|]. rewrite upd_ne by done.
  apply IH; [done|]. clear -Hn Hne. set_solver.
Qed.

(** ** The header block *)

Fixpoint put_blocks (k : nat) (bl bs : list Z) : list Z :=
  match bl with
  | [] => bs
  | b :: bl' => put_blocks (S k) bl' (put32 (4 + 4 * k) b bs)
  end.
Definition header (bl old : list Z) : list Z := put_blocks 0 bl (put32 0 (length bl) old).

(** The block numbers of a header block. *)
Definition head_blocks (bs : list Z) : list Z :=
  (λ k : nat, u32 (get32 (4 + 4 * k) bs)) <$> seq 0 (Z.to_nat (s32 (get32 0 bs))).

Lemma length_put_blocks k bl bs : length (put_blocks k bl bs) = length bs.
Proof. revert k bs. induction bl as [|b bl IH]; intros k bs; [done|]. cbn [put_blocks]. rewrite IH. apply length_put_le. Qed.

Lemma put_blocks_snoc k bl b bs :
  put_blocks k (bl ++ [b]) bs = put32 (4 + 4 * (k + length bl)) b (put_blocks k bl bs).
Proof.
  revert k bs. induction bl as [|c bl IH]; intros k bs; cbn [put_blocks app length].
  - by rewrite Nat.add_0_r.
  - rewrite IH. do 3 f_equal. lia.
Qed.

Lemma get32_put_blocks bl bs off : (4 + 4 * length bl ≤ length bs)%nat → (off = 0 ∨ 4 + 4 * length bl ≤ off)%nat →
  get32 off (put_blocks 0 bl bs) = get32 off bs.
Proof.
  induction bl as [|b bl IH] using rev_ind; intros Hl Ho; [done|]. rewrite length_app in *. cbn [length] in *.
  rewrite put_blocks_snoc. unfold get32, put32. rewrite get_put_other; [apply IH; lia| |lia].
  rewrite length_put_blocks. lia.
Qed.

Lemma put_blocks_lookup bl bs k b : (4 + 4 * length bl ≤ length bs)%nat → bl !! k = Some b →
  get32 (4 + 4 * k) (put_blocks 0 bl bs) = u32 b.
Proof.
  induction bl as [|c bl IH] using rev_ind; intros Hl Hk; [done|]. rewrite length_app in Hl. cbn [length] in Hl.
  rewrite put_blocks_snoc. apply lookup_app_Some in Hk as [Hk|[Hge Hk]].
  - pose proof (lookup_lt_Some _ _ _ Hk). unfold get32, put32. rewrite get_put_other.
    + apply IH; [lia|done].
    + rewrite length_put_blocks. lia.
    + lia.
  - apply list_lookup_singleton_Some in Hk as [Hk ->]. replace k with (0 + length bl)%nat by lia.
    apply get32_put32. rewrite length_put_blocks. lia.
Qed.

Lemma length_header bl old : length (header bl old) = length old.
Proof. unfold header. rewrite length_put_blocks. apply length_put_le. Qed.

Lemma head_blocks_header bl old : length old = 1024%nat → (length bl ≤ 30)%nat →
  head_blocks (header bl old) = u32 <$> bl.
Proof.
  intros Ho Hl. assert (length (put32 0 (length bl) old) = 1024%nat) as Ho' by (rewrite <- Ho; apply length_put_le).
  unfold head_blocks, header. rewrite get32_put_blocks by lia. rewrite get32_put32 by lia.
  rewrite s32_u32, s32_small, Nat2Z.id by lia. apply list_eq. intros k. rewrite !list_lookup_fmap.
  destruct (bl !! k) as [b|] eqn:Hk.
  - pose proof (lookup_lt_Some _ _ _ Hk). rewrite lookup_seq_lt by lia. cbn [fmap option_fmap option_map].
    f_equal. erewrite put_blocks_lookup; [apply u32_u32|lia|done].
  - apply lookup_ge_None in Hk. rewrite lookup_seq_ge by lia. done.
Qed.

Lemma head_blocks_cleared bs : (4 ≤ length bs)%nat → head_blocks (put32 0 0 bs) = [].
Proof. intros. unfold head_blocks. by rewrite get32_put32. Qed.

(** A header without blocks. *)
Definition cleared (bs : list Z) : Prop := length bs = 1024%nat ∧ get32 0 bs = 0.

Lemma cleared_blocks bs : cleared bs → head_blocks bs = [].
Proof. intros [_ H]. unfold head_blocks. by rewrite H. Qed.

Lemma cleared_put bs : length bs = 1024%nat → cleared (put32 0 0 bs).
Proof. intros H. split; [by unfold put32; rewrite length_put_le|]. by rewrite get32_put32 by lia. Qed.

(** ** Crashes *)

(** The writes of a transaction: log blocks, header, home blocks, header. *)
Definition log_writes (ls : Z) (C : Z → list Z) (bl : list Z) : list (Z * list Z) :=
  imap (λ k b, (ls + Z.of_nat k + 1, C b)) bl.
Definition home_writes (C : Z → list Z) (bl : list Z) : list (Z * list Z) := (λ b, (b, C b)) <$> bl.
Definition commit_writes (ls : Z) (C : Z → list Z) (old bl : list Z) : list (Z * list Z) :=
  log_writes ls C bl ++ (ls, header bl old) :: home_writes C bl ++ [(ls, put32 0 0 (header bl old))].

(** The writes of recovery on a disk, and the disk it leaves. *)
Definition redo_writes (ls : Z) (D : Z → list Z) : list (Z * list Z) :=
  imap (λ k b, (b, D (ls + Z.of_nat k + 1))) (head_blocks (D ls)).
Definition recover_writes (ls : Z) (D : Z → list Z) : list (Z * list Z) :=
  redo_writes ls D ++ [(ls, put32 0 0 (D ls))].
Definition recovered (ls : Z) (D : Z → list Z) : Z → list Z := apply_writes (recover_writes ls D) D.

(** The blocks of the log: the header and [n] blocks. *)
Definition in_log (ls : Z) (n : nat) (b : Z) : Prop := ls ≤ b ≤ ls + n.

(** A log that can be recovered from. *)
Record log_wf (ls : Z) (D : Z → list Z) : Prop := {
  lw_len : length (D ls) = 1024%nat;
  lw_n : 0 ≤ s32 (get32 0 (D ls)) ≤ 30;
  lw_nodup : NoDup (head_blocks (D ls));
  lw_out : Forall (λ b, ¬ in_log ls (length (head_blocks (D ls))) b) (head_blocks (D ls)) }.

Lemma log_wf_cleared ls D : cleared (D ls) → log_wf ls D.
Proof. intros H. pose proof (cleared_blocks _ H) as E. destruct H as [Hl Hn]. split; [done|by rewrite Hn|rewrite E; apply NoDup_nil_2|by rewrite E]. Qed.

Lemma log_wf_ext ls D D' : D' ls = D ls → log_wf ls D → log_wf ls D'.
Proof. intros E [Hl Hn Hd Ho]. split; by rewrite E. Qed.

Lemma log_writes_dom ls C bl n : n ∈ (log_writes ls C bl).*1 ↔ ls < n ≤ ls + length bl.
Proof.
  unfold log_writes. rewrite list_elem_of_fmap. split.
  - intros ([m v] & -> & H). apply elem_of_lookup_imap in H as (k & b & [= -> ->] & Hk).
    apply lookup_lt_Some in Hk. cbn. lia.
  - intros Hn. destruct (lookup_lt_is_Some_2 bl (Z.to_nat (n - ls - 1))) as [b Hb]; [lia|].
    exists (n, C b). split; [done|]. apply elem_of_lookup_imap. do 2 eexists. split; [|done]. f_equal. lia.
Qed.

Lemma log_writes_get ls C bl (k : nat) b D : bl !! k = Some b → apply_writes (log_writes ls C bl) D (ls + k + 1) = C b.
Proof.
  intros Hk. set (C' := λ n, C (default 0 (bl !! Z.to_nat (n - ls - 1)))).
  rewrite (apply_writes_content _ C').
  - unfold C'. replace (Z.to_nat _) with k by lia. by rewrite Hk.
  - apply list.Forall_forall. intros w Hw. apply elem_of_lookup_imap in Hw as (j & c & -> & Hj). cbn.
    unfold C'. replace (Z.to_nat _) with j by lia. by rewrite Hj.
  - apply log_writes_dom. apply lookup_lt_Some in Hk. lia.
Qed.

Lemma redo_writes_dom ls D : (redo_writes ls D).*1 = head_blocks (D ls).
Proof.
  apply list_eq. intros j. unfold redo_writes. rewrite list_lookup_fmap, list_lookup_imap. by destruct (_ !! j).
Qed.

Lemma home_writes_dom C bl : (home_writes C bl).*1 = bl.
Proof. unfold home_writes. rewrite <- list_fmap_compose. by apply list_fmap_id. Qed.

Lemma home_writes_in C bl k : Forall (λ w, w.2 = C w.1) (take k (home_writes C bl)).
Proof. unfold home_writes. rewrite <- list.fmap_take. apply Forall_fmap, list.Forall_forall. done. Qed.

Lemma apply_writes_val ws D n x : (∀ v, (n, v) ∈ ws → v = x) → apply_writes ws D n = D n ∨ apply_writes ws D n = x.
Proof.
  induction ws as [|[m v] ws IH] using rev_ind; intros H; [by left|]. rewrite apply_writes_snoc. unfold upd. case_decide as E.
  - right. apply H. subst. set_solver.
  - apply IH. intros v' Hv. apply H. set_solver.
Qed.

Lemma apply_writes_uniq ws D n v : NoDup ws.*1 → (n, v) ∈ ws → apply_writes ws D n = v.
Proof.
  induction ws as [|[m x] ws IH] using rev_ind; intros Hnd Hin; [by apply not_elem_of_nil in Hin|].
  rewrite fmap_app in Hnd. apply list.NoDup_app in Hnd as (Hnd & Hd & _). rewrite apply_writes_snoc. unfold upd. case_decide as E.
  - subst. apply elem_of_app in Hin as [Hin|[= ->]%list_elem_of_singleton]; [|done]. exfalso. apply (Hd m); [apply list_elem_of_fmap; by exists (m, v)|cbn; set_solver].
  - apply IH; [done|]. apply elem_of_app in Hin as [Hin|[= -> ->]%list_elem_of_singleton]; done.
Qed.

Lemma elem_of_take_in {A} k (l : list A) x : x ∈ take k l → x ∈ l.
Proof. intros H. rewrite <- (take_drop k l). apply elem_of_app. by left. Qed.

Section crash.
Context (ls : Z) (C D : Z → list Z) (bl : list Z).
Hypothesis Hbl : Forall (λ b, 0 ≤ b < 2 ^ 32 ∧ ¬ in_log ls (length bl) b) bl.
Hypothesis Hlen : (length bl ≤ 30)%nat.
Hypothesis Hnodup : NoDup bl.
Hypothesis Hempty : cleared (D ls).
Hypothesis Hsame : ∀ n, n ∉ bl → C n = D n.

(** Recovery without a committed transaction. *)
Lemma recovered_empty D' n : head_blocks (D' ls) = [] → n ≠ ls → recovered ls D' n = D' n.
Proof.
  intros E Hn. unfold recovered, recover_writes, redo_writes. rewrite E. cbn. by rewrite upd_ne.
Qed.

Lemma u32_bl : u32 <$> bl = bl.
Proof.
  rewrite <- (list_fmap_id bl) at 2. apply list_fmap_ext. intros k b Hk. apply u32_small.
  rewrite list.Forall_forall in Hbl. by apply Hbl, (list_elem_of_lookup_2 _ k).
Qed.

(** The blocks once the home blocks are written. *)
Lemma home_writes_done h n : ¬ in_log ls (length bl) n →
  apply_writes (home_writes C bl) (upd (apply_writes (log_writes ls C bl) D) ls h) n = C n.
Proof.
  intros Hn. destruct (decide (n ∈ bl)) as [Hin|Hin].
  - rewrite (apply_writes_content _ C); [done| |by rewrite home_writes_dom].
    pose proof (home_writes_in C bl (length (home_writes C bl))) as H. by rewrite take_ge in H.
  - rewrite apply_writes_notin by by rewrite home_writes_dom.
    unfold in_log in Hn. rewrite upd_ne by lia. rewrite apply_writes_notin; [by rewrite Hsame|].
    rewrite log_writes_dom. lia.
Qed.

(** Recovery of a committed transaction, of which some home blocks are written. *)
Lemma recovered_committed j n :
  let D1 := upd (apply_writes (log_writes ls C bl) D) ls (header bl (D ls)) in
  ¬ in_log ls (length bl) n →
  recovered ls (apply_writes (take j (home_writes C bl)) D1) n = C n.
Proof.
  intros D1 Hn. pose proof (proj1 Hempty) as Hold. set (D2 := apply_writes _ D1).
  assert (∀ m, in_log ls (length bl) m → D2 m = D1 m) as H2.
  { intros m Hm. apply apply_writes_notin. intros Hin. rewrite list.Forall_forall in Hbl.
    apply (Hbl m); [|done]. rewrite <- (home_writes_dom C bl), <- (take_drop j (home_writes C bl)), fmap_app.
    apply elem_of_app. by left. }
  assert (D2 ls = header bl (D ls)) as Eh by (rewrite H2 by (unfold in_log; lia); unfold D1; by rewrite upd_eq).
  assert (n ≠ ls) as Hnls by (intros ->; apply Hn; unfold in_log; lia).
  unfold recovered, recover_writes, redo_writes. rewrite Eh, apply_writes_snoc, upd_ne by done.
  rewrite head_blocks_header, u32_bl by done.
  assert (imap (λ k b, (b, D2 (ls + Z.of_nat k + 1))) bl = home_writes C bl) as ->.
  { apply list_eq. intros k. unfold home_writes. rewrite list_lookup_imap, list_lookup_fmap.
    destruct (bl !! k) as [b|] eqn:Hk; [|done]. cbn. do 2 f_equal. pose proof (lookup_lt_Some _ _ _ Hk).
    rewrite H2 by (unfold in_log; lia). unfold D1. rewrite upd_ne by lia. by apply log_writes_get. }
  unfold D2. rewrite apply_writes_again. by apply home_writes_done.
Qed.

(** However many of the writes were made, recovery gives the old blocks or the
    new ones. *)
Lemma commit_writes_crash k n :
  ¬ in_log ls (length bl) n →
  recovered ls (apply_writes (take k (commit_writes ls C (D ls) bl)) D) n =
    if decide (k ≤ length bl)%nat then D n else C n.
Proof.
  intros Hn. pose proof (proj1 Hempty) as Hold. assert (n ≠ ls) as Hnls by (intros ->; apply Hn; unfold in_log; lia).
  assert (length (log_writes ls C bl) = length bl) as Hll by apply length_imap.
  unfold commit_writes. case_decide as Hk.
  - rewrite take_app_le by lia.
    assert (∀ m, m ∉ (log_writes ls C bl).*1 → apply_writes (take k (log_writes ls C bl)) D m = D m) as Hm.
    { intros m Hm. apply apply_writes_notin. intros Hin. apply Hm.
      rewrite <- (take_drop k (log_writes ls C bl)), fmap_app. apply elem_of_app. by left. }
    rewrite recovered_empty; [| |done].
    + apply Hm. rewrite log_writes_dom. unfold in_log in Hn. lia.
    + rewrite Hm by (rewrite log_writes_dom; lia). by apply cleared_blocks.
  - rewrite take_app_ge by lia. rewrite Hll. destruct (k - length bl)%nat as [|j] eqn:Ej; [lia|].
    cbn [take]. rewrite apply_writes_app.
    change (apply_writes ((ls, header bl (D ls)) :: ?ws) ?D0) with (apply_writes ws (upd D0 ls (header bl (D ls)))).
    destruct (decide (j ≤ length bl)%nat) as [Hj|Hj].
    + rewrite take_app_le by (unfold home_writes; by rewrite length_fmap). by apply recovered_committed.
    + rewrite take_ge by (unfold home_writes; rewrite length_app, length_fmap; cbn; lia).
      rewrite apply_writes_snoc. set (D2 := upd _ ls (put32 0 0 _)).
      rewrite recovered_empty; [| |done].
      * unfold D2. rewrite upd_ne by done. by apply home_writes_done.
      * unfold D2. rewrite upd_eq. apply head_blocks_cleared. rewrite length_header. lia.
Qed.

(** Every block is the old one or the new one. *)
Lemma commit_writes_val k n : ¬ in_log ls (length bl) n →
  let D' := apply_writes (take k (commit_writes ls C (D ls) bl)) D in D' n = D n ∨ D' n = C n.
Proof.
  intros Hn. apply apply_writes_val. intros v Hv%elem_of_take_in. unfold commit_writes in Hv.
  apply elem_of_app in Hv as [Hv|Hv%elem_of_cons].
  - exfalso. apply Hn. unfold in_log. assert (n ∈ (log_writes ls C bl).*1) as Hd by (apply list_elem_of_fmap; by exists (n, v)).
    apply log_writes_dom in Hd. lia.
  - assert (n ≠ ls) as Hl by (intros ->; apply Hn; unfold in_log; lia). destruct Hv as [[= ? ?]|[Hv|Hv%list_elem_of_singleton]%elem_of_app]; [done| |congruence].
    unfold home_writes in Hv. apply list_elem_of_fmap in Hv as (b & [= <- ->] & _). done.
Qed.

(** And what is found on the disk is a log. *)
Lemma commit_writes_wf k : log_wf ls (apply_writes (take k (commit_writes ls C (D ls) bl)) D).
Proof.
  assert (length (log_writes ls C bl) = length bl) as Hll by apply length_imap. pose proof (proj1 Hempty) as Hold.
  assert (∀ j, ls ∉ (take j (home_writes C bl)).*1) as Hhome.
  { intros j Hin. rewrite list.Forall_forall in Hbl. apply (Hbl ls); [|unfold in_log; lia].
    rewrite <- (home_writes_dom C bl), <- (take_drop j (home_writes C bl)), fmap_app. apply elem_of_app. by left. }
  assert (∀ D', D' ls = header bl (D ls) → log_wf ls D') as Hhead.
  { intros D' E. split; rewrite E.
    - by rewrite length_header.
    - unfold header. rewrite get32_put_blocks, get32_put32, s32_u32, s32_small; rewrite ?length_header; unfold put32; rewrite ?length_put_le; lia.
    - by rewrite head_blocks_header, u32_bl.
    - rewrite head_blocks_header, u32_bl by done. eapply list.Forall_impl; [exact Hbl|]. by intros b [_ ?]. }
  unfold commit_writes. destruct (decide (k ≤ length bl)%nat) as [Hk|Hk].
  - rewrite take_app_le by lia. apply log_wf_cleared. rewrite apply_writes_notin; [done|]. intros Hin.
    assert (ls ∈ (log_writes ls C bl).*1) as H; [|rewrite log_writes_dom in H; lia].
    rewrite <- (take_drop k (log_writes ls C bl)), fmap_app. apply elem_of_app. by left.
  - rewrite take_app_ge by lia. rewrite Hll. destruct (k - length bl)%nat as [|j] eqn:Ej; [lia|]. cbn [take]. rewrite apply_writes_app.
    change (apply_writes ((ls, header bl (D ls)) :: ?ws) ?D0) with (apply_writes ws (upd D0 ls (header bl (D ls)))).
    destruct (decide (j ≤ length bl)%nat) as [Hj|Hj].
    + rewrite take_app_le by (unfold home_writes; by rewrite length_fmap). apply Hhead. rewrite apply_writes_notin by apply Hhome. apply upd_eq.
    + rewrite take_ge by (unfold home_writes; rewrite length_app, length_fmap; cbn; lia).
      rewrite apply_writes_snoc. apply log_wf_cleared. rewrite upd_eq. apply cleared_put. by rewrite length_header.
Qed.
End crash.

Lemma recover_writes_wf ls D k : log_wf ls D → log_wf ls (apply_writes (take k (recover_writes ls D)) D).
Proof.
  intros Hw. pose proof Hw as [Hl _ _ Ho]. unfold recover_writes. destruct (decide (k ≤ length (redo_writes ls D))%nat) as [Hk|Hk].
  - rewrite take_app_le by done. eapply log_wf_ext; [|exact Hw]. apply apply_writes_notin. intros Hin. rewrite list.Forall_forall in Ho.
    apply (Ho ls); [|unfold in_log; lia]. rewrite <- redo_writes_dom, <- (take_drop k (redo_writes ls D)), fmap_app. apply elem_of_app. by left.
  - rewrite take_ge by (rewrite length_app; cbn; lia). rewrite apply_writes_snoc. apply log_wf_cleared. rewrite upd_eq. by apply cleared_put.
Qed.

(** Recovery that is cut short and started again. *)
Lemma recover_writes_crash ls D k n :
  Forall (λ b, ¬ in_log ls (length (head_blocks (D ls))) b) (head_blocks (D ls)) →
  length (D ls) = 1024%nat → n ≠ ls →
  recovered ls (apply_writes (take k (recover_writes ls D)) D) n = recovered ls D n.
Proof.
  intros Hbl Hlen Hn. unfold recover_writes. set (ws := redo_writes ls D).
  pose proof (redo_writes_dom ls D) as Hdom. fold ws in Hdom.
  destruct (decide (k ≤ length ws)%nat) as [Hk|Hk].
  - rewrite take_app_le by done. set (D' := apply_writes (take k ws) D).
    assert (∀ m, in_log ls (length (head_blocks (D ls))) m → D' m = D m) as Hlog.
    { intros m Hm. apply apply_writes_notin. intros Hin. rewrite list.Forall_forall in Hbl. apply (Hbl m); [|done].
      rewrite <- Hdom, <- (take_drop k ws), fmap_app. apply elem_of_app. by left. }
    assert (D' ls = D ls) as Els by (apply Hlog; unfold in_log; lia).
    unfold recovered, recover_writes. rewrite !apply_writes_snoc, !upd_ne by done.
    replace (redo_writes ls D') with ws; [apply apply_writes_again|].
    unfold ws, redo_writes. rewrite Els. apply imap_ext. intros j b Hj. f_equal. symmetry. apply Hlog.
    apply lookup_lt_Some in Hj. unfold in_log. lia.
  - rewrite take_ge by (rewrite length_app; cbn; lia). rewrite recovered_empty; [done| |done].
    rewrite apply_writes_snoc, upd_eq. apply head_blocks_cleared. lia.
Qed.

(** While recovery runs, every block is the one that was found or the recovered
    one. *)
Lemma recover_writes_val ls D k n : log_wf ls D → n ≠ ls →
  let D' := apply_writes (take k (recover_writes ls D)) D in D' n = D n ∨ D' n = recovered ls D n.
Proof.
  intros Hw Hn. apply apply_writes_val. intros v Hv%elem_of_take_in. unfold recover_writes in Hv.
  apply elem_of_app in Hv as [Hv|[= ? ?]%list_elem_of_singleton]; [|done].
  unfold recovered, recover_writes. rewrite apply_writes_snoc, upd_ne by done. symmetry. apply apply_writes_uniq; [|done].
  rewrite redo_writes_dom. apply Hw.
Qed.
