(* ===== verification/LogRun.v ===== *)
(** Runs of log.c on the buffer cache: which block writes [commit] and
    [recover_from_log] issue, and what they leave in the cache and on the disk.
    The file system is used by one thread, [i]; the log starts at block [ls] of
    device [dev]. *)

From S2P Require Import Prelude Machine Str Types Proc ProcSpec Rely Sleeplock Bio BioSpec BioContent BioRep Bytes Log LogSpec.

(** Steps over a call that returns at once. *)
Ltac wstep := eapply wp_ok; [reflexivity|]; cbv beta.

(** ** The in-memory log *)

Record log_is (dev ls : Z) (bl : list Z) (l : log_t) : Prop := {
  li_dev : lg_dev l = dev;
  li_dev_range : 0 ≤ dev < 2 ^ 31;
  li_start : lg_start l = ls;
  li_start_range : 0 ≤ ls < 2 ^ 31 - 64;
  li_n : lh_n l = length bl;
  li_len : length (lh_block l) = 30%nat;
  li_fits : (length bl ≤ 30)%nat;
  li_block k b : bl !! k = Some b → lh_block l !! k = Some (s32 b) }.

(** The log apart from its header. *)
Definition log_keep (l l' : log_t) : Prop :=
  lg_size l' = lg_size l ∧ lg_outstanding l' = lg_outstanding l ∧ lg_committing l' = lg_committing l.

(** The blocks of a transaction: distinct, and not blocks of the log. *)
Record txn_ok (ls : Z) (bl : list Z) : Prop := {
  to_nodup : NoDup bl;
  to_range : Forall (λ b, 0 ≤ b < 2 ^ 32 ∧ ¬ in_log ls (length bl) b) bl }.

Lemma txn_lookup ls bl k b : txn_ok ls bl → bl !! k = Some b → 0 ≤ b < 2 ^ 32 ∧ ¬ in_log ls (length bl) b.
Proof. intros [_ H] Hk. rewrite list.Forall_forall in H. by apply H, (list_elem_of_lookup_2 _ k). Qed.

Lemma size_txn ls bl : txn_ok ls bl → size (list_to_set (C := gset Z) bl) = length bl.
Proof. intros H. apply size_list_to_set, H. Qed.

(** [s'] is [s] up to the log, the cache, the disk and idling. *)
Definition lframe (s s' : kstate) : Prop := bframe (set_log (k_log s') s) s'.

Lemma bframe_log s s' v : bframe s s' → bframe (set_log v s) (set_log v s').
Proof. intros H. unfold bframe in *. by apply (idle_log _ _ v) in H. Qed.

#[global] Instance lframe_preorder : PreOrder lframe.
Proof.
  split; [intros s; unfold lframe; by destruct s|]. unfold lframe. intros s1 s2 s3 H1 H2.
  etrans; [|exact H2]. by apply (bframe_log _ _ (k_log s3)) in H1.
Qed.

Lemma bframe_lframe s s' : bframe s s' → lframe s s'.
Proof. intros H. unfold lframe. destruct (bframe_get _ _ H) as (-> & _). by destruct s. Qed.

Lemma lframe_setlog f s : lframe s (set_log (f (k_log s)) s).
Proof. unfold lframe. by destruct s. Qed.

Lemma lframe_get s s' : lframe s s' →
  k_sb s' = k_sb s ∧ k_inodes s' = k_inodes s ∧ k_cur s' = k_cur s ∧ k_mem s' = k_mem s ∧ k_kmem s' = k_kmem s.
Proof. intros H. by destruct (bframe_get _ _ H) as (_ & -> & -> & -> & -> & ->). Qed.

Lemma brep_set_log i dev s C D P H w l :
  brep i dev s C D P H w → brep i dev (set_log l s) C D P H w.
Proof. intros [H1 H2 H3 H4 H5 H6 H7 H8 H9 H10 H11]. split; try done. by destruct H1. Qed.

Section run.
Context `{DK : Disk} `{W : Waits}.
Variables (E : stop → Prop) (i : nat) (dev ls : Z).
Abbreviation wpi := (wp E (λ _, True) idle).

Lemma lh_get_run bl k b s : log_is dev ls bl (k_log s) → bl !! k = Some b → lh_get (Z.of_nat k) s = Ok (s32 b) s.
Proof.
  intros Hl Hk. unfold lh_get, getlog. rewrite (bind_ok _ _ _ _ _ (eq_refl : gets _ s = Ok _ s)).
  rewrite Nat2Z.id, (li_block _ _ _ _ Hl k b Hk). done.
Qed.

(** A loop over the logged blocks. *)
Lemma wp_for_tail N (I : nat → kstate → Prop) (body : Z → K unit) Q s :
  (N ≤ 30)%nat → (∀ k s, I k s → lh_n (k_log s) = N) →
  (∀ k s, (k < N)%nat → I k s → wpi (λ _, I (S k)) (body (Z.of_nat k) s)) →
  I O s → (∀ s', I N s' → Q tt s') → wpi Q (for_tail (Z.to_nat LOGSIZE) 0 body s).
Proof.
  intros HN Hn Hbody H0 HQ.
  assert (∀ fuel k s, (k ≤ N)%nat → (N - k ≤ fuel)%nat → I k s → wpi Q (for_tail fuel (Z.of_nat k) body s)) as Hgo.
  { intros fuel. induction fuel as [|fuel IH]; intros k s1 Hk Hf HI; cbn [for_tail]; wstep; rewrite (Hn k s1 HI).
    - assert (k = N) as -> by lia. rewrite (proj2 (Z.ltb_ge N N)) by lia. by apply HQ.
    - destruct (Z.ltb_spec k N).
      + apply (wp_bind_mono _ _ _ (λ _, I (S k))); [by apply Hbody; [lia|]|]. intros [] s2 H2.
        replace (k + 1) with (Z.of_nat (S k)) by lia. apply IH; [lia..|done].
      + assert (k = N) as -> by lia. by apply HQ. }
  apply (Hgo _ O); [lia| |done]. change (Z.to_nat LOGSIZE) with 30%nat. lia.
Qed.

(** ** [write_log] *)

(** One block of the transaction goes to the log. *)
Lemma wp_write_log_body s C D w bl P (k : nat) b Q :
  log_is dev ls bl (k_log s) → bl !! k = Some b → 0 ≤ b < 2 ^ 32 → b ≠ ls + k + 1 → b ∈ P →
  (size P < NBUF)%nat → brep i dev s C D P ∅ w →
  (∀ s', bframe s s' → brep i dev s' (upd C (ls + k + 1) (C b)) (upd D (ls + k + 1) (C b)) P ∅
     (w ++ [(ls + k + 1, C b)]) → Q tt s') →
  wpi Q ((l ← getlog; to ← bread (u32 (lg_dev l)) (u32 (lg_start l + k + 1));
          l ← getlog; blk ← lh_get k; from ← bread (u32 (lg_dev l)) (u32 blk);
          x ← getb from; setb to (set_b_data (b_data x));; bwrite to;; brelse from;; brelse to) s).
Proof.
  intros Hl Hk Hbr Hne HP Hsz Hb HQ. pose proof (lookup_lt_Some _ _ _ Hk).
  pose proof (li_start_range _ _ _ _ Hl). pose proof (li_dev_range _ _ _ _ Hl). pose proof (li_fits _ _ _ _ Hl).
  wstep. rewrite (li_dev _ _ _ _ Hl), (li_start _ _ _ _ Hl), !u32_small by lia.
  apply wp_bind. apply (wp_bread_rep _ i dev s) with (1 := Hb); [done|right; rewrite map_size_empty; lia|].
  intros to s2 _ Hf2 Hb2. destruct (bframe_get _ _ Hf2) as (El2 & _). wstep.
  eapply wp_ok; [apply (lh_get_run bl k b); [by rewrite El2|done]|].
  rewrite El2, (li_dev _ _ _ _ Hl), u32_s32, !u32_small by lia.
  apply wp_bind. apply (wp_bread_rep _ i dev s2) with (1 := Hb2); [|by left|].
  { intros c. rewrite lookup_insert. by case_decide; [intros [=]|]. }
  intros from s3 Hfr Hf3 Hb3. wstep. apply lookup_insert_None in Hfr as [_ Hnf].
  destruct (brep_data _ _ _ _ _ _ _ _ from b Hb3) as [-> _]; [by rewrite lookup_insert_eq|]. wstep.
  pose proof (brep_set_data i dev s3 _ _ _ _ _ to (ls + k + 1) (λ _, C b) Hb3) as Hb4.
  rewrite lookup_insert_ne, lookup_insert_eq in Hb4 by done. specialize (Hb4 eq_refl).
  apply wp_bind. eapply wp_bwrite_rep; [exact Hb4|by rewrite lookup_insert_ne, lookup_insert_eq|].
  intros s5 Hf5 Hb5. rewrite upd_eq in Hb5.
  apply wp_bind. eapply wp_brelse_rep; [exact Hb5|by rewrite lookup_insert_eq|by left|].
  intros s6 Hf6 Hb6. rewrite delete_insert_id in Hb6 by by rewrite lookup_insert_ne.
  eapply wp_brelse_rep; [exact Hb6|by rewrite lookup_insert_eq|right; by rewrite !upd_eq|].
  intros s7 Hf7 Hb7. rewrite delete_insert_id in Hb7 by done. apply HQ; [|done].
  etrans; [exact Hf2|]. etrans; [exact Hf3|]. etrans; [apply bframe_upd|].
  etrans; [exact Hf5|]. etrans; [exact Hf6|]. exact Hf7.
Qed.

Lemma wp_write_log s C D w bl Q :
  log_is dev ls bl (k_log s) → txn_ok ls bl → (length bl < NBUF)%nat →
  brep i dev s C D (list_to_set bl) ∅ w →
  (∀ s', bframe s s' → brep i dev s' (apply_writes (log_writes ls C bl) C)
     (apply_writes (log_writes ls C bl) D) (list_to_set bl) ∅ (w ++ log_writes ls C bl) → Q tt s') →
  wpi Q (write_log s).
Proof.
  intros Hl Ht Hsz Hb HQ. set (LW := log_writes ls C bl) in *.
  assert (length LW = length bl) as HLW by apply length_imap.
  apply (wp_for_tail (length bl) (λ k s', bframe s s' ∧ brep i dev s' (apply_writes (take k LW) C)
    (apply_writes (take k LW) D) (list_to_set bl) ∅ (w ++ take k LW))).
  - apply Hl.
  - intros k s1 [Hf _]. destruct (bframe_get _ _ Hf) as (-> & _). apply Hl.
  - intros k s1 Hk [Hf Hb1]. destruct (lookup_lt_is_Some_2 bl k Hk) as [b Hbk].
    destruct (txn_lookup _ _ _ _ Ht Hbk) as [Hbr Hbl]. destruct (bframe_get _ _ Hf) as (El & _).
    apply (wp_write_log_body s1 (apply_writes (take k LW) C) (apply_writes (take k LW) D)
             (w ++ take k LW) bl (list_to_set bl) k b); [by rewrite El|done|done| | | |done|].
    { intros ->. apply Hbl. unfold in_log. lia. }
    { apply elem_of_list_to_set. by apply (list_elem_of_lookup_2 _ k). }
    { by rewrite (size_txn _ _ Ht). }
    intros s' Hf' Hb'. split; [by etrans|].
    assert (LW !! k = Some (ls + k + 1, C b)) as Hk' by (unfold LW, log_writes; by rewrite list_lookup_imap, Hbk).
    rewrite (take_S_r _ _ _ Hk'), !apply_writes_snoc, app_assoc.
    rewrite (apply_writes_notin _ _ b) in Hb'; [done|]. intros Hin. apply Hbl.
    assert (b ∈ LW.*1) as Hin' by (rewrite <- (take_drop k LW), fmap_app; apply elem_of_app; by left).
    apply log_writes_dom in Hin'. unfold in_log. lia.
  - split; [done|]. cbn. by rewrite app_nil_r.
  - intros s' [Hf Hb']. rewrite take_ge in Hb' by lia. by apply HQ.
Qed.

(** ** [write_head] *)

Lemma upd_upd C n x y : pointwise_relation Z eq (upd (upd C n x) n y) (upd C n y).
Proof. intros m. unfold upd. by case_decide. Qed.
Lemma upd_id C n x : C n = x → pointwise_relation Z eq (upd C n x) C.
Proof. intros <- m. unfold upd. by case_decide as H; [rewrite H|]. Qed.

Lemma wp_write_head s C D w P bl Q :
  log_is dev ls bl (k_log s) → ls ∉ P → (size P < NBUF)%nat →
  brep i dev s C D P ∅ w →
  (∀ s', bframe s s' → brep i dev s' (upd C ls (header bl (C ls))) (upd D ls (header bl (C ls))) P ∅
     (w ++ [(ls, header bl (C ls))]) → Q tt s') →
  wpi Q (write_head s).
Proof.
  intros Hl HP Hsz Hb HQ. pose proof (li_start_range _ _ _ _ Hl). pose proof (li_dev_range _ _ _ _ Hl).
  unfold write_head. wstep. rewrite (li_dev _ _ _ _ Hl), (li_start _ _ _ _ Hl), !u32_small by lia.
  apply wp_bind. apply (wp_bread_rep _ i dev s) with (1 := Hb); [done|right; rewrite map_size_empty; lia|].
  intros b s1 _ Hf1 Hb1. destruct (bframe_get _ _ Hf1) as (El1 & _). wstep. wstep.
  rewrite El1, (li_n _ _ _ _ Hl). set (h0 := put32 0 (length bl) (C ls)).
  pose proof (brep_set_data i dev s1 _ _ _ _ _ b ls (put32 0 (length bl)) Hb1 ltac:(by rewrite lookup_insert_eq)) as Hb2.
  apply (wp_bind_mono _ _ _ (λ _ s', bframe s s' ∧ brep i dev s' (upd C ls (header bl (C ls))) D P {[b := ls]} w)).
  - apply (wp_for_tail (length bl) (λ k s', bframe s s' ∧
      brep i dev s' (upd C ls (put_blocks 0 (take k bl) h0)) D P {[b := ls]} w)).
    + apply Hl.
    + intros k s2 [Hf _]. destruct (bframe_get _ _ Hf) as (-> & _). apply Hl.
    + intros k s2 Hk [Hf Hb3]. destruct (lookup_lt_is_Some_2 bl k Hk) as [c Hc].
      destruct (bframe_get _ _ Hf) as (El2 & _).
      eapply wp_ok; [apply (lh_get_run bl k c); [by rewrite El2|done]|]. cbn [wp].
      split; [etrans; [exact Hf|apply bframe_upd]|].
      pose proof (brep_set_data i dev s2 _ _ _ _ _ b ls (put32 (4 + 4 * k) c) Hb3 ltac:(by rewrite lookup_singleton_eq)) as Hb4.
      rewrite upd_upd, upd_eq in Hb4.
      rewrite (take_S_r _ _ _ Hc), put_blocks_snoc, length_take, Nat.min_l by lia.
      replace (Z.to_nat (4 + 4 * k)) with (4 + 4 * k)%nat by lia. cbn [Nat.add] in *.
      replace (upd_buf b _ s2) with (upd_buf b (λ x, set_b_data (put32 (S (S (S (S (4 * k))))) c (b_data x)) x) s2); [done|].
      unfold upd_buf. f_equal. apply alter_ext. intros x _. by rewrite put32_s32.
    + split; [etrans; [exact Hf1|apply bframe_upd]|]. exact Hb2.
    + intros s' [Hf Hb']. rewrite take_ge in Hb' by lia. done.
  - intros [] s2 [Hf2 Hb3]. apply wp_bind. eapply wp_bwrite_rep; [exact Hb3|by rewrite lookup_singleton_eq|].
    intros s3 Hf3 Hb4. rewrite upd_eq in Hb4.
    eapply wp_brelse_rep; [exact Hb4|by rewrite lookup_singleton_eq|right; by rewrite !upd_eq|].
    intros s4 Hf4 Hb5. rewrite delete_singleton_eq in Hb5. apply HQ; [|done].
    etrans; [exact Hf2|]. by etrans.
Qed.

(** ** [install_trans] *)

(** One block of the log goes home. *)
Lemma wp_install_body (rec : bool) s C D w bl P (k : nat) b Q :
  log_is dev ls bl (k_log s) → bl !! k = Some b → 0 ≤ b < 2 ^ 32 → b ≠ ls + k + 1 →
  ls + k + 1 ∉ P → (if rec then P = ∅ else b ∈ P) →
  (size P < NBUF)%nat → brep i dev s C D P ∅ w →
  (∀ s', bframe s s' → brep i dev s' (upd C b (C (ls + k + 1))) (upd D b (C (ls + k + 1)))
     (if rec then P else P ∖ {[b]}) ∅ (w ++ [(b, C (ls + k + 1))]) → Q tt s') →
  wpi Q ((l ← getlog; lbuf ← bread (u32 (lg_dev l)) (u32 (lg_start l + k + 1));
          l ← getlog; blk ← lh_get k; dbuf ← bread (u32 (lg_dev l)) (u32 blk);
          x ← getb lbuf; setb dbuf (set_b_data (b_data x));; bwrite dbuf;;
          (if rec then mret tt else bunpin dbuf);; brelse lbuf;; brelse dbuf) s).
Proof.
  intros Hl Hk Hbr Hne HnP HP Hsz Hb HQ. pose proof (lookup_lt_Some _ _ _ Hk).
  pose proof (li_start_range _ _ _ _ Hl). pose proof (li_dev_range _ _ _ _ Hl). pose proof (li_fits _ _ _ _ Hl).
  pose proof (br_clean _ _ _ _ _ _ _ _ Hb (ls + k + 1) HnP ltac:(done)) as Hcl.
  wstep. rewrite (li_dev _ _ _ _ Hl), (li_start _ _ _ _ Hl), !u32_small by lia.
  apply wp_bind. apply (wp_bread_rep _ i dev s) with (1 := Hb); [done|right; rewrite map_size_empty; lia|].
  intros lb s2 _ Hf2 Hb2. destruct (bframe_get _ _ Hf2) as (El2 & _). wstep.
  eapply wp_ok; [apply (lh_get_run bl k b); [by rewrite El2|done]|].
  rewrite El2, (li_dev _ _ _ _ Hl), u32_s32, !u32_small by lia.
  apply wp_bind. apply (wp_bread_rep _ i dev s2) with (1 := Hb2).
  { intros c. rewrite lookup_insert. by case_decide; [intros [=]|]. }
  { destruct rec; [right|by left]. rewrite HP, size_empty, insert_empty, map_size_singleton. unfold NBUF. lia. }
  intros db s3 Hfr Hf3 Hb3. wstep. apply lookup_insert_None in Hfr as [_ Hnf].
  destruct (brep_data _ _ _ _ _ _ _ _ lb (ls + k + 1) Hb3) as [-> _]; [by rewrite lookup_insert_ne, lookup_insert_eq|].
  wstep. pose proof (brep_set_data i dev s3 _ _ _ _ _ db b (λ _, C (ls + k + 1)) Hb3 ltac:(by rewrite lookup_insert_eq)) as Hb4.
  apply wp_bind. eapply wp_bwrite_rep; [exact Hb4|by rewrite lookup_insert_eq|].
  intros s5 Hf5 Hb5. rewrite upd_eq in Hb5.
  apply (wp_bind_mono _ _ _ (λ _ s', bframe s5 s' ∧ brep i dev s' (upd C b (C (ls + k + 1))) (upd D b (C (ls + k + 1)))
    (if rec then P else P ∖ {[b]}) (<[db := b]> (<[lb := ls + k + 1]> ∅)) (w ++ [(b, C (ls + k + 1))]))).
  { destruct rec; [done|]. split; [apply bframe_upd|]. by apply brep_unpin; [|rewrite lookup_insert_eq|]. }
  intros [] s6 [Hf6 Hb6].
  apply wp_bind. eapply wp_brelse_rep; [exact Hb6|by rewrite lookup_insert_ne, lookup_insert_eq|right; by rewrite !upd_ne|].
  intros s7 Hf7 Hb7. rewrite delete_insert_ne, delete_insert_id in Hb7 by done.
  eapply wp_brelse_rep; [exact Hb7|by rewrite lookup_insert_eq|right; by rewrite !upd_eq|].
  intros s8 Hf8 Hb8. rewrite delete_insert_id in Hb8 by done. apply HQ; [|done].
  etrans; [exact Hf2|]. etrans; [exact Hf3|]. etrans; [apply bframe_upd|].
  etrans; [exact Hf5|]. etrans; [exact Hf6|]. by etrans.
Qed.

(** After a commit: the cached blocks are written home and unpinned. *)
Lemma wp_install_commit s C D w bl Q :
  log_is dev ls bl (k_log s) → txn_ok ls bl → (length bl < NBUF)%nat →
  (∀ (k : nat) b, bl !! k = Some b → C (ls + k + 1) = C b) →
  brep i dev s C D (list_to_set bl) ∅ w →
  (∀ s', bframe s s' → brep i dev s' C (apply_writes (home_writes C bl) D) ∅ ∅ (w ++ home_writes C bl) → Q tt s') →
  wpi Q (install_trans false s).
Proof.
  intros Hl Ht Hsz Hlog Hb HQ. set (HW := home_writes C bl) in *.
  assert (length HW = length bl) as HHW by apply length_fmap.
  apply (wp_for_tail (length bl) (λ k s', bframe s s' ∧ brep i dev s' C
    (apply_writes (take k HW) D) (list_to_set (drop k bl)) ∅ (w ++ take k HW))).
  - apply Hl.
  - intros k s1 [Hf _]. destruct (bframe_get _ _ Hf) as (-> & _). apply Hl.
  - intros k s1 Hk [Hf Hb1]. destruct (lookup_lt_is_Some_2 bl k Hk) as [b Hbk].
    destruct (txn_lookup _ _ _ _ Ht Hbk) as [Hbr Hbl]. destruct (bframe_get _ _ Hf) as (El & _).
    apply (wp_install_body false s1 C (apply_writes (take k HW) D)
             (w ++ take k HW) bl (list_to_set (drop k bl)) k b); [by rewrite El|done|done| | | | |done|].
    { intros ->. apply Hbl. unfold in_log. lia. }
    { rewrite elem_of_list_to_set. intros Hin. pose proof (to_range _ _ Ht) as Hr.
      rewrite list.Forall_forall in Hr. destruct (Hr (ls + k + 1)) as [_ Hno]; [|apply Hno; unfold in_log; lia].
      rewrite <- (take_drop k bl). apply elem_of_app. by right. }
    { rewrite (drop_S _ _ _ Hbk). set_solver. }
    { rewrite size_list_to_set; [rewrite length_drop; lia|]. eapply sublist_NoDup; [apply Ht|apply sublist_drop]. }
    intros s' Hf' Hb'. split; [by etrans|]. rewrite (Hlog k b Hbk) in Hb'.
    assert (HW !! k = Some (b, C b)) as Hk' by (unfold HW, home_writes; by rewrite list_lookup_fmap, Hbk).
    rewrite (take_S_r _ _ _ Hk'), !apply_writes_snoc, app_assoc. rewrite upd_id in Hb' by done.
    replace (list_to_set (drop (S k) bl)) with (list_to_set (C := gset Z) (drop k bl) ∖ {[b]}); [done|].
    pose proof (to_nodup _ _ Ht) as Hnd. rewrite <- (take_drop k bl), (drop_S _ _ _ Hbk) in Hnd.
    apply list.NoDup_app in Hnd as (_ & _ & Hnd). apply list.NoDup_cons in Hnd as [Hnd _].
    rewrite (drop_S _ _ _ Hbk). clear -Hnd. set_solver.
  - split; [done|]. cbn. by rewrite app_nil_r, drop_0.
  - intros s' [Hf Hb']. rewrite take_ge, drop_ge in Hb' by lia. by apply HQ.
Qed.

(** ** [commit] *)

Lemma log_is_empty bl l : log_is dev ls bl l → log_is dev ls [] (set_lh_n 0 l).
Proof. intros []. split; cbn; try done. lia. Qed.

Lemma wp_commit s C D w bl Q :
  log_is dev ls bl (k_log s) → txn_ok ls bl → (0 < length bl < NBUF)%nat →
  brep i dev s C D (list_to_set bl) ∅ w →
  (∀ s', lframe s s' → k_log s' = set_lh_n 0 (k_log s) →
     brep i dev s' (upd (apply_writes (log_writes ls C bl) C) ls (put32 0 0 (header bl (D ls))))
       (apply_writes (commit_writes ls C (D ls) bl) D) ∅ ∅ (w ++ commit_writes ls C (D ls) bl) → Q tt s') →
  wpi Q (commit s).
Proof.
  intros Hl Ht Hsz Hb HQ.
  assert (ls ∉ bl) as Hls.
  { intros Hin. pose proof (to_range _ _ Ht) as Hr. rewrite list.Forall_forall in Hr.
    apply (Hr _ Hin). unfold in_log. lia. }
  assert (C ls = D ls) as Ecd by (apply (br_clean _ _ _ _ _ _ _ _ Hb); [by rewrite elem_of_list_to_set|done]).
  assert (∀ D, apply_writes (log_writes ls C bl) D ls = D ls) as Els.
  { intros D'. apply apply_writes_notin. rewrite log_writes_dom. lia. }
  unfold commit. wstep. rewrite (li_n _ _ _ _ Hl), (proj2 (Z.gtb_lt _ 0)) by lia.
  apply wp_bind, (wp_write_log s C D w bl); [done|done|lia|done|]. intros s1 Hf1 Hb1.
  destruct (bframe_get _ _ Hf1) as (El1 & _).
  apply wp_bind. eapply (wp_write_head s1); [by rewrite El1| | |exact Hb1|].
  { by rewrite elem_of_list_to_set. }
  { rewrite (size_txn _ _ Ht). lia. }
  intros s2 Hf2 Hb2. rewrite Els, Ecd in Hb2. destruct (bframe_get _ _ Hf2) as (El2 & _).
  apply wp_bind. eapply (wp_install_commit s2); [by rewrite El2, El1|done|lia| |exact Hb2|].
  { intros k b Hk. pose proof (txn_lookup _ _ _ _ Ht Hk) as [_ Hno]. pose proof (lookup_lt_Some _ _ _ Hk).
    unfold in_log in Hno. rewrite !upd_ne by lia. rewrite (log_writes_get _ _ _ _ _ _ Hk). symmetry.
    apply apply_writes_notin. rewrite log_writes_dom. lia. }
  intros s3 Hf3 Hb3. destruct (bframe_get _ _ Hf3) as (El3 & _). wstep.
  pose proof (brep_set_log _ _ _ _ _ _ _ _ (set_lh_n 0 (k_log s3)) Hb3) as Hb4.
  eapply (wp_write_head (set_log (set_lh_n 0 (k_log s3)) s3) _ _ _ ∅ []); [| | |exact Hb4|].
  { apply (log_is_empty bl). cbn. by rewrite El3, El2, El1. }
  { set_solver. }
  { rewrite size_empty. unfold NBUF. lia. }
  intros s5 Hf5 Hb5. apply HQ.
  - etrans; [apply bframe_lframe; etrans; [exact Hf1|]; etrans; [exact Hf2|exact Hf3]|].
    etrans; [apply (lframe_setlog (set_lh_n 0))|by apply bframe_lframe].
  - destruct (bframe_get _ _ Hf5) as (-> & _). cbn. by rewrite El3, El2, El1.
  - rewrite upd_eq, upd_upd in Hb5. unfold commit_writes. cbn [header put_blocks length] in Hb5.
    assert (home_writes (upd (apply_writes (log_writes ls C bl) C) ls (header bl (D ls))) bl = home_writes C bl) as Eh.
    { apply list_fmap_ext. intros k b Hk. f_equal. pose proof (txn_lookup _ _ _ _ Ht Hk) as [_ Hno].
      unfold in_log in Hno. rewrite upd_ne by lia. apply apply_writes_notin. rewrite log_writes_dom. lia. }
    rewrite Eh, <- !app_assoc in Hb5. rewrite apply_writes_app.
    change (apply_writes ((ls, ?h) :: ?ws) ?D0) with (apply_writes ws (upd D0 ls h)).
    by rewrite apply_writes_snoc.
Qed.

(** ** [recover_from_log] *)

Lemma wp_read_head s C D w Q :
  lg_dev (k_log s) = dev → 0 ≤ dev < 2 ^ 31 → lg_start (k_log s) = ls → 0 ≤ ls < 2 ^ 31 - 64 →
  length (lh_block (k_log s)) = 30%nat → 0 ≤ s32 (get32 0 (C ls)) ≤ 30 → C ls = D ls →
  brep i dev s C D ∅ ∅ w →
  (∀ s', lframe s s' → log_is dev ls (head_blocks (C ls)) (k_log s') → log_keep (k_log s) (k_log s') →
     brep i dev s' C D ∅ ∅ w → Q tt s') →
  wpi Q (read_head s).
Proof.
  intros Hd Hdr Hst Hsr Hlen Hn Hcd Hb HQ. unfold read_head. wstep. rewrite Hd, Hst, !u32_small by lia.
  apply wp_bind. apply (wp_bread_rep _ i dev s) with (1 := Hb); [done|right; vm_compute; lia|].
  intros b s1 _ Hf1 Hb1. wstep.
  destruct (brep_data _ _ _ _ _ _ _ _ b ls Hb1) as [-> _]; [by rewrite lookup_insert_eq|].
  set (N := Z.to_nat (s32 (get32 0 (C ls)))). assert (s32 (get32 0 (C ls)) = N) as HN by lia. rewrite HN. wstep.
  assert (length (head_blocks (C ls)) = N) as Hhl by (unfold head_blocks; by rewrite length_fmap, length_seq).
  destruct (bframe_get _ _ Hf1) as (El1 & _). set (s2 := set_log (set_lh_n N (k_log s1)) s1).
  assert (lframe s s2) as Hf2 by (etrans; [by apply bframe_lframe|apply (lframe_setlog (set_lh_n N))]).
  apply (wp_bind_mono _ _ _ (λ _ s', lframe s s' ∧ log_is dev ls (head_blocks (C ls)) (k_log s') ∧ log_keep (k_log s) (k_log s') ∧
    brep i dev s' C D ∅ {[b := ls]} w)).
  - apply (wp_for_tail N (λ k s', lframe s s' ∧ brep i dev s' C D ∅ {[b := ls]} w ∧
      log_is dev ls (take k (head_blocks (C ls))) (set_lh_n k (k_log s')) ∧ lh_n (k_log s') = N ∧ log_keep (k_log s) (k_log s'))).
    + lia.
    + by intros k s3 (_ & _ & _ & ? & _).
    + intros k s3 Hk (Hf3 & Hb3 & Hl3 & Hn3 & Hk3). wstep.
      destruct (brep_data _ _ _ _ _ _ _ _ b ls Hb3) as [-> _]; [by rewrite lookup_singleton_eq|].
      unfold lh_set. change LOGSIZE with 30. rewrite (proj2 (Z.ltb_lt k 30)) by lia. cbn [wp setlog modify].
      split_and!; [etrans; [exact Hf3|]; apply (lframe_setlog (λ l, set_lh_block _ l))|by apply brep_set_log| |done|done].
      destruct (lookup_lt_is_Some_2 (head_blocks (C ls)) k ltac:(lia)) as [c Hc].
      rewrite (take_S_r _ _ _ Hc). destruct Hl3. cbn in *.
      split; cbn; rewrite ?length_app, ?length_take, ?length_insert; cbn; try done; try lia.
      intros j x Hj. apply lookup_app_Some in Hj as [Hj|[Hge Hj]].
      * pose proof (lookup_lt_Some _ _ _ Hj) as Hlt. rewrite length_take in Hlt.
        rewrite list_lookup_insert_ne by lia. by apply li_block0.
      * apply list_lookup_singleton_Some in Hj as [Hj <-]. rewrite length_take in Hge, Hj.
        replace j with k by lia. rewrite Nat2Z.id, list_lookup_insert_eq by lia. f_equal.
        unfold head_blocks in Hc. rewrite list_lookup_fmap in Hc. apply fmap_Some in Hc as (j' & Hj' & ->).
        apply lookup_seq in Hj' as [-> _]. cbn [Nat.add]. rewrite s32_u32.
        do 2 f_equal. lia.
    + split_and!; [done|by apply brep_set_log| |done|by unfold log_keep, s2; cbn; rewrite El1]. split; cbn; rewrite ?El1; try done; try lia. rewrite take_0. cbn. lia.
    + intros s' (Hf & Hb' & Hl & Hn' & Hk'). split_and!; [done| |done|done]. rewrite take_ge in Hl by lia.
      destruct (k_log s'). cbn in *. by subst.
  - intros [] s3 (Hf3 & Hl3 & Hk3 & Hb3). eapply wp_brelse_rep; [exact Hb3|by rewrite lookup_singleton_eq|by right|].
    intros s4 Hf4 Hb4. rewrite delete_singleton_eq in Hb4. destruct (bframe_get _ _ Hf4) as (El4 & _).
    apply HQ; [|by rewrite El4|by rewrite El4|done]. etrans; [exact Hf3|by apply bframe_lframe].
Qed.

(** Recovery: the log blocks are written home from the disk. *)
Lemma wp_install_recover s D w Q :
  let bl := head_blocks (D ls) in
  log_is dev ls bl (k_log s) → Forall (λ b, ¬ in_log ls (length bl) b) bl →
  brep i dev s D D ∅ ∅ w →
  (∀ s', bframe s s' → brep i dev s' (apply_writes (redo_writes ls D) D) (apply_writes (redo_writes ls D) D) ∅ ∅
     (w ++ redo_writes ls D) → Q tt s') →
  wpi Q (install_trans true s).
Proof.
  intros bl Hl Hbl Hb HQ. set (RW := redo_writes ls D) in *.
  assert (length RW = length bl) as HRW by apply length_imap.
  apply (wp_for_tail (length bl) (λ k s', bframe s s' ∧ brep i dev s' (apply_writes (take k RW) D)
    (apply_writes (take k RW) D) ∅ ∅ (w ++ take k RW))).
  - apply Hl.
  - intros k s1 [Hf _]. destruct (bframe_get _ _ Hf) as (-> & _). apply Hl.
  - intros k s1 Hk [Hf Hb1]. destruct (lookup_lt_is_Some_2 bl k Hk) as [b Hbk].
    rewrite list.Forall_forall in Hbl.
    pose proof (Hbl b (list_elem_of_lookup_2 _ _ _ Hbk)) as Hno. destruct (bframe_get _ _ Hf) as (El & _).
    apply (wp_install_body true s1 (apply_writes (take k RW) D) (apply_writes (take k RW) D)
             (w ++ take k RW) bl ∅ k b); [by rewrite El|done| | |set_solver|done|vm_compute; lia|done|].
    { unfold bl, head_blocks in Hbk. rewrite list_lookup_fmap in Hbk. apply fmap_Some in Hbk as (? & _ & ->).
      apply u32_range. }
    { intros ->. apply Hno. unfold in_log. lia. }
    intros s' Hf' Hb'. split; [by etrans|].
    assert (RW !! k = Some (b, D (ls + k + 1))) as Hk' by (unfold RW, redo_writes; fold bl; by rewrite list_lookup_imap, Hbk).
    rewrite (take_S_r _ _ _ Hk'), !apply_writes_snoc, app_assoc.
    rewrite (apply_writes_notin _ _ (ls + k + 1)) in Hb'; [done|]. intros Hin.
    apply (Hbl (ls + k + 1)); [|unfold in_log; lia].
    unfold bl. rewrite <- redo_writes_dom. fold RW. rewrite <- (take_drop k RW), fmap_app. apply elem_of_app. by left.
  - split; [done|]. cbn. by rewrite app_nil_r.
  - intros s' [Hf Hb']. rewrite take_ge in Hb' by lia. by apply HQ.
Qed.
End run.
