(* ===== verification/LogView.v ===== *)
(** Transactions: the file system's view of the log.

    [tview] is what a thread knows inside a transaction: the content of each
    block, the buffers it holds, the blocks it changed and has not logged yet,
    and how many more blocks the log has room for.  [quiet] is the state between
    transactions.  A transaction that starts in a quiet state and whose body
    keeps [tview] is atomic with respect to crashes. *)

From S2P Require Import Prelude Machine Str Types Proc ProcSpec Rely Sleeplock Bio BioSpec BioContent BioRep Bytes Log LogSpec LogRun.

(** ** [log_write] *)

Definition u32_blocks (bl : list Z) : Prop := Forall (λ b, 0 ≤ b < 2 ^ 32) bl.

Lemma absorb_spec dev ls bl l n :
  log_is dev ls bl l → u32_blocks bl → 0 ≤ n < 2 ^ 32 →
  (∃ k : nat, absorb (Z.to_nat LOGSIZE) 0 (lh_n l) n (lh_block l) = k ∧ bl !! k = Some n) ∨
  absorb (Z.to_nat LOGSIZE) 0 (lh_n l) n (lh_block l) = length bl ∧ n ∉ bl.
Proof.
  intros Hl Hr Hn. rewrite (li_n _ _ _ _ Hl).
  assert (∀ (fuel k : nat), (k ≤ length bl)%nat → (length bl - k ≤ fuel)%nat →
    (∃ j : nat, absorb fuel k (length bl) n (lh_block l) = j ∧ bl !! j = Some n) ∨
    absorb fuel k (length bl) n (lh_block l) = length bl ∧ n ∉ drop k bl) as H.
  { intros fuel. induction fuel as [|fuel IH]; intros k Hk Hf; cbn [absorb].
    - right. assert (k = length bl) as -> by lia. rewrite drop_ge by lia. split; [done|by apply not_elem_of_nil].
    - destruct (Z.ltb_spec k (length bl)) as [Hlt|Hge].
      + destruct (lookup_lt_is_Some_2 bl k) as [b Hb]; [lia|]. rewrite Nat2Z.id, (li_block _ _ _ _ Hl k b Hb).
        cbn [default from_option]. unfold id. rewrite u32_s32, u32_small.
        2:{ unfold u32_blocks in Hr. rewrite list.Forall_forall in Hr. by apply Hr, (list_elem_of_lookup_2 _ k). }
        destruct (Z.eqb_spec b n) as [->|Hbn]; [left; by exists k|].
        replace (k + 1) with (Z.of_nat (S k)) by lia. destruct (IH (S k)) as [?|[? ?]]; [lia..|by left|right].
        split; [done|]. rewrite (drop_S _ _ _ Hb). by apply not_elem_of_cons.
      + right. assert (k = length bl) as -> by lia. rewrite drop_ge by lia. split; [done|by apply not_elem_of_nil]. }
  destruct (H (Z.to_nat LOGSIZE) O) as [?|[? ?]]; [lia| |by left|by right].
  pose proof (li_fits _ _ _ _ Hl). change (Z.to_nat LOGSIZE) with 30%nat. lia.
Qed.

(** A held block enters the transaction, once. *)
Lemma log_write_run i dev ls s C D bl H w b n :
  log_is dev ls bl (k_log s) → u32_blocks bl → 0 ≤ n < 2 ^ 32 →
  brep i dev s C D (list_to_set bl) H w → H !! b = Some n →
  if decide (30 ≤ length bl ∨ lg_size (k_log s) - 1 ≤ length bl)
  then log_write b s = Stop (Panics "too big a transaction") s
  else if decide (lg_outstanding (k_log s) < 1)
  then log_write b s = Stop (Panics "log_write outside of trans") s
  else let bl' := if decide (n ∈ bl) then bl else bl ++ [n] in
    ∃ s', log_write b s = Ok tt s' ∧ lframe s s' ∧ log_is dev ls bl' (k_log s') ∧
      lg_outstanding (k_log s') = lg_outstanding (k_log s) ∧ lg_size (k_log s') = lg_size (k_log s) ∧
      lg_committing (k_log s') = lg_committing (k_log s) ∧
      brep i dev s' C D (list_to_set bl') H w.
Proof.
  intros Hl Hr Hn Hb Hh. destruct (brep_data _ _ _ _ _ _ _ _ _ _ Hb Hh) as [_ Hbn].
  unfold log_write. rewrite (bind_ok _ _ _ _ _ (eq_refl : getlog s = Ok (k_log s) s)).
  assert (LOGSIZE = 30) as HL by done. rewrite !Z.geb_leb, (li_n _ _ _ _ Hl).
  case_decide as Hfull.
  { destruct (Z.leb_spec LOGSIZE (length bl)); [done|]. destruct (Z.leb_spec (lg_size (k_log s) - 1) (length bl)); [done|lia]. }
  rewrite (proj2 (Z.leb_gt LOGSIZE (length bl))), (proj2 (Z.leb_gt (lg_size (k_log s) - 1) (length bl))) by lia. cbn [orb].
  case_decide as Hout; [by rewrite (proj2 (Z.ltb_lt _ 1))|]. rewrite (proj2 (Z.ltb_ge _ 1)) by lia.
  rewrite (bind_ok _ _ _ _ _ (eq_refl : getb b s = Ok (buf_at s b) s)), Hbn, <- (li_n _ _ _ _ Hl).
  destruct (absorb_spec dev ls bl _ n Hl Hr Hn) as [(k & -> & Hk)|[-> Hni]].
  - pose proof (lookup_lt_Some _ _ _ Hk) as Hlt. unfold lh_set. rewrite (proj2 (Z.ltb_lt k LOGSIZE)) by lia.
    rewrite (seq_ok _ _ _ _ (eq_refl : setlog _ s = Ok tt _)).
    rewrite (proj2 (Z.eqb_neq k (lh_n (k_log s)))) by (rewrite (li_n _ _ _ _ Hl); lia).
    rewrite decide_True by by apply (list_elem_of_lookup_2 _ k). exists s.
    rewrite Nat2Z.id, list_insert_id by by apply (li_block _ _ _ _ Hl). split_and!; try done.
    cbn. f_equal. destruct s as [? ? ? ? ? ? ? ? ? ? [] ? ? ? ? ? ? ? ?]. done.
  - rewrite decide_False by done. unfold lh_set. rewrite (proj2 (Z.ltb_lt _ LOGSIZE)) by lia.
    rewrite (seq_ok _ _ _ _ (eq_refl : setlog _ s = Ok tt _)). rewrite (li_n _ _ _ _ Hl), Z.eqb_refl.
    rewrite (seq_ok _ _ _ _ (eq_refl : bpin b _ = Ok tt _)). eexists. split; [reflexivity|]. split_and!.
    + etrans; [|apply (lframe_setlog (set_lh_n _))]. etrans; [|apply bframe_lframe, bframe_upd].
      apply (lframe_setlog (λ l, set_lh_block _ l)).
    + destruct Hl. split; cbn; rewrite ?length_app, ?length_insert; cbn; try done; [lia..|].
      intros k x Hk. rewrite Nat2Z.id. apply lookup_app_Some in Hk as [Hk|[Hge Hk]].
      * pose proof (lookup_lt_Some _ _ _ Hk). rewrite list_lookup_insert_ne by lia. by apply li_block.
      * apply list_lookup_singleton_Some in Hk as [Hk <-]. replace k with (length bl) by lia.
        rewrite list_lookup_insert_eq by lia. done.
    + done.
    + done.
    + done.
    + apply brep_set_log. replace (list_to_set (bl ++ [n])) with ({[n]} ∪ list_to_set (C := gset Z) bl) by set_solver.
      apply brep_pin; [by apply brep_set_log|done|by rewrite elem_of_list_to_set].
Qed.

(** ** Inside a transaction *)

Section view.
Context `{DK : Disk} `{W : Waits}.
Variables (i : nat) (dev ls sz : Z).

Definition log_area (b : Z) : Prop := ls ≤ b < ls + sz.

(** [D] is the disk, which does not change before the commit; [bl] are the
    blocks of the transaction. *)
Record txn (s : kstate) (C D : Z → list Z) (bl : list Z) (H : gmap nat Z) (dirty : gset Z) (r : nat)
    (w : list (Z * list Z)) : Prop := {
  tx_log : log_is dev ls bl (k_log s);
  tx_nodup : NoDup bl;
  tx_range : Forall (λ b, 0 ≤ b < 2 ^ 32 ∧ ¬ log_area b) bl;
  tx_rep : brep i dev s C D (list_to_set bl) H w;
  tx_size : lg_size (k_log s) = sz;
  tx_room : (length bl + r < NBUF)%nat;
  tx_fits : length bl + r < sz;
  tx_dirty n : n ∉ dirty → n ∈ bl ∨ C n = D n }.

Definition tview (s : kstate) (C D : Z → list Z) (H : gmap nat Z) (dirty : gset Z) (r : nat)
    (w : list (Z * list Z)) : Prop :=
  ∃ bl, txn s C D bl H dirty r w ∧ lg_outstanding (k_log s) = 1 ∧ lg_committing (k_log s) = false.

#[global] Instance tview_proper s :
  Proper (pointwise_relation Z eq ==> (=) ==> (=) ==> (=) ==> (=) ==> (=) ==> iff) (tview s).
Proof.
  intros C C' HC D ? <- H ? <- d ? <- r ? <- w ? <-.
  split; intros (bl & [] & Ho & Hc); exists bl; (split; [|done]); split; try done.
  - by rewrite <- HC.
  - intros n Hn. rewrite <- HC. by auto.
  - by rewrite HC.
  - intros n Hn. rewrite HC. by auto.
Qed.

Lemma txn_u32 s C D bl H d r w : txn s C D bl H d r w → u32_blocks bl.
Proof. intros Ht. eapply list.Forall_impl; [exact (tx_range _ _ _ _ _ _ _ _ Ht)|]. by intros b [? _]. Qed.

Lemma tview_runs s C D H d r w : tview s C D H d r w → runs_on i s.
Proof. intros (bl & Ht & _). apply Ht. Qed.

(** The data of a held buffer. *)
Lemma tview_data s C D H d r w b n :
  tview s C D H d r w → H !! b = Some n → b_data (buf_at s b) = C n ∧ b_blockno (buf_at s b) = n.
Proof. intros (bl & Ht & _). apply (brep_data i dev _ _ _ _ _ _ _ _ (tx_rep _ _ _ _ _ _ _ _ Ht)). Qed.

(** Room that is not needed. *)
Lemma tview_room s C D H d r r' w : (r' ≤ r)%nat → tview s C D H d r w → tview s C D H d r' w.
Proof. intros Hr (bl & [] & ? & ?). exists bl. split; [|done]. split; try done; lia. Qed.

(** Changes elsewhere in the kernel. *)
Lemma tview_frame s s' C D H d r w :
  k_bufs s' = k_bufs s → k_disk s' = k_disk s → k_dwrites s' = k_dwrites s → k_log s' = k_log s →
  runs_on i s' → cur_pid s' = cur_pid s → tview s C D H d r w → tview s' C D H d r w.
Proof.
  intros Eb Ed Ew El Hr Ep (bl & [] & Ho & Hc). exists bl. rewrite El. split; [|done]. split; rewrite ?El; try done.
  destruct tx_rep0 as [H1 H2 H3 H4 H5 H6 H7 H8 H9 H10 H11]. unfold buf_at, holds, free, bio_inv in *. cbn in *.
  unfold buf_at in *. split; unfold buf_at, holds, free, bio_inv; cbn; unfold buf_at; rewrite ?Eb, ?Ed, ?Ew, ?Ep; done.
Qed.

Section rules.
Variable E : stop → Prop.
Abbreviation wpi := (wp E (λ _, True) idle).

Lemma tv_bread s C D H d r w n Q :
  tview s C D H d r w → (∀ c, H !! c ≠ Some n) → (size H ≤ r)%nat →
  (∀ b s', H !! b = None → bframe s s' → tview s' C D (<[b := n]> H) d r w → Q b s') →
  wpi Q (bread dev n s).
Proof.
  intros (bl & [] & Ho & Hc) Hn Hs HQ. apply (wp_bread_rep _ i dev s) with (1 := tx_rep0); [done| |].
  - right. rewrite size_list_to_set by done. lia.
  - intros b s' HN Hf Hb. apply HQ; [done|done|]. destruct (bframe_get _ _ Hf) as (El & _).
    exists bl. rewrite El. split; [|done]. by split; rewrite ?El.
Qed.

Lemma tv_brelse s C D H d r w b n Q :
  tview s C D H d r w → H !! b = Some n → n ∉ d →
  (∀ s', bframe s s' → tview s' C D (delete b H) d r w → Q tt s') →
  wpi Q (brelse b s).
Proof.
  intros (bl & [] & Ho & Hc) Hh Hn HQ. apply (wp_brelse_rep _ i dev s) with (1 := tx_rep0) (2 := Hh).
  - destruct (tx_dirty0 n Hn); [left|by right]. by apply elem_of_list_to_set.
  - intros s' Hf Hb. apply HQ; [done|]. destruct (bframe_get _ _ Hf) as (El & _). exists bl. rewrite El. split; [|done]. by split; rewrite ?El.
Qed.

Lemma tv_set_data s C D H d r w b n f :
  tview s C D H d r w → H !! b = Some n →
  tview (upd_buf b (λ x, set_b_data (f (b_data x)) x) s) (upd C n (f (C n))) D H ({[n]} ∪ d) r w.
Proof.
  intros (bl & [] & Ho & Hc) Hh. exists bl. split; [|done]. split; try done.
  - by apply brep_set_data.
  - intros m Hm. rewrite upd_ne by (clear -Hm; set_solver). apply tx_dirty0. clear -Hm. set_solver.
Qed.

Lemma tv_log_write s C D H d r w b n Q :
  tview s C D H d (S r) w → H !! b = Some n → 0 ≤ n < 2 ^ 32 → ¬ log_area n →
  (∀ s', lframe s s' → tview s' C D H (d ∖ {[n]}) r w → Q tt s') →
  wpi Q (log_write b s).
Proof.
  intros (bl & Ht & Hout & Hcom) Hh Hr Hn HQ. pose proof (txn_u32 _ _ _ _ _ _ _ _ Ht) as Hu. destruct Ht.
  pose proof (log_write_run i dev ls s C D bl H w b n tx_log0 Hu Hr tx_rep0 Hh) as Hrun.
  rewrite decide_False in Hrun by (unfold NBUF in *; lia). rewrite decide_False in Hrun by lia.
  destruct Hrun as (s' & -> & Hf & Hl & Ho & Hsz & Hc & Hb). apply HQ; [done|].
  exists (if decide (n ∈ bl) then bl else bl ++ [n]). split; [|by rewrite Ho, Hc]. split; try done; try congruence.
  - case_decide; [done|]. apply list.NoDup_app. split_and!; [done| |apply NoDup_singleton].
    intros x Hx ->%list_elem_of_singleton. done.
  - case_decide; [done|]. apply Forall_app. split; [done|]. by apply list.Forall_singleton.
  - case_decide; [lia|]. rewrite length_app. cbn. lia.
  - case_decide; [lia|]. rewrite length_app. cbn. lia.
  - intros m Hm. destruct (decide (m = n)) as [->|Hmn].
    + left. case_decide; [done|]. apply elem_of_app. right. by left.
    + destruct (tx_dirty0 m) as [?|?]; [clear -Hm Hmn; set_solver| |by right]. left. case_decide; [done|].
      apply elem_of_app. by left.
Qed.
End rules.

(** ** Between transactions *)

Record quiet (s : kstate) (C : Z → list Z) (w : list (Z * list Z)) : Prop := {
  q_log : log_is dev ls [] (k_log s);
  q_rep : brep i dev s C C ∅ ∅ w;
  q_out : lg_outstanding (k_log s) = 0;
  q_comm : lg_committing (k_log s) = false;
  q_size : lg_size (k_log s) = sz;
  q_sz : 0 < sz;
  q_head : cleared (C ls) }.

(** The start of a transaction. *)
Lemma tview_start s C w r :
  log_is dev ls [] (k_log s) → brep i dev s C C ∅ ∅ w → lg_outstanding (k_log s) = 1 →
  lg_committing (k_log s) = false → lg_size (k_log s) = sz → (r < NBUF)%nat → r < sz →
  tview s C C ∅ ∅ r w.
Proof.
  intros Hl Hb Ho Hc Hs Hr Hrs. exists []. split; [|done]. split; try done; [apply NoDup_nil_2|by right].
Qed.

Lemma begin_op_quiet s C w r : quiet s C w → (r < NBUF)%nat → r < sz →
  ∃ s', begin_op s = Ok tt s' ∧ lframe s s' ∧ tview s' C C ∅ ∅ r w.
Proof.
  intros [Hl Hb Ho Hc Hs _ _] Hr Hrs.
  exists (set_log (set_lg_outstanding 1 (k_log s)) s).
  assert (begin_op s = Ok tt (set_log (set_lg_outstanding 1 (k_log s)) s)) as E.
  { unfold begin_op. destruct max_waits; cbn [begin_op_loop];
      rewrite (bind_ok _ _ _ _ _ (eq_refl : getlog s = Ok (k_log s) s)), Hc, Ho, (li_n _ _ _ _ Hl); done. }
  split_and!; [done|apply (lframe_setlog (set_lg_outstanding 1))|].
  apply tview_start; try done; [by destruct Hl|by apply brep_set_log].
Qed.

(** What is on the disk after some of the writes [ws]: the log is in order, every
    block is that of [C] or of [C'], and it recovers to [C] or [C'], all blocks
    alike. *)
Definition atomic (ws : list (Z * list Z)) (C C' : Z → list Z) : Prop :=
  ∀ k, log_wf ls (apply_writes (take k ws) C) ∧
      (∀ n, ¬ log_area n → apply_writes (take k ws) C n = C n ∨ apply_writes (take k ws) C n = C' n) ∧
      ((∀ n, ¬ log_area n → recovered ls (apply_writes (take k ws) C) n = C n) ∨
       (∀ n, ¬ log_area n → recovered ls (apply_writes (take k ws) C) n = C' n)).

Lemma txn_ok_of s C D bl H d r w : txn s C D bl H d r w → txn_ok ls bl.
Proof.
  intros []. split; [done|]. eapply list.Forall_impl; [exact tx_range0|]. cbn. intros b [Hb Hn]. split; [done|].
  intros Hi. apply Hn. unfold in_log, log_area in *. lia.
Qed.

Lemma wp_commit_atomic E s C D bl r w Q :
  txn s C D bl ∅ ∅ r w → cleared (D ls) →
  (∀ s' C' ws, lframe s s' → k_log s' = set_lh_n 0 (k_log s) → brep i dev s' C' C' ∅ ∅ (w ++ ws) →
     (∀ n, ¬ log_area n → C' n = C n) → cleared (C' ls) → atomic ws D C → Q tt s') →
  wp E (λ _, True) idle Q (commit s).
Proof.
  intros Ht Hh HQ. pose proof (txn_ok_of _ _ _ _ _ _ _ _ Ht) as Hok. destruct Ht.
  assert (∀ n, n ∉ bl → C n = D n) as Hsame by (intros n Hn; destruct (tx_dirty0 n); [set_solver|done|done]).
  assert (∀ n, ¬ log_area n → ¬ in_log ls (length bl) n) as Hin by (intros n Hn; unfold in_log, log_area in *; lia).
  assert (ls ∉ bl) as Hls.
  { intros Hx. rewrite list.Forall_forall in tx_range0. apply (tx_range0 ls Hx). unfold log_area. lia. }
  destruct (decide (bl = [])) as [->|Hne].
  - assert (commit s = Ok tt s) as ->.
    { unfold commit. rewrite (bind_ok _ _ _ _ _ (eq_refl : getlog s = Ok (k_log s) s)), (li_n _ _ _ _ tx_log0). done. }
    cbn. apply (HQ s D []); try done.
    + destruct tx_log0, (k_log s). cbn in *. by subst.
    + rewrite app_nil_r. assert (pointwise_relation Z eq D C) as E' by (intros n; symmetry; apply Hsame; set_solver).
      rewrite <- E' in tx_rep0. done.
    + intros n _. symmetry. apply Hsame. set_solver.
    + intros k. rewrite take_nil. cbn. split_and!; [by apply log_wf_cleared|by left|]. left. intros n Hn. apply recovered_empty; [by apply cleared_blocks|].
      intros ->. apply Hn. unfold log_area. lia.
  - assert (0 < length bl)%nat by (destruct bl; [done|cbn; lia]).
    apply (wp_commit E i dev ls s C D w bl); [done|done|lia|done|]. intros s' Hf El Hb.
    set (C1 := apply_writes (commit_writes ls C (D ls) bl) D) in *.
    assert (∀ n, C1 n = upd (apply_writes (log_writes ls C bl) C) ls (put32 0 0 (header bl (D ls))) n) as HC1.
    { intros n. symmetry. apply (br_clean _ _ _ _ _ _ _ _ Hb); [set_solver|done]. }
    apply (HQ s' C1 (commit_writes ls C (D ls) bl)); [done|done| | | |].
    + assert (pointwise_relation Z eq C1 (upd (apply_writes (log_writes ls C bl) C) ls (put32 0 0 (header bl (D ls)))))
        as E' by exact HC1. rewrite <- E' in Hb. exact Hb.
    + intros n Hn. specialize (Hin n Hn). unfold in_log in Hin. rewrite HC1, upd_ne by lia.
      apply apply_writes_notin. rewrite log_writes_dom. lia.
    + rewrite HC1, upd_eq. apply cleared_put. rewrite length_header. apply Hh.
    + intros k. split_and!; [apply commit_writes_wf; [apply Hok|unfold NBUF in *; lia|apply Hok|done]|intros n Hn; apply commit_writes_val; [unfold NBUF in *; lia|by apply Hin]|]. destruct (decide (k ≤ length bl)%nat) as [Hk|Hk]; [left|right]; intros n Hn;
        rewrite (commit_writes_crash ls C D bl (to_range _ _ Hok)) by (try done; unfold NBUF in *; lia || auto).
      * by rewrite decide_True.
      * by rewrite decide_False.
Qed.

(** The end of a transaction. *)
Lemma wp_end_op E s C D r w Q :
  tview s C D ∅ ∅ r w → cleared (D ls) →
  (∀ s' C' ws, lframe s s' → quiet s' C' (w ++ ws) → (∀ n, ¬ log_area n → C' n = C n) → atomic ws D C → Q tt s') →
  wp E (λ _, True) idle Q (end_op s).
Proof.
  intros (bl & Ht & Ho & Hc) Hh HQ. unfold end_op. wstep. wstep.
  set (l1 := set_lg_outstanding (lg_outstanding (k_log s) - 1) (k_log s)). set (s1 := set_log l1 s).
  change (lg_committing (k_log s1)) with (lg_committing (k_log s)). rewrite Hc.
  change (lg_outstanding (k_log s1)) with (lg_outstanding (k_log s) - 1). rewrite Ho. cbn [Z.eqb Z.sub Z.add Z.opp Z.pos_sub].
  apply wp_bind. wstep. cbn [wp mret M_ret]. set (s2 := set_log _ s1).
  assert (lframe s s2) as Hf2.
  { etrans; [apply (lframe_setlog (λ l, set_lg_outstanding (lg_outstanding l - 1) l))|].
    apply (lframe_setlog (set_lg_committing true)). }
  assert (txn s2 C D bl ∅ ∅ r w) as Ht2.
  { destruct Ht. split; try done; [by destruct tx_log0|]. by do 2 apply brep_set_log. }
  apply wp_bind, (wp_commit_atomic E s2 C D bl r w); [done..|]. intros s3 C' ws Hf3 El Hb3 HC' Hh' Hat.
  wstep. set (s4 := set_log _ s3).
  destruct (wakeup_idle ChLog s4) as (s5 & -> & Hi & _); [exact (ro_procs _ _ (br_runs _ _ _ _ _ _ _ _ Hb3))|]. cbn.
  destruct (idle_get _ _ Hi) as (_ & El5 & _). apply (HQ s5 C' ws); [| |done|done].
  - etrans; [exact Hf2|]. etrans; [exact Hf3|]. etrans; [apply (lframe_setlog (set_lg_committing false))|].
    by apply bframe_lframe, idle_bframe.
  - split; rewrite ?El5; cbn; rewrite ?El; cbn; try done.
    + destruct Ht as [[] _ _ _ _ _ _ _]. split; cbn; try done. lia.
    + by apply (brep_idle _ _ _ _ _ _ _ _ _ Hi), brep_set_log.
    + lia.
    + apply Ht.
    + destruct Ht. lia.
Qed.

(** A transaction is atomic with respect to crashes: if the body, run inside
    the transaction, takes the blocks from [C] to [C'], then every prefix of the
    disk writes of [begin_op; body; end_op] recovers to [C] or to [C'], for all
    blocks alike, and after [end_op] the blocks are [C'] with nothing pinned, locked or left in the log. *)
Theorem transaction_atomic {A} E (m : K A) s C w r (Φ : A → (Z → list Z) → Prop) :
  quiet s C w → (r < NBUF)%nat → r < sz →
  (∀ s1, lframe s s1 → tview s1 C C ∅ ∅ r w →
     wp E (λ _, True) idle (λ a s2, ∃ C', Φ a C' ∧ tview s2 C' C ∅ ∅ 0 w) (m s1)) →
  wp E (λ _, True) idle (λ a s', ∃ C' C'' ws, Φ a C' ∧ quiet s' C'' (w ++ ws) ∧
      (∀ n, ¬ log_area n → C'' n = C' n) ∧ atomic ws C C')
    ((begin_op;; a ← m; end_op;; mret a) s).
Proof.
  intros Hq Hr Hrs Hm. destruct (begin_op_quiet s C w r Hq Hr Hrs) as (s1 & E1 & Hf1 & Ht1).
  apply (wp_ok _ _ _ _ _ _ _ _ _ E1). eapply wp_bind_mono; [by apply Hm|].
  intros a s2 (C' & HΦ & Ht2). apply wp_bind, (wp_end_op E s2 C' C 0 w); [done|apply Hq|].
  intros s3 C'' ws _ Hq3 HC Hat. cbn. by exists C', C'', ws.
Qed.
End view.

(** ** Recovery *)

Lemma wp_recover `{DK : Disk} `{W : Waits} E i dev ls s D w Q :
  lg_dev (k_log s) = dev → 0 ≤ dev < 2 ^ 31 → lg_start (k_log s) = ls → 0 ≤ ls < 2 ^ 31 - 64 →
  length (lh_block (k_log s)) = 30%nat → brep i dev s D D ∅ ∅ w → log_wf ls D →
  (∀ s', lframe s s' → log_is dev ls [] (k_log s') → log_keep (k_log s) (k_log s') → cleared (recovered ls D ls) → brep i dev s' (recovered ls D) (recovered ls D) ∅ ∅ (w ++ recover_writes ls D) → Q tt s') →
  wp E (λ _, True) idle Q (recover_from_log s).
Proof.
  intros Hd Hdr Hst Hsr Hlb Hb [Hlen Hn _ Hbl] HQ.
  apply wp_bind, (wp_read_head _ i dev ls s D D w); [done..|]. intros s1 Hf1 Hl1 Hk1 Hb1.
  apply wp_bind, (wp_install_recover _ i dev ls s1 D w); [done..|]. intros s2 Hf2 Hb2.
  destruct (bframe_get _ _ Hf2) as (El2 & _). wstep.
  set (s3 := set_log (set_lh_n 0 (k_log s2)) s2).
  assert (log_is dev ls [] (k_log s3)) as Hl3 by (apply (log_is_empty dev ls (head_blocks (D ls))); by rewrite El2).
  eapply (wp_write_head _ i dev ls s3 _ _ _ ∅ []); [done|set_solver|vm_compute; lia|by apply brep_set_log|].
  intros s4 Hf4 Hb4. destruct (bframe_get _ _ Hf4) as (El4 & _).
  assert (apply_writes (redo_writes ls D) D ls = D ls) as Els.
  { apply apply_writes_notin. intros Hin. rewrite list.Forall_forall in Hbl. apply (Hbl ls); [|unfold in_log; lia].
    by rewrite <- redo_writes_dom. }
  rewrite Els in Hb4.
  assert (recovered ls D = upd (apply_writes (redo_writes ls D) D) ls (put32 0 0 (D ls))) as Er
    by (unfold recovered, recover_writes; by rewrite apply_writes_snoc).
  apply HQ; rewrite ?El4, ?Er; [|done| |by rewrite upd_eq; apply cleared_put|by unfold recover_writes; rewrite app_assoc].
  - etrans; [exact Hf1|]. etrans; [by apply bframe_lframe|]. etrans; [apply (lframe_setlog (set_lh_n 0))|]. by apply bframe_lframe.
  - unfold s3, log_keep in *. cbn. by rewrite El2.
Qed.

(** After a crash, [recover_from_log] writes the committed blocks home and
    clears the header: the disk is then [recovered] of what was found, the cache
    agrees with it and the log is empty.  If recovery itself is cut short after
    any of its writes, recovering again gives the same blocks. *)
Theorem recover_from_log_correct `{DK : Disk} `{W : Waits} i dev ls s D w :
  lg_dev (k_log s) = dev → 0 ≤ dev < 2 ^ 31 → lg_start (k_log s) = ls → 0 ≤ ls < 2 ^ 31 - 64 →
  length (lh_block (k_log s)) = 30%nat → brep i dev s D D ∅ ∅ w → log_wf ls D →
  wp (λ _, False) (λ _, True) idle (λ _ s',
      log_is dev ls [] (k_log s') ∧
      ∃ D', (∀ n, D' n = recovered ls D n) ∧ cleared (D' ls) ∧
        brep i dev s' D' D' ∅ ∅ (w ++ recover_writes ls D))
    (recover_from_log s) ∧
  ∀ k n, n ≠ ls → recovered ls (apply_writes (take k (recover_writes ls D)) D) n = recovered ls D n.
Proof.
  intros Hd Hdr Hst Hsr Hlb Hb Hw. split; [|intros k n Hk; apply recover_writes_crash; by destruct Hw].
  apply (wp_recover _ i dev ls s D w); [done..|]. intros s' _ Hl _ Hc Hb'. split; [done|]. by exists (recovered ls D).
Qed.

(** ** Admission *)


(** ** A transaction that fills the cache *)

Lemma size_list_to_set_le (l : list Z) : (size (list_to_set (C := gset Z) l) ≤ length l)%nat.
Proof.
  induction l as [|x l IH]; [done|]. cbn [list_to_set length]. rewrite size_union_alt, size_singleton.
  assert (size (list_to_set (C := gset Z) l ∖ {[x]}) ≤ size (list_to_set (C := gset Z) l))%nat by (apply subseteq_size; set_solver).
  lia.
Qed.

(** When as many blocks are pinned as there are buffers, all buffers cache them. *)
Lemma brep_full i dev s C D P H w b :
  brep i dev s C D P H w → size P = NBUF → (b < NBUF)%nat →
  b_dev (bufi (k_bufs s) b) = dev ∧ b_blockno (bufi (k_bufs s) b) ∈ P.
Proof.
  intros Hb Hsz Hlt. set (Q := λ b, b_dev (bufi (k_bufs s) b) = dev ∧ b_blockno (bufi (k_bufs s) b) ∈ P).
  change (Q b). assert (size P ≤ length (filter Q (seq 0 NBUF)))%nat as Hle.
  { rewrite <- (length_fmap (λ b, b_blockno (bufi (k_bufs s) b))).
    trans (size (list_to_set (C := gset Z) ((λ b, b_blockno (bufi (k_bufs s) b)) <$> filter Q (seq 0 NBUF)))).
    - apply subseteq_size. intros n Hn. destruct (br_pin _ _ _ _ _ _ _ _ Hb n Hn) as (c & Hc & [Hd Hm] & _).
      apply elem_of_list_to_set, list_elem_of_fmap. exists c. split; [done|]. apply list_elem_of_filter.
      split; [by split; [|rewrite Hm]|]. apply elem_of_seq. lia.
    - apply size_list_to_set_le. }
  pose proof (length_filter_compl Q (seq 0 NBUF)) as Hsum. rewrite length_seq in Hsum.
  destruct (decide (Q b)) as [|Hn]; [done|]. exfalso.
  assert (b ∈ filter (λ b, ¬ Q b) (seq 0 NBUF)) as Hin by (apply list_elem_of_filter; split; [done|apply elem_of_seq; lia]).
  assert (length (filter (λ b, ¬ Q b) (seq 0 NBUF)) = 0%nat) as H0 by lia.
  apply nil_length_inv in H0. rewrite H0 in Hin. by apply elem_of_nil in Hin.
Qed.


(** ** Instances of the theorems *)

(** An empty disk with a log at block 2; process 0 runs. *)
Definition ex_log : kstate := set_log (mkLog 2 30 0 false 1 0 (replicate 30 0)) ex_fs.

Lemma ex_log_quiet : quiet 0 1 2 30 ex_log (disk_block ∅) [].
Proof.
  split; [|exact (brep_set_log _ _ _ _ _ _ _ _ _ (proj2 ex_fs_run))|done..].
  split; cbn; try done; lia.
Qed.

(** The body of a transaction that fills block 100 with sevens. *)
Definition ex_body : K unit :=
  b ← @bread ram_disk 0%nat 1 100;
  setb b (λ x, set_b_data ((λ _, replicate 1024 7) (b_data x)) x);;
  log_write b;;
  brelse b.

Lemma ex_body_run E s C D r w : tview 0 1 2 30 s C D ∅ ∅ (S r) w →
  wp E (λ _, True) idle (λ _ s', tview 0 1 2 30 s' (upd C 100 (replicate 1024 7)) D ∅ ∅ r w) (ex_body s).
Proof.
  intros Ht. assert (({[100]} ∪ ∅) ∖ {[100]} = (∅ : gset Z)) as Hd by set_solver.
  apply wp_bind, (@tv_bread ram_disk 0%nat 0 1 2 30 E s C D ∅ ∅ (S r) w); [done|done|rewrite map_size_empty; lia|].
  intros b s1 _ _ H1. wstep.
  apply (tv_set_data _ _ _ _ _ _ _ _ _ _ _ b 100 (λ _, replicate 1024 7)) in H1; [|by rewrite lookup_insert_eq].
  apply wp_bind. eapply tv_log_write; [exact H1|by rewrite lookup_insert_eq|lia|unfold log_area; lia|].
  intros s2 _ H2. rewrite Hd in H2. eapply tv_brelse; [exact H2|by rewrite lookup_insert_eq|apply not_elem_of_empty|].
  intros s3 _ H3. by rewrite delete_insert_id in H3.
Qed.

Lemma transaction_atomic_witness :
  quiet 0 1 2 30 ex_log (disk_block ∅) [] ∧
  wp (λ _, False) (λ _, True) idle (λ _ s', ∃ ws,
      atomic 2 30 ws (disk_block ∅) (upd (disk_block ∅) 100 (replicate 1024 7)))
    ((@begin_op 0%nat;; a ← ex_body; @end_op ram_disk 0%nat;; mret a) ex_log).
Proof.
  split; [exact ex_log_quiet|].
  eapply wp_mono; [|apply (@transaction_atomic ram_disk 0%nat 0 1 2 30 unit (λ _, False) ex_body ex_log (disk_block ∅) [] 1
    (λ _ C', C' = upd (disk_block ∅) 100 (replicate 1024 7)) ex_log_quiet); [unfold NBUF; lia|lia|]].
  - intros a s' (C' & C'' & ws & -> & _ & _ & H). by exists ws.
  - intros s1 _ H1. eapply wp_mono; [|exact (ex_body_run _ s1 _ _ 0 _ H1)]. intros a s2 H2. by eexists.
Defined.


(** A machine that stopped after the header of a transaction was written: block
    3 of the log is to go to block 100. *)
Definition ex_crash : gmap Z (list Z) :=
  <[2 := header [100] (replicate 1024 0)]> (<[3 := replicate 1024 7]> ∅).

Lemma recover_from_log_correct_witness :
  let s := set_disk ex_crash ex_log in
  wp (λ _, False) (λ _, True) idle (λ _ s', ∃ D', brep 0 1 s' D' D' ∅ ∅
      (recover_writes 2 (disk_block ex_crash)) ∧ D' 100 = replicate 1024 7)
    (@recover_from_log ram_disk 0%nat s).
Proof.
  intros s.
  assert (length (disk_block ex_crash 2) = 1024%nat) as Hlen by (by vm_compute).
  assert (head_blocks (disk_block ex_crash 2) = [100]) as Hh by (by vm_compute).
  assert (brep 0 1 s (disk_block ex_crash) (disk_block ex_crash) ∅ ∅ []) as Hb.
  { destruct (binit_run ex_boot eq_refl) as (bs' & E & Hok & Hb).
    assert (ex_bufs = bs') as Eb by (unfold ex_bufs; by rewrite E). subst s. unfold ex_log, ex_fs. rewrite Eb. clear E Eb.
    apply (brep_init 0 1 (reverse (seq 0 NBUF)) (set_disk ex_crash (set_log _ (set_bufs bs' ex_boot)))); [|done..].
    destruct (runs_ex_boot bs'). by split. }
  destruct (@recover_from_log_correct ram_disk 0%nat 0 1 2 s (disk_block ex_crash) [])
    as [H _]; [exact eq_refl|lia|exact eq_refl|lia|exact eq_refl|exact Hb|split; [exact Hlen| | |]|].
  - vm_compute. by split.
  - rewrite Hh. apply NoDup_singleton.
  - rewrite Hh. repeat constructor. unfold in_log. cbn. lia.
  - clear Hh Hlen Hb. eapply wp_mono; [|exact H]. intros a s' (_ & D' & HD & _ & Hb'). exists D'. split; [done|].
    rewrite HD. by vm_compute.
Defined.

(** Thirty blocks in one transaction. *)
Definition ex_open : kstate := set_log (mkLog 2 60 1 false 1 0 (replicate 30 0)) ex_fs.
Definition ex_fill (k : nat) : K unit :=
  forM_ (seq 0 k) (λ j, b ← @bread ram_disk 0%nat 1 (100 + Z.of_nat j); log_write b;; brelse b).
Definition ex_blocks (k : nat) : list Z := (λ j : nat, 100 + j) <$> seq 0 k.
Definition ex_full : kstate := state_of kstate0 (ex_fill 30 ex_open).

Lemma ex_blocks_ok k : (k ≤ 30)%nat → txn_ok 2 (ex_blocks k) ∧ length (ex_blocks k) = k.
Proof.
  intros Hk. assert (length (ex_blocks k) = k) as Hl by (unfold ex_blocks; by rewrite length_fmap, length_seq).
  split; [|done]. split.
  - apply NoDup_fmap_2; [intros x y; lia|apply NoDup_seq].
  - apply list.Forall_forall. intros b (j & -> & Hj)%list_elem_of_fmap. apply elem_of_seq in Hj.
    unfold in_log. lia.
Qed.

Lemma ex_fill_run k : (k ≤ 30)%nat →
  wp (λ _, False) (λ _, True) idle (λ _ s',
    log_is 1 2 (ex_blocks k) (k_log s') ∧ lg_outstanding (k_log s') = 1 ∧ lg_size (k_log s') = 60 ∧
    brep 0 1 s' (disk_block ∅) (disk_block ∅) (list_to_set (ex_blocks k)) ∅ []) (ex_fill k ex_open).
Proof.
  induction k as [|k IH]; intros Hk.
  - cbn. split_and!; [split; cbn; try done; lia|done|done|]. exact (brep_set_log _ _ _ _ _ _ _ _ _ (proj2 ex_fs_run)).
  - unfold ex_fill. rewrite seq_S. apply wp_forM_app. eapply wp_mono; [|apply IH; lia].
    intros _ s (Hl & Ho & Hsz & Hb). destruct (ex_blocks_ok k) as [Hok Hlen]; [lia|]. cbn [forM_ Nat.add].
    assert ((100 + Z.of_nat k) ∉ ex_blocks k) as Hni.
    { intros (j & Hj & Hin)%list_elem_of_fmap. apply elem_of_seq in Hin. lia. }
    apply wp_bind, wp_bind, (@wp_bread_rep ram_disk 0%nat _ 0 1 s) with (1 := Hb); [done| |].
    { right. rewrite (size_txn 2), map_size_empty, Hlen by done. unfold NBUF. lia. }
    intros b s1 _ Hf1 Hb1. destruct (bframe_get _ _ Hf1) as (El1 & _).
    assert (u32_blocks (ex_blocks k)) as Hu.
    { eapply list.Forall_impl; [exact (to_range _ _ Hok)|]. by intros ? [? _]. }
    pose proof (log_write_run 0 1 2 s1 _ _ (ex_blocks k) _ [] b (100 + Z.of_nat k) ltac:(by rewrite El1) Hu
      ltac:(lia) Hb1 ltac:(by rewrite lookup_insert_eq)) as Hrun. rewrite El1, Hlen, Hsz, Ho in Hrun.
    rewrite !decide_False in Hrun by (done || lia).
    destruct Hrun as (s2 & E2 & Hf2 & Hl2 & Ho2 & Hs2 & _ & Hb2).
    apply (wp_ok _ _ _ _ _ _ _ _ _ E2).
    assert (ex_blocks (S k) = ex_blocks k ++ [100 + Z.of_nat k]) as Es by (unfold ex_blocks; by rewrite seq_S, fmap_app).
    eapply (wp_brelse_rep _ 0 1 s2); [exact Hb2|by rewrite lookup_insert_eq|by right|]. intros s3 Hf3 Hb3.
    destruct (bframe_get _ _ Hf3) as (El3 & _). unfold mret, M_ret. cbn [wp]. rewrite El3, Es. rewrite delete_insert_id in Hb3 by done.
    by split_and!.
Qed.

