(* ===== verification/Fs.v ===== *)
(** The file system: src/kernel/fs.c.  Five layers: blocks ([balloc],
    [bfree]), inodes ([ialloc], [iget], [ilock], [iput], ...), their contents
    ([bmap], [readi], [writei], [itrunc]), directories and path names.

    Block contents are lists of bytes, C strings are lists of their bytes
    without the NUL.  [readi] and [writei] take the copy to or from the caller
    as an argument, as the two ends of [either_copyout] and [either_copyin] are
    user memory, kernel pages or local objects. *)

From S2P Require Import Prelude Machine Str Types Proc ProcSpec Rely Sleeplock Bio Bytes Log.

(** ** fs.h, stat.h *)

Definition ROOTINO : Z := 1.
Definition FSMAGIC : Z := 0x10203040.
Definition NDIRECT : Z := 12.
Definition NINDIRECT : Z := BSIZE / 4.
Definition MAXFILE : Z := NDIRECT + NINDIRECT.
(** [BSIZE / sizeof(struct dinode)] *)
Definition IPB : Z := BSIZE / 64.
Definition IBLOCK (i : Z) (sb : superblock) : Z := u32 (i / IPB + sb_inodestart sb).
Definition BPB : Z := BSIZE * 8.
Definition BBLOCK (b : Z) (sb : superblock) : Z := u32 (b / BPB + sb_bmapstart sb).
Definition DIRSIZ : Z := 14.
Definition T_DIR : Z := 1.
Definition T_FILE : Z := 2.
Definition T_DEVICE : Z := 3.

(** The fields of a [struct dinode] at offset [o] of a block. *)
Record dinode : Type := mkDinode {
  d_type : Z; d_major : Z; d_minor : Z; d_nlink : Z; d_size : Z; d_addrs : list Z }.

Definition get_dinode (o : nat) (bs : list Z) : dinode :=
  mkDinode (s16 (get16 o bs)) (s16 (get16 (o + 2) bs)) (s16 (get16 (o + 4) bs))
    (s16 (get16 (o + 6) bs)) (get32 (o + 8) bs)
    ((λ i, get32 (o + 12 + 4 * i) bs) <$> seq 0 13).

Definition put_addrs (o : nat) (addrs : list Z) (bs : list Z) : list Z :=
  foldr (λ '(i, a), put32 (o + 12 + 4 * i) a) bs (zip (seq 0 13) addrs).

Definition put_dinode (o : nat) (d : dinode) (bs : list Z) : list Z :=
  put_addrs o (d_addrs d) (put32 (o + 8) (d_size d) (put16 (o + 6) (d_nlink d)
    (put16 (o + 4) (d_minor d) (put16 (o + 2) (d_major d) (put16 o (d_type d) bs))))).

(** The offset of element [inum%IPB] of a block of [struct dinode]s. *)
Definition dinode_off (inum : Z) : nat := Z.to_nat (64 * (inum mod IPB)).

Section fs.
Context `{D : Disk} `{W : Waits}.

(** ** Blocks *)

Definition getsb : K superblock := gets k_sb.

Definition readsb (dev : Z) : K unit :=
  bp ← bread (u32 dev) 1;
  x ← getb bp;
  let f i := get32 (4 * i) (b_data x) in
  modify (set_sb (mkSb (f 0%nat) (f 1%nat) (f 2%nat) (f 3%nat) (f 4%nat) (f 5%nat) (f 6%nat) (f 7%nat)));;
  brelse bp.

Definition fsinit (dev : Z) : K unit :=
  readsb dev;;
  sb ← getsb;
  if negb (sb_magic sb =? FSMAGIC) then panic "invalid file system" else initlog dev sb.

Definition bzero (dev bno : Z) : K unit :=
  bp ← bread (u32 dev) (u32 bno);
  setb bp (set_b_data (replicate 1024 0));;
  log_write bp;;
  brelse bp.

(** [bp->data[bi/8] & (1 << (bi % 8))] *)
Definition bit_set (data : list Z) (bi : Z) : bool :=
  negb (Z.land (default 0 (data !! Z.to_nat (bi / 8))) (Z.shiftl 1 (bi mod 8)) =? 0).
Definition or_bit (bi : Z) (data : list Z) : list Z :=
  alter (λ x, u8 (Z.lor x (Z.shiftl 1 (bi mod 8)))) (Z.to_nat (bi / 8)) data.
Definition clear_bit (bi : Z) (data : list Z) : list Z :=
  alter (λ x, u8 (Z.land x (Z.lnot (Z.shiftl 1 (bi mod 8))))) (Z.to_nat (bi / 8)) data.

(** The inner loop of [balloc]: the first free bit from [bi] on. *)
Fixpoint balloc_bit (fuel : nat) (data : list Z) (b bi size : Z) : option Z :=
  match fuel with
  | O => None
  | S fuel' =>
      if (bi <? BPB) && (b + bi <? size) then
        if bit_set data bi then balloc_bit fuel' data b (bi + 1) size else Some bi
      else None
  end.

Fixpoint balloc_loop (fuel : nat) (dev b : Z) : K Z :=
  sb ← getsb;
  if b <? sb_size sb then
    match fuel with
    | O => halt NoFuel
    | S fuel' =>
        bp ← bread dev (BBLOCK b sb);
        x ← getb bp;
        match balloc_bit (Z.to_nat BPB) (b_data x) b 0 (sb_size sb) with
        | Some bi =>
            setb bp (λ x, set_b_data (or_bit bi (b_data x)) x);;
            log_write bp;;
            brelse bp;;
            bzero dev (b + bi);;
            mret (b + bi)
        | None =>
            brelse bp;;
            balloc_loop fuel' dev (b + BPB)
        end
    end
  else mret 0.
Definition balloc (dev : Z) : K Z :=
  sb ← getsb; balloc_loop (Z.to_nat (sb_size sb / BPB + 1)) dev 0.

Definition bfree (dev b : Z) : K unit :=
  sb ← getsb;
  bp ← bread (u32 dev) (BBLOCK b sb);
  x ← getb bp;
  let bi := b mod BPB in
  if negb (bit_set (b_data x) bi) then panic "freeing free block"
  else
    setb bp (λ x, set_b_data (clear_bit bi (b_data x)) x);;
    log_write bp;;
    brelse bp.

(** ** Inodes *)

Definition inode_at (s : kstate) (i : nat) : inode := default inode0 (k_inodes s !! i).
Definition geti (i : nat) : K inode := gets (λ s, inode_at s i).
Definition upd_inode (i : nat) (f : inode → inode) (s : kstate) : kstate :=
  set_inodes (alter f i (k_inodes s)) s.
Definition seti (i : nat) (f : inode → inode) : K unit := modify (upd_inode i f).

Definition inode_lock (i : nat) : slref := {|
  sl_get := λ s, i_lock (inode_at s i);
  sl_put := λ l, upd_inode i (set_i_lock l);
  sl_chan := ChInodeLock i |}.

Definition iinit : K unit := forM_ (seq 0 NINODE) (λ i, initsleeplock (inode_lock i)).

(** The scan of [iget]: the entry of the inode ([inl]) or the first empty one. *)
Fixpoint iget_scan (ips : list nat) (l : list inode) (dev inum : Z) (empty : option nat) : nat + option nat :=
  match ips, l with
  | i :: ips', ip :: l' =>
      if (i_ref ip >? 0) && (i_dev ip =? dev) && (i_inum ip =? inum) then inl i
      else iget_scan ips' l' dev inum
             (if bool_decide (empty = None) && (i_ref ip =? 0) then Some i else empty)
  | _, _ => inr empty
  end.

Definition iget (dev inum : Z) : K nat :=
  l ← gets k_inodes;
  match iget_scan (seq 0 NINODE) l dev inum None with
  | inl i => seti i (λ ip, set_i_ref (i_ref ip + 1) ip);; mret i
  | inr None => panic "iget: no inodes"
  | inr (Some i) =>
      seti i (set_i_dev dev);;
      seti i (set_i_inum inum);;
      seti i (set_i_ref 1);;
      seti i (set_i_valid false);;
      mret i
  end.

(** [for(inum = 1; inum < sb.ninodes; inum++)] *)
Fixpoint ialloc_loop (fuel : nat) (dev type inum : Z) : K (option nat) :=
  sb ← getsb;
  if inum <? sb_ninodes sb then
    match fuel with
    | O => halt NoFuel
    | S fuel' =>
        bp ← bread dev (IBLOCK inum sb);
        x ← getb bp;
        let o := dinode_off inum in
        if d_type (get_dinode o (b_data x)) =? 0 then
          setb bp (λ x, set_b_data (put16 o type (list_inserts o (replicate 64 0) (b_data x))) x);;
          log_write bp;;
          brelse bp;;
          i ← iget dev inum;
          mret (Some i)
        else
          brelse bp;;
          ialloc_loop fuel' dev type (inum + 1)
    end
  else mret None.
Definition ialloc (dev type : Z) : K (option nat) :=
  sb ← getsb; ialloc_loop (Z.to_nat (sb_ninodes sb)) dev type 1.

Definition iupdate (ip : nat) : K unit :=
  x ← geti ip;
  sb ← getsb;
  bp ← bread (i_dev x) (IBLOCK (i_inum x) sb);
  x ← geti ip;
  setb bp (λ b, set_b_data (put_dinode (dinode_off (i_inum x))
    (mkDinode (i_type x) (i_major x) (i_minor x) (i_nlink x) (i_size x) (i_addrs x)) (b_data b)) b);;
  log_write bp;;
  brelse bp.

Definition idup (ip : nat) : K nat := seti ip (λ x, set_i_ref (i_ref x + 1) x);; mret ip.

(** The inode [dip] copied into the table entry. *)
Definition load_dinode (d : dinode) (x : inode) : inode :=
  mkInode (i_dev x) (i_inum x) (i_ref x) (i_lock x) (i_valid x) (d_type d) (d_major d) (d_minor d)
    (d_nlink d) (d_size d) (d_addrs d).

Definition ilock (ip : option nat) : K unit :=
  match ip with
  | None => panic "ilock"
  | Some ip =>
      x ← geti ip;
      if i_ref x <? 1 then panic "ilock"
      else
        acquiresleep (inode_lock ip);;
        x ← geti ip;
        if negb (i_valid x) then
          sb ← getsb;
          bp ← bread (i_dev x) (IBLOCK (i_inum x) sb);
          b ← getb bp;
          seti ip (load_dinode (get_dinode (dinode_off (i_inum x)) (b_data b)));;
          brelse bp;;
          seti ip (set_i_valid true);;
          x ← geti ip;
          if i_type x =? 0 then panic "ilock: no type" else mret tt
        else mret tt
  end.

Definition iunlock (ip : option nat) : K unit :=
  match ip with
  | None => panic "iunlock"
  | Some ip =>
      h ← holdingsleep (inode_lock ip);
      x ← geti ip;
      if negb h || (i_ref x <? 1) then panic "iunlock" else releasesleep (inode_lock ip)
  end.

(** ** Inode content *)

Definition set_addr (n : nat) (a : Z) (x : inode) : inode := set_i_addrs (<[n := a]> (i_addrs x)) x.
Definition addr_of (n : nat) (x : inode) : Z := default 0 (i_addrs x !! n).

Definition bmap (ip : nat) (bn : Z) : K Z :=
  x ← geti ip;
  if bn <? NDIRECT then
    if addr_of (Z.to_nat bn) x =? 0 then
      addr ← balloc (i_dev x);
      if addr =? 0 then mret 0
      else seti ip (set_addr (Z.to_nat bn) addr);; mret addr
    else mret (addr_of (Z.to_nat bn) x)
  else
    let bn := bn - NDIRECT in
    if bn <? NINDIRECT then
      ind ← (if addr_of 12 x =? 0 then
               addr ← balloc (i_dev x);
               if addr =? 0 then mret 0
               else seti ip (set_addr 12 addr);; mret addr
             else mret (addr_of 12 x));
      if ind =? 0 then mret 0
      else
        bp ← bread (i_dev x) ind;
        b ← getb bp;
        let o := Z.to_nat (4 * bn) in
        addr ← (if get32 o (b_data b) =? 0 then
                  addr ← balloc (i_dev x);
                  (if addr =? 0 then mret tt
                   else setb bp (λ b, set_b_data (put32 o addr (b_data b)) b);; log_write bp);;
                  mret addr
                else mret (get32 o (b_data b)));
        brelse bp;;
        mret addr
    else panic "bmap: out of range".

Definition itrunc (ip : nat) : K unit :=
  forM_ (seq 0 12) (λ i,
    x ← geti ip;
    if addr_of i x =? 0 then mret tt
    else bfree (i_dev x) (addr_of i x);; seti ip (set_addr i 0));;
  x ← geti ip;
  (if addr_of 12 x =? 0 then mret tt
   else
     bp ← bread (i_dev x) (addr_of 12 x);
     forM_ (seq 0 (Z.to_nat NINDIRECT)) (λ j,
       b ← getb bp;
       let a := get32 (4 * j) (b_data b) in
       if a =? 0 then mret tt else bfree (i_dev x) a);;
     brelse bp;;
     bfree (i_dev x) (addr_of 12 x);;
     seti ip (set_addr 12 0));;
  seti ip (set_i_size 0);;
  iupdate ip.

Definition iput_at (ip : nat) : K unit :=
  x ← geti ip;
  (if (i_ref x =? 1) && i_valid x && (i_nlink x =? 0) then
     acquiresleep (inode_lock ip);;
     itrunc ip;;
     seti ip (set_i_type 0);;
     iupdate ip;;
     seti ip (set_i_valid false);;
     releasesleep (inode_lock ip)
   else mret tt);;
  seti ip (λ x, set_i_ref (i_ref x - 1) x).
Definition iput (ip : option nat) : K unit :=
  match ip with None => fault | Some ip => iput_at ip end.

Definition iunlockput (ip : option nat) : K unit := iunlock ip;; iput ip.

(** [struct stat]: dev (int), ino (uint), type, nlink (short), size (uint64). *)
Record stat : Type := mkStat { st_dev : Z; st_ino : Z; st_type : Z; st_nlink : Z; st_size : Z }.

Definition stati (ip : nat) : K stat :=
  x ← geti ip;
  mret (mkStat (s32 (i_dev x)) (i_inum x) (i_type x) (i_nlink x) (i_size x)).

(** [copy dst bytes acc] is [either_copyout(user_dst, dst, bytes, m)]; [acc] is
    what the destination holds when it is a local object. *)
Section readi.
Context {A : Type}.
Variable copy : Z → list Z → A → K (Z * A).

Fixpoint readi_loop (fuel : nat) (ip : nat) (dst off n tot : Z) (acc : A) : K (Z * A) :=
  if tot <? n then
    match fuel with
    | O => halt NoFuel
    | S fuel' =>
        addr ← bmap ip (off / BSIZE);
        if addr =? 0 then mret (s32 tot, acc)
        else
          x ← geti ip;
          bp ← bread (i_dev x) addr;
          let m := Z.min (n - tot) (BSIZE - off mod BSIZE) in
          b ← getb bp;
          r ← copy dst (take (Z.to_nat m) (drop (Z.to_nat (off mod BSIZE)) (b_data b))) acc;
          brelse bp;;
          if r.1 =? -1 then mret (-1, r.2)
          else readi_loop fuel' ip (u64 (dst + m)) (u32 (off + m)) n (u32 (tot + m)) r.2
    end
  else mret (s32 tot, acc).

Definition readi (ip : nat) (dst off n : Z) (acc : A) : K (Z * A) :=
  x ← geti ip;
  if (off >? i_size x) || (u32 (off + n) <? off) then mret (0, acc)
  else
    let n := if u32 (off + n) >? i_size x then u32 (i_size x - off) else n in
    readi_loop (Z.to_nat (n / BSIZE + 2)) ip dst off n 0 acc.
End readi.

(** [fetch src m] is [either_copyin(_, user_src, src, m)]: its result and the
    bytes it stored before it returned. *)
Section writei.
Variable fetch : Z → Z → K (Z * list Z).

Fixpoint writei_loop (fuel : nat) (ip : nat) (src off n tot : Z) : K (Z * Z) :=
  if tot <? n then
    match fuel with
    | O => halt NoFuel
    | S fuel' =>
        addr ← bmap ip (off / BSIZE);
        if addr =? 0 then mret (tot, off)
        else
          x ← geti ip;
          bp ← bread (i_dev x) addr;
          let m := Z.min (n - tot) (BSIZE - off mod BSIZE) in
          r ← fetch src m;
          setb bp (λ b, set_b_data (list_inserts (Z.to_nat (off mod BSIZE)) r.2 (b_data b)) b);;
          if r.1 =? -1 then brelse bp;; mret (tot, off)
          else
            log_write bp;;
            brelse bp;;
            writei_loop fuel' ip (u64 (src + m)) (u32 (off + m)) n (u32 (tot + m))
    end
  else mret (tot, off).

Definition writei (ip : nat) (src off n : Z) : K Z :=
  x ← geti ip;
  if (off >? i_size x) || (u32 (off + n) <? off) then mret (-1)
  else if u32 (off + n) >? MAXFILE * BSIZE then mret (-1)
  else
    r ← writei_loop (Z.to_nat (n / BSIZE + 2)) ip src off n 0;
    x ← geti ip;
    (if r.2 >? i_size x then seti ip (set_i_size r.2) else mret tt);;
    iupdate ip;;
    mret (s32 r.1).
End writei.

(** The ends of the copies. *)
Definition to_kernel (dst : Z) (bs : list Z) (acc : unit) : K (Z * unit) :=
  if dst =? 0 then fault
  else modify (λ s, set_mem (st_bytes (k_mem s) dst bs) s);; mret (0, tt).
Definition to_object (dst : Z) (bs acc : list Z) : K (Z * list Z) := mret (0, acc ++ bs).
Definition from_object (obj : list Z) (src n : Z) : K (Z * list Z) :=
  mret (0, take (Z.to_nat n) (drop (Z.to_nat src) obj)).
Definition from_kernel (src n : Z) : K (Z * list Z) :=
  bs ← gets (λ s, ld_bytes (k_mem s) src (Z.to_nat n)); mret (0, bs).

(** [readi(ip, 0, (uint64)&obj, off, n)] *)
Definition readi_obj (ip : nat) (off n : Z) : K (Z * list Z) := readi to_object ip 0 off n [].
Definition writei_obj (ip : nat) (obj : list Z) (off : Z) : K Z :=
  writei (from_object obj) ip 0 off (length obj).
End fs.
