(* ===== verification/Dir.v ===== *)
(** Directories and path names: the last part of src/kernel/fs.c.  A directory
    entry is 16 bytes, a 16-bit inode number and a name of DIRSIZ bytes padded
    with NULs.  Strings are lists of their bytes without the NUL. *)

From S2P Require Import Prelude Machine Str Types Proc ProcSpec Rely Sleeplock Bio Bytes Log Fs.

(** [strncmp] (string.c) on two byte strings; behind their ends is the NUL. *)
Fixpoint strncmp_bytes (n : nat) (p q : list Z) : Z :=
  match n with
  | O => 0
  | S n' =>
      let c := default 0 (head p) in
      let d := default 0 (head q) in
      if negb (c =? 0) && (c =? d) then strncmp_bytes n' (tail p) (tail q) else c - d
  end.
Definition namecmp (s t : list Z) : Z := strncmp_bytes (Z.to_nat DIRSIZ) s t.

(** [strncpy] (string.c) into an array of [n] bytes. *)
Definition strncpy_bytes (n : nat) (s : list Z) : list Z :=
  take n s ++ replicate (n - length s) 0.

(** ** struct dirent *)

Definition de_inum (de : list Z) : Z := get16 0 de.
Definition de_name (de : list Z) : list Z := drop 2 de.
Definition mk_dirent (inum : Z) (name : list Z) : list Z :=
  le_split 2 inum ++ strncpy_bytes (Z.to_nat DIRSIZ) name.

Section dir.
Context `{D : Disk} `{W : Waits}.

Fixpoint dirlookup_loop (fuel : nat) (dp : nat) (name : list Z) (off : Z) : K (option (nat * Z)) :=
  x ← geti dp;
  if off <? i_size x then
    match fuel with
    | O => halt NoFuel
    | S fuel' =>
        r ← readi_obj dp off 16;
        if negb (r.1 =? 16) then panic "dirlookup read"
        else if de_inum r.2 =? 0 then dirlookup_loop fuel' dp name (u32 (off + 16))
        else if namecmp name (de_name r.2) =? 0 then
          ip ← iget (i_dev x) (de_inum r.2);
          mret (Some (ip, off))
        else dirlookup_loop fuel' dp name (u32 (off + 16))
    end
  else mret None.

(** The inode and the offset of the entry. *)
Definition dirlookup (dp : nat) (name : list Z) : K (option (nat * Z)) :=
  x ← geti dp;
  if negb (i_type x =? T_DIR) then panic "dirlookup not DIR"
  else dirlookup_loop (Z.to_nat (i_size x / 16 + 1)) dp name 0.

(** [for(off = 0; off < dp->size; off += sizeof(de))]: the first empty entry, or
    the end. *)
Fixpoint dirlink_slot (fuel : nat) (dp : nat) (off : Z) : K Z :=
  x ← geti dp;
  if off <? i_size x then
    match fuel with
    | O => halt NoFuel
    | S fuel' =>
        r ← readi_obj dp off 16;
        if negb (r.1 =? 16) then panic "dirlink read"
        else if de_inum r.2 =? 0 then mret off
        else dirlink_slot fuel' dp (off + 16)
    end
  else mret off.

Definition dirlink (dp : nat) (name : list Z) (inum : Z) : K Z :=
  r ← dirlookup dp name;
  match r with
  | Some (ip, _) => iput (Some ip);; mret (-1)
  | None =>
      x ← geti dp;
      off ← dirlink_slot (Z.to_nat (i_size x / 16 + 1)) dp 0;
      n ← writei_obj dp (mk_dirent (u16 inum) name) off;
      if negb (n =? 16) then mret (-1) else mret 0
  end.

(** ** Paths *)

Definition SLASH : Z := 47.

Fixpoint skip_slashes (p : list Z) : list Z :=
  match p with
  | c :: p' => if c =? SLASH then skip_slashes p' else p
  | [] => []
  end.
(** The second loop of [skipelem]: the element and what follows it. *)
Fixpoint span_elem (p : list Z) : list Z * list Z :=
  match p with
  | c :: p' => if c =? SLASH then ([], p) else let '(e, r) := span_elem p' in (c :: e, r)
  | [] => ([], [])
  end.

(** The rest of the path and the element's name; [None] is the null pointer. *)
Definition skipelem (path : list Z) : option (list Z * list Z) :=
  let path := skip_slashes path in
  match path with
  | [] => None
  | _ =>
      let '(e, rest) := span_elem path in
      let name := if Z.of_nat (length e) >=? DIRSIZ then take (Z.to_nat DIRSIZ) e else e in
      Some (skip_slashes rest, name)
  end.

(** The loop of [namex]; the result and the contents of [name]. *)
Fixpoint namex_loop (fuel : nat) (ip : nat) (path : list Z) (nameiparent : bool) (name : list Z)
    : K (option nat * list Z) :=
  match skipelem path with
  | None =>
      if nameiparent then iput (Some ip);; mret (None, name) else mret (Some ip, name)
  | Some (path', name') =>
      match fuel with
      | O => halt NoFuel
      | S fuel' =>
          ilock (Some ip);;
          x ← geti ip;
          if negb (i_type x =? T_DIR) then iunlockput (Some ip);; mret (None, name')
          else if nameiparent && bool_decide (path' = []) then iunlock (Some ip);; mret (Some ip, name')
          else
            next ← dirlookup ip name';
            match next with
            | None => iunlockput (Some ip);; mret (None, name')
            | Some (next, _) => iunlockput (Some ip);; namex_loop fuel' next path' nameiparent name'
            end
      end
  end.

Definition namex (path : list Z) (nameiparent : bool) : K (option nat * list Z) :=
  ip ← (if bool_decide (head path = Some SLASH) then iget ROOTDEV ROOTINO
        else
          i ← curproc;
          p ← getp i;
          match p_cwd p with None => fault | Some c => idup c end);
  namex_loop (length path) ip path nameiparent [].

Definition namei (path : list Z) : K (option nat) := r ← namex path false; mret r.1.
Definition nameiparent (path : list Z) : K (option nat * list Z) := namex path true.
End dir.
