(* ===== verification/FsFormat.v ===== *)
(** The on-disk formats of the file system: inodes in a block, bits of the free
    map, directory entries and path names. *)

From S2P Require Import Prelude Machine Str Types Proc ProcSpec Rely Sleeplock Bio Bytes Log Fs Dir.

(** ** struct dinode *)

Record dinode_ok (d : dinode) : Prop := {
  dk_type : - 2 ^ 15 ≤ d_type d < 2 ^ 15;
  dk_major : - 2 ^ 15 ≤ d_major d < 2 ^ 15;
  dk_minor : - 2 ^ 15 ≤ d_minor d < 2 ^ 15;
  dk_nlink : - 2 ^ 15 ≤ d_nlink d < 2 ^ 15;
  dk_size : 0 ≤ d_size d < 2 ^ 32;
  dk_len : length (d_addrs d) = 13%nat;
  dk_addrs : Forall (λ a, 0 ≤ a < 2 ^ 32) (d_addrs d) }.

(** The addresses from the [k]th on. *)
Definition put_from (o k : nat) (addrs bs : list Z) : list Z :=
  foldr (λ '(i, a), put32 (o + 12 + 4 * i) a) bs (zip (seq k (length addrs)) addrs).

Lemma length_put_from o k addrs bs : length (put_from o k addrs bs) = length bs.
Proof.
  revert k. induction addrs as [|a addrs IH]; intros k; [done|].
  change (put_from o k (a :: addrs) bs) with (put32 (o + 12 + 4 * k) a (put_from o (S k) addrs bs)).
  unfold put32. by rewrite length_put_le.
Qed.

Lemma get_put_from o k addrs bs j a :
  (o + 12 + 4 * (k + length addrs) ≤ length bs)%nat → addrs !! j = Some a →
  get32 (o + 12 + 4 * (k + j)) (put_from o k addrs bs) = u32 a.
Proof.
  revert k j. induction addrs as [|b addrs IH]; intros k j Hl Hj; [done|]. cbn [length] in Hl.
  change (put_from o k (b :: addrs) bs) with (put32 (o + 12 + 4 * k) b (put_from o (S k) addrs bs)).
  destruct j as [|j]; cbn in Hj.
  - injection Hj as ->. rewrite Nat.add_0_r. apply get32_put32. rewrite length_put_from. lia.
  - unfold get32, put32. rewrite get_put_other by (rewrite ?length_put_from; lia).
    replace (k + S j)%nat with (S k + j)%nat by lia. apply IH; [lia|done].
Qed.

Lemma get_put_from_other n off o k addrs bs :
  (o + 12 + 4 * (k + length addrs) ≤ length bs)%nat →
  (off + n ≤ o + 12 + 4 * k ∨ o + 12 + 4 * (k + length addrs) ≤ off)%nat →
  get_le n off (put_from o k addrs bs) = get_le n off bs.
Proof.
  revert k. induction addrs as [|b addrs IH]; intros k Hl Ho; [done|]. cbn [length] in *.
  change (put_from o k (b :: addrs) bs) with (put32 (o + 12 + 4 * k) b (put_from o (S k) addrs bs)).
  unfold put32. rewrite get_put_other by (rewrite ?length_put_from; lia). apply IH; lia.
Qed.

Lemma put_addrs_from o d bs : length (d_addrs d) = 13%nat → put_addrs o (d_addrs d) bs = put_from o 0 (d_addrs d) bs.
Proof. intros H. unfold put_addrs, put_from. by rewrite H. Qed.

Lemma length_put_dinode o d bs : length (d_addrs d) = 13%nat → length (put_dinode o d bs) = length bs.
Proof.
  intros H. unfold put_dinode. rewrite put_addrs_from, length_put_from by done. unfold put32, put16.
  by rewrite !length_put_le.
Qed.

Lemma s16_mod v : - 2 ^ 15 ≤ v < 2 ^ 15 → s16 (v mod 2 ^ 16) = v.
Proof. intros H. unfold s16. rewrite Zplus_mod_idemp_l. rewrite Z.mod_small; lia. Qed.

(** Loads behind stores. *)
Ltac getput := repeat first [rewrite get_put_same by (rewrite ?length_put_le; lia)|
  rewrite get_put_other by (rewrite ?length_put_le; lia)].

(** Writing an inode into its slot of a block and reading the slot gives the
    inode back, and the other slots of the block are as before. *)
Lemma get_put_dinode o d bs :
  dinode_ok d → (o + 64 ≤ length bs)%nat →
  get_dinode o (put_dinode o d bs) = d ∧
  ∀ o', (o' + 64 ≤ o ∨ o + 64 ≤ o')%nat → get_dinode o' (put_dinode o d bs) = get_dinode o' bs.
Proof.
  intros [H1 H2 H3 H4 H5 H6 H7] Hl. unfold put_dinode. rewrite put_addrs_from by done.
  set (bs1 := put32 (o + 8) _ _). assert (length bs1 = length bs) as Hl1 by (unfold bs1, put32, put16; by rewrite !length_put_le).
  assert (∀ n off, (off + n ≤ o + 12 ∨ o + 64 ≤ off)%nat →
    get_le n off (put_from o 0 (d_addrs d) bs1) = get_le n off bs1) as Hoth.
  { intros n off Ho. apply get_put_from_other; rewrite H6; lia. }
  split.
  - destruct d as [ty ma mi nl sz ad]. cbn [d_type d_major d_minor d_nlink d_size d_addrs] in *.
    unfold get_dinode. f_equal; unfold get16; try unfold get32 at 1; rewrite ?Hoth by lia.
    1-5: unfold bs1, put32, put16; getput; first [by apply s16_mod|by apply Z.mod_small].
    apply list_eq. intros j. rewrite list_lookup_fmap.
    destruct (ad !! j) as [a|] eqn:Ha.
    + pose proof (lookup_lt_Some _ _ _ Ha). rewrite lookup_seq_lt by lia. cbn [fmap option_fmap option_map]. f_equal.
      pose proof (get_put_from o 0 ad bs1 j a ltac:(rewrite H6; lia) Ha) as Hg. unfold get32 in Hg. rewrite Hg. apply u32_small.
      rewrite list.Forall_forall in H7. by apply H7, (list_elem_of_lookup_2 _ j).
    + apply lookup_ge_None in Ha. by rewrite lookup_seq_ge by lia.
  - intros o' Ho'. assert (∀ n off, (off + n ≤ o ∨ o + 64 ≤ off)%nat →
      get_le n off (put_from o 0 (d_addrs d) bs1) = get_le n off bs) as Hall.
    { intros n off Ho. rewrite Hoth by lia. unfold bs1, put32, put16.
      by getput. }
    unfold get_dinode, get16, get32. rewrite !Hall by lia. f_equal. apply list_fmap_ext.
    intros j x Hx. apply lookup_seq in Hx as [-> Hx]. apply Hall. lia.
Qed.

(** ** The free map *)

Lemma bit_set_testbit data bi :
  bit_set data bi = Z.testbit (default 0 (data !! Z.to_nat (bi / 8))) (bi mod 8).
Proof.
  pose proof (Z.mod_pos_bound bi 8 ltac:(lia)) as Hm. unfold bit_set.
  set (x := default 0 _). rewrite Z.shiftl_1_l.
  destruct (Z.testbit x (bi mod 8)) eqn:Ht.
  - apply negb_true_iff, Z.eqb_neq. intros H0. apply (f_equal (λ y, Z.testbit y (bi mod 8))) in H0.
    rewrite Z.land_spec, Ht, Z.pow2_bits_true, Z.bits_0 in H0 by lia. done.
  - apply negb_false_iff, Z.eqb_eq, Z.bits_inj'. intros n Hn. rewrite Z.land_spec, Z.bits_0.
    destruct (decide (n = bi mod 8)) as [->|]; [by rewrite Ht|]. rewrite Z.pow2_bits_false by lia. apply andb_false_r.
Qed.

(** Bits of a byte that is updated in place. *)
Lemma bit_set_alter data bi bj f :
  0 ≤ bi < 8 * length data → 0 ≤ bj →
  bit_set (alter f (Z.to_nat (bi / 8)) data) bj =
    if decide (bj / 8 = bi / 8)
    then Z.testbit (f (default 0 (data !! Z.to_nat (bj / 8)))) (bj mod 8) else bit_set data bj.
Proof.
  intros Hi Hj. rewrite !bit_set_testbit. case_decide as He.
  - rewrite He, list_lookup_alter_eq. destruct (lookup_lt_is_Some_2 data (Z.to_nat (bi / 8))) as [x ->]; [|done].
    pose proof (Z.div_lt_upper_bound bi 8 (length data)). lia.
  - rewrite list_lookup_alter_ne; [done|]. intros E. apply He. pose proof (Z.div_pos bi 8). pose proof (Z.div_pos bj 8). lia.
Qed.

Lemma testbit_u8 x n : 0 ≤ n < 8 → Z.testbit (u8 x) n = Z.testbit x n.
Proof. intros. unfold u8. apply Z.mod_pow2_bits_low. lia. Qed.

(** [balloc] sets the bit it found and [bfree] clears it; no other bit changes. *)
Lemma bit_set_or data bi bj : 0 ≤ bi < 8 * length data → 0 ≤ bj →
  bit_set (or_bit bi data) bj = bool_decide (bj = bi) || bit_set data bj.
Proof.
  intros Hi Hj. unfold or_bit. rewrite bit_set_alter by done.
  pose proof (Z.mod_pos_bound bi 8 ltac:(lia)). pose proof (Z.mod_pos_bound bj 8 ltac:(lia)).
  case_decide as He.
  - rewrite testbit_u8, Z.lor_spec, Z.shiftl_1_l, bit_set_testbit, orb_comm by lia. f_equal.
    case_bool_decide as Hb; [subst; apply Z.pow2_bits_true; lia|]. apply Z.pow2_bits_false.
    pose proof (Z.div_mod bi 8). pose proof (Z.div_mod bj 8). lia.
  - rewrite bool_decide_false; [done|]. by intros ->.
Qed.

Lemma bit_set_clear data bi bj : 0 ≤ bi < 8 * length data → 0 ≤ bj →
  bit_set (clear_bit bi data) bj = negb (bool_decide (bj = bi)) && bit_set data bj.
Proof.
  intros Hi Hj. unfold clear_bit. rewrite bit_set_alter by done.
  pose proof (Z.mod_pos_bound bi 8 ltac:(lia)). pose proof (Z.mod_pos_bound bj 8 ltac:(lia)).
  case_decide as He.
  - rewrite testbit_u8, Z.land_spec, Z.lnot_spec, Z.shiftl_1_l, bit_set_testbit, andb_comm by lia. f_equal. f_equal.
    case_bool_decide as Hb; [subst; apply Z.pow2_bits_true; lia|]. apply Z.pow2_bits_false.
    pose proof (Z.div_mod bi 8). pose proof (Z.div_mod bj 8). lia.
  - rewrite bool_decide_false; [done|]. by intros ->.
Qed.

(** ** Path names *)

(** The pieces between the slashes, and the elements: those that are not empty. *)
Fixpoint pieces (p : list Z) : list (list Z) :=
  match p with
  | [] => [[]]
  | c :: p' =>
      if c =? SLASH then [] :: pieces p'
      else match pieces p' with e :: r => (c :: e) :: r | [] => [[c]] end
  end.
Definition path_elems (p : list Z) : list (list Z) := filter (λ e, e ≠ []) (pieces p).

(** Calling [skipelem] until it returns 0. *)
Fixpoint skip_all (fuel : nat) (p : list Z) : list (list Z) :=
  match fuel, skipelem p with
  | S fuel', Some (rest, name) => name :: skip_all fuel' rest
  | _, _ => []
  end.

Lemma path_elems_skip p : path_elems (skip_slashes p) = path_elems p.
Proof.
  induction p as [|c p IH]; [done|]. cbn [skip_slashes]. destruct (c =? SLASH) eqn:E; [|done]. rewrite IH.
  unfold path_elems. cbn [pieces]. rewrite E, filter_cons, decide_False by tauto. done.
Qed.

Lemma skip_slashes_length p : (length (skip_slashes p) ≤ length p)%nat.
Proof. induction p as [|c p IH]; [done|]. cbn. destruct (c =? SLASH); cbn; lia. Qed.

Lemma span_elem_pieces p e r : span_elem p = (e, r) →
  (r = [] ∧ pieces p = [e] ∨ ∃ r', r = SLASH :: r' ∧ pieces p = e :: pieces r') ∧ (length e + length r = length p)%nat.
Proof.
  revert e r. induction p as [|c p IH]; intros e r; cbn; [intros [= <- <-]; by auto|].
  destruct (Z.eqb_spec c SLASH) as [->|Hc]; [intros [= <- <-]; cbn; by eauto|].
  destruct (span_elem p) as [e' r'] eqn:Es. intros [= <- <-]. destruct (IH e' r' eq_refl) as [Hp Hl].
  cbn. split; [|lia]. destruct Hp as [[-> ->]|(r'' & -> & ->)]; [by left|right]. by eauto.
Qed.

Lemma skipelem_elems p :
  match skipelem p with
  | None => path_elems p = []
  | Some (rest, name) => ∃ e, path_elems p = e :: path_elems rest ∧ name = take (Z.to_nat DIRSIZ) e ∧
      (length rest < length p)%nat ∧ head rest ≠ Some SLASH
  end.
Proof.
  unfold skipelem. rewrite <- (path_elems_skip p). pose proof (skip_slashes_length p) as Hlen.
  assert (head (skip_slashes p) ≠ Some SLASH) as Hh.
  { clear. induction p as [|c p IH]; [done|]. cbn. destruct (Z.eqb_spec c SLASH); [done|]. cbn. congruence. }
  destruct (skip_slashes p) as [|c q] eqn:Eq; [done|].
  destruct (span_elem (c :: q)) as [e rest] eqn:Es. destruct (span_elem_pieces _ _ _ Es) as [Hp Hl].
  assert (e ≠ []) as He.
  { cbn in Es, Hh. destruct (Z.eqb_spec c SLASH); [congruence|]. destruct (span_elem q). by injection Es as <- <-. }
  exists e. cbn [length] in *. pose proof (skip_slashes_length rest). split_and!.
  - rewrite path_elems_skip. unfold path_elems. destruct Hp as [[-> ->]|(r' & -> & ->)].
    + rewrite filter_cons, decide_True by done. done.
    + rewrite filter_cons, decide_True by done. f_equal.
  - destruct (Z.geb_spec (length e) DIRSIZ) as [Hd|Hd]; [done|]. rewrite take_ge; [done|]. unfold DIRSIZ in *. lia.
  - destruct e; [done|]. cbn in Hl. lia.
  - clear. induction rest as [|d r IH]; [done|]. cbn. destruct (Z.eqb_spec d SLASH); [done|]. cbn. congruence.
Qed.

(** Repeated calls of [skipelem] give the elements of the path, the non-empty
    pieces between slashes, each cut to DIRSIZ bytes; what is left never starts
    with a slash. *)
Theorem skipelem_correct p :
  skip_all (length p) p = take (Z.to_nat DIRSIZ) <$> path_elems p ∧
  (skipelem p = None ↔ path_elems p = []).
Proof.
  split.
  - assert (∀ fuel p, (length p ≤ fuel)%nat → skip_all fuel p = take (Z.to_nat DIRSIZ) <$> path_elems p) as H; [|by apply H].
    clear p. intros fuel. induction fuel as [|fuel IH]; intros p Hf.
    + destruct p; [done|cbn in Hf; lia].
    + cbn [skip_all]. pose proof (skipelem_elems p) as Hs. destruct (skipelem p) as [[rest name]|]; [|by rewrite Hs].
      destruct Hs as (e & -> & -> & Hlt & _). cbn. f_equal. apply IH. lia.
  - pose proof (skipelem_elems p) as Hs. destruct (skipelem p) as [[rest name]|]; [|done].
    destruct Hs as (e & -> & _). done.
Qed.
