(* ===== verification/FsBlock.v ===== *)
(** The block layer of fs.c inside a transaction: [balloc] takes the first free
    block of the free map and zeroes it, [bfree] gives a block back. *)

From S2P Require Import Prelude Machine Str Types Proc ProcSpec Rely Sleeplock Bio BioSpec BioContent BioRep Bytes Log LogSpec LogRun LogView Fs Dir FsFormat.

(** ** Reading and updating one block *)

Section block.
Context `{DK : Disk} `{W : Waits}.
Variables (E : stop → Prop) (i : nat) (dev ls sz : Z).
Abbreviation wpi := (wp E (λ _, True) idle).
Abbreviation tview := (tview i dev ls sz).

(** [setb b f; log_write(b); brelse(b)] *)
Lemma tv_update {A} s C D H r w b n f (k : K A) Q :
  tview s C D (<[b := n]> H) ∅ (S r) w → H !! b = None → 0 ≤ n < 2 ^ 32 → ¬ log_area ls sz n →
  (∀ s', lframe s s' → tview s' (upd C n (f (C n))) D H ∅ r w → wpi Q (k s')) →
  wpi Q ((setb b (λ x, set_b_data (f (b_data x)) x);; log_write b;; brelse b;; k) s).
Proof.
  intros Ht HN Hn Hl HQ. wstep.
  pose proof (tv_set_data i dev ls sz s C D _ ∅ (S r) w b n f Ht ltac:(by rewrite lookup_insert_eq)) as H1.
  apply wp_bind. eapply tv_log_write; [exact H1|by rewrite lookup_insert_eq|done|done|].
  intros s2 Hf2 H2. assert (({[n]} ∪ ∅) ∖ {[n]} = (∅ : gset Z)) as Hd by set_solver. rewrite Hd in H2.
  apply wp_bind. eapply tv_brelse; [exact H2|by rewrite lookup_insert_eq|apply not_elem_of_empty|].
  intros s3 Hf3 H3. rewrite delete_insert_id in H3 by done. apply HQ; [|done].
  etrans; [apply bframe_lframe, bframe_upd|]. etrans; [exact Hf2|by apply bframe_lframe].
Qed.

Lemma tv_update_ret s C D H r w b n f Q :
  tview s C D (<[b := n]> H) ∅ (S r) w → H !! b = None → 0 ≤ n < 2 ^ 32 → ¬ log_area ls sz n →
  (∀ s', lframe s s' → tview s' (upd C n (f (C n))) D H ∅ r w → Q tt s') →
  wpi Q ((setb b (λ x, set_b_data (f (b_data x)) x);; log_write b;; brelse b) s).
Proof.
  intros Ht HN Hn Hl HQ. wstep.
  pose proof (tv_set_data i dev ls sz s C D _ ∅ (S r) w b n f Ht ltac:(by rewrite lookup_insert_eq)) as H1.
  apply wp_bind. eapply tv_log_write; [exact H1|by rewrite lookup_insert_eq|done|done|].
  intros s2 Hf2 H2. assert (({[n]} ∪ ∅) ∖ {[n]} = (∅ : gset Z)) as Hd by set_solver. rewrite Hd in H2.
  eapply tv_brelse; [exact H2|by rewrite lookup_insert_eq|apply not_elem_of_empty|].
  intros s3 Hf3 H3. rewrite delete_insert_id in H3 by done. apply HQ; [|done].
  etrans; [apply bframe_lframe, bframe_upd|]. etrans; [exact Hf2|by apply bframe_lframe].
Qed.

(** [brelse] of a buffer that was only read. *)
Lemma tv_release {A} s C D H r w b n (k : K A) Q :
  tview s C D (<[b := n]> H) ∅ r w → H !! b = None →
  (∀ s', bframe s s' → tview s' C D H ∅ r w → wpi Q (k s')) →
  wpi Q ((brelse b;; k) s).
Proof.
  intros Ht HN HQ. apply wp_bind. eapply tv_brelse; [exact Ht|by rewrite lookup_insert_eq|apply not_elem_of_empty|].
  intros s' Hf H1. rewrite delete_insert_id in H1 by done. by apply HQ.
Qed.

Lemma wp_bzero s C D H r w n Q :
  tview s C D H ∅ (S r) w → (∀ c, H !! c ≠ Some n) → (size H ≤ r)%nat →
  0 ≤ dev < 2 ^ 32 → 0 ≤ n < 2 ^ 32 → ¬ log_area ls sz n →
  (∀ s', lframe s s' → tview s' (upd C n (replicate 1024 0)) D H ∅ r w → Q tt s') →
  wpi Q (bzero dev n s).
Proof.
  intros Ht Hh Hs Hd Hn Hl HQ. unfold bzero. rewrite !u32_small by done.
  apply wp_bind. apply (tv_bread i dev ls sz E s) with (1 := Ht); [done|lia|]. intros b s1 HN Hf1 H1.
  apply (tv_update_ret s1 C D H r w b n (λ _, replicate 1024 0)); [done..|].
  intros s2 Hf2 H2. apply HQ; [|done]. etrans; [by apply bframe_lframe|done].
Qed.

(** ** The free map *)

Variable sb : superblock.

(** Block [n] is marked in use. *)
Definition used (C : Z → list Z) (n : Z) : bool := bit_set (C (BBLOCK n sb)) (n mod BPB).

(** The superblock and the parts of the disk it describes: the free map lies
    outside the log and has room for a bit per block; its own blocks, the log's
    and block 0 are marked in use. *)
Record bmap_ok (C : Z → list Z) : Prop := {
  bo_size : 0 ≤ sb_size sb < 2 ^ 31;
  bo_start : 0 ≤ sb_bmapstart sb ∧ sb_bmapstart sb + 2 ^ 19 < 2 ^ 32;
  bo_log n : 0 ≤ n < sb_size sb → ¬ log_area ls sz (BBLOCK n sb);
  bo_len n : 0 ≤ n < sb_size sb → length (C (BBLOCK n sb)) = 1024%nat;
  bo_used n : 0 ≤ n < sb_size sb →
    n = 0 ∨ log_area ls sz n ∨ (∃ m, 0 ≤ m < sb_size sb ∧ n = BBLOCK m sb) → used C n = true }.

Lemma BBLOCK_eq C n : bmap_ok C → 0 ≤ n < sb_size sb → BBLOCK n sb = n / 8192 + sb_bmapstart sb.
Proof.
  intros [H1 H2 _ _ _] Hn. unfold BBLOCK. change BPB with 8192. apply u32_small.
  pose proof (Z.div_pos n 8192). pose proof (Z.div_lt_upper_bound n 8192 (2 ^ 18)). lia.
Qed.

(** The inner loop of [balloc] finds the first bit that is clear. *)
Lemma balloc_bit_spec data (b size : Z) : ∀ (fuel : nat) bi, 0 ≤ bi → BPB ≤ bi + fuel →
  match balloc_bit fuel data b bi size with
  | Some bj => bi ≤ bj < BPB ∧ b + bj < size ∧ bit_set data bj = false ∧ ∀ x, bi ≤ x < bj → bit_set data x = true
  | None => ∀ x, bi ≤ x < BPB → b + x < size → bit_set data x = true
  end.
Proof.
  intros fuel. induction fuel as [|fuel IH]; intros bi Hb Hf; cbn [balloc_bit]; [lia|].
  destruct (Z.ltb_spec bi BPB); [|intros x ?; lia]. destruct (Z.ltb_spec (b + bi) size); cbn [andb]; [|intros x ? ?; lia].
  destruct (bit_set data bi) eqn:Hs.
  - specialize (IH (bi + 1) ltac:(lia) ltac:(lia)). destruct (balloc_bit fuel data b (bi + 1) size) as [bj|].
    + destruct IH as (? & ? & ? & IH). split_and!; [lia..|done|]. intros x Hx.
      destruct (decide (x = bi)) as [->|]; [done|]. apply IH. lia.
    + intros x Hx Hxs. destruct (decide (x = bi)) as [->|]; [done|]. apply IH; lia.
  - split_and!; [lia..|done|]. intros x ?. lia.
Qed.

(** The blocks after [n] was allocated. *)
Definition ballocated (C : Z → list Z) (n : Z) : Z → list Z :=
  upd (upd C (BBLOCK n sb) (or_bit (n mod BPB) (C (BBLOCK n sb)))) n (replicate 1024 0).

Definition first_free (C : Z → list Z) (n : Z) : Prop :=
  0 ≤ n < sb_size sb ∧ used C n = false ∧ ∀ m, 0 ≤ m < n → used C m = true.

Lemma wp_balloc_loop s0 C D H r w Q : ∀ (fuel : nat) s b,
  bmap_ok C → k_sb s0 = sb → lframe s0 s → tview s C D H ∅ (S (S r)) w → (size H ≤ r)%nat →
  (∀ m c, 0 ≤ m < sb_size sb → H !! c = Some m → used C m = true) →
  (∀ m c, 0 ≤ m < sb_size sb → H !! c ≠ Some (BBLOCK m sb)) →
  0 ≤ dev < 2 ^ 32 → 0 ≤ b → b mod BPB = 0 → sb_size sb < b + BPB * fuel →
  (∀ m, 0 ≤ m < b → m < sb_size sb → used C m = true) →
  (∀ n s', first_free C n → lframe s0 s' → tview s' (ballocated C n) D H ∅ r w → Q n s') →
  (∀ s', (∀ m, 0 ≤ m < sb_size sb → used C m = true) → lframe s0 s' → tview s' C D H ∅ (S (S r)) w → Q 0 s') →
  wpi Q (balloc_loop fuel dev b s).
Proof.
  intros fuel. induction fuel as [|fuel IH]; intros s b Hok Esb Hf Ht Hs Hh1 Hh2 Hdev Hb Hmod Hfuel Hall HQ HQ0;
    cbn [balloc_loop]; wstep; destruct (lframe_get _ _ Hf) as (Es & _); rewrite Es, Esb.
  { rewrite (proj2 (Z.ltb_ge b _)) by lia. apply HQ0; [|done|done]. intros m Hm. apply Hall; lia. }
  destruct (Z.ltb_spec b (sb_size sb)) as [Hlt|Hge].
  2:{ apply HQ0; [|done|done]. intros m Hm. apply Hall; lia. }
  assert (∀ x, 0 ≤ x < BPB → b + x < sb_size sb → BBLOCK (b + x) sb = BBLOCK b sb ∧ (b + x) mod BPB = x) as Hblk.
  { intros x Hx Hxs. change BPB with 8192 in *. rewrite !(BBLOCK_eq C) by (done || lia). split; dlia. }
  apply wp_bind. apply (tv_bread i dev ls sz E s) with (1 := Ht); [intros c; by apply Hh2|lia|].
  intros bp s1 HN Hf1 H1. wstep.
  destruct (tview_data _ _ _ _ _ _ _ _ _ _ _ bp (BBLOCK b sb) H1) as [Hda _]; [by rewrite lookup_insert_eq|]. rewrite Hda.
  pose proof (balloc_bit_spec (C (BBLOCK b sb)) b (sb_size sb) (Z.to_nat BPB) 0 ltac:(lia) ltac:(change BPB with 8192; lia)) as Hbit.
  destruct (balloc_bit (Z.to_nat BPB) (C (BBLOCK b sb)) b 0 (sb_size sb)) as [bi|].
  - destruct Hbit as (Hbi & Hbs & Hclr & Hbefore). destruct (Hblk bi Hbi Hbs) as [E1 E2].
    assert (first_free C (b + bi)) as Hff.
    { split_and!; [lia|lia|unfold used; by rewrite E1, E2|]. intros m Hm.
      destruct (decide (m < b)); [apply Hall; lia|]. unfold used.
      destruct (Hblk (m - b) ltac:(lia) ltac:(lia)) as [E3 E4]. replace (b + (m - b)) with m in * by lia.
      rewrite E3, E4. apply Hbefore. lia. }
    assert (¬ log_area ls sz (b + bi) ∧ (∀ m, 0 ≤ m < sb_size sb → b + bi ≠ BBLOCK m sb) ∧ (∀ c, H !! c ≠ Some (b + bi))) as (Hnl & Hnb & Hnh).
    { destruct Hff as (Hr & Hu & _). split_and!.
      - intros Hla. rewrite (bo_used _ Hok) in Hu by auto. done.
      - intros m Hm Em. rewrite (bo_used _ Hok) in Hu by eauto. done.
      - intros c Hc. rewrite (Hh1 (b + bi) c) in Hu by done. done. }
    apply (tv_update s1 C D H (S r) w bp (BBLOCK b sb) (or_bit bi)); [done|done| | |].
    { apply u32_range. }
    { apply (bo_log _ Hok). lia. }
    intros s2 Hf2 H2. apply wp_bind. eapply (wp_bzero s2); [exact H2|done|lia|done| |done|].
    { pose proof (bo_size _ Hok). lia. }
    intros s3 Hf3 H3. cbn. apply HQ; [done| |].
    + etrans; [exact Hf|]. etrans; [by apply bframe_lframe|]. by etrans.
    + unfold ballocated. by rewrite E1, E2.
  - apply (tv_release s1 C D H (S (S r)) w bp (BBLOCK b sb)); [done|done|]. intros s2 Hf2 H2.
    apply (IH s2 (b + BPB)); try done.
    + etrans; [exact Hf|]. apply bframe_lframe. by etrans.
    + change BPB with 8192. lia.
    + change BPB with 8192 in *. dlia.
    + lia.
    + intros m Hm Hms. destruct (decide (m < b)); [apply Hall; lia|]. unfold used.
      destruct (Hblk (m - b) ltac:(lia) ltac:(lia)) as [E3 E4]. replace (b + (m - b)) with m in * by lia.
      rewrite E3, E4. apply Hbit; lia.
Qed.
End block.

(** Which bits change when one bit does. *)
Lemma used_update ls sz sb C n f (g : bool → bool) :
  bmap_ok ls sz sb C → 0 ≤ n < sb_size sb →
  (∀ data bj, length data = 1024%nat → 0 ≤ bj → bit_set (f data) bj =
     if decide (bj = n mod BPB) then g (bit_set data bj) else bit_set data bj) →
  let C' := upd C (BBLOCK n sb) (f (C (BBLOCK n sb))) in
  ∀ m, 0 ≤ m < sb_size sb → used sb C' m = if decide (m = n) then g (used sb C m) else used sb C m.
Proof.
  intros Hok Hn Hf C' m Hm. unfold used, C'. pose proof (Z.mod_pos_bound m BPB ltac:(done)) as Hmb.
  destruct (decide (BBLOCK m sb = BBLOCK n sb)) as [Eb|Hne].
  - rewrite Eb, upd_eq, Hf by (try lia; by apply (bo_len _ _ _ _ Hok)). change BPB with 8192 in *.
    rewrite !(BBLOCK_eq ls sz sb C) in Eb by done.
    pose proof (Z.div_mod m 8192). pose proof (Z.div_mod n 8192).
    destruct (decide (m = n)) as [->|]; [by rewrite decide_True|]. rewrite decide_False by lia. done.
  - rewrite upd_ne by done. rewrite decide_False; [done|]. by intros ->.
Qed.

(** The free map stays a free map. *)
Lemma bmap_ok_update ls sz sb C C' :
  bmap_ok ls sz sb C → (∀ n, 0 ≤ n < sb_size sb → length (C' (BBLOCK n sb)) = 1024%nat) →
  (∀ n, 0 ≤ n < sb_size sb → n = 0 ∨ log_area ls sz n ∨ (∃ m, 0 ≤ m < sb_size sb ∧ n = BBLOCK m sb) →
     used sb C n = true → used sb C' n = true) →
  bmap_ok ls sz sb C'.
Proof. intros [] Hl Hu. split; try done. intros n Hn Hr. apply Hu; auto. Qed.

Lemma length_or_bit bi data : length (or_bit bi data) = length data.
Proof. apply length_alter. Qed.
Lemma length_clear_bit bi data : length (clear_bit bi data) = length data.
Proof. apply length_alter. Qed.

Section balloc.
Context `{DK : Disk} `{W : Waits}.
Variables (i : nat) (dev ls sz : Z) (sb : superblock).

Lemma first_free_data C n : bmap_ok ls sz sb C → first_free sb C n →
  n ≠ 0 ∧ ¬ log_area ls sz n ∧ ∀ m, 0 ≤ m < sb_size sb → n ≠ BBLOCK m sb.
Proof.
  intros Hok (Hr & Hu & _). split_and!; [intros ->|intros Hla|intros m Hm ->];
    rewrite (bo_used _ _ _ _ Hok) in Hu by eauto; done.
Qed.

Lemma ballocated_used C n : bmap_ok ls sz sb C → first_free sb C n →
  ∀ m, 0 ≤ m < sb_size sb → used sb (ballocated sb C n) m = if decide (m = n) then true else used sb C m.
Proof.
  intros Hok Hff m Hm. destruct (first_free_data C n Hok Hff) as (_ & _ & Hnb). destruct Hff as (Hn & _).
  pose proof (used_update ls sz sb C n (or_bit (n mod BPB)) (λ _, true) Hok Hn) as H.
  cbn zeta in H. rewrite <- H by (try done; intros data bj Hl Hj;
    rewrite bit_set_or by (change BPB with 8192; rewrite ?Hl; dlia || lia); repeat case_decide; case_bool_decide; done).
  unfold used, ballocated. rewrite upd_ne; [done|]. intros E. by apply (Hnb m).
Qed.

(** [balloc] hands out the first block the free map has as free: it is then
    marked in use and zeroed, no other mark and no other block changes, and the
    free map stays well-formed.  It returns 0, with nothing changed, exactly when
    every block is in use. *)
Theorem balloc_correct s C D r w :
  k_sb s = sb → bmap_ok ls sz sb C → 0 ≤ dev < 2 ^ 32 → tview i dev ls sz s C D ∅ ∅ (S (S r)) w →
  wp (λ _, False) (λ _, True) idle (λ n s',
      (first_free sb C n ∧ n ≠ 0 ∧
       let C' := ballocated sb C n in
       tview i dev ls sz s' C' D ∅ ∅ r w ∧ bmap_ok ls sz sb C' ∧ C' n = replicate 1024 0 ∧
       (∀ m, 0 ≤ m < sb_size sb → used sb C' m = if decide (m = n) then true else used sb C m) ∧
       (∀ m, m ≠ n → m ≠ BBLOCK n sb → C' m = C m)) ∨
      (n = 0 ∧ (∀ m, 0 ≤ m < sb_size sb → used sb C m = true) ∧
       tview i dev ls sz s' C D ∅ ∅ (S (S r)) w))
    (balloc dev s).
Proof.
  intros Esb Hok Hdev Ht. unfold balloc. wstep. rewrite Esb.
  pose proof (bo_size _ _ _ _ Hok) as Hsz.
  apply (wp_balloc_loop _ i dev ls sz sb s C D ∅ r w); try done.
  - rewrite map_size_empty. lia.
  - rewrite Z2Nat.id by (change BPB with 8192; dlia). change BPB with 8192. dlia.
  - intros m Hm. lia.
  - intros n s' Hff Hf Ht'. left. destruct (first_free_data C n Hok Hff) as (Hn0 & Hnl & Hnb).
    pose proof (ballocated_used C n Hok Hff) as Hu.
    split_and!; [done|done|done| |unfold ballocated; by rewrite upd_eq|done|].
    + apply (bmap_ok_update ls sz sb C); [done| |].
      * intros m Hm. unfold ballocated. rewrite upd_ne by (intros E; by apply (Hnb m)).
        destruct Hff as (Hn & _). unfold upd. case_decide; [|by apply (bo_len _ _ _ _ Hok)].
        rewrite length_or_bit. by apply (bo_len _ _ _ _ Hok).
      * intros m Hm _ Hum. rewrite Hu by done. by case_decide.
    + intros m Hm Hmb. unfold ballocated. by rewrite !upd_ne.
  - intros s' Hall Hf Ht'. by right.
Qed.

(** [bfree] marks a block in use as free and changes nothing else; freeing a
    free block panics. *)
Theorem bfree_correct s C D r w b :
  k_sb s = sb → bmap_ok ls sz sb C → 0 ≤ dev < 2 ^ 32 → 0 ≤ b < sb_size sb →
  tview i dev ls sz s C D ∅ ∅ (S r) w →
  wp (λ x, x = Panics "freeing free block" ∧ used sb C b = false) (λ _, True) idle (λ _ s',
      used sb C b = true ∧ ∃ C', tview i dev ls sz s' C' D ∅ ∅ r w ∧
        (∀ m, m ≠ BBLOCK b sb → C' m = C m) ∧
        ∀ m, 0 ≤ m < sb_size sb → used sb C' m = if decide (m = b) then false else used sb C m)
    (bfree dev b s).
Proof.
  intros Esb Hok Hdev Hb Ht. unfold bfree. wstep. rewrite Esb, u32_small by done.
  apply wp_bind. apply (tv_bread i dev ls sz _ s) with (1 := Ht); [done|rewrite map_size_empty; lia|].
  intros bp s1 HN Hf1 H1. wstep.
  destruct (tview_data _ _ _ _ _ _ _ _ _ _ _ bp (BBLOCK b sb) H1) as [-> _]; [by rewrite lookup_insert_eq|].
  fold (used sb C b). destruct (used sb C b) eqn:Hu; cbn [negb]; [|done].
  apply (tv_update_ret _ i dev ls sz s1 C D ∅ r w bp (BBLOCK b sb) (clear_bit (b mod BPB))); [done|done| | |].
  { apply u32_range. }
  { by apply (bo_log _ _ _ _ Hok). }
  intros s2 Hf2 H2. split; [done|]. eexists. split_and!; [exact H2| |].
  - intros m Hm. by rewrite upd_ne.
  - intros m Hm. rewrite (used_update ls sz sb C b (clear_bit (b mod BPB)) (λ _, false)); try done.
    intros data bj Hl Hj. rewrite bit_set_clear by (change BPB with 8192; rewrite ?Hl; dlia || lia).
    repeat case_decide; case_bool_decide; done.
Qed.
End balloc.

(** ** Instances of the theorems *)

(** A disk of 100 blocks, the first 46 in use, with the free map in block 45 and
    the log in blocks 2 to 31. *)
Definition ex_sb : superblock := mkSb FSMAGIC 100 54 200 30 2 32 45.
Definition ex_map : list Z := replicate 5 255 ++ [63] ++ replicate 1018 0.
Definition ex_disk : gmap Z (list Z) := <[45 := ex_map]> ∅.
Definition ex_txn : kstate :=
  set_sb ex_sb (set_disk ex_disk (set_log (mkLog 2 30 1 false 1 0 (replicate 30 0)) ex_fs)).

Lemma ex_txn_view r : (r < 30)%nat → tview 0 1 2 30 ex_txn (disk_block ex_disk) (disk_block ex_disk) ∅ ∅ r [].
Proof.
  intros Hr. apply tview_start; [|apply (ex_fs_rep ex_txn)|exact eq_refl..|unfold NBUF; lia|lia].
  - split; cbn; try done; lia.
  - unfold ex_txn, ex_fs. by generalize ex_bufs.
  - destruct (runs_ex_boot ex_bufs). by split.
Qed.

Lemma ex_used n : 0 ≤ n < 46 → bit_set ex_map n = true.
Proof.
  intros Hn. assert (forallb (λ k : nat, bit_set ex_map k) (seq 0 46) = true) as H by by vm_compute.
  rewrite forallb_forall in H. rewrite <- (Z2Nat.id n) by lia. apply H, in_seq. lia.
Qed.

Lemma ex_bblock n : 0 ≤ n < 100 → BBLOCK n ex_sb = 45 ∧ n mod BPB = n.
Proof. intros Hn. unfold BBLOCK. change BPB with 8192. rewrite Z.div_small, Z.mod_small by lia. done. Qed.

Lemma ex_bmap_ok : bmap_ok 2 30 ex_sb (disk_block ex_disk).
Proof.
  assert (disk_block ex_disk 45 = ex_map) as E by done. split; cbn [sb_size sb_bmapstart ex_sb]; try lia.
  - intros n Hn. destruct (ex_bblock n Hn) as [-> _]. unfold log_area. lia.
  - intros n Hn. destruct (ex_bblock n Hn) as [-> _]. by rewrite E.
  - intros n Hn Hr. unfold used. destruct (ex_bblock n Hn) as [-> ->]. rewrite E. apply ex_used.
    destruct Hr as [->|[Hr|(m & Hm & ->)]]; [lia|unfold log_area in Hr; lia|]. destruct (ex_bblock m Hm) as [-> _]. lia.
Qed.

Lemma balloc_correct_witness :
  bmap_ok 2 30 ex_sb (disk_block ex_disk) ∧
  wp (λ _, False) (λ _, True) idle (λ n _, n = 46) (@balloc ram_disk 0%nat 1 ex_txn).
Proof.
  split; [exact ex_bmap_ok|].
  eapply wp_mono; [|exact (@balloc_correct ram_disk 0%nat 0 1 2 30 ex_sb ex_txn _ _ 3 []
    eq_refl ex_bmap_ok ltac:(lia) (ex_txn_view 5 ltac:(lia)))].
  assert (used ex_sb (disk_block ex_disk) 46 = false) as H46 by by vm_compute.
  intros n s' [((Hn & Hu & Hf) & _)|(_ & Hall & _)].
  - destruct (Z.lt_trichotomy n 46) as [Hlt|[Heq|Hgt]]; [|done|].
    + unfold used in Hu. destruct (ex_bblock n) as [E1 E2]; [cbn in Hn; lia|]. rewrite E1, E2 in Hu.
      change (disk_block ex_disk 45) with ex_map in Hu. rewrite ex_used in Hu by lia. discriminate.
    + rewrite (Hf 46) in H46 by lia. discriminate.
  - rewrite (Hall 46) in H46 by (cbn; lia). discriminate.
Defined.

Lemma bfree_correct_witness :
  wp (λ x, x = Panics "freeing free block" ∧ used ex_sb (disk_block ex_disk) 40 = false) (λ _, True) idle
    (λ _ s', ∃ C', tview 0 1 2 30 s' C' (disk_block ex_disk) ∅ ∅ 0 [] ∧ used ex_sb C' 40 = false)
    (@bfree ram_disk 0%nat 1 40 ex_txn).
Proof.
  eapply wp_mono; [|exact (@bfree_correct ram_disk 0%nat 0 1 2 30 ex_sb ex_txn _ _ 0 [] 40
    eq_refl ex_bmap_ok ltac:(lia) ltac:(cbn; lia) (ex_txn_view 1 ltac:(lia)))].
  intros _ s' (_ & C' & Ht & _ & Hu). exists C'. split; [exact Ht|]. by rewrite Hu by (cbn; lia).
Defined.
