(* ===== verification/FsData.v ===== *)
(** File contents: [bmap], [readi] and [writei] on an inode whose blocks are
    its own.  A file is the function [fdata] from offsets to bytes; reading gives
    its bytes, writing replaces them, and blocks of other files never change. *)

From S2P Require Import Prelude Machine Str Types Proc ProcSpec Rely Sleeplock Bio BioSpec BioContent BioRep Bytes Log LogSpec LogRun LogView Fs Dir FsFormat FsBlock.

(** ** The blocks of a file *)

(** Slot [j] of an inode: 0 to 11 are the direct blocks, 12 is the indirect
    block and 13 to 268 are the entries of the indirect block. *)
Definition slot (C : Z → list Z) (x : inode) (j : nat) : Z :=
  if decide (j < 13)%nat then addr_of j x
  else if addr_of 12 x =? 0 then 0 else get32 (4 * (j - 13)) (C (addr_of 12 x)).

(** The slot of block [bn] of the file. *)
Definition slot_of (bn : Z) : nat := if bn <? 12 then Z.to_nat bn else Z.to_nat (bn + 1).

(** The byte at an offset; a block that is not there reads as zeroes. *)
Definition fdata (C : Z → list Z) (x : inode) (k : Z) : Z :=
  let a := slot C x (slot_of (k / 1024)) in
  if a =? 0 then 0 else default 0 (C a !! Z.to_nat (k mod 1024)).
Definition file_bytes (C : Z → list Z) (x : inode) (off : Z) (n : nat) : list Z :=
  (λ j : nat, fdata C x (off + j)) <$> seq 0 n.

Section data.
Context `{DK : Disk} `{W : Waits}.
Variables (i : nat) (dev ls sz : Z) (sb : superblock).
Abbreviation tview := (tview i dev ls sz).

Definition inode_blk (b : Z) : Prop := ∃ m, 0 ≤ m < sb_ninodes sb ∧ b = IBLOCK m sb.

(** The metadata: the free map, and the blocks with inodes, which are marked in
    use and lie outside the log and the free map. *)
Record fs_ok (C : Z → list Z) : Prop := {
  fk_map : bmap_ok ls sz sb C;
  fk_start : 0 ≤ sb_inodestart sb ∧ sb_inodestart sb + sb_ninodes sb < 2 ^ 32;
  fk_used b : inode_blk b → used sb C b = true;
  fk_range b : inode_blk b → 0 ≤ b < sb_size sb;
  fk_log b : inode_blk b → ¬ log_area ls sz b;
  fk_sep b m : inode_blk b → 0 ≤ m < sb_size sb → b ≠ BBLOCK m sb;
  fk_len b : inode_blk b → length (C b) = 1024%nat }.

(** A block that may belong to a file. *)
Record data_blk (n : Z) : Prop := {
  db_range : 0 < n < sb_size sb;
  db_log : ¬ log_area ls sz n;
  db_map m : 0 ≤ m < sb_size sb → n ≠ BBLOCK m sb;
  db_ino : ¬ inode_blk n }.

Record file_ok (C : Z → list Z) (x : inode) : Prop := {
  fo_dev : i_dev x = dev;
  fo_len : length (i_addrs x) = 13%nat;
  fo_slot j : (j < 269)%nat → slot C x j ≠ 0 →
    data_blk (slot C x j) ∧ used sb C (slot C x j) = true ∧ length (C (slot C x j)) = 1024%nat;
  fo_inj j k : (j < 269)%nat → (k < 269)%nat → slot C x j = slot C x k → slot C x j ≠ 0 → j = k }.

Lemma slot_of_lt bn : 0 ≤ bn < 268 → (slot_of bn < 269)%nat ∧ slot_of bn ≠ 12%nat.
Proof. intros H. unfold slot_of. destruct (Z.ltb_spec bn 12); lia. Qed.

Lemma slot_of_inj a b : 0 ≤ a → 0 ≤ b → slot_of a = slot_of b → a = b.
Proof. unfold slot_of. destruct (Z.ltb_spec a 12), (Z.ltb_spec b 12); lia. Qed.

(** Files other than [x] that own no block of [x]. *)
Definition disjoint (C : Z → list Z) (x y : inode) : Prop :=
  ∀ j k, (j < 269)%nat → (k < 269)%nat → slot C x j = slot C y k → slot C x j = 0.

(** What an operation on the file of [x] may do to the blocks. *)
Record file_step (C : Z → list Z) (x : inode) (C' : Z → list Z) (x' : inode) : Prop := {
  fs_file : file_ok C' x';
  fs_meta : fs_ok C';
  fs_keep b : data_blk b → used sb C b = true → (∀ j, (j < 269)%nat → slot C x j ≠ b) → C' b = C b;
  fs_mono b : 0 ≤ b < sb_size sb → used sb C b = true → used sb C' b = true;
  fs_new j : (j < 269)%nat → slot C x j = 0 → slot C' x' j ≠ 0 → used sb C (slot C' x' j) = false;
  fs_slots j : (j < 269)%nat → slot C x j ≠ 0 → slot C' x' j = slot C x j;
  fs_iblk b : inode_blk b → C' b = C b }.

Lemma file_step_refl C x : fs_ok C → file_ok C x → file_step C x C x.
Proof. intros H1 H2. split; try done. Qed.

Lemma file_step_trans C x C1 x1 C2 x2 :
  file_step C x C1 x1 → file_step C1 x1 C2 x2 → file_step C x C2 x2.
Proof.
  intros H1 H2. split; [apply H2|apply H2|..].
  - intros b Hd Hu Hno. rewrite (fs_keep _ _ _ _ H2); [by apply (fs_keep _ _ _ _ H1)|done| |].
    + apply (fs_mono _ _ _ _ H1); [pose proof (db_range _ Hd); lia|done].
    + intros j Hj <-. destruct (decide (slot C x j = 0)) as [E|E].
      * rewrite (fs_new _ _ _ _ H1 j) in Hu; [done..|]. pose proof (db_range _ Hd). lia.
      * rewrite (fs_slots _ _ _ _ H1 j) in Hno by done. by apply (Hno j).
  - intros b Hb Hu. by apply (fs_mono _ _ _ _ H2), (fs_mono _ _ _ _ H1).
  - intros j Hj Hz Hnz. destruct (decide (slot C1 x1 j = 0)) as [E|E].
    + pose proof (fs_new _ _ _ _ H2 j Hj E Hnz) as Hu. destruct (used sb C (slot C2 x2 j)) eqn:Hc; [|done].
      rewrite (fs_mono _ _ _ _ H1) in Hu; [done| |done]. destruct (fo_slot _ _ (fs_file _ _ _ _ H2) j Hj Hnz) as ([] & _). lia.
    + rewrite (fs_slots _ _ _ _ H2 j Hj E). by apply (fs_new _ _ _ _ H1).
  - intros j Hj Hnz. rewrite (fs_slots _ _ _ _ H2); rewrite ?(fs_slots _ _ _ _ H1); done.
  - intros b Hb. rewrite (fs_iblk _ _ _ _ H2) by done. by apply (fs_iblk _ _ _ _ H1).
Qed.

(** ** Allocation of a slot *)

Lemma addr_of_set j k a x : length (i_addrs x) = 13%nat → (j < 13)%nat →
  addr_of k (set_addr j a x) = if decide (k = j) then a else addr_of k x.
Proof.
  intros Hl Hj. unfold addr_of, set_addr. cbn. case_decide as Hk.
  - subst. rewrite list_lookup_insert_eq by lia. done.
  - by rewrite list_lookup_insert_ne.
Qed.

Lemma ballocated_keep C n b : b ≠ n → b ≠ BBLOCK n sb → ballocated sb C n b = C b.
Proof. intros H1 H2. unfold ballocated. by rewrite !upd_ne. Qed.

(** A new block is not a block of the file, nor metadata. *)
Lemma first_free_new C x n :
  fs_ok C → file_ok C x → first_free sb C n →
  data_blk n ∧ (∀ j, (j < 269)%nat → slot C x j ≠ 0 → slot C x j ≠ n).
Proof.
  intros Hok Hfo Hff. destruct (first_free_data ls sz sb C n (fk_map _ Hok) Hff) as (Hn0 & Hnl & Hnb).
  destruct Hff as (Hr & Hu & _). split.
  - split; [lia|done|done|]. intros Hi. rewrite (fk_used _ Hok) in Hu by done. done.
  - intros j Hj Hnz <-. destruct (fo_slot _ _ Hfo j Hj Hnz) as (_ & Hu' & _). congruence.
Qed.

(** Content changes of blocks outside the free map. *)
Lemma used_ext C C' : (∀ m, 0 ≤ m < sb_size sb → C' (BBLOCK m sb) = C (BBLOCK m sb)) →
  ∀ m, 0 ≤ m < sb_size sb → used sb C' m = used sb C m.
Proof. intros H m Hm. unfold used. by rewrite H. Qed.

Lemma fs_ok_update C C' :
  fs_ok C → (∀ m, 0 ≤ m < sb_size sb → length (C' (BBLOCK m sb)) = 1024%nat) →
  (∀ b, inode_blk b → length (C' b) = 1024%nat) →
  (∀ m, 0 ≤ m < sb_size sb → used sb C m = true → used sb C' m = true) → fs_ok C'.
Proof.
  intros [] Hl Hli Hu. split; try done.
  - apply (bmap_ok_update ls sz sb C); auto.
  - intros b Hb. apply Hu; auto.
Qed.

Lemma ballocated_len C n b : length (C b) = 1024%nat → length (ballocated sb C n b) = 1024%nat.
Proof.
  intros H. unfold ballocated, upd. case_decide; [done|]. case_decide; [|done]. subst. by rewrite length_or_bit.
Qed.

Lemma fs_ok_balloc C n : fs_ok C → first_free sb C n → fs_ok (ballocated sb C n).
Proof.
  intros Hok Hff. apply (fs_ok_update C); [done| | |].
  - intros m Hm. apply ballocated_len. by apply (bo_len _ _ _ _ (fk_map _ Hok)).
  - intros b Hb. apply ballocated_len. by apply (fk_len _ Hok).
  - intros m Hm Hu. rewrite (ballocated_used ls sz) by (done || apply Hok). by case_decide.
Qed.

(** The new block [n] becomes slot [j0]; the indirect block may be updated. *)
Lemma file_step_alloc C x n j0 C2 x2 :
  fs_ok C → file_ok C x → first_free sb C n → (j0 < 269)%nat → slot C x j0 = 0 →
  i_dev x2 = dev → length (i_addrs x2) = 13%nat →
  slot C2 x2 j0 = n → (∀ j, (j < 269)%nat → j ≠ j0 → slot C2 x2 j = slot C x j) →
  (∀ b, (slot C2 x2 12 ≠ 0 → b ≠ slot C2 x2 12) → C2 b = ballocated sb C n b) →
  (slot C2 x2 12 ≠ 0 → length (C2 (slot C2 x2 12)) = 1024%nat) →
  file_step C x C2 x2.
Proof.
  intros Hok Hfo Hff Hj0 Hz Hdev Hlen Hs0 Hs HC Hl12.
  destruct (first_free_new C x n Hok Hfo Hff) as [Hdn Hnew].
  assert (slot C2 x2 12 ≠ 0 → data_blk (slot C2 x2 12) ∧ used sb C (slot C2 x2 12) = true ∨ slot C2 x2 12 = n) as H12.
  { intros Hnz. destruct (decide (12%nat = j0)) as [<-|Hne]; [by right|left]. rewrite Hs in * by lia.
    destruct (fo_slot _ _ Hfo 12 ltac:(lia) Hnz) as (? & ? & _). done. }
  assert (∀ b, (slot C2 x2 12 ≠ 0 → b ≠ slot C2 x2 12) → b ≠ n → b ≠ BBLOCK n sb → C2 b = C b) as HC'.
  { intros b Hb Hbn Hbm. rewrite HC by done. by apply ballocated_keep. }
  assert (∀ m, 0 ≤ m < sb_size sb → used sb C2 m = if decide (m = n) then true else used sb C m) as Hu.
  { intros m Hm. rewrite <- (ballocated_used ls sz sb C n (fk_map _ Hok) Hff m Hm). apply used_ext; [|done].
    intros m' Hm'. apply HC. intros Hnz E. destruct (H12 Hnz) as [[Hd _]|En].
    - by apply (db_map _ Hd m').
    - apply (db_map _ Hdn m'); [done|congruence]. }
  assert (∀ b, length (C b) = 1024%nat → length (C2 b) = 1024%nat) as Hl.
  { intros b Hb. destruct (decide (slot C2 x2 12 ≠ 0 ∧ b = slot C2 x2 12)) as [[Hnz ->]|Hne]; [by apply Hl12|].
    rewrite HC by tauto. by apply ballocated_len. }
  assert (0 ≤ n < sb_size sb) as Hnr by apply Hff.
  split; [split; [done|done|..]|..].
  - intros j Hj Hnz. destruct (decide (j = j0)) as [->|Hne].
    + rewrite Hs0. split_and!; [done|by rewrite Hu, decide_True|].
      destruct (decide (slot C2 x2 12 = n)) as [E|E].
      * rewrite <- E. apply Hl12. rewrite E. pose proof (db_range _ Hdn). lia.
      * rewrite HC by congruence. unfold ballocated. by rewrite upd_eq.
    + rewrite Hs in * by done. destruct (fo_slot _ _ Hfo j Hj Hnz) as (Hd & Hus & Hlj).
      split_and!; [done| |by apply Hl]. rewrite Hu by (pose proof (db_range _ Hd); lia). by case_decide.
  - intros j k Hj Hk. destruct (decide (j = j0)) as [->|Hne], (decide (k = j0)) as [->|Hne']; [done|..].
    + rewrite Hs0, Hs by done. intros E Hnz. exfalso. apply (Hnew k Hk); congruence.
    + rewrite Hs0, Hs by done. intros E Hnz. exfalso. apply (Hnew j Hj); congruence.
    + rewrite !Hs by done. by apply (fo_inj _ _ Hfo).
  - apply (fs_ok_update C); [done|intros m Hm; apply Hl, (bo_len _ _ _ _ (fk_map _ Hok) m Hm)|
      intros b Hb; by apply Hl, (fk_len _ Hok)|]. intros m Hm Hum. rewrite Hu by done. by case_decide.
  - intros b Hd Hus Hno. assert (b ≠ n) as Hbn by (intros ->; destruct Hff as (_ & ? & _); congruence).
    apply HC'; [|done|by apply (db_map _ Hd)]. intros Hnz ->. destruct (decide (12%nat = j0)) as [<-|Hne]; [congruence|].
    apply (Hno 12%nat); [lia|]. by rewrite Hs by lia.
  - intros m Hm Hum. rewrite Hu by done. by case_decide.
  - intros j Hj Hjz Hnz. destruct (decide (j = j0)) as [->|Hne]; [rewrite Hs0; apply Hff|]. by rewrite Hs in Hnz.
  - intros j Hj Hnz. apply Hs; [done|]. by intros ->.
  - intros b Hb. apply HC'; [|by intros ->; apply (db_ino _ Hdn)|by apply (fk_sep _ Hok)].
    intros Hnz ->. destruct (H12 Hnz) as [[Hd _]|E]; [by apply (db_ino _ Hd)|]. apply (db_ino _ Hdn). by rewrite <- E.
Qed.
End data.
