(* ===== verification/FsFile.v ===== *)
(** [bmap], [readi] and [writei] run on the file contents of FsData. *)

From S2P Require Import Prelude Machine Str Types Proc ProcSpec Rely Sleeplock Bio BioSpec BioContent BioRep Bytes Log LogSpec LogRun LogView Fs Dir FsFormat FsBlock FsData.

(** ** Reading *)

(** The blocks of the first [n] bytes are there. *)
Definition mapped (C : Z → list Z) (x : inode) (n : Z) : Prop :=
  ∀ bn, 0 ≤ bn → bn * 1024 < n → slot C x (slot_of bn) ≠ 0 ∧ length (C (slot C x (slot_of bn))) = 1024%nat.

Lemma inode_at_Some s ip x : k_inodes s !! ip = Some x → inode_at s ip = x.
Proof. unfold inode_at. by intros ->. Qed.

Lemma slot_direct C x bn : 0 ≤ bn < 12 → slot C x (slot_of bn) = addr_of (Z.to_nat bn) x.
Proof. intros H. unfold slot, slot_of. rewrite (proj2 (Z.ltb_lt bn 12)), decide_True by lia. done. Qed.

Lemma slot_indirect C x bn : 12 ≤ bn →
  slot C x (slot_of bn) = if addr_of 12 x =? 0 then 0 else get32 (Z.to_nat (4 * (bn - 12))) (C (addr_of 12 x)).
Proof.
  intros H. unfold slot, slot_of. rewrite (proj2 (Z.ltb_ge bn 12)), decide_False by lia. case_match; [done|]. f_equal. lia.
Qed.

(** The bytes of a block, as bytes of the file. *)
Lemma block_bytes C x off (m : nat) :
  0 ≤ off → m ≤ 1024 - off mod 1024 → slot C x (slot_of (off / 1024)) ≠ 0 →
  length (C (slot C x (slot_of (off / 1024)))) = 1024%nat →
  take m (drop (Z.to_nat (off mod 1024)) (C (slot C x (slot_of (off / 1024))))) = file_bytes C x off m.
Proof.
  intros Hoff Hm Hnz Hl. unfold file_bytes. pose proof (Z.mod_pos_bound off 1024).
  apply list_eq. intros j. rewrite lookup_take_drop, list_lookup_fmap. case_decide as Hj.
  - rewrite lookup_seq_lt by done. cbn [fmap option_fmap option_map]. unfold fdata.
    replace ((off + (0 + j)%nat) / 1024) with (off / 1024) by dlia.
    replace ((off + (0 + j)%nat) mod 1024) with (off mod 1024 + j) by dlia.
    rewrite (proj2 (Z.eqb_neq _ 0)) by done. rewrite Z2Nat.inj_add, Nat2Z.id by lia.
    destruct (lookup_lt_is_Some_2 (C (slot C x (slot_of (off / 1024)))) (Z.to_nat (off mod 1024) + j)%nat) as [v Hv]; [lia|].
    by rewrite Hv.
  - by rewrite lookup_seq_ge by lia.
Qed.

Lemma file_bytes_app C x off (m k : nat) : file_bytes C x off m ++ file_bytes C x (off + m) k = file_bytes C x off (m + k).
Proof.
  unfold file_bytes. rewrite seq_app, fmap_app. f_equal. cbn. rewrite <- (fmap_add_seq m 0 k) at 1 || idtac.
  apply list_eq. intros j. rewrite !list_lookup_fmap. destruct (decide (j < k)%nat).
  - rewrite !lookup_seq_lt by done. cbn. f_equal. f_equal. lia.
  - by rewrite !lookup_seq_ge by lia.
Qed.

Section read.
Context `{DK : Disk} `{W : Waits}.
Variables (E : stop → Prop) (i : nat) (dev : Z).
Abbreviation wpi := (wp E (λ _, True) idle).

(** The cache with no buffer held and every block that is not pinned as on the
    disk: the view of a reader, inside and outside transactions. *)
Record clean (s : kstate) (C D : Z → list Z) (P : gset Z) (w : list (Z * list Z)) : Prop := {
  cl_rep : brep i dev s C D P ∅ w;
  cl_room : (size P < NBUF)%nat;
  cl_disk n : n ∈ P ∨ C n = D n }.

(** [bread], a use of the data and [brelse] *)
Lemma clean_bread {A} s C D P w n (f : nat → K A) Q :
  clean s C D P w →
  (∀ b s', bframe s s' → brep i dev s' C D P (<[b := n]> ∅) w → b_data (buf_at s' b) = C n → wpi Q (f b s')) →
  wpi Q ((b ← bread dev n; f b) s).
Proof.
  intros [H1 H2 H3] HQ. apply wp_bind. apply (wp_bread_rep _ i dev s) with (1 := H1); [done|right; rewrite map_size_empty; lia|].
  intros b s1 _ Hf Hb. apply HQ; [done|done|]. eapply (brep_data i dev); [exact Hb|by rewrite lookup_insert_eq].
Qed.

Lemma clean_brelse {A} s0 s C D P w b n (k : K A) Q :
  clean s0 C D P w → brep i dev s C D P (<[b := n]> ∅) w →
  (∀ s', bframe s s' → clean s' C D P w → wpi Q (k s')) →
  wpi Q ((brelse b;; k) s).
Proof.
  intros [_ H2 H3] Hb HQ. apply wp_bind.
  apply (wp_brelse_rep _ i dev s) with (1 := Hb) (2 := lookup_insert_eq _ _ _); [done|].
  intros s' Hf Hb'. rewrite delete_insert_id in Hb' by done. by apply HQ.
Qed.

(** [bmap] of a block that is there changes nothing. *)
Lemma wp_bmap_mapped s C D P w ip x bn Q :
  clean s C D P w → k_inodes s !! ip = Some x → i_dev x = dev → 0 ≤ bn < 268 → slot C x (slot_of bn) ≠ 0 →
  (∀ s', bframe s s' → clean s' C D P w → Q (slot C x (slot_of bn)) s') →
  wpi Q (bmap ip bn s).
Proof.
  intros Hb Hip Hdev Hbn Hnz HQ. unfold bmap. wstep. rewrite (inode_at_Some _ _ _ Hip), Hdev. change NDIRECT with 12.
  destruct (Z.ltb_spec bn 12).
  - rewrite slot_direct in * by lia. rewrite (proj2 (Z.eqb_neq _ 0)) by done. by apply HQ.
  - rewrite slot_indirect in * by lia. cbv zeta. change NINDIRECT with 256. rewrite (proj2 (Z.ltb_lt _ 256)) by lia.
    destruct (Z.eqb_spec (addr_of 12 x) 0) as [|Ha]; [done|]. wstep. rewrite (proj2 (Z.eqb_neq _ 0)) by done.
    apply (clean_bread s C D P w _ _ _ Hb). intros bp s1 Hf1 H1 Hd1. wstep. rewrite Hd1.
    rewrite (proj2 (Z.eqb_neq _ 0)) by done. wstep. apply (clean_brelse s _ C D P w _ _ _ _ Hb H1).
    intros s2 Hf2 H2. apply HQ; [by etrans|done].
Qed.

(** The loop of [readi]; it ends within [fuel] steps. *)
Lemma wp_readi_loop s0 C D P w ip x Q : ∀ (fuel : nat) s off n tot acc dst,
  clean s C D P w → bframe s0 s → k_inodes s !! ip = Some x → i_dev x = dev → mapped C x (off + (n - tot)) →
  0 ≤ off → 0 ≤ tot ≤ n → off + (n - tot) ≤ 268 * 1024 → n < 2 ^ 31 → (tot < n → n - tot + off mod 1024 ≤ 1024 * fuel) →
  (∀ s', bframe s0 s' → clean s' C D P w → Q (n, acc ++ file_bytes C x off (Z.to_nat (n - tot))) s') →
  wpi Q (readi_loop to_object fuel ip dst off n tot acc s).
Proof.
  intros fuel. induction fuel as [|fuel IH]; intros s off n tot acc dst Hb Hf Hip Hdev Hm Ho Ht Hmax Hn Hfuel HQ;
    cbn [readi_loop]; pose proof (Z.mod_pos_bound off 1024) as Hmod.
  { rewrite (proj2 (Z.ltb_ge _ _)) by lia. cbn [wp mret M_ret]. rewrite s32_small by lia.
    replace tot with n by lia. specialize (HQ s Hf Hb). replace (n - tot) with 0 in HQ by lia. by rewrite app_nil_r in HQ. }
  destruct (Z.ltb_spec tot n).
  2:{ cbn [wp mret M_ret]. rewrite s32_small by lia. replace tot with n by lia.
      specialize (HQ s Hf Hb). replace (n - tot) with 0 in HQ by lia. by rewrite app_nil_r in HQ. }
  change BSIZE with 1024. destruct (Hm (off / 1024)) as [Hnz Hlen]; [dlia..|].
  apply wp_bind. apply (wp_bmap_mapped s C D P w ip x); [done..|dlia|done|]. intros s1 Hf1 H1.
  rewrite (proj2 (Z.eqb_neq _ 0)) by done. wstep.
  assert (k_inodes s1 !! ip = Some x) as Hip1 by (by destruct (bframe_get _ _ Hf1) as (_ & _ & -> & _)).
  rewrite (inode_at_Some _ _ _ Hip1), Hdev. apply (clean_bread s1 C D P w _ _ _ H1). intros bp s2 Hf2 H2 Hd2.
  set (m := Z.min (n - tot) (1024 - off mod 1024)). wstep. rewrite Hd2. wstep.
  apply (clean_brelse s1 _ C D P w _ _ _ _ H1 H2). intros s3 Hf3 H3. cbn [fst snd].
  change (0 =? -1) with false. cbv iota. rewrite !u32_small by lia.
  apply IH; [done| |..].
  - do 3 (etrans; [done|]). done.
  - destruct (bframe_get _ _ Hf3) as (_ & _ & -> & _). by destruct (bframe_get _ _ Hf2) as (_ & _ & -> & _).
  - done.
  - by replace (off + m + (n - (tot + m))) with (off + (n - tot)) by lia.
  - lia.
  - lia.
  - lia.
  - lia.
  - subst m. dlia.
  - intros s4 Hf4 H4. specialize (HQ s4 Hf4 H4). rewrite block_bytes, <- app_assoc by (done || lia).
    replace (file_bytes C x (off + m)) with (file_bytes C x (off + Z.to_nat m)) by (f_equal; lia).
    rewrite file_bytes_app. by replace (Z.to_nat m + Z.to_nat (n - (tot + m)))%nat with (Z.to_nat (n - tot)) by lia.
Qed.
End read.

Lemma wp_readi_obj `{DK : Disk} `{W : Waits} E i dev s C D P w ip x off n Q :
  clean i dev s C D P w → k_inodes s !! ip = Some x → i_dev x = dev →
  0 ≤ i_size x ≤ 268 * 1024 → mapped C x (i_size x) → 0 ≤ off ≤ i_size x → 0 ≤ n → off + n < 2 ^ 32 →
  let k := Z.min n (i_size x - off) in
  (∀ s', bframe s s' → clean i dev s' C D P w → Q (k, file_bytes C x off (Z.to_nat k)) s') →
  wp E (λ _, True) idle Q (readi_obj ip off n s).
Proof.
  intros Hb Hip Hdev Hsz Hm Ho Hn Hov k HQ. unfold readi_obj, readi. wstep. rewrite (inode_at_Some _ _ _ Hip), !Z.gtb_ltb.
  rewrite !u32_small, (proj2 (Z.ltb_ge (i_size x) off)), (proj2 (Z.ltb_ge _ off)) by lia. cbn [orb].
  assert ((if i_size x <? off + n then i_size x - off else n) = k) as ->.
  { subst k. destruct (Z.ltb_spec (i_size x) (off + n)); lia. }
  change BSIZE with 1024. apply (wp_readi_loop _ i dev s C D P w ip x); try done; try lia.
  - intros bn Hbn Hlt. apply Hm; lia.
  - intros _. rewrite Z2Nat.id by dlia. dlia.
  - intros s' Hf Hc. rewrite Z.sub_0_r. by apply HQ.
Qed.

(** C34: [readi] into a local object returns the bytes of the file from [off] on, as
    many as asked for and as there are; nothing changes.  An offset past the end,
    or one that overflows with the length, reads nothing. *)
Theorem readi_obj_correct `{DK : Disk} `{W : Waits} i dev s C D P w ip x off n :
  clean i dev s C D P w → k_inodes s !! ip = Some x → i_dev x = dev →
  0 ≤ i_size x ≤ 268 * 1024 → mapped C x (i_size x) → 0 ≤ off < 2 ^ 32 → 0 ≤ n < 2 ^ 32 →
  wp (λ _, False) (λ _, True) idle (λ r s', bframe s s' ∧ clean i dev s' C D P w ∧
      let k := Z.min n (i_size x - off) in
      r = if bool_decide (off ≤ i_size x ∧ off + n < 2 ^ 32) then (k, file_bytes C x off (Z.to_nat k)) else (0, []))
    (readi_obj ip off n s).
Proof.
  intros Hb Hip Hdev Hsz Hm Ho Hn. case_bool_decide as Hc.
  - apply (wp_readi_obj _ i dev s C D P w ip x); try done; lia.
  - unfold readi_obj, readi. wstep. rewrite (inode_at_Some _ _ _ Hip), Z.gtb_ltb.
    destruct (Z.ltb_spec (i_size x) off) as [Hgt|Hle]; cbn [orb]; [by split_and!|].
    assert (u32 (off + n) = off + n - 2 ^ 32) as ->.
    { symmetry. apply (Z.mod_unique_pos _ _ 1); lia. }
    rewrite (proj2 (Z.ltb_lt _ off)) by lia. by split_and!.
Qed.

(** ** Writing *)

(** [s'] is [s] up to the inode table entry [ip], the log and what lies below. *)
Record fframe (ip : nat) (s s' : kstate) : Prop := {
  ff_frame : lframe (set_inodes (k_inodes s') s) s';
  ff_other j : j ≠ ip → k_inodes s' !! j = k_inodes s !! j }.

Lemma lframe_inodes v s s' : lframe s s' → lframe (set_inodes v s) (set_inodes v s').
Proof. intros H. unfold lframe, bframe in *. by apply (idle_inodes _ _ v) in H. Qed.

Lemma lframe_fframe ip s s' : lframe s s' → fframe ip s s'.
Proof. intros H. destruct (lframe_get _ _ H) as (_ & E & _). split; rewrite E; [by destruct s|done]. Qed.

#[global] Instance fframe_preorder ip : PreOrder (fframe ip).
Proof.
  split; [intros s; by apply lframe_fframe|]. intros s1 s2 s3 [H1 O1] [H2 O2]. split.
  - etrans; [|exact H2]. by apply (lframe_inodes (k_inodes s3)) in H1.
  - intros j Hj. by rewrite O2, O1.
Qed.

Lemma fframe_get ip s s' : fframe ip s s' →
  k_sb s' = k_sb s ∧ k_cur s' = k_cur s ∧ k_mem s' = k_mem s ∧ k_kmem s' = k_kmem s.
Proof. intros [H _]. by destruct (lframe_get _ _ H) as (-> & _ & -> & -> & ->). Qed.

Lemma fframe_seti ip f s : fframe ip s (upd_inode ip f s).
Proof.
  split; [by destruct s|]. intros j Hj. unfold upd_inode. cbn. by rewrite list_lookup_alter_ne.
Qed.

Section write.
Context `{DK : Disk} `{W : Waits}.
Variables (E : stop → Prop) (i : nat) (dev ls sz : Z) (sb : superblock).
Abbreviation wpi := (wp E (λ _, True) idle).
Abbreviation tview := (tview i dev ls sz).
Abbreviation fs_ok := (fs_ok ls sz sb).
Abbreviation file_ok := (file_ok dev ls sz sb).
Abbreviation file_step := (file_step dev ls sz sb).

(** The open transaction of thread [i], seen by code that works on inode [ip]. *)
Record fview (s : kstate) (C D : Z → list Z) (ip : nat) (x : inode) (H : gmap nat Z) (r : nat)
    (w : list (Z * list Z)) : Prop := {
  fv_tv : tview s C D H ∅ r w;
  fv_dev : 0 ≤ dev < 2 ^ 32;
  fv_sb : k_sb s = sb;
  fv_ip : k_inodes s !! ip = Some x;
  fv_ok : fs_ok C;
  fv_file : file_ok C x }.

(** The file gets blocks but no data. *)
Record grows (C : Z → list Z) (x : inode) (C' : Z → list Z) (x' : inode) : Prop := {
  gr_step : file_step C x C' x';
  gr_ino : x' = set_i_addrs (i_addrs x') x;
  gr_data k : 0 ≤ k < 268 * 1024 → fdata C' x' k = fdata C x k }.

Lemma grows_refl C x : fs_ok C → file_ok C x → grows C x C x.
Proof. intros H1 H2. split; [by apply file_step_refl|by destruct x|done]. Qed.

Lemma grows_trans C x C1 x1 C2 x2 : grows C x C1 x1 → grows C1 x1 C2 x2 → grows C x C2 x2.
Proof.
  intros [H1 E1 D1] [H2 E2 D2]. split; [by eapply file_step_trans| |].
  - rewrite E2. cbn. by rewrite E1.
  - intros k Hk. by rewrite D2, D1.
Qed.

Lemma fview_lframe s s' C C' D ip x H H' r r' w :
  fview s C D ip x H r w → lframe s s' → tview s' C' D H' ∅ r' w → fs_ok C' → file_ok C' x → fview s' C' D ip x H' r' w.
Proof.
  intros [] Hf Ht Hok Hfo. destruct (lframe_get _ _ Hf) as (Es & Ei & _). split; try done; congruence.
Qed.

(** A new inode record in the table. *)
Lemma fview_seti s C D ip x x' C' H r w f :
  fview s C D ip x H r w → f x = x' → tview s C' D H ∅ r w → fs_ok C' → file_ok C' x' →
  fview (upd_inode ip f s) C' D ip x' H r w.
Proof.
  intros [] Ef Ht Hok Hfo. split; try done.
  - eapply tview_frame; [..|exact Ht]; try done. by destruct (tview_runs _ _ _ _ _ _ _ _ _ _ _ Ht).
  - cbn. by rewrite list_lookup_alter_eq, fv_ip0, <- Ef.
Qed.

Lemma fdata_alloc C x n j0 C2 x2 :
  fs_ok C → file_ok C x → first_free sb C n → (j0 < 269)%nat → slot C x j0 = 0 →
  slot C2 x2 j0 = n → (∀ j, (j < 269)%nat → j ≠ j0 → slot C2 x2 j = slot C x j) →
  (∀ b, (slot C2 x2 12 ≠ 0 → b ≠ slot C2 x2 12) → C2 b = ballocated sb C n b) →
  file_ok C2 x2 → ∀ k, 0 ≤ k < 268 * 1024 → fdata C2 x2 k = fdata C x k.
Proof.
  intros Hok Hfo Hff Hj0 Hz Hs0 Hs HC Hfo2 k Hk.
  destruct (first_free_new dev ls sz sb C x n Hok Hfo Hff) as [Hdn Hnew].
  destruct (slot_of_lt (k / 1024)) as [Hj H12]; [dlia|]. unfold fdata. set (j := slot_of (k / 1024)) in *.
  assert (slot C2 x2 j ≠ 0 → C2 (slot C2 x2 j) = ballocated sb C n (slot C2 x2 j)) as Hd.
  { intros Hnz. apply HC. intros _ Eq. apply H12, (fo_inj _ _ _ _ _ _ Hfo2); [done|lia|done|done]. }
  destruct (decide (j = j0)) as [Ej|Hne].
  - rewrite Ej in *. rewrite Hz, Hs0 in *. pose proof (db_range _ _ _ _ Hdn). rewrite (proj2 (Z.eqb_neq n 0)) by lia.
    rewrite Hd by lia. unfold ballocated. rewrite upd_eq, lookup_replicate_2; [done|]. dlia.
  - rewrite Hs in * by done. destruct (Z.eqb_spec (slot C x j) 0); [done|]. rewrite Hd by done.
    rewrite ballocated_keep; [done|by apply Hnew|]. destruct (fo_slot _ _ _ _ _ _ Hfo j Hj) as (Hb & _); [done|].
    apply (db_map _ _ _ _ Hb). apply Hff.
Qed.

Lemma grows_alloc C x n j0 C2 x2 :
  fs_ok C → file_ok C x → first_free sb C n → (j0 < 269)%nat → slot C x j0 = 0 →
  x2 = set_i_addrs (i_addrs x2) x → length (i_addrs x2) = 13%nat →
  slot C2 x2 j0 = n → (∀ j, (j < 269)%nat → j ≠ j0 → slot C2 x2 j = slot C x j) →
  (∀ b, (slot C2 x2 12 ≠ 0 → b ≠ slot C2 x2 12) → C2 b = ballocated sb C n b) →
  (slot C2 x2 12 ≠ 0 → length (C2 (slot C2 x2 12)) = 1024%nat) →
  grows C x C2 x2.
Proof.
  intros Hok Hfo Hff Hj0 Hz Ex Hlen Hs0 Hs HC Hl12.
  assert (file_step C x C2 x2) as Hst.
  { apply (file_step_alloc dev ls sz sb C x n j0); try done. rewrite Ex. apply (fo_dev _ _ _ _ _ _ Hfo). }
  split; [done|done|]. apply (fdata_alloc C x n j0); try done. apply Hst.
Qed.

(** [balloc] for a file whose indirect block may be held. *)
Lemma wp_balloc s C D ip x H r w Q :
  fview s C D ip x H (S (S r)) w → (size H ≤ r)%nat →
  (∀ m c, H !! c = Some m → data_blk ls sz sb m ∧ used sb C m = true) →
  (∀ n s', first_free sb C n → lframe s s' → tview s' (ballocated sb C n) D H ∅ r w → Q n s') →
  (∀ s', (∀ m, 0 ≤ m < sb_size sb → used sb C m = true) → lframe s s' → fview s' C D ip x H (S (S r)) w → Q 0 s') →
  wpi Q (balloc dev s).
Proof.
  intros Hv Hs Hh HQ HQ0. destruct (Hv). unfold balloc. wstep. rewrite fv_sb0. pose proof (bo_size _ _ _ _ (fk_map _ _ _ _ fv_ok0)).
  apply (wp_balloc_loop _ i dev ls sz sb s C D H r w); try done; try lia.
  - apply fv_ok0.
  - intros m c _ Hm. by apply (Hh m c).
  - intros m c Hm Hc. destruct (Hh _ _ Hc) as [Hd _]. by apply (db_map _ _ _ _ Hd m).
  - rewrite Z2Nat.id by (change BPB with 8192; dlia). change BPB with 8192. dlia.
  - intros s' Hall Hf Ht. apply HQ0; [done|done|]. by eapply fview_lframe.
Qed.

Lemma get32_zero o : get32 o (replicate 1024 0) = 0.
Proof.
  unfold get32, get_le. rewrite drop_replicate, take_replicate.
  assert (∀ k, le_combine (replicate k 0) = 0) as Hz; [|apply Hz].
  intros k. induction k as [|k IH]; [done|]. cbn [replicate le_combine]. by rewrite IH.
Qed.

Lemma slot_lt C x j : (j < 13)%nat → slot C x j = addr_of j x.
Proof. intros H. unfold slot. by rewrite decide_True. Qed.
Lemma slot_ge C x j : (13 ≤ j)%nat →
  slot C x j = if addr_of 12 x =? 0 then 0 else get32 (4 * (j - 13)) (C (addr_of 12 x)).
Proof. intros H. unfold slot. by rewrite decide_False by lia. Qed.

(** A block for one of the 13 addresses of the inode. *)
Lemma grows_addr C x n j0 :
  fs_ok C → file_ok C x → first_free sb C n → (j0 < 13)%nat → slot C x j0 = 0 →
  grows C x (ballocated sb C n) (set_addr j0 n x) ∧ slot (ballocated sb C n) (set_addr j0 n x) j0 = n.
Proof.
  intros Hok Hfo Hff Hj0 Hz. pose proof (fo_len _ _ _ _ _ _ Hfo) as Hlen.
  destruct (first_free_new dev ls sz sb C x n Hok Hfo Hff) as [Hdn Hnew]. pose proof (db_range _ _ _ _ Hdn) as Hn.
  assert (slot (ballocated sb C n) (set_addr j0 n x) j0 = n) as Hs0.
  { rewrite slot_lt, addr_of_set by lia. by rewrite decide_True. }
  assert (addr_of 12 x ≠ 0 → addr_of 12 x ≠ n ∧ ballocated sb C n (addr_of 12 x) = C (addr_of 12 x) ∧ length (C (addr_of 12 x)) = 1024%nat) as H12.
  { intros Hnz. rewrite <- (slot_lt C x 12) in * by lia. pose proof (Hnew 12%nat ltac:(lia) Hnz).
    destruct (fo_slot _ _ _ _ _ _ Hfo 12%nat ltac:(lia) Hnz) as (Hd & _ & Hl).
    split_and!; [done| |done]. apply ballocated_keep; [done|]. apply (db_map _ _ _ _ Hd), Hff. }
  split; [|done]. apply (grows_alloc C x n j0); try done; [lia|cbn; by rewrite length_insert| |].
  - intros j Hj Hne. destruct (decide (j < 13)%nat).
    + rewrite !slot_lt, addr_of_set by lia. by rewrite decide_False.
    + rewrite !slot_ge, addr_of_set by lia. case_decide as E0.
      * subst j0. rewrite slot_lt in Hz by lia. rewrite Hz, (proj2 (Z.eqb_neq n 0)) by lia.
        unfold ballocated. by rewrite upd_eq, get32_zero.
      * destruct (Z.eqb_spec (addr_of 12 x) 0); [done|]. by destruct H12 as (_ & -> & _).
  - rewrite slot_lt, addr_of_set by lia. intros Hnz. case_decide.
    + unfold ballocated. by rewrite upd_eq.
    + by destruct H12 as (_ & -> & ?).
Qed.

Lemma wp_balloc_addr s C D ip x j0 r w Q :
  fview s C D ip x ∅ (S (S r)) w → (j0 < 13)%nat → slot C x j0 = 0 →
  (∀ n s' C' x', n ≠ 0 → grows C x C' x' → slot C' x' j0 = n → fframe ip s s' → fview s' C' D ip x' ∅ r w → Q n s') →
  (∀ s', (∀ m, 0 ≤ m < sb_size sb → used sb C m = true) → fframe ip s s' → fview s' C D ip x ∅ r w → Q 0 s') →
  wpi Q ((addr ← balloc dev; if addr =? 0 then mret 0 else seti ip (set_addr j0 addr);; mret addr) s).
Proof.
  intros Hv Hj Hz HQ HQ0. destruct (Hv). apply wp_bind. apply (wp_balloc s C D ip x ∅ r w); [done|rewrite map_size_empty; lia|done|..].
  - intros n s1 Hff Hf1 H1. destruct (grows_addr C x n j0) as [Hg Hs0]; [done..|].
    destruct (first_free_new dev ls sz sb C x n) as [[] _]; [done..|]. rewrite (proj2 (Z.eqb_neq n 0)) by lia.
    wstep. apply (HQ n _ (ballocated sb C n) (set_addr j0 n x)); [lia|done|done| |].
    + etrans; [by apply lframe_fframe|]. apply fframe_seti.
    + destruct (lframe_get _ _ Hf1) as (Es & Ei & _). split; try done; try congruence; try apply Hg.
      * eapply tview_frame; [..|exact H1]; try done. by destruct (tview_runs _ _ _ _ _ _ _ _ _ _ _ H1).
      * cbn. congruence.
      * cbn. by rewrite list_lookup_alter_eq, Ei, fv_ip0.
  - intros s1 Hall Hf1 []. apply HQ0; [done|by apply lframe_fframe|]. split; try done. by eapply tview_room; [|done]; lia.
Qed.

(** A block for an entry of the indirect block. *)
Lemma grows_entry C x n bn :
  fs_ok C → file_ok C x → first_free sb C n → 12 ≤ bn < 268 → addr_of 12 x ≠ 0 → slot C x (slot_of bn) = 0 →
  let a := addr_of 12 x in
  let C' := upd (ballocated sb C n) a (put32 (Z.to_nat (4 * (bn - 12))) n (ballocated sb C n a)) in
  grows C x C' x ∧ slot C' x (slot_of bn) = n.
Proof.
  intros Hok Hfo Hff Hbn Hnz Hz a C'. destruct (slot_of_lt bn) as [Hj0 Hj12]; [lia|].
  destruct (first_free_new dev ls sz sb C x n Hok Hfo Hff) as [Hdn Hnew]. pose proof (db_range _ _ _ _ Hdn) as Hn.
  pose proof (bo_size _ _ _ _ (fk_map _ _ _ _ Hok)) as Hsize.
  assert (a = slot C x 12) as Ea by (by rewrite slot_lt by lia).
  destruct (fo_slot _ _ _ _ _ _ Hfo 12%nat ltac:(lia) ltac:(by rewrite <- Ea)) as (Hd & _ & Hl). rewrite <- Ea in *.
  assert (a ≠ n) as Han by (rewrite Ea; apply Hnew; [lia|by rewrite <- Ea]).
  assert (ballocated sb C n a = C a) as Eb by (apply ballocated_keep; [done|]; apply (db_map _ _ _ _ Hd), Hff).
  assert (C' a = put32 (Z.to_nat (4 * (bn - 12))) n (C a)) as Ca by (unfold C'; by rewrite upd_eq, Eb).
  assert (slot C' x 12 = a) as E12 by (by rewrite slot_lt by lia).
  assert (∀ j, (13 ≤ j)%nat → slot C' x j = get32 (4 * (j - 13)) (put32 (Z.to_nat (4 * (bn - 12))) n (C a))) as Hge.
  { intros j Hj. rewrite slot_ge by lia. fold a. by rewrite Ca, (proj2 (Z.eqb_neq a 0)). }
  assert (slot_of bn = Z.to_nat (bn + 1)) as Ej by (unfold slot_of; by rewrite (proj2 (Z.ltb_ge bn 12)) by lia).
  assert (slot C' x (slot_of bn) = n) as Hs0.
  { rewrite Hge, Ej by lia. replace (4 * (Z.to_nat (bn + 1) - 13))%nat with (Z.to_nat (4 * (bn - 12))) by lia.
    rewrite get32_put32 by lia. apply u32_small. lia. }
  split; [|done]. apply (grows_alloc C x n (slot_of bn)); try done.
  - by destruct x.
  - apply (fo_len _ _ _ _ _ _ Hfo).
  - intros j Hj Hne. destruct (decide (j < 13)%nat); [by rewrite !slot_lt|].
    rewrite Hge, slot_ge by lia. fold a. rewrite (proj2 (Z.eqb_neq a 0)) by done. apply get_put_other; lia.
  - rewrite E12. intros b Hb. unfold C'. rewrite upd_ne by auto. done.
  - rewrite E12, Ca. intros _. unfold put32. by rewrite length_put_le.
Qed.

(** The second half of [bmap]: the entry of the indirect block. *)
Lemma wp_bmap_entry s C D ip x bn r w Q :
  fview s C D ip x ∅ (S (S (S r))) w → 12 ≤ bn < 268 → addr_of 12 x ≠ 0 →
  (∀ a s' C', grows C x C' x → slot C' x (slot_of bn) = a → (a = 0 → ∀ m, 0 ≤ m < sb_size sb → used sb C' m = true) →
     lframe s s' → fview s' C' D ip x ∅ r w → Q a s') →
  let o := Z.to_nat (4 * (bn - 12)) in
  wpi Q ((bp ← bread dev (addr_of 12 x); b ← getb bp;
          addr ← (if get32 o (b_data b) =? 0 then
                    addr ← balloc dev;
                    (if addr =? 0 then mret tt
                     else setb bp (λ b, set_b_data (put32 o addr (b_data b)) b);; log_write bp);;
                    mret addr
                  else mret (get32 o (b_data b)));
          brelse bp;; mret addr) s).
Proof.
  intros Hv Hbn Hnz HQ o. destruct (Hv). set (a := addr_of 12 x) in *.
  destruct (fo_slot _ _ _ _ _ _ fv_file0 12%nat ltac:(lia) ltac:(by rewrite slot_lt by lia)) as (Hd & Hu & _).
  rewrite slot_lt in Hd, Hu by lia. fold a in Hd, Hu. pose proof (slot_indirect C x bn ltac:(lia)) as Hsl.
  fold a in Hsl. rewrite (proj2 (Z.eqb_neq a 0)) in Hsl by done. fold o in Hsl.
  apply wp_bind. apply (tv_bread i dev ls sz E s) with (1 := fv_tv0); [done|rewrite map_size_empty; lia|].
  intros bp s1 HN Hf1 H1. wstep. apply bframe_lframe in Hf1.
  destruct (tview_data _ _ _ _ _ _ _ _ _ _ _ bp a H1) as [-> _]; [by rewrite lookup_insert_eq|]. rewrite <- Hsl.
  destruct (Z.eqb_spec (slot C x (slot_of bn)) 0) as [Hz|Hsnz].
  - apply wp_bind, wp_bind.
    assert (fview s1 C D ip x (<[bp:=a]> ∅) (S (S (S r))) w) as Hv1 by (by eapply fview_lframe).
    apply (wp_balloc s1 C D ip x (<[bp:=a]> ∅) (S r) w); [done|rewrite map_size_insert, lookup_empty, map_size_empty; lia| |..].
    { intros m c [[<- <-]|[_ []%lookup_empty_Some]]%lookup_insert_Some. done. }
    + intros n s2 Hff Hf2 H2. destruct (grows_entry C x n bn) as [Hg Hs0]; [done..|]. fold a o in Hg, Hs0.
      destruct (first_free_new dev ls sz sb C x n) as [[Hn0 _ _ _] _]; [done..|]. rewrite (proj2 (Z.eqb_neq n 0)) by lia.
      pose proof (tv_set_data i dev ls sz s2 _ D _ ∅ (S r) w bp a (put32 o n) H2 ltac:(by rewrite lookup_insert_eq)) as H3.
      apply wp_bind. wstep. eapply tv_log_write; [exact H3|by rewrite lookup_insert_eq| |apply Hd|].
      { pose proof (db_range _ _ _ _ Hd). pose proof (bo_size _ _ _ _ (fk_map _ _ _ _ fv_ok0)). lia. }
      intros s4 Hf4 H4. assert (({[a]} ∪ ∅) ∖ {[a]} = (∅ : gset Z)) as Hemp by set_solver. rewrite Hemp in H4.
      cbn [wp mret M_ret]. eapply (tv_release _ i dev ls sz s4); [exact H4|exact HN|]. intros s5 Hf5 H5.
      assert (lframe s s5) as Hf.
      { etrans; [exact Hf1|]. etrans; [exact Hf2|]. etrans; [apply bframe_lframe, bframe_upd|].
        etrans; [exact Hf4|by apply bframe_lframe]. }
      eapply HQ; [exact Hg|done|intros; lia|done|]. eapply fview_lframe; [exact Hv|exact Hf|exact H5|apply Hg..].
    + intros s2 Hall Hf2 Hv2. change (0 =? 0) with true. cbv iota. wstep. cbn [wp mret M_ret].
      eapply (tv_release _ i dev ls sz s2); [apply Hv2|exact HN|]. intros s3 Hf3 H3. apply bframe_lframe in Hf3.
      apply (HQ 0 s3 C); [by apply grows_refl|done|done|by do 2 (etrans; [done|])|].
      eapply fview_lframe; [exact Hv|by do 2 (etrans; [done|])|eapply tview_room; [|exact H3]; lia|done..].
  - wstep. eapply (tv_release _ i dev ls sz s1); [exact H1|exact HN|]. intros s2 Hf2 H2. apply bframe_lframe in Hf2.
    eapply HQ; [by apply grows_refl|done|done|by etrans|].
    eapply fview_lframe; [exact Hv|by etrans|eapply tview_room; [|exact H2]; lia|done..].
Qed.

(** [bmap] returns the block of the file at [bn], which it allocates if it is
    not there, with at most five blocks of log; it returns 0 only if the disk is
    full.  The data of the file does not change. *)
Lemma wp_bmap s C D ip x bn r w Q :
  fview s C D ip x ∅ (5 + r) w → 0 ≤ bn < 268 →
  (∀ a s' C' x', grows C x C' x' → slot C' x' (slot_of bn) = a →
     (a = 0 → ∀ m, 0 ≤ m < sb_size sb → used sb C' m = true) →
     fframe ip s s' → fview s' C' D ip x' ∅ r w → Q a s') →
  wpi Q (bmap ip bn s).
Proof.
  intros Hv Hbn HQ. destruct (Hv). unfold bmap. wstep.
  rewrite (inode_at_Some _ _ _ fv_ip0), (fo_dev _ _ _ _ _ _ fv_file0). change NDIRECT with 12.
  destruct (Z.ltb_spec bn 12).
  - rewrite <- (slot_direct C x) by lia. assert (slot_of bn = Z.to_nat bn) as Ej.
    { unfold slot_of. by rewrite (proj2 (Z.ltb_lt bn 12)). }
    destruct (Z.eqb_spec (slot C x (slot_of bn)) 0) as [Hz|Hnz].
    + rewrite Ej in Hz. apply (wp_balloc_addr s C D ip x (Z.to_nat bn) (3 + r) w); [done|lia|done|..].
      * intros n s' C' x' Hn Hg Hs Hf []. eapply HQ; [exact Hg|by rewrite Ej|done|done|].
        split; try done. by eapply tview_room; [|done]; lia.
      * intros s' Hall Hf []. eapply HQ; [by apply grows_refl|by rewrite Ej|done|done|].
        split; try done. by eapply tview_room; [|done]; lia.
    + eapply HQ; [by apply grows_refl|done|done|done|]. split; try done. by eapply tview_room; [|done]; lia.
  - cbv zeta. change NINDIRECT with 256. rewrite (proj2 (Z.ltb_lt _ 256)) by lia. apply wp_bind.
    pose proof (slot_indirect C x bn ltac:(lia)) as Hsl.
    assert (∀ s1 C1 x1, grows C x C1 x1 → fframe ip s s1 → fview s1 C1 D ip x1 ∅ (3 + r) w → addr_of 12 x1 ≠ 0 →
      ∀ a s' C', grows C1 x1 C' x1 → slot C' x1 (slot_of bn) = a → (a = 0 → ∀ m, 0 ≤ m < sb_size sb → used sb C' m = true) →
       lframe s1 s' → fview s' C' D ip x1 ∅ r w → Q a s') as Hdone.
    { intros s1 C1 x1 Hg1 Hf1 Hv1 _ a s' C' Hg Hs Ha Hf Hv'. eapply HQ; [by eapply grows_trans|done|done| |done].
      etrans; [exact Hf1|by apply lframe_fframe]. }
    destruct (Z.eqb_spec (addr_of 12 x) 0) as [Hz|Hnz].
    + apply (wp_balloc_addr s C D ip x 12 (3 + r) w); [done|lia|by rewrite slot_lt by lia|..].
      * intros n s1 C1 x1 Hn Hg Hs Hf Hv1. rewrite (proj2 (Z.eqb_neq n 0)) by done. rewrite slot_lt in Hs by lia. subst n.
        apply (wp_bmap_entry s1 C1 D ip x1 bn r w); [done|lia|done|]. by apply Hdone.
      * intros s1 Hall Hf1 []. change (0 =? 0) with true. cbv iota. eapply HQ; [by apply grows_refl|done|done|done|].
        split; try done. by eapply tview_room; [|done]; lia.
    + cbn [wp mret M_ret]. rewrite (proj2 (Z.eqb_neq _ 0)) by done.
      assert (fview s C D ip x ∅ (3 + r) w) as Hv' by (split; try done; by eapply tview_room; [|done]; lia).
      apply (wp_bmap_entry s C D ip x bn r w); [done|lia|done|]. apply Hdone; [by apply grows_refl|done..].
Qed.
End write.
