(* ===== verification/FsWrite.v ===== *)
(** [writei] and [iupdate]: the bytes of the file, the inode on the disk, and
    the other files. *)

From S2P Require Import Prelude Machine Str Types Proc ProcSpec Rely Sleeplock Bio BioSpec BioContent BioRep Bytes Log LogSpec LogRun LogView Fs Dir FsFormat FsBlock FsData FsFile.

Section frames.
Variables (dev ls sz : Z) (sb : superblock).
Abbreviation fs_ok := (fs_ok ls sz sb).
Abbreviation file_ok := (file_ok dev ls sz sb).
Abbreviation file_step := (file_step dev ls sz sb).
Abbreviation data_blk := (data_blk ls sz sb).

(** A file none of whose blocks changes. *)
Lemma file_ext C C' x :
  file_ok C x → (∀ j, (j < 269)%nat → slot C x j ≠ 0 → C' (slot C x j) = C (slot C x j) ∧ used sb C' (slot C x j) = true) →
  (∀ j, (j < 269)%nat → slot C' x j = slot C x j) ∧ file_ok C' x ∧
  ∀ k, 0 ≤ k < 268 * 1024 → fdata C' x k = fdata C x k.
Proof.
  intros Hfo HC. assert (∀ j, (j < 269)%nat → slot C' x j = slot C x j) as Hs.
  { intros j Hj. destruct (decide (j < 13)%nat); [by rewrite !slot_lt|]. rewrite !slot_ge by lia.
    destruct (Z.eqb_spec (addr_of 12 x) 0) as [|Hnz]; [done|]. rewrite <- (slot_lt C x 12) in * by lia.
    by destruct (HC 12%nat) as [-> _]; [lia|done|]. }
  split_and!; [done| |].
  - split; [apply Hfo|apply Hfo| |].
    + intros j Hj Hnz. rewrite Hs in * by done. destruct (fo_slot _ _ _ _ _ _ Hfo j Hj Hnz) as (? & _ & ?).
      by destruct (HC j Hj Hnz) as [-> ?].
    + intros j k Hj Hk. rewrite !Hs by done. by apply (fo_inj _ _ _ _ _ _ Hfo).
  - intros k Hk. unfold fdata. destruct (slot_of_lt (k / 1024)) as [Hj _]; [dlia|]. rewrite Hs by done.
    case_match; [done|]. destruct (HC _ Hj) as [-> _]; [by apply Z.eqb_neq|done].
Qed.

(** What one file does leaves the other files as they are. *)
Lemma file_step_other C x C' x' y :
  file_step C x C' x' → file_ok C y → disjoint C x y →
  file_ok C' y ∧ disjoint C' x' y ∧ ∀ k, 0 ≤ k < 268 * 1024 → fdata C' y k = fdata C y k.
Proof.
  intros Hst Hy Hdis. destruct (file_ext C C' y Hy) as (Hs & Hok & Hd).
  { intros j Hj Hnz. destruct (fo_slot _ _ _ _ _ _ Hy j Hj Hnz) as (Hb & Hu & _). split.
    - apply (fs_keep _ _ _ _ _ _ _ _ Hst); [done|done|]. intros k Hk Eq. apply Hnz. rewrite <- Eq. by apply (Hdis k j).
    - apply (fs_mono _ _ _ _ _ _ _ _ Hst); [|done]. pose proof (db_range _ _ _ _ Hb). lia. }
  split_and!; [done| |done]. intros j k Hj Hk Eq. rewrite Hs in Eq by done.
  destruct (decide (slot C' x' j = 0)) as [|Hnz']; [done|]. assert (slot C y k ≠ 0) as Hnz by congruence.
  destruct (decide (slot C x j = 0)) as [Hz|Hz].
  - destruct (fo_slot _ _ _ _ _ _ Hy k Hk Hnz) as (_ & Hu & _).
    pose proof (fs_new _ _ _ _ _ _ _ _ Hst j Hj Hz) as Hn. rewrite <- Eq, Hn in Hu; done.
  - exfalso. apply Hz, (Hdis j k); [done..|]. by rewrite <- Eq, (fs_slots _ _ _ _ _ _ _ _ Hst).
Qed.

(** A write to a data block of the file. *)
Lemma file_step_data C x bn v :
  fs_ok C → file_ok C x → 0 ≤ bn < 268 → slot C x (slot_of bn) ≠ 0 → length v = 1024%nat →
  let C' := upd C (slot C x (slot_of bn)) v in
  file_step C x C' x ∧
  (∀ k, 0 ≤ k < 268 * 1024 → fdata C' x k = if decide (k / 1024 = bn) then default 0 (v !! Z.to_nat (k mod 1024)) else fdata C x k) ∧
  slot C' x (slot_of bn) = slot C x (slot_of bn).
Proof.
  intros Hok Hfo Hbn Hnz Hv C'. set (a := slot C x (slot_of bn)) in *. destruct (slot_of_lt bn Hbn) as [Hj H12].
  destruct (fo_slot _ _ _ _ _ _ Hfo _ Hj Hnz) as (Hd & Hu & _). fold a in Hd, Hu.
  assert (∀ j, (j < 269)%nat → j ≠ slot_of bn → slot C x j ≠ 0 → slot C x j ≠ a) as Hne.
  { intros j Hlt Hn Hz Eq. apply Hn. by apply (fo_inj _ _ _ _ _ _ Hfo). }
  assert (∀ j, (j < 269)%nat → slot C' x j = slot C x j) as Hs.
  { intros j Hlt. destruct (decide (j < 13)%nat); [by rewrite !slot_lt|]. rewrite !slot_ge by lia.
    destruct (Z.eqb_spec (addr_of 12 x) 0) as [|Hz]; [done|]. rewrite <- (slot_lt C x 12) in * by lia.
    unfold C'. rewrite upd_ne; [done|]. apply Hne; [lia|done|done]. }
  assert (∀ m, 0 ≤ m < sb_size sb → used sb C' m = used sb C m) as Hus.
  { apply used_ext. intros m Hm. unfold C'. apply upd_ne. intros Eq. by apply (db_map _ _ _ _ Hd m). }
  assert (∀ b, length (C b) = 1024%nat → length (C' b) = 1024%nat) as Hl.
  { intros b Hb. unfold C', upd. by case_decide. }
  split_and!; [split; [split; [apply Hfo|apply Hfo|..]|..]|..].
  - intros j Hlt Hz. rewrite Hs in * by done. destruct (fo_slot _ _ _ _ _ _ Hfo _ Hlt Hz) as (Hd' & Hu' & Hl').
    split_and!; [done| |by apply Hl]. rewrite Hus; [done|]. pose proof (db_range _ _ _ _ Hd'). lia.
  - intros j k Hlt Hk. rewrite !Hs by done. by apply (fo_inj _ _ _ _ _ _ Hfo).
  - apply (fs_ok_update ls sz sb C); [done| | |].
    + intros m Hm. by apply Hl, (bo_len _ _ _ _ (fk_map _ _ _ _ Hok)).
    + intros b Hb. by apply Hl, (fk_len _ _ _ _ Hok).
    + intros m Hm. by rewrite Hus.
  - intros b _ _ Hno. unfold C'. rewrite upd_ne; [done|]. intros ->. by apply (Hno (slot_of bn)).
  - intros b Hb. by rewrite Hus.
  - intros j Hlt Hz Hz'. by rewrite Hs in Hz'.
  - intros j Hlt _. by apply Hs.
  - intros b Hb. unfold C'. rewrite upd_ne; [done|]. intros ->. by apply (db_ino _ _ _ _ Hd).
  - intros k Hk. unfold fdata. destruct (slot_of_lt (k / 1024)) as [Hk1 _]; [dlia|]. rewrite Hs by done. case_decide as Ek.
    + subst bn. fold a. rewrite (proj2 (Z.eqb_neq a 0)) by done. unfold C'. by rewrite upd_eq.
    + destruct (Z.eqb_spec (slot C x (slot_of (k / 1024))) 0) as [|Hz]; [done|]. unfold C'. rewrite upd_ne; [done|].
      apply Hne; [done| |done]. intros Eq. apply Ek, slot_of_inj; [dlia|lia|done].
  - by apply Hs.
Qed.
End frames.

Section writei.
Context `{DK : Disk} `{W : Waits}.
Variables (E : stop → Prop) (i : nat) (dev ls sz : Z) (sb : superblock).
Abbreviation wpi := (wp E (λ _, True) idle).
Abbreviation fview := (fview i dev ls sz sb).
Abbreviation file_step := (file_step dev ls sz sb).

Definition disk_full (C : Z → list Z) : Prop := ∀ m, 0 ≤ m < sb_size sb → used sb C m = true.

(** The bytes of [obj] from [p] on stand at [off] to [off + t]; the rest of the
    file is as it was. *)
Definition wrote (obj : list Z) (p off t : Z) (C : Z → list Z) (x : inode) (C' : Z → list Z) (x' : inode) : Prop :=
  ∀ k, 0 ≤ k < 268 * 1024 →
    fdata C' x' k = if decide (off ≤ k < off + t) then default 0 (obj !! Z.to_nat (p + (k - off))) else fdata C x k.

(** The bytes of one block after a write into it. *)
Lemma wrote_block obj p off m C x :
  fs_ok ls sz sb C → file_ok dev ls sz sb C x → 0 ≤ off → off / 1024 < 268 → 0 ≤ p → 0 ≤ m ≤ 1024 - off mod 1024 → p + m ≤ length obj →
  let a := slot C x (slot_of (off / 1024)) in
  a ≠ 0 →
  let C' := upd C a (list_inserts (Z.to_nat (off mod 1024)) (take (Z.to_nat m) (drop (Z.to_nat p) obj)) (C a)) in
  file_step C x C' x ∧ slot C' x (slot_of (off / 1024)) = a ∧ wrote obj p off m C x C' x.
Proof.
  intros Hok Hfo Ho Hbn Hp Hm Hl a Ha C'. destruct (slot_of_lt (off / 1024)) as [Hj _]; [dlia|].
  destruct (fo_slot _ _ _ _ _ _ Hfo _ Hj Ha) as (_ & _ & Hla). fold a in Hla.
  assert (length (take (Z.to_nat m) (drop (Z.to_nat p) obj)) = Z.to_nat m) as Hlb by (rewrite length_take, length_drop; lia).
  destruct (file_step_data dev ls sz sb C x (off / 1024)
    (list_inserts (Z.to_nat (off mod 1024)) (take (Z.to_nat m) (drop (Z.to_nat p) obj)) (C a))) as (Hst & Hd & Hs);
    [done|done|dlia|done|by rewrite length_inserts|]. fold a in Hst, Hd, Hs. split_and!; [done|done|].
  intros k Hk. unfold C'. rewrite Hd by done. case_decide as Ek.
  - rewrite lookup_inserts_at by (rewrite Hlb, Hla; dlia). rewrite Hlb. unfold fdata. rewrite Ek. fold a.
    rewrite (proj2 (Z.eqb_neq a 0)) by done. case_decide as H1.
    + rewrite decide_True by dlia. rewrite lookup_take_drop, decide_True by dlia. do 2 f_equal. dlia.
    + by rewrite decide_False by dlia.
  - rewrite decide_False by dlia. done.
Qed.

Lemma wrote_app obj p off m t C x C1 x1 C2 x2 : 0 ≤ m → 0 ≤ t →
  wrote obj p off m C x C1 x1 → wrote obj (p + m) (off + m) t C1 x1 C2 x2 → wrote obj p off (m + t) C x C2 x2.
Proof.
  intros Hm Ht H1 H2 k Hk. rewrite H2 by done. case_decide as D2.
  - rewrite decide_True by lia. do 2 f_equal. lia.
  - rewrite H1 by done. repeat case_decide; (done || lia).
Qed.

Lemma wrote_nil obj p off C x C' x' :
  (∀ k, 0 ≤ k < 268 * 1024 → fdata C' x' k = fdata C x k) → wrote obj p off 0 C x C' x'.
Proof. intros H k Hk. rewrite decide_False by lia. by apply H. Qed.

Lemma wp_writei_loop obj D ip w (n : Z) r Q : n = length obj → n < 2 ^ 31 → ∀ (fuel nb : nat) s C x off tot,
  fview s C D ip x ∅ (6 * nb + r) w → 0 ≤ off → 0 ≤ tot ≤ n → off + (n - tot) ≤ 268 * 1024 →
  (tot < n → n - tot + off mod 1024 ≤ 1024 * nb) → (nb ≤ fuel)%nat →
  (∀ t s' C' x', 0 ≤ t ≤ n - tot → (t < n - tot → disk_full C') → file_step C x C' x' → x' = set_i_addrs (i_addrs x') x →
     wrote obj tot off t C x C' x' → (∀ bn, 0 < t → off / 1024 ≤ bn → bn * 1024 < off + t → slot C' x' (slot_of bn) ≠ 0) →
     fframe ip s s' → fview s' C' D ip x' ∅ r w → Q (tot + t, off + t) s') →
  wpi Q (writei_loop (from_object obj) fuel ip tot off n tot s).
Proof.
  intros En Hmax fuel. induction fuel as [|fuel IH]; intros nb s C x off tot Hv Ho Ht Hfit Hnb Hfuel HQ;
    cbn [writei_loop]; pose proof (Z.mod_pos_bound off 1024) as Hmod.
  - rewrite (proj2 (Z.ltb_ge _ _)) by lia. cbn [wp mret M_ret]. destruct (Hv).
    specialize (HQ 0 s C x). rewrite !Z.add_0_r in HQ. apply HQ; [lia|lia|by apply file_step_refl|by destruct x|by apply wrote_nil|lia|done|].
    split; try done. by eapply tview_room; [|done]; lia.
  - destruct (Z.ltb_spec tot n).
    2:{ cbn [wp mret M_ret]. destruct (Hv).
        specialize (HQ 0 s C x). rewrite !Z.add_0_r in HQ. apply HQ; [lia|lia|by apply file_step_refl|by destruct x|by apply wrote_nil|lia|done|].
        split; try done. by eapply tview_room; [|done]; lia. }
    change BSIZE with 1024. destruct nb as [|nb]; [lia|]. apply wp_bind.
    apply (wp_bmap _ i dev ls sz sb s C D ip x _ (1 + (6 * nb + r)) w).
    { by replace (5 + (1 + (6 * nb + r)))%nat with (6 * S nb + r)%nat by lia. }
    { dlia. }
    intros a s1 C1 x1 Hg Ha Hfull Hf1 Hv1. destruct (Z.eqb_spec a 0) as [Hz|Hz].
    { specialize (HQ 0 s1 C1 x1). rewrite !Z.add_0_r in HQ. destruct Hg, (Hv1).
      apply HQ; [lia|exact (λ _, Hfull Hz)|done|done|by apply wrote_nil|lia|done|].
      split; try done. by eapply tview_room; [|done]; lia. }
    wstep. destruct (Hv1). rewrite (inode_at_Some _ _ _ fv_ip), (fo_dev _ _ _ _ _ _ fv_file).
    destruct (slot_of_lt (off / 1024)) as [Hj _]; [dlia|].
    destruct (fo_slot _ _ _ _ _ _ fv_file _ Hj ltac:(by rewrite Ha)) as (Hdb & _). rewrite Ha in Hdb.
    apply wp_bind. apply (tv_bread i dev ls sz E s1) with (1 := fv_tv); [done|rewrite map_size_empty; lia|].
    intros bp s2 HN Hf2 H2. apply bframe_lframe in Hf2. set (m := Z.min (n - tot) (1024 - off mod 1024)). wstep.
    cbn [fst snd]. change (0 =? -1) with false. cbv iota.
    apply (tv_update _ i dev ls sz s2 C1 D ∅ (6 * nb + r) w bp a
      (list_inserts (Z.to_nat (off mod 1024)) (take (Z.to_nat m) (drop (Z.to_nat tot) obj)))); [done|done| |apply Hdb|].
    { pose proof (db_range _ _ _ _ Hdb). pose proof (bo_size _ _ _ _ (fk_map _ _ _ _ fv_ok)). lia. }
    intros s3 Hf3 H3. rewrite !u32_small, u64_small by lia.
    destruct (wrote_block obj tot off m C1 x1) as (Hst & Hs2 & Hw); [done|done|lia|dlia|lia|lia|lia|by rewrite Ha|].
    rewrite Ha in Hst, Hw, Hs2. assert (lframe s1 s3) as Hf13 by (by etrans).
    apply (IH nb s3 (upd C1 a (list_inserts (Z.to_nat (off mod 1024)) (take (Z.to_nat m) (drop (Z.to_nat tot) obj)) (C1 a))) x1); try lia.
    + eapply fview_lframe; [exact Hv1|exact Hf13|exact H3|apply Hst..].
    + subst m. dlia.
    + intros t s' C' x' Ht' Hfu Hst' Ex Hw' Hmp Hf' Hv'. specialize (HQ (m + t) s' C' x'). rewrite !Z.add_assoc in HQ. destruct Hg.
      apply HQ; [lia|intros; apply Hfu; lia| | | | | |done].
      * eapply file_step_trans; [done|]. by eapply file_step_trans.
      * rewrite Ex. cbn. by rewrite gr_ino.
      * eapply wrote_app; [lia|lia| |done]. intros k Hk. rewrite Hw by done. case_decide; [done|]. by apply gr_data.
      * intros bn Hb0 Hb1 Hb2. destruct (decide (bn = off / 1024)) as [->|].
        -- rewrite (fs_slots _ _ _ _ _ _ _ _ Hst'); rewrite ?Hs2; done.
        -- apply Hmp; [subst m; dlia|subst m; dlia|lia].
      * etrans; [exact Hf1|]. etrans; [by apply lframe_fframe|done].
Qed.

(** ** The inode on the disk *)

Definition dinode_of (x : inode) : dinode :=
  mkDinode (i_type x) (i_major x) (i_minor x) (i_nlink x) (i_size x) (i_addrs x).

(** What the inode blocks have for inode [inum]. *)
Definition disk_inode (C : Z → list Z) (inum : Z) : dinode := get_dinode (dinode_off inum) (C (IBLOCK inum sb)).

Definition updated (C : Z → list Z) (x : inode) : Z → list Z :=
  upd C (IBLOCK (i_inum x) sb) (put_dinode (dinode_off (i_inum x)) (dinode_of x) (C (IBLOCK (i_inum x) sb))).

(** A change of an inode block changes no file. *)
Lemma iblock_upd C b v :
  fs_ok ls sz sb C → inode_blk sb b → length v = 1024%nat →
  fs_ok ls sz sb (upd C b v) ∧ (∀ m, 0 ≤ m < sb_size sb → used sb (upd C b v) m = used sb C m) ∧
  ∀ x, file_ok dev ls sz sb C x → (∀ j, (j < 269)%nat → slot (upd C b v) x j = slot C x j) ∧
    file_ok dev ls sz sb (upd C b v) x ∧ ∀ k, 0 ≤ k < 268 * 1024 → fdata (upd C b v) x k = fdata C x k.
Proof.
  intros Hok Hb Hv.
  assert (∀ m, 0 ≤ m < sb_size sb → used sb (upd C b v) m = used sb C m) as Hu.
  { apply used_ext. intros m Hm. apply upd_ne. intros Eq. by apply (fk_sep _ _ _ _ Hok b m). }
  split_and!; [|done|].
  - apply (fs_ok_update ls sz sb C); [done| | |].
    + intros m Hm. unfold upd. case_decide; [done|]. by apply (bo_len _ _ _ _ (fk_map _ _ _ _ Hok)).
    + intros c Hc. unfold upd. case_decide; [done|]. by apply (fk_len _ _ _ _ Hok).
    + intros m Hm. by rewrite Hu.
  - intros x Hx. apply (file_ext dev ls sz sb); [done|]. intros j Hj Hnz.
    destruct (fo_slot _ _ _ _ _ _ Hx j Hj Hnz) as (Hd & Hus & _). split.
    + apply upd_ne. intros Eq. apply (db_ino _ _ _ _ Hd). by rewrite Eq.
    + rewrite Hu; [done|]. pose proof (db_range _ _ _ _ Hd). lia.
Qed.

Lemma dinode_off_lt inum : 0 ≤ inum → (dinode_off inum + 64 ≤ 1024)%nat.
Proof. intros H. unfold dinode_off. change IPB with 16. dlia. Qed.

Lemma iblk_intro inum : 0 ≤ inum < sb_ninodes sb → inode_blk sb (IBLOCK inum sb).
Proof. intros H. by exists inum. Qed.

Lemma updated_files C x :
  fs_ok ls sz sb C → file_ok dev ls sz sb C x → 0 ≤ i_inum x < sb_ninodes sb →
  let C' := updated C x in
  fs_ok ls sz sb C' ∧ (∀ m, 0 ≤ m < sb_size sb → used sb C' m = used sb C m) ∧
  ∀ y, file_ok dev ls sz sb C y → (∀ j, (j < 269)%nat → slot C' y j = slot C y j) ∧
    file_ok dev ls sz sb C' y ∧ ∀ k, 0 ≤ k < 268 * 1024 → fdata C' y k = fdata C y k.
Proof.
  intros Hok Hx Hi. pose proof (iblk_intro _ Hi) as Hb. apply iblock_upd; [done|done|].
  rewrite length_put_dinode; [by apply (fk_len _ _ _ _ Hok)|]. apply (fo_len _ _ _ _ _ _ Hx).
Qed.

(** Reading the inode blocks after an update. *)
Lemma updated_inode C x inum :
  fs_ok ls sz sb C → dinode_ok (dinode_of x) → 0 ≤ i_inum x < sb_ninodes sb → 0 ≤ inum < sb_ninodes sb →
  disk_inode (updated C x) inum = if decide (inum = i_inum x) then dinode_of x else disk_inode C inum.
Proof.
  intros Hok Hd Hx Hi. pose proof (fk_start _ _ _ _ Hok). assert (∀ m, 0 ≤ m < sb_ninodes sb → IBLOCK m sb = m / 16 + sb_inodestart sb) as Hib.
  { intros m Hm. unfold IBLOCK. change IPB with 16. apply u32_small. dlia. }
  pose proof (fk_len _ _ _ _ Hok _ (iblk_intro _ Hx)) as Hl.
  pose proof (dinode_off_lt (i_inum x)). pose proof (dinode_off_lt inum).
  destruct (get_put_dinode (dinode_off (i_inum x)) (dinode_of x) (C (IBLOCK (i_inum x) sb)) Hd) as [Hsame Hoth]; [lia|].
  unfold disk_inode, updated, upd. case_decide as Eb.
  - case_decide as Ei; [by subst|]. rewrite Eb. apply Hoth. rewrite !Hib in Eb by done. unfold dinode_off. change IPB with 16.
    pose proof (Z.div_mod inum 16). pose proof (Z.div_mod (i_inum x) 16).
    pose proof (Z.mod_pos_bound inum 16). pose proof (Z.mod_pos_bound (i_inum x) 16). lia.
  - rewrite decide_False; [done|]. by intros ->.
Qed.

Lemma wp_iupdate s C D ip x r w Q :
  fview s C D ip x ∅ (S r) w → 0 ≤ i_inum x < sb_ninodes sb →
  (∀ s', lframe s s' → fview s' (updated C x) D ip x ∅ r w → Q tt s') →
  wpi Q (iupdate ip s).
Proof.
  intros Hv Hi HQ. destruct (Hv). pose proof (iblk_intro _ Hi) as Hb. unfold iupdate. wstep. wstep.
  rewrite (inode_at_Some _ _ _ fv_ip), fv_sb, (fo_dev _ _ _ _ _ _ fv_file).
  apply wp_bind. apply (tv_bread i dev ls sz E s) with (1 := fv_tv); [done|rewrite map_size_empty; lia|].
  intros bp s1 HN Hf1 H1. apply bframe_lframe in Hf1. wstep. destruct (lframe_get _ _ Hf1) as (_ & Ei & _).
  rewrite (inode_at_Some s1 ip x) by by rewrite Ei.
  apply (tv_update_ret _ i dev ls sz s1 C D ∅ r w bp (IBLOCK (i_inum x) sb) (put_dinode (dinode_off (i_inum x)) (dinode_of x)));
    [done|done|apply u32_range|by apply (fk_log _ _ _ _ fv_ok)|].
  intros s2 Hf2 H2. destruct (updated_files C x fv_ok fv_file Hi) as (Hok' & _ & Hfiles).
  apply HQ; [by etrans|]. eapply fview_lframe; [exact Hv|by etrans|exact H2|done|]. by apply Hfiles.
Qed.

(** The numbers of an inode fit their fields. *)
Lemma dinode_ok_file C x : fs_ok ls sz sb C → file_ok dev ls sz sb C x →
  - 2 ^ 15 ≤ i_type x < 2 ^ 15 → - 2 ^ 15 ≤ i_major x < 2 ^ 15 → - 2 ^ 15 ≤ i_minor x < 2 ^ 15 →
  - 2 ^ 15 ≤ i_nlink x < 2 ^ 15 → 0 ≤ i_size x < 2 ^ 32 → dinode_ok (dinode_of x).
Proof.
  intros Hok Hfo H1 H2 H3 H4 H5. split; try done; [apply (fo_len _ _ _ _ _ _ Hfo)|]. cbn.
  apply list.Forall_lookup. intros j a Ha. pose proof (lookup_lt_Some _ _ _ Ha) as Hj. rewrite (fo_len _ _ _ _ _ _ Hfo) in Hj.
  assert (slot C x j = a) as Es. { rewrite slot_lt by done. unfold addr_of. by rewrite Ha. }
  destruct (decide (a = 0)); [lia|]. destruct (fo_slot _ _ _ _ _ _ Hfo j) as ([Hr _ _ _] & _); [lia|congruence|].
  pose proof (bo_size _ _ _ _ (fk_map _ _ _ _ Hok)). rewrite Es in Hr. lia.
Qed.

(** The size is not part of what a file owns. *)
Lemma file_ok_size C x v : file_ok dev ls sz sb C x → file_ok dev ls sz sb C (set_i_size v x).
Proof. intros []. by split. Qed.

(** [if(off > ip->size) ip->size = off] *)
Lemma wp_size {A} s C D ip x off r w (k : K A) Q :
  fview s C D ip x ∅ r w →
  (∀ s', fframe ip s s' → fview s' C D ip (set_i_size (Z.max (i_size x) off) x) ∅ r w → wpi Q (k s')) →
  wpi Q (((if off >? i_size x then seti ip (set_i_size off) else mret tt);; k) s).
Proof.
  intros Hv HQ. rewrite Z.gtb_ltb. destruct (Z.ltb_spec (i_size x) off) as [Hlt|Hge]; wstep; apply HQ.
  - apply fframe_seti.
  - destruct (Hv). rewrite Z.max_r by lia. eapply fview_seti; [exact Hv|done|done|done|by apply file_ok_size].
  - done.
  - rewrite Z.max_l by lia. by destruct x.
Qed.
End writei.

(** Blocks that a write of [n] bytes at [off] touches. *)
Definition blocks_of (off n : Z) : nat := Z.to_nat ((off mod 1024 + n + 1023) / 1024).

(** [k] bytes of [obj] were written at [off]: no other byte of the file changes,
    the file is as long as needed, its inode is stored in its inode block, and
    every other file keeps its blocks and its bytes and every other inode its
    contents. *)
Record written dev ls sz sb (obj : list Z) (off : Z) (C : Z → list Z) (x : inode) (k : Z) (C' : Z → list Z) (x' : inode)
    : Prop := {
  wr_len : 0 ≤ k ≤ length obj;
  wr_full : k < length obj → disk_full sb C';
  wr_ino : x' = set_i_size (Z.max (i_size x) (off + k)) (set_i_addrs (i_addrs x') x);
  wr_data : wrote obj 0 off k C x C' x';
  wr_ok : fs_ok ls sz sb C' ∧ file_ok dev ls sz sb C' x';
  wr_mapped : mapped C x (i_size x) → mapped C' x' (i_size x');
  wr_disk inum : 0 ≤ inum < sb_ninodes sb →
    disk_inode sb C' inum = if decide (inum = i_inum x) then dinode_of x' else disk_inode sb C inum;
  wr_other y : file_ok dev ls sz sb C y → disjoint C x y →
    file_ok dev ls sz sb C' y ∧ disjoint C' x' y ∧ ∀ k, 0 ≤ k < 268 * 1024 → fdata C' y k = fdata C y k }.

(** [writei] from a local object, at an offset within the file and below the
    largest file size: at most six blocks of log per block of data and one for
    the inode. *)
Lemma wp_writei_obj `{DK : Disk} `{W : Waits} E i dev ls sz sb s C D ip x off obj r w Q :
  fview i dev ls sz sb s C D ip x ∅ (6 * blocks_of off (length obj) + S r) w →
  dinode_ok (dinode_of x) → 0 ≤ i_inum x < sb_ninodes sb →
  0 ≤ off ≤ i_size x → i_size x ≤ 268 * 1024 → off + length obj ≤ 268 * 1024 →
  (∀ k s' C' x', written dev ls sz sb obj off C x k C' x' → fframe ip s s' →
     fview i dev ls sz sb s' C' D ip x' ∅ r w → Q k s') →
  wp E (λ _, True) idle Q (writei_obj ip obj off s).
Proof.
  intros Hv Hd Hi Ho Hsz Hfit HQ. unfold writei_obj, writei. wstep.
  rewrite (inode_at_Some _ _ _ (fv_ip _ _ _ _ _ _ _ _ _ _ _ _ _ Hv)), u32_small by lia.
  rewrite !Z.gtb_ltb, (proj2 (Z.ltb_ge (i_size x) off)), (proj2 (Z.ltb_ge _ off)) by lia. cbn [orb].
  change (MAXFILE * BSIZE) with (268 * 1024). rewrite (proj2 (Z.ltb_ge (268 * 1024) _)) by lia. apply wp_bind.
  change BSIZE with 1024.
  apply (wp_writei_loop _ i dev ls sz sb obj D ip w (length obj) (S r)) with (1 := eq_refl) (nb := blocks_of off (length obj)) (C := C) (x := x);
    [lia|done|lia|lia|lia|unfold blocks_of; intros _; dlia|unfold blocks_of; dlia|].
  intros t s1 C1 x1 Ht Hfull Hst Ex Hw Hmp Hf1 Hv1. cbn [fst snd]. rewrite !Z.add_0_l, Z.sub_0_r in *. wstep.
  rewrite (inode_at_Some _ _ _ (fv_ip _ _ _ _ _ _ _ _ _ _ _ _ _ Hv1)).
  apply (wp_size _ i dev ls sz sb s1 C1 D ip x1 (off + t) (S r) w); [done|]. intros s2 Hf2 Hv2.
  assert (i_size x1 = i_size x) as Es by (by rewrite Ex). rewrite Es in *.
  set (x2 := set_i_size (Z.max (i_size x) (off + t)) x1) in *.
  assert (i_inum x2 = i_inum x) as En by (unfold x2; by rewrite Ex). destruct (Hv2).
  apply wp_bind. apply (wp_iupdate _ i dev ls sz sb s2 C1 D ip x2 r w); [done|by rewrite En|]. intros s3 Hf3 Hv3.
  assert (dinode_ok (dinode_of x2)) as Hd2.
  { destruct Hd. cbn in *. apply (dinode_ok_file dev ls sz sb C1); try done; unfold x2; rewrite Ex; try done. cbn. lia. }
  cbn [wp mret M_ret]. rewrite s32_small by lia. apply (HQ t s3 (updated sb C1 x2) x2); [|etrans; [exact Hf1|]; etrans; [exact Hf2|by apply lframe_fframe]|done].
  destruct (updated_files dev ls sz sb C1 x2) as (Hok3 & Hus & Hfiles); [done|done|by rewrite En|].
  split; [lia|..].
  - intros Hlt m Hm. rewrite Hus by done. by apply Hfull.
  - unfold x2. cbn. by rewrite Ex at 1.
  - intros k Hk. destruct (Hfiles x2 fv_file) as (_ & _ & Hd3). rewrite Hd3 by done. by apply Hw.
  - split; [done|apply Hv3].
  - intros Hm bn Hb0 Hb1. destruct (slot_of_lt bn) as [Hj _]; [cbn in Hb1; lia|].
    destruct (Hfiles x2 fv_file) as (Hs & Hfo & _). assert (slot (updated sb C1 x2) x2 (slot_of bn) ≠ 0) as Hnz.
    { rewrite Hs by done. change (slot C1 x1 (slot_of bn) ≠ 0). cbn in Hb1. destruct (decide (bn * 1024 < i_size x)).
      - rewrite (fs_slots _ _ _ _ _ _ _ _ Hst); [|done|]; by apply Hm.
      - apply Hmp; [lia|dlia|lia]. }
    split; [done|]. by apply (fo_slot _ _ _ _ _ _ Hfo).
  - intros inum Hn. rewrite (updated_inode ls sz) by first [done|by rewrite En]. rewrite En. case_decide; [done|].
    unfold disk_inode. by rewrite (fs_iblk _ _ _ _ _ _ _ _ Hst) by by apply iblk_intro.
  - intros y Hy Hdis. destruct (file_step_other dev ls sz sb C x C1 x1 y) as (Hy1 & Hdis1 & Hd1); [done..|].
    destruct (Hfiles y Hy1) as (Hsy & Hy2 & Hdy), (Hfiles x2 fv_file) as (Hs2 & _). split_and!; [done| |].
    + intros j k Hj Hk. rewrite Hs2, Hsy by done. by apply Hdis1.
    + intros k Hk. by rewrite Hdy, Hd1.
Qed.

(** C2: A write to a file in a transaction of its own.  It writes a prefix of the
    object, all of it unless the disk is full; the file, its inode on the disk and
    the other files are as [written] says.  If the machine stops after any of the
    disk writes, recovery gives the blocks before the write or those after it,
    never a mixture. *)
Theorem file_write_atomic `{DK : Disk} `{W : Waits} i dev ls sz sb s C ip x off obj w :
  quiet i dev ls sz s C w → 0 ≤ dev < 2 ^ 32 → k_sb s = sb → k_inodes s !! ip = Some x →
  fs_ok ls sz sb C → file_ok dev ls sz sb C x → dinode_ok (dinode_of x) → 0 ≤ i_inum x < sb_ninodes sb →
  0 ≤ off ≤ i_size x → i_size x ≤ 268 * 1024 → off + length obj ≤ 268 * 1024 →
  (6 * blocks_of off (length obj) + 1 < NBUF)%nat → 6 * blocks_of off (length obj) + 1 < sz →
  wp (λ _, False) (λ _, True) idle (λ k s', ∃ C' x' C'' ws,
      written dev ls sz sb obj off C x k C' x' ∧ k_inodes s' !! ip = Some x' ∧
      quiet i dev ls sz s' C'' (w ++ ws) ∧ (∀ n, ¬ log_area ls sz n → C'' n = C' n) ∧ atomic ls sz ws C C')
    ((begin_op;; k ← writei_obj ip obj off; end_op;; mret k) s).
Proof.
  intros Hq Hdev Hsb Hip Hok Hfo Hd Hi Ho Hsz Hfit Hr1 Hr2.
  destruct (begin_op_quiet i dev ls sz s C w (6 * blocks_of off (length obj) + 1) Hq) as (s1 & E1 & Hf1 & Ht1); [lia|lia|].
  apply (wp_ok _ _ _ _ _ _ _ _ _ E1). clear E1. destruct (lframe_get _ _ Hf1) as (Es & Ei & _).
  apply wp_bind, (wp_writei_obj _ i dev ls sz sb s1 C C ip x off obj 0 w); try done; [split; try done; congruence|].
  intros k s2 C' x' Hw Hf2 Hv2. destruct (Hv2).
  apply wp_bind, (wp_end_op i dev ls sz _ s2 C' C 0 w); [done|apply Hq|].
  intros s3 C'' ws Hf3 Hq3 HC Hat. cbn [wp mret M_ret]. exists C', x', C'', ws. split_and!; try done.
  destruct (lframe_get _ _ Hf3) as (_ & -> & _). done.
Qed.

(** [writei] refuses an offset behind the end of the file, a length that
    overflows the offset and a write past the largest file, and then changes
    nothing. *)
Theorem writei_refuses `{DK : Disk} `{W : Waits} fetch s ip x src off n :
  k_inodes s !! ip = Some x → 0 ≤ off < 2 ^ 32 → 0 ≤ n < 2 ^ 32 →
  i_size x < off ∨ 2 ^ 32 ≤ off + n ∨ 268 * 1024 < off + n →
  writei fetch ip src off n s = Ok (-1) s.
Proof.
  intros Hip Ho Hn Hc. unfold writei.
  rewrite (bind_ok _ _ _ _ _ (eq_refl : geti ip s = Ok (inode_at s ip) s)), (inode_at_Some _ _ _ Hip).
  rewrite !Z.gtb_ltb. change (MAXFILE * BSIZE) with (268 * 1024).
  destruct (Z.ltb_spec (i_size x) off); cbn [orb]; [done|]. destruct (Z.ltb_spec (u32 (off + n)) off) as [|Hge]; cbn [orb]; [done|].
  destruct (decide (off + n < 2 ^ 32)).
  - rewrite u32_small in * by lia. by rewrite (proj2 (Z.ltb_lt _ (off + n))) by lia.
  - assert (u32 (off + n) = off + n - 2 ^ 32) by (symmetry; apply (Z.mod_unique_pos _ _ 1); lia). lia.
Qed.

(** ** Instances of the theorems *)

(** An empty file with inode number 5, and one of three bytes in block 47, on a
    disk with 13 blocks of inodes, 32 to 44. *)
Definition ex_empty : inode := mkInode 1 5 1 slk0 true T_FILE 0 0 1 0 (replicate 13 0).
Definition ex_short : inode := mkInode 1 6 1 slk0 true T_FILE 0 0 1 3 (47 :: replicate 12 0).
Definition ex_data : gmap Z (list Z) := <[47 := [7; 8; 9] ++ replicate 1021 0]> ex_disk.
Definition ex_inodes : list inode := [ex_empty; ex_short].
Definition ex_files (l : list inode) (ls : log_t) (d : gmap Z (list Z)) : kstate :=
  set_inodes l (set_sb ex_sb (set_disk d (set_log ls ex_fs))).

Lemma ex_files_runs l ls d : runs_on 0 (ex_files l ls d).
Proof. unfold ex_files, ex_fs. destruct (runs_ex_boot ex_bufs). by split. Qed.

Lemma ex_files_rep l ls d : brep 0 1 (ex_files l ls d) (disk_block d) (disk_block d) ∅ ∅ [].
Proof. apply (ex_fs_rep (ex_files l ls d)), ex_files_runs. unfold ex_files, ex_fs. by generalize ex_bufs. Qed.

Definition ex_idle_log : log_t := mkLog 2 30 0 false 1 0 (replicate 30 0).

Lemma ex_files_quiet : quiet 0 1 2 30 (ex_files ex_inodes ex_idle_log ex_disk) (disk_block ex_disk) [].
Proof. split; [split; cbn; try done; lia|apply ex_files_rep|exact eq_refl|exact eq_refl|exact eq_refl|lia|by vm_compute]. Qed.

Lemma ex_iblock b : inode_blk ex_sb b → 32 ≤ b < 45.
Proof.
  intros (m & Hm & ->). unfold IBLOCK. change IPB with 16. cbn in *. rewrite u32_small by dlia. dlia.
Qed.

Lemma ex_fs_ok : fs_ok 2 30 ex_sb (disk_block ex_disk).
Proof.
  split; [exact ex_bmap_ok|cbn; lia|..]; intros b.
  - intros Hb%ex_iblock. unfold used. destruct (ex_bblock b) as [-> ->]; [lia|]. change (disk_block ex_disk 45) with ex_map. apply ex_used. lia.
  - intros Hb%ex_iblock. cbn. lia.
  - intros Hb%ex_iblock. unfold log_area. lia.
  - intros m Hb%ex_iblock Hm. destruct (ex_bblock m Hm) as [-> _]. lia.
  - intros Hb%ex_iblock. unfold disk_block, ex_disk. rewrite lookup_insert_ne, lookup_empty by lia. done.
Qed.

Lemma ex_empty_slot C j : slot C ex_empty j = 0.
Proof.
  destruct (decide (j < 13)%nat); [rewrite slot_lt by done|by rewrite slot_ge by lia].
  unfold addr_of. cbn. by do 13 (destruct j as [|j]; [done|]).
Qed.

Lemma ex_empty_file C : file_ok 1 2 30 ex_sb C ex_empty.
Proof. split; [done|done|..]; intros *; rewrite ?ex_empty_slot; done. Qed.

Lemma file_write_atomic_witness :
  wp (λ _, False) (λ _, True) idle (λ k s', ∃ C' x' ws, written 1 2 30 ex_sb [65; 66; 67] 0 (disk_block ex_disk) ex_empty k C' x' ∧
      atomic 2 30 ws (disk_block ex_disk) C')
    ((@begin_op 0%nat;; k ← @writei_obj ram_disk 0%nat 0 [65; 66; 67] 0; @end_op ram_disk 0%nat;; mret k) (ex_files ex_inodes ex_idle_log ex_disk)).
Proof.
  eapply wp_mono; [|exact (@file_write_atomic ram_disk 0%nat 0 1 2 30 ex_sb _ _ 0%nat ex_empty 0 [65; 66; 67] []
    ex_files_quiet ltac:(lia) eq_refl eq_refl ex_fs_ok (ex_empty_file _) ltac:(split; cbn; try lia; try done; repeat constructor; lia)
    ltac:(cbn; lia) ltac:(cbn; lia) ltac:(cbn; lia) ltac:(cbn; lia) ltac:(vm_compute; lia) ltac:(vm_compute; done))].
  intros k s' (C' & x' & C'' & ws & Hw & _ & _ & _ & Ha). by exists C', x', ws.
Defined.

Lemma writei_refuses_witness :
  @writei ram_disk 0%nat (from_object [1]) 0 0 5 1 (ex_files ex_inodes ex_idle_log ex_disk) = Ok (-1) (ex_files ex_inodes ex_idle_log ex_disk).
Proof. exact (@writei_refuses ram_disk 0%nat (from_object [1]) (ex_files ex_inodes ex_idle_log ex_disk) 0%nat ex_empty 0 5 1 eq_refl ltac:(lia) ltac:(lia) ltac:(cbn; lia)). Defined.

Lemma readi_obj_correct_witness :
  wp (λ _, False) (λ _, True) idle (λ r _, r = (2, [8; 9])) (@readi_obj ram_disk 0%nat 1 1 10 (ex_files ex_inodes ex_idle_log ex_data)).
Proof.
  assert (mapped (disk_block ex_data) ex_short (i_size ex_short)) as Hm.
  { intros bn H1 H2. cbn in H2. assert (bn = 0) as -> by lia. by vm_compute. }
  eapply wp_mono; [|exact (@readi_obj_correct ram_disk 0%nat 0 1 _ _ _ ∅ [] 1%nat ex_short 1 10
    (Build_clean 0 1 _ _ _ _ _ (ex_files_rep ex_inodes ex_idle_log ex_data) ltac:(rewrite size_empty; unfold NBUF; lia) (λ n, or_intror eq_refl))
    eq_refl eq_refl ltac:(cbn; lia) Hm ltac:(lia) ltac:(lia))].
  intros r s' (_ & _ & ->). by vm_compute.
Defined.
