(* ===== verification/FsTrunc.v ===== *)
(** [itrunc]: the blocks of a file go back to the free map.  Its many calls of
    [bfree] change one block of the map, which enters the log once, so that a
    transaction has room for them. *)

From S2P Require Import Prelude Machine Str Types Proc ProcSpec Rely Sleeplock Bio BioSpec BioContent BioRep Bytes Log LogSpec LogRun LogView Fs Dir FsFormat FsBlock FsData FsFile FsWrite.

Section map_block.
Context `{DK : Disk} `{W : Waits}.
Variables (E : stop → Prop) (i : nat) (dev ls sz : Z) (sb : superblock) (B : Z).
Abbreviation wpi := (wp E (λ _, True) idle).
Abbreviation tview := (tview i dev ls sz).
Abbreviation txn := (txn i dev ls sz).

(** A transaction with room for [r] blocks besides block [B], which may have entered
    it already. *)
Definition pview (s : kstate) (C D : Z → list Z) (H : gmap nat Z) (dirty : gset Z) (r : nat) (w : list (Z * list Z)) : Prop :=
  ∃ bl r', txn s C D bl H dirty r' w ∧ lg_outstanding (k_log s) = 1 ∧ lg_committing (k_log s) = false ∧ (r' = S r ∨ (r' = r ∧ B ∈ bl)).

Lemma tview_pview s C D H d r w : tview s C D H d (S r) w → pview s C D H d r w.
Proof. intros (bl & Ht & Ho & Hc). exists bl, (S r). split_and!; [done..|by left]. Qed.

Lemma pview_tview s C D H d r w : pview s C D H d r w → tview s C D H d r w.
Proof.
  intros (bl & r' & Ht & Ho & Hc & Hr). apply (tview_room i dev ls sz s C D H d r'); [destruct Hr as [->|[-> _]]; lia|]. by exists bl.
Qed.

Lemma pview_seti s C D H d r w ip f : pview s C D H d r w → pview (upd_inode ip f s) C D H d r w.
Proof.
  intros (bl & r' & [] & Hr). exists bl, r'. split; [|done]. split; try done.
  destruct tx_rep as [H1 H2 H3 H4 H5 H6 H7 H8 H9 H10 H11]. split; try done. by destruct H1.
Qed.

Lemma pv_bread s C D H d r w n Q :
  pview s C D H d r w → (∀ c, H !! c ≠ Some n) → (size H ≤ r)%nat →
  (∀ b s', H !! b = None → bframe s s' → pview s' C D (<[b := n]> H) d r w → Q b s') → wpi Q (bread dev n s).
Proof.
  intros (bl & r' & [] & Ho & Hc & Hr) Hn Hs HQ. apply (wp_bread_rep _ i dev s) with (1 := tx_rep); [done| |].
  - right. rewrite size_list_to_set by done. destruct Hr as [->|[-> _]]; lia.
  - intros b s' HN Hf Hb. apply HQ; [done|done|]. destruct (bframe_get _ _ Hf) as (El & _).
    exists bl, r'. rewrite El. split_and!; [|done..]. by split; rewrite ?El.
Qed.

Lemma pv_brelse s C D H d r w b n Q :
  pview s C D H d r w → H !! b = Some n → n ∉ d →
  (∀ s', bframe s s' → pview s' C D (delete b H) d r w → Q tt s') → wpi Q (brelse b s).
Proof.
  intros (bl & r' & [] & Ho & Hc & Hr) Hh Hn HQ. apply (wp_brelse_rep _ i dev s) with (1 := tx_rep) (2 := Hh).
  - destruct (tx_dirty n Hn); [left|by right]. by apply elem_of_list_to_set.
  - intros s' Hf Hb. apply HQ; [done|]. destruct (bframe_get _ _ Hf) as (El & _). exists bl, r'. rewrite El. split_and!; [|done..]. by split; rewrite ?El.
Qed.

Lemma pv_set_data s C D H d r w b n f :
  pview s C D H d r w → H !! b = Some n → pview (upd_buf b (λ x, set_b_data (f (b_data x)) x) s) (upd C n (f (C n))) D H ({[n]} ∪ d) r w.
Proof.
  intros (bl & r' & [] & Ho & Hc & Hr) Hh. exists bl, r'. split_and!; [|done..]. split; try done.
  - by apply brep_set_data.
  - intros m Hm. rewrite upd_ne by (clear -Hm; set_solver). apply tx_dirty. clear -Hm. set_solver.
Qed.

(** The block of the map is logged; the room for it is used the first time only. *)
Lemma pv_log_write s C D H d r w b Q :
  pview s C D H d r w → (1 ≤ r)%nat → H !! b = Some B → 0 ≤ B < 2 ^ 32 → ¬ log_area ls sz B →
  (∀ s', lframe s s' → pview s' C D H (d ∖ {[B]}) r w → Q tt s') → wpi Q (log_write b s).
Proof.
  intros (bl & r' & Ht & Hout & Hcom & Hr') Hr Hh HB Hn HQ. pose proof (txn_u32 _ _ _ _ _ _ _ _ _ _ _ _ Ht) as Hu.
  destruct (decide (B ∈ bl)) as [Hin|Hni].
  - assert (txn s C D bl H d r w) as [] by (destruct Ht; split; try done; destruct Hr' as [->|[-> _]]; lia).
    pose proof (log_write_run i dev ls s C D bl H w b B tx_log Hu HB tx_rep Hh) as Hrun.
    rewrite decide_False in Hrun by (unfold NBUF in *; lia). rewrite decide_False, decide_True in Hrun by (done || lia).
    destruct Hrun as (s' & -> & Hf & Hl & Ho & Hsz & Hc & Hb). apply HQ; [done|]. exists bl, r. rewrite Ho, Hc. split_and!; [|done|done|by right].
    split; try done; try congruence. intros m Hm. destruct (decide (m = B)) as [->|]; [by left|]. apply tx_dirty. clear -Hm n. set_solver.
  - destruct Hr' as [->|[_ ?]]; [|done]. destruct Ht.
    pose proof (log_write_run i dev ls s C D bl H w b B tx_log Hu HB tx_rep Hh) as Hrun.
    rewrite decide_False in Hrun by (unfold NBUF in *; lia). rewrite decide_False, decide_False in Hrun by (done || lia).
    destruct Hrun as (s' & -> & Hf & Hl & Ho & Hsz & Hc & Hb). apply HQ; [done|]. exists (bl ++ [B]), r. rewrite Ho, Hc.
    split_and!; [|done|done|right; split; [done|set_solver]]. split; try done; try congruence.
    + apply list.NoDup_app. split_and!; [done| |apply NoDup_singleton]. intros x Hx ->%list_elem_of_singleton. done.
    + apply Forall_app. split; [done|]. by apply list.Forall_singleton.
    + rewrite length_app. cbn. lia.
    + rewrite length_app. cbn. lia.
    + intros m Hm. rewrite elem_of_app, list_elem_of_singleton. destruct (decide (m = B)) as [->|]; [by left; right|].
      destruct (tx_dirty m) as [?|?]; [clear -Hm n; set_solver|by left; left|by right].
Qed.

(** [bfree] of a block with its mark in [B]. *)
Lemma pv_bfree s C D H r w b Q :
  k_sb s = sb → bmap_ok ls sz sb C → 0 ≤ dev < 2 ^ 32 → 0 ≤ b < sb_size sb → BBLOCK b sb = B → used sb C b = true →
  pview s C D H ∅ r w → (∀ c, H !! c ≠ Some B) → (size H ≤ r)%nat → (1 ≤ r)%nat →
  (∀ s', lframe s s' → pview s' (upd C B (clear_bit (b mod BPB) (C B))) D H ∅ r w → Q tt s') → wpi Q (bfree dev b s).
Proof.
  intros Esb Hok Hdev Hb EB Hu Hv HH Hs Hr HQ. unfold bfree. wstep. rewrite Esb, u32_small by done.
  apply wp_bind. rewrite EB. apply (pv_bread s) with (1 := Hv); [done|done|]. intros bp s1 HN Hf1 H1. wstep.
  destruct (tview_data _ _ _ _ _ _ _ _ _ _ _ bp B (pview_tview _ _ _ _ _ _ _ H1)) as [Ed _]; [by rewrite lookup_insert_eq|]. rewrite Ed.
  unfold used in Hu. rewrite EB in Hu. rewrite Hu. cbn [negb]. wstep.
  pose proof (pv_set_data s1 C D _ ∅ r w bp B (clear_bit (b mod BPB)) H1 ltac:(by rewrite lookup_insert_eq)) as H2.
  apply wp_bind. eapply pv_log_write; [exact H2|done|by rewrite lookup_insert_eq|rewrite <- EB; apply u32_range|rewrite <- EB; by apply (bo_log _ _ _ _ Hok)|].
  intros s2 Hf2 H3. assert (({[B]} ∪ ∅) ∖ {[B]} = (∅ : gset Z)) as Hd by set_solver. rewrite Hd in H3.
  eapply pv_brelse; [exact H3|by rewrite lookup_insert_eq|apply not_elem_of_empty|]. intros s3 Hf3 H4. rewrite delete_insert_id in H4 by done.
  apply HQ; [|done]. etrans; [by apply bframe_lframe|]. etrans; [apply bframe_lframe, bframe_upd|]. etrans; [exact Hf2|by apply bframe_lframe].
Qed.
End map_block.

(** ** The blocks that are free again *)

Section freed.
Variables (dev ls sz : Z) (sb : superblock) (C0 : Z → list Z) (x : inode).
Hypothesis Hok : fs_ok ls sz sb C0.
Hypothesis Hfo : file_ok dev ls sz sb C0 x.
(** The free map is one block, as it is for the [FSSIZE] blocks of [mkfs]. *)
Hypothesis Hone : sb_size sb ≤ BPB.
Abbreviation B := (sb_bmapstart sb).

Lemma BBLOCK_one m : 0 ≤ m < sb_size sb → BBLOCK m sb = B.
Proof.
  intros Hm. rewrite (BBLOCK_eq ls sz sb C0) by (done || apply Hok). change BPB with 8192 in Hone. rewrite Z.div_small by lia. done.
Qed.

(** The blocks in the slots [J] of the file are free, and nothing else changed. *)
Record freed (J : list nat) (C : Z → list Z) : Prop := {
  fr_keep b : b ≠ B → C b = C0 b;
  fr_len : length (C B) = length (C0 B);
  fr_used m : 0 ≤ m < sb_size sb → used sb C m = true ↔ used sb C0 m = true ∧ ∀ j, j ∈ J → slot C0 x j = m → m = 0 }.

Lemma freed_nil : freed [] C0.
Proof. split; [done..|]. intros m _. split; [|by intros [? _]]. intros H. split; [done|]. intros j Hj. by apply not_elem_of_nil in Hj. Qed.

Lemma freed_zero J C j : slot C0 x j = 0 → freed J C → freed (J ++ [j]) C.
Proof.
  intros Hz Hfr. destruct Hfr. split; try done. intros m Hm. rewrite (fr_used0 m Hm). apply and_iff_compat_l. split.
  - intros H k Hk. apply elem_of_app in Hk as [Hk|Hk]; [by apply H|]. apply list_elem_of_singleton in Hk as ->. congruence.
  - intros H k Hk. apply H. set_solver.
Qed.

Lemma slot_data j : (j < 269)%nat → slot C0 x j ≠ 0 →
  0 ≤ slot C0 x j < sb_size sb ∧ slot C0 x j ≠ B ∧ used sb C0 (slot C0 x j) = true.
Proof.
  intros Hj Hz. destruct (fo_slot _ _ _ _ _ _ Hfo j Hj Hz) as ([Hr _ Hm _] & Hu & _). split_and!; [lia..| |done].
  rewrite <- (BBLOCK_one (slot C0 x j)) by lia. apply Hm. lia.
Qed.

Lemma freed_ok J C : (∀ j, j ∈ J → (j < 269)%nat) → freed J C → fs_ok ls sz sb C.
Proof.
  intros HJ Hfr. destruct Hfr, Hok. assert (∀ m, 0 ≤ m < sb_size sb → length (C (BBLOCK m sb)) = 1024%nat) as Hl.
  { intros m Hm. rewrite BBLOCK_one, fr_len0, <- (BBLOCK_one m) by done. by apply (bo_len _ _ _ _ fk_map). }
  assert (∀ m, 0 ≤ m < sb_size sb → ¬ data_blk ls sz sb m → used sb C0 m = true → used sb C m = true) as Hk.
  { intros m Hm Hn Hu. apply fr_used0; [done|]. split; [done|]. intros j Hj <-. destruct (decide (slot C0 x j = 0)) as [|Hz]; [done|].
    destruct Hn. by apply (fo_slot _ _ _ _ _ _ Hfo j (HJ j Hj)). }
  split; try done.
  - apply (bmap_ok_update ls sz sb C0); [done|done|]. intros m Hm Hr. apply Hk; [done|]. intros Hd. destruct Hd.
    destruct Hr as [->|[?|(m' & Hm' & ->)]]; [lia|done|]. by apply (db_map m').
  - intros b Hb. apply Hk; [by apply fk_range|intros Hd; by destruct Hd|by apply fk_used].
  - intros b Hb. rewrite fr_keep0; [by apply fk_len|]. pose proof (fk_range b Hb).
    rewrite <- (BBLOCK_one b) by done. by apply fk_sep.
Qed.

Lemma freed_used J C j : (∀ k, k ∈ J → (k < 269)%nat) → j ∉ J → (j < 269)%nat → slot C0 x j ≠ 0 → freed J C →
  used sb C (slot C0 x j) = true.
Proof.
  intros HJ Hj Hlt Hz Hfr. destruct Hfr. destruct (slot_data j Hlt Hz) as (Hr & _ & Hu). apply fr_used0; [done|]. split; [done|].
  intros k Hk Eq. destruct Hj. by rewrite (fo_inj _ _ _ _ _ _ Hfo j k) by (auto; congruence).
Qed.

Lemma freed_step J C j : (∀ k, k ∈ J → (k < 269)%nat) → (j < 269)%nat → slot C0 x j ≠ 0 → freed J C →
  freed (J ++ [j]) (upd C B (clear_bit (slot C0 x j mod BPB) (C B))).
Proof.
  intros HJ Hlt Hz Hfr. pose proof (freed_ok J C HJ Hfr) as HokC. destruct Hfr. destruct (slot_data j Hlt Hz) as (Hr & _ & _). split.
  - intros b Hb. rewrite upd_ne by done. by apply fr_keep0.
  - by rewrite upd_eq, length_clear_bit.
  - intros m Hm. rewrite <- (BBLOCK_one (slot C0 x j)) by done.
    rewrite (used_update ls sz sb C (slot C0 x j) (clear_bit (slot C0 x j mod BPB)) (λ _, false)); [|apply HokC|done| |done].
    2:{ intros data bj Hl Hj. rewrite bit_set_clear by (change BPB with 8192; rewrite ?Hl; dlia || lia). repeat case_decide; case_bool_decide; done. }
    case_decide as Hd; [subst m; split; [done|]|rewrite (fr_used0 m Hm); apply and_iff_compat_l; split].
    + intros [_ H]. destruct Hz. apply (H j); [set_solver|done].
    + intros H k Hk. apply elem_of_app in Hk as [Hk|Hk]; [by apply H|]. apply list_elem_of_singleton in Hk as ->. congruence.
    + intros H k Hk. apply H. set_solver.
Qed.

(** Files without a block in common with this one keep theirs. *)
Lemma freed_other J C y : (∀ k, k ∈ J → (k < 269)%nat) → freed J C → file_ok dev ls sz sb C0 y → disjoint C0 x y →
  (∀ j, (j < 269)%nat → slot C y j = slot C0 y j) ∧ file_ok dev ls sz sb C y ∧ ∀ k, 0 ≤ k < 268 * 1024 → fdata C y k = fdata C0 y k.
Proof.
  intros HJ Hfr Hy Hdis. destruct Hfr. apply (file_ext dev ls sz sb); [done|]. intros j Hj Hnz.
  destruct (fo_slot _ _ _ _ _ _ Hy j Hj Hnz) as ([Hr _ Hm _] & Hu & _). split.
  - apply fr_keep0. rewrite <- (BBLOCK_one (slot C0 y j)) by lia. apply Hm. lia.
  - apply fr_used0; [lia|]. split; [done|]. intros k Hk Eq. rewrite <- Eq. by apply (Hdis k j (HJ k Hk) Hj).
Qed.
End freed.

(** The inode with its first [a] addresses zeroed. *)
Definition cleared (a : nat) (x : inode) : inode := set_i_addrs (replicate a 0 ++ drop a (i_addrs x)) x.

Section cleared.
Variable x : inode.
Hypothesis Hl : length (i_addrs x) = 13%nat.

Lemma cleared_0 : cleared 0 x = x.
Proof. by destruct x. Qed.

Lemma addr_of_cleared a k : (a ≤ k)%nat → addr_of k (cleared a x) = addr_of k x.
Proof.
  intros Hk. unfold addr_of, cleared. cbn [i_addrs set_i_addrs]. rewrite lookup_app_r by (rewrite length_replicate; lia).
  rewrite length_replicate, lookup_drop. by replace (a + (k - a))%nat with k by lia.
Qed.

Lemma cleared_S a : (a < 13)%nat → set_addr a 0 (cleared a x) = cleared (S a) x.
Proof.
  intros Ha. unfold set_addr, cleared. cbn [i_addrs set_i_addrs]. destruct (lookup_lt_is_Some_2 (i_addrs x) a) as [v Hv]; [lia|].
  rewrite (drop_S _ _ _ Hv), insert_app_r_alt, length_replicate, Nat.sub_diag by (rewrite length_replicate; lia).
  rewrite replicate_S_end, <- app_assoc. done.
Qed.

Lemma cleared_zero a : (a < 13)%nat → addr_of a x = 0 → cleared (S a) x = cleared a x.
Proof.
  intros Ha Hz. unfold cleared. destruct (lookup_lt_is_Some_2 (i_addrs x) a) as [v Hv]; [lia|].
  unfold addr_of in Hz. rewrite Hv in Hz. cbn in Hz. by rewrite (drop_S _ _ _ Hv), replicate_S_end, <- app_assoc, Hz.
Qed.

Lemma cleared_slots C j : slot C (cleared 13 x) j = 0.
Proof.
  assert (∀ k, addr_of k (cleared 13 x) = 0) as Ha.
  { intros k. unfold addr_of, cleared. cbn [i_addrs set_i_addrs]. rewrite drop_ge, app_nil_r by lia.
    destruct (decide (k < 13)%nat); [by rewrite lookup_replicate_2|]. by rewrite lookup_ge_None_2 by (rewrite length_replicate; lia). }
  destruct (decide (j < 13)%nat); [by rewrite slot_lt|]. rewrite slot_ge, Ha by lia. done.
Qed.
End cleared.

(** The slots in the order [itrunc] frees them. *)
Definition trunc_slots : list nat := (seq 0 12 ++ seq 13 256) ++ [12%nat].

Lemma elem_of_trunc_slots j : j ∈ trunc_slots ↔ (j < 269)%nat.
Proof. unfold trunc_slots. rewrite !elem_of_app, !elem_of_seq, list_elem_of_singleton. lia. Qed.

Section trunc.
Context `{DK : Disk} `{W : Waits}.
Variables (E : stop → Prop) (i : nat) (dev ls sz : Z) (sb : superblock) (C0 : Z → list Z) (x : inode).
Abbreviation wpi := (wp E (λ _, True) idle).
Abbreviation B := (sb_bmapstart sb).
Hypothesis Hdev : 0 ≤ dev < 2 ^ 32.
Hypothesis Hok : fs_ok ls sz sb C0.
Hypothesis Hfo : file_ok dev ls sz sb C0 x.
Hypothesis Hone : sb_size sb ≤ BPB.
Variables (s0 : kstate) (D : Z → list Z) (w : list (Z * list Z)) (ip r : nat).
Hypothesis Hr : (1 ≤ r)%nat.

(** The blocks of the slots [J] are free and the record in the table is [y]. *)
Record tstate (J : list nat) (H : gmap nat Z) (y : inode) (s : kstate) (C : Z → list Z) : Prop := {
  ts_pv : pview i dev ls sz B s C D H ∅ r w;
  ts_frame : fframe ip s0 s;
  ts_ip : k_inodes s !! ip = Some y;
  ts_sb : k_sb s = sb;
  ts_lt j : j ∈ J → (j < 269)%nat;
  ts_fr : freed sb C0 x J C }.

Lemma tstate_seti J H y s C f : tstate J H y s C → tstate J H (f y) (upd_inode ip f s) C.
Proof.
  intros []. split; try done.
  - by apply pview_seti.
  - etrans; [done|]. apply fframe_seti.
  - cbn. by rewrite list_lookup_alter_eq, ts_ip0.
Qed.

Lemma tstate_lframe J H y s C J' H' s' C' : tstate J H y s C → lframe s s' → pview i dev ls sz B s' C' D H' ∅ r w →
  (∀ j, j ∈ J' → (j < 269)%nat) → freed sb C0 x J' C' → tstate J' H' y s' C'.
Proof.
  intros [] Hf Hp Hlt Hfr. destruct (lframe_get _ _ Hf) as (Es & Ei & _).
  split; try done; [etrans; [done|by apply lframe_fframe]|congruence..].
Qed.

Lemma tstate_zero J H y s C j : tstate J H y s C → (j < 269)%nat → slot C0 x j = 0 → tstate (J ++ [j]) H y s C.
Proof.
  intros [] Hj Hz. split; try done; [|by eapply (freed_zero dev ls sz)].
  intros k Hk. apply elem_of_app in Hk as [Hk|Hk]; [by apply ts_lt0|]. by apply list_elem_of_singleton in Hk as ->.
Qed.

(** [bfree] of the block in slot [j]. *)
Lemma wp_free_slot J H y s C j Q : tstate J H y s C → j ∉ J → (j < 269)%nat → slot C0 x j ≠ 0 →
  (∀ c, H !! c ≠ Some B) → (size H ≤ r)%nat → (∀ s' C', tstate (J ++ [j]) H y s' C' → Q tt s') → wpi Q (bfree dev (slot C0 x j) s).
Proof.
  intros Hts HJ Hj Hz HB Hs HQ. destruct (Hts). destruct (slot_data dev ls sz sb C0 x Hok Hfo Hone j Hj Hz) as (Hrg & _).
  apply (pv_bfree E i dev ls sz sb B s C D H r w); try done.
  - apply (freed_ok dev ls sz sb C0 x Hok Hfo Hone J C); done.
  - by apply (BBLOCK_one ls sz sb C0).
  - by apply (freed_used dev ls sz sb C0 x Hok Hfo Hone J).
  - intros s' Hf Hp. eapply HQ, (tstate_lframe J H y s C); [done|done|exact Hp| |].
    + intros k Hk. apply elem_of_app in Hk as [Hk|Hk]; [by apply ts_lt0|]. by apply list_elem_of_singleton in Hk as ->.
    + by apply (freed_step dev ls sz).
Qed.

(** The loop over the direct addresses. *)
Lemma wp_trunc_direct Q : ∀ (n a : nat) s C, (a + n = 12)%nat → tstate (seq 0 a) ∅ (cleared a x) s C →
  (∀ s' C', tstate (seq 0 12) ∅ (cleared 12 x) s' C' → Q tt s') →
  wpi Q (forM_ (seq a n) (λ i, x ← geti ip;
    if addr_of i x =? 0 then mret tt else bfree (i_dev x) (addr_of i x);; seti ip (set_addr i 0)) s).
Proof.
  pose proof (fo_len _ _ _ _ _ _ Hfo) as Hl. intros n. induction n as [|n IH]; intros a s C Ha Hts HQ.
  { rewrite Nat.add_0_r in Ha. subst a. cbn [seq forM_ wp mret M_ret]. by eapply HQ. }
  cbn [seq forM_]. apply wp_bind. wstep. rewrite (inode_at_Some _ _ _ (ts_ip _ _ _ _ _ Hts)), addr_of_cleared by lia.
  assert (seq 0 (S a) = seq 0 a ++ [a]) as Es by apply seq_S. assert (slot C0 x a = addr_of a x) as Ea by (apply slot_lt; lia).
  destruct (Z.eqb_spec (addr_of a x) 0) as [Hz|Hnz].
  - apply (IH (S a) s C); [lia| |done]. rewrite Es, cleared_zero by (done || lia). apply tstate_zero; [done|lia|congruence].
  - change (i_dev (cleared a x)) with (i_dev x). rewrite (fo_dev _ _ _ _ _ _ Hfo), <- Ea. apply wp_bind.
    eapply wp_free_slot; [exact Hts|rewrite elem_of_seq; lia|lia|congruence|done|rewrite map_size_empty; lia|].
    intros s' C' Hts'. apply (IH (S a) (upd_inode ip (set_addr a 0) s') C'); [lia| |done]. rewrite Es, <- cleared_S by (done || lia). by apply tstate_seti.
Qed.

(** The loop over the entries of the indirect block, which stays in its buffer. *)
Lemma wp_trunc_indirect bp Q : addr_of 12 x ≠ 0 → ∀ (n a : nat) s C, (a + n = 256)%nat →
  tstate (seq 0 12 ++ seq 13 a) {[bp := addr_of 12 x]} (cleared 12 x) s C →
  (∀ s' C', tstate (seq 0 12 ++ seq 13 256) {[bp := addr_of 12 x]} (cleared 12 x) s' C' → Q tt s') →
  wpi Q (forM_ (seq a n) (λ j, b ← getb bp;
    let a := get32 (4 * j) (b_data b) in if a =? 0 then mret tt else bfree dev a) s).
Proof.
  intros H12. destruct (slot_data dev ls sz sb C0 x Hok Hfo Hone 12) as (_ & HnB & _); [lia|by rewrite slot_lt by lia|].
  rewrite slot_lt in HnB by lia. intros n. induction n as [|n IH]; intros a s C Ha Hts HQ.
  { rewrite Nat.add_0_r in Ha. subst a. cbn [forM_ seq wp mret M_ret]. by eapply HQ. }
  cbn [seq forM_]. apply wp_bind. wstep.
  destruct (tview_data _ _ _ _ _ _ _ _ _ _ _ bp (addr_of 12 x) (pview_tview _ _ _ _ _ _ _ _ _ _ _ _ (ts_pv _ _ _ _ _ Hts))) as [-> _];
    [by rewrite lookup_singleton_eq|].
  rewrite (fr_keep _ _ _ _ _ (ts_fr _ _ _ _ _ Hts) _ HnB).
  assert (seq 0 12 ++ seq 13 (S a) = (seq 0 12 ++ seq 13 a) ++ [13 + a]%nat) as Es by (by rewrite (seq_S a 13), app_assoc).
  assert (slot C0 x (13 + a) = get32 (4 * a) (C0 (addr_of 12 x))) as Ea.
  { rewrite slot_ge by lia. rewrite (proj2 (Z.eqb_neq _ 0)) by done. by replace (13 + a - 13)%nat with a by lia. }
  cbn zeta. rewrite <- Ea. destruct (Z.eqb_spec (slot C0 x (13 + a)) 0) as [Hz|Hnz].
  - apply (IH (S a) s C); [lia| |done]. rewrite Es. apply tstate_zero; [done|lia|done].
  - eapply wp_free_slot; [exact Hts| |lia|done| |rewrite map_size_singleton; lia|].
    + rewrite elem_of_app, !elem_of_seq. lia.
    + intros c [_ Hc]%lookup_singleton_Some. done.
    + intros s' C' Hts'. apply (IH (S a) s' C'); [lia| |done]. by rewrite Es.
Qed.

Lemma tstate_zeros H y s C J : ∀ n a, tstate J H y s C → (∀ j, (a ≤ j < a + n)%nat → (j < 269)%nat ∧ slot C0 x j = 0) → tstate (J ++ seq a n) H y s C.
Proof.
  intros n. induction n as [|n IH]; intros a Hts Hz; [by rewrite app_nil_r|]. rewrite seq_S, app_assoc.
  destruct (Hz (a + n)%nat) as [Hj Hs]; [lia|]. apply tstate_zero; [|done|done]. apply IH; [done|]. intros j Hj'. apply Hz. lia.
Qed.

(** [if(ip->addrs[NDIRECT])]: the entries and then the indirect block itself. *)
Lemma wp_trunc_rest {A} s C (k : K A) Q : tstate (seq 0 12) ∅ (cleared 12 x) s C →
  (∀ s' C', tstate trunc_slots ∅ (cleared 13 x) s' C' → wpi Q (k s')) →
  wpi Q (((if addr_of 12 (cleared 12 x) =? 0 then mret tt
    else bp ← bread (i_dev (cleared 12 x)) (addr_of 12 (cleared 12 x));
      forM_ (seq 0 (Z.to_nat NINDIRECT)) (λ j, b ← getb bp;
        let a := get32 (4 * j) (b_data b) in if a =? 0 then mret tt else bfree (i_dev (cleared 12 x)) a);;
      brelse bp;; bfree (i_dev (cleared 12 x)) (addr_of 12 (cleared 12 x));; seti ip (set_addr 12 0));; k) s).
Proof.
  pose proof (fo_len _ _ _ _ _ _ Hfo) as Hl. intros Hts HQ. rewrite addr_of_cleared by lia.
  change (i_dev (cleared 12 x)) with (i_dev x). rewrite (fo_dev _ _ _ _ _ _ Hfo). apply wp_bind.
  assert (slot C0 x 12 = addr_of 12 x) as Ea by (apply slot_lt; lia). destruct (Z.eqb_spec (addr_of 12 x) 0) as [Hz|Hnz].
  { cbn [wp mret M_ret]. apply (HQ s C). rewrite cleared_zero by (done || lia). apply tstate_zero; [|lia|congruence].
    apply tstate_zeros; [done|]. intros j Hj. split; [lia|]. rewrite slot_ge, Hz by lia. done. }
  destruct (slot_data dev ls sz sb C0 x Hok Hfo Hone 12) as (_ & HnB & _); [lia|congruence|]. rewrite Ea in HnB.
  apply wp_bind. eapply pv_bread; [exact (ts_pv _ _ _ _ _ Hts)|done|rewrite map_size_empty; lia|]. intros bp s1 _ Hf1 Hp1. apply bframe_lframe in Hf1.
  assert (tstate (seq 0 12 ++ seq 13 0) {[bp := addr_of 12 x]} (cleared 12 x) s1 C) as H1.
  { rewrite app_nil_r. eapply tstate_lframe; [exact Hts|done|exact Hp1|apply Hts|apply Hts]. }
  change (Z.to_nat NINDIRECT) with 256%nat. apply wp_bind, (wp_trunc_indirect bp _ Hnz 256 0 s1 C); [done|done|]. intros s2 C2 H2.
  apply wp_bind. eapply pv_brelse; [exact (ts_pv _ _ _ _ _ H2)|by rewrite lookup_singleton_eq|apply not_elem_of_empty|].
  intros s3 Hf3 Hp3. apply bframe_lframe in Hf3. rewrite delete_singleton_eq in Hp3.
  assert (tstate (seq 0 12 ++ seq 13 256) ∅ (cleared 12 x) s3 C2) as H3 by (eapply tstate_lframe; [exact H2|done|exact Hp3|apply H2|apply H2]).
  apply wp_bind. rewrite <- Ea. eapply wp_free_slot; [exact H3| |lia|congruence|done|rewrite map_size_empty; lia|].
  { rewrite elem_of_app, !elem_of_seq. lia. }
  intros s4 C4 H4. apply (HQ (upd_inode ip (set_addr 12 0) s4) C4). rewrite <- cleared_S by (done || lia). by apply tstate_seti.
Qed.
End trunc.

(** The file of [x] is empty: exactly its blocks are free again, its inode is in
    its inode block, and every other file keeps its blocks and its bytes and every
    other inode its contents. *)
Record truncated dev ls sz sb (C : Z → list Z) (x : inode) (C' : Z → list Z) (x' : inode) : Prop := {
  tr_ino : x' = set_i_size 0 (set_i_addrs (replicate 13 0) x);
  tr_used m : 0 ≤ m < sb_size sb →
    used sb C' m = true ↔ used sb C m = true ∧ ∀ j, (j < 269)%nat → slot C x j = m → m = 0;
  tr_ok : fs_ok ls sz sb C' ∧ file_ok dev ls sz sb C' x';
  tr_disk inum : 0 ≤ inum < sb_ninodes sb →
    disk_inode sb C' inum = if decide (inum = i_inum x) then dinode_of x' else disk_inode sb C inum;
  tr_other y : file_ok dev ls sz sb C y → disjoint C x y →
    file_ok dev ls sz sb C' y ∧ ∀ k, 0 ≤ k < 268 * 1024 → fdata C' y k = fdata C y k }.

Section itrunc.
Context `{DK : Disk} `{W : Waits}.
Variables (E : stop → Prop) (i : nat) (dev ls sz : Z) (sb : superblock).
Abbreviation wpi := (wp E (λ _, True) idle).
Abbreviation fview := (fview i dev ls sz sb).

Lemma truncated_intro C x C1 : fs_ok ls sz sb C → file_ok dev ls sz sb C x → sb_size sb ≤ BPB →
  dinode_ok (dinode_of x) → 0 ≤ i_inum x < sb_ninodes sb → freed sb C x trunc_slots C1 →
  let x' := set_i_size 0 (cleared 13 x) in
  fs_ok ls sz sb C1 ∧ file_ok dev ls sz sb C1 x' ∧ truncated dev ls sz sb C x (updated sb C1 x') x'.
Proof.
  intros Hok Hfo Hone Hd Hi Hfr x'. pose proof (fo_len _ _ _ _ _ _ Hfo) as Hl.
  assert (∀ j, j ∈ trunc_slots → (j < 269)%nat) as HJ by (intros j; apply elem_of_trunc_slots).
  pose proof (freed_ok dev ls sz sb C x Hok Hfo Hone _ C1 HJ Hfr) as Hok1.
  assert (∀ C j, slot C x' j = 0) as Hs by (intros; by apply cleared_slots).
  assert (i_addrs x' = replicate 13 0) as Ha by (unfold x', cleared; cbn [i_addrs set_i_size set_i_addrs]; by rewrite drop_ge, app_nil_r by lia).
  assert (file_ok dev ls sz sb C1 x') as Hfo1.
  { split; [apply Hfo|by rewrite Ha|..]; intros *; rewrite ?Hs; done. }
  split_and!; [done|done|]. destruct (updated_files dev ls sz sb C1 x' Hok1 Hfo1 Hi) as (Hok2 & Hus & Hfiles).
  split.
  - rewrite <- Ha. done.
  - intros m Hm. rewrite Hus, (fr_used _ _ _ _ _ Hfr m Hm) by done. apply and_iff_compat_l.
    split; intros H j Hj; apply H; by apply elem_of_trunc_slots.
  - split; [done|]. by apply Hfiles.
  - intros inum Hn. assert (dinode_ok (dinode_of x')) as Hd' by (destruct Hd; split; cbn [dinode_of d_addrs]; rewrite ?Ha; try done; repeat constructor; lia).
    rewrite (updated_inode ls sz sb C1 x' inum Hok1 Hd' Hi Hn). change (i_inum x') with (i_inum x). case_decide; [done|].
    unfold disk_inode. rewrite (fr_keep _ _ _ _ _ Hfr); [done|]. pose proof (iblk_intro sb _ Hn) as Hb.
    rewrite <- (BBLOCK_one ls sz sb C Hok Hone (IBLOCK inum sb)) by by apply (fk_range _ _ _ _ Hok). by apply (fk_sep _ _ _ _ Hok), (fk_range _ _ _ _ Hok).
  - intros y Hy Hdis. destruct (freed_other dev ls sz sb C x Hok Hone _ C1 y HJ Hfr Hy Hdis) as (_ & Hy1 & Hd1).
    destruct (Hfiles y Hy1) as (_ & Hy2 & Hd2). split; [done|]. intros k Hk. by rewrite Hd2, Hd1.
Qed.

(** Two blocks of log: the one of the free map and the one of the inode. *)
Lemma wp_itrunc s C D ip x r w Q :
  fview s C D ip x ∅ (S (S r)) w → sb_size sb ≤ BPB → dinode_ok (dinode_of x) → 0 ≤ i_inum x < sb_ninodes sb →
  (∀ s' C' x', truncated dev ls sz sb C x C' x' → fframe ip s s' → fview s' C' D ip x' ∅ r w → Q tt s') →
  wpi Q (itrunc ip s).
Proof.
  intros [] Hone Hd Hi HQ. unfold itrunc. apply wp_bind.
  apply (wp_trunc_direct E i dev ls sz sb C x fv_dev fv_ok fv_file Hone s D w ip (S r) ltac:(lia) _ 12 0 s C); [done| |].
  { rewrite cleared_0 by apply fv_file. split; try done; [by apply tview_pview|intros j Hj; by apply not_elem_of_nil in Hj|by eapply freed_nil]. }
  intros s1 C1 H1. wstep. rewrite (inode_at_Some _ _ _ (ts_ip _ _ _ _ _ _ _ _ _ _ _ _ _ _ _ _ _ H1)).
  apply (wp_trunc_rest E i dev ls sz sb C x fv_dev fv_ok fv_file Hone s D w ip (S r) ltac:(lia) s1 C1); [done|].
  intros s2 C2 H2. wstep. apply tstate_seti with (f := set_i_size 0) in H2. destruct H2.
  destruct (truncated_intro C x C2) as (Hok2 & Hfo2 & Htr); try done.
  apply (wp_iupdate E i dev ls sz sb _ C2 D ip (set_i_size 0 (cleared 13 x)) r w); [|done|].
  - split; try done. by eapply pview_tview.
  - intros s3 Hf3 Hv3. apply (HQ s3 _ _ Htr); [|done]. etrans; [exact ts_frame0|by apply lframe_fframe].
Qed.
End itrunc.

(** Emptying a file in a transaction of its own, on a disk with one block of free
    map.  Every block of the file and its indirect block are free afterwards, and
    no other; its inode on the disk is empty; the other files are untouched.  The
    transaction needs two blocks of log for any size of the file, and a crash
    leaves all of this or nothing. *)
Theorem file_trunc_atomic `{DK : Disk} `{W : Waits} i dev ls sz sb s C ip x w :
  quiet i dev ls sz s C w → 0 ≤ dev < 2 ^ 32 → k_sb s = sb → k_inodes s !! ip = Some x →
  fs_ok ls sz sb C → file_ok dev ls sz sb C x → dinode_ok (dinode_of x) → 0 ≤ i_inum x < sb_ninodes sb →
  sb_size sb ≤ BPB → 2 < sz →
  wp (λ _, False) (λ _, True) idle (λ _ s', ∃ C' x' C'' ws,
      truncated dev ls sz sb C x C' x' ∧ k_inodes s' !! ip = Some x' ∧
      quiet i dev ls sz s' C'' (w ++ ws) ∧ (∀ n, ¬ log_area ls sz n → C'' n = C' n) ∧ atomic ls sz ws C C')
    ((begin_op;; itrunc ip;; end_op) s).
Proof.
  intros Hq Hdev Hsb Hip Hok Hfo Hd Hi Hone Hsz.
  destruct (begin_op_quiet i dev ls sz s C w 2 Hq) as (s1 & E1 & Hf1 & Ht1); [unfold NBUF; lia|lia|].
  apply (wp_ok _ _ _ _ _ _ _ _ _ E1). clear E1. destruct (lframe_get _ _ Hf1) as (Es & Ei & _).
  apply wp_bind, (wp_itrunc _ i dev ls sz sb s1 C C ip x 0 w); try done; [split; try done; congruence|].
  intros s2 C' x' Htr Hf2 []. apply (wp_end_op i dev ls sz _ s2 C' C 0 w); [done|apply Hq|].
  intros s3 C'' ws Hf3 Hq3 HC Hat. exists C', x', C'', ws. split_and!; try done.
  destruct (lframe_get _ _ Hf3) as (_ & -> & _). done.
Qed.

(** ** An instance *)

(** Block 47 holds the bytes of [ex_short]; its mark in the free map is set. *)
Definition ex_map47 : list Z := replicate 5 255 ++ [191] ++ replicate 1018 0.
Definition ex_disk47 : gmap Z (list Z) := <[45 := ex_map47]> ex_data.

Lemma ex47_block b : disk_block ex_disk47 b =
  if decide (b = 45) then ex_map47 else if decide (b = 47) then [7; 8; 9] ++ replicate 1021 0 else disk_block ex_disk b.
Proof.
  unfold disk_block, ex_disk47, ex_data. repeat case_decide; subst; [by rewrite lookup_insert_eq|by rewrite lookup_insert_ne, lookup_insert_eq|].
  by rewrite !lookup_insert_ne.
Qed.

Lemma ex47_used m : 0 ≤ m < 100 → used ex_sb (disk_block ex_disk) m = true → used ex_sb (disk_block ex_disk47) m = true.
Proof.
  intros Hm. unfold used. destruct (ex_bblock m Hm) as [-> ->]. rewrite (ex47_block 45), decide_True by done.
  change (disk_block ex_disk 45) with ex_map.
  assert (forallb (λ k : nat, implb (bit_set ex_map k) (bit_set ex_map47 k)) (seq 0 100) = true) as H by by vm_compute.
  rewrite forallb_forall in H. specialize (H (Z.to_nat m) ltac:(apply in_seq; lia)). rewrite Z2Nat.id in H by lia. intros Hu. by rewrite Hu in H.
Qed.

Lemma ex47_fs_ok : fs_ok 2 30 ex_sb (disk_block ex_disk47).
Proof.
  apply (fs_ok_update 2 30 ex_sb (disk_block ex_disk)); [exact ex_fs_ok| | |exact ex47_used].
  - intros m Hm. destruct (ex_bblock m Hm) as [-> _]. by rewrite ex47_block.
  - intros b Hb. pose proof (ex_iblock b Hb). rewrite ex47_block, !decide_False by lia. by apply (fk_len _ _ _ _ ex_fs_ok).
Qed.

Lemma ex_short_slot C j : slot C ex_short j = if decide (j = 0%nat) then 47 else 0.
Proof.
  destruct (decide (j < 13)%nat); [rewrite slot_lt by done|rewrite slot_ge, decide_False by lia; done].
  unfold addr_of. cbn. by do 13 (destruct j as [|j]; [done|]).
Qed.

Lemma ex_short_file : file_ok 1 2 30 ex_sb (disk_block ex_disk47) ex_short.
Proof.
  split; [done|done|..]; intros *; rewrite !ex_short_slot; repeat case_decide; try done; [|congruence].
  intros _ _. split_and!; [|by vm_compute|by rewrite ex47_block]. split; [cbn; lia|unfold log_area; lia| |].
  - intros m Hm. destruct (ex_bblock m Hm) as [-> _]. done.
  - intros Hb%ex_iblock. lia.
Qed.

Lemma ex47_quiet : quiet 0 1 2 30 (ex_files ex_inodes ex_idle_log ex_disk47) (disk_block ex_disk47) [].
Proof. split; [split; cbn; try done; lia|apply ex_files_rep|exact eq_refl|exact eq_refl|exact eq_refl|lia|by vm_compute]. Qed.

Lemma file_trunc_atomic_witness :
  wp (λ _, False) (λ _, True) idle (λ _ s', ∃ C' x' ws, truncated 1 2 30 ex_sb (disk_block ex_disk47) ex_short C' x' ∧
      used ex_sb C' 47 = false ∧ atomic 2 30 ws (disk_block ex_disk47) C')
    ((@begin_op 0%nat;; @itrunc ram_disk 0%nat 1;; @end_op ram_disk 0%nat) (ex_files ex_inodes ex_idle_log ex_disk47)).
Proof.
  eapply wp_mono; [|exact (@file_trunc_atomic ram_disk 0%nat 0 1 2 30 ex_sb _ _ 1%nat ex_short []
    ex47_quiet ltac:(lia) eq_refl eq_refl ex47_fs_ok ex_short_file ltac:(split; cbn; try lia; try done; repeat constructor; lia)
    ltac:(cbn; lia) ltac:(by vm_compute) ltac:(lia))].
  intros u s' (C' & x' & C'' & ws & Htr & _ & _ & _ & Ha). exists C', x', ws. split_and!; [done| |done].
  apply not_true_is_false. intros [_ H]%(tr_used _ _ _ _ _ _ _ _ Htr); [|cbn; lia]. by specialize (H 0%nat ltac:(lia) (ex_short_slot _ _)).
Defined.
