(* ===== verification/FsDir.v ===== *)
(** The inode table and directories: [iget] finds or makes the one entry of an
    inode, [dirlookup] finds the first entry with a name, [dirlink] adds one. *)

From S2P Require Import Prelude Machine Str Types Proc ProcSpec Rely Sleeplock Bio BioSpec BioContent BioRep Bytes Log LogSpec LogRun LogView Fs Dir FsFormat FsBlock FsData FsFile FsWrite.

(** ** The inode table *)

Definition is_inode (dev inum : Z) (x : inode) : Prop := 0 < i_ref x ∧ i_dev x = dev ∧ i_inum x = inum.

(** At most one entry in use per inode. *)
Record itable_ok (l : list inode) : Prop := {
  it_len : length l = NINODE;
  it_ref i x : l !! i = Some x → 0 ≤ i_ref x;
  it_one i j x y : l !! i = Some x → l !! j = Some y → is_inode (i_dev y) (i_inum y) x → 0 < i_ref y → i = j }.

(** The scan stops at the entry of the inode; if there is none it has the first
    free entry. *)
Lemma iget_scan_spec dev inum : ∀ l (k : nat) empty,
  match iget_scan (seq k (length l)) l dev inum empty with
  | inl i => ∃ j x, i = (k + j)%nat ∧ l !! j = Some x ∧ is_inode dev inum x
  | inr e => (∀ j x, l !! j = Some x → ¬ is_inode dev inum x) ∧
      match empty with
      | Some _ => e = empty
      | None => match e with
                | Some i => ∃ j x, i = (k + j)%nat ∧ l !! j = Some x ∧ i_ref x = 0
                | None => ∀ j x, l !! j = Some x → i_ref x ≠ 0
                end
      end
  end.
Proof.
  intros l. induction l as [|y l IH]; intros k empty; cbn [length seq iget_scan]; [by destruct empty|].
  destruct ((i_ref y >? 0) && (i_dev y =? dev) && (i_inum y =? inum)) eqn:Hm.
  { exists 0%nat, y. split_and!; [lia|done|]. rewrite Z.gtb_ltb in Hm.
    apply andb_true_iff in Hm as [[H1%Z.ltb_lt H2%Z.eqb_eq]%andb_true_iff H3%Z.eqb_eq]. by split_and!. }
  assert (¬ is_inode dev inum y) as Hy.
  { intros (H1 & <- & <-). rewrite Z.gtb_ltb, (proj2 (Z.ltb_lt _ _) H1), !Z.eqb_refl in Hm. done. }
  set (e' := if bool_decide (empty = None) && (i_ref y =? 0) then Some k else empty). specialize (IH (S k) e').
  destruct (iget_scan (seq (S k) (length l)) l dev inum e') as [i|e].
  { destruct IH as (j & x & -> & Hj & Hi). exists (S j), x. split_and!; [lia|done..]. }
  destruct IH as [Hno He]. split; [intros [|j] x Hj; [by injection Hj as <-|by apply (Hno j)]|].
  destruct empty as [m|]; [subst e'; by rewrite bool_decide_false in He|]. subst e'. rewrite bool_decide_true in He by done.
  cbn [andb] in He. destruct (Z.eqb_spec (i_ref y) 0) as [Hr|Hr].
  { subst e. exists 0%nat, y. split_and!; [lia|done..]. }
  destruct e as [i|].
  - destruct He as (j & x & -> & Hj & Hi). exists (S j), x. split_and!; [lia|done..].
  - intros [|j] x Hj; [by injection Hj as <-|by apply (He j)].
Qed.

(** The entry [iget] leaves: one more reference to the one in use, or a free
    one made over. *)
Definition gotten (dev inum : Z) (x y : inode) : Prop :=
  (is_inode dev inum x ∧ y = set_i_ref (i_ref x + 1) x) ∨
  (i_ref x = 0 ∧ y = set_i_valid false (set_i_ref 1 (set_i_inum inum (set_i_dev dev x)))).

Lemma iget_run dev inum s : length (k_inodes s) = NINODE →
  (∃ i x y, iget dev inum s = Ok i (set_inodes (<[i := y]> (k_inodes s)) s) ∧ k_inodes s !! i = Some x ∧ gotten dev inum x y ∧
     (i_ref x = 0 → ∀ j z, k_inodes s !! j = Some z → ¬ is_inode dev inum z)) ∨
  (iget dev inum s = Stop (Panics "iget: no inodes") s ∧ ∀ j z, k_inodes s !! j = Some z → i_ref z ≠ 0 ∧ ¬ is_inode dev inum z).
Proof.
  intros Hl. unfold iget. rewrite (bind_ok _ _ _ _ _ (eq_refl : gets k_inodes s = Ok (k_inodes s) s)), <- Hl.
  pose proof (iget_scan_spec dev inum (k_inodes s) 0 None) as Hs.
  destruct (iget_scan (seq 0 (length (k_inodes s))) (k_inodes s) dev inum None) as [i|[i|]].
  - destruct Hs as (j & x & -> & Hj & Hi). left. exists (0 + j)%nat, x, (set_i_ref (i_ref x + 1) x). split_and!; [|done|by left|].
    + unfold seti, modify, upd_inode, mbind, M_bind, mret, M_ret. cbn. by rewrite (alter_insert _ _ _ _ Hj).
    + intros Hz. destruct Hi. lia.
  - destruct Hs as [Hno (j & x & -> & Hj & Hr)]. left. exists (0 + j)%nat, x. eexists. split_and!; [|done|by right|done].
    unfold seti, modify, upd_inode, mbind, M_bind, mret, M_ret. cbn. rewrite !alter_alter. by rewrite (alter_insert _ _ _ _ Hj).
  - right. destruct Hs as [Hno He]. split; [done|]. intros j z Hj. split; [by apply (He j)|by apply (Hno j)].
Qed.

(** [iget] returns the entry of the inode: the one in use with one more
    reference, or a free one that has to be read from the disk.  No other entry
    changes, and there is still at most one entry in use per inode.  It panics
    exactly when the inode has no entry and none is free. *)
Theorem iget_correct dev inum s :
  itable_ok (k_inodes s) →
  match iget dev inum s with
  | Ok i s' => ∃ x y, k_inodes s !! i = Some x ∧ gotten dev inum x y ∧ s' = set_inodes (<[i := y]> (k_inodes s)) s ∧
      is_inode dev inum y ∧ itable_ok (k_inodes s') ∧
      ∀ j z, k_inodes s' !! j = Some z → is_inode dev inum z → j = i
  | Stop w s' => w = Panics "iget: no inodes" ∧ s' = s ∧
      ∀ j z, k_inodes s !! j = Some z → i_ref z ≠ 0 ∧ ¬ is_inode dev inum z
  | Switch _ _ => False
  end.
Proof.
  intros [Hl Hr H1]. destruct (iget_run dev inum s Hl) as [(i & x & y & -> & Hx & Hg & Hno)|[-> Hno]]; [|done].
  pose proof (lookup_lt_Some _ _ _ Hx) as Hi.
  assert (is_inode dev inum y) as Hy by (destruct Hg as [[(? & ? & ?) ->]|[_ ->]]; split_and!; cbn; (done || lia)).
  assert (∀ j z, <[i:=y]> (k_inodes s) !! j = Some z → is_inode dev inum z → j = i) as Honly.
  { intros j z Hz Hzi. destruct (decide (j = i)) as [|Hne]; [done|]. rewrite list_lookup_insert_ne in Hz by done.
    destruct Hg as [[Hxi _]|[Hx0 _]]; [|by destruct (Hno Hx0 j z)].
    destruct Hxi as (? & Ed & En). apply (H1 j i z x); [done|done|by rewrite Ed, En|done]. }
  exists x, y. split_and!; [done|done|done|done| |done]. split; cbn.
  - by rewrite length_insert.
  - intros j z Hz. destruct (decide (j = i)) as [->|Hne].
    + rewrite list_lookup_insert_eq in Hz by done. injection Hz as <-. destruct Hy. lia.
    + rewrite list_lookup_insert_ne in Hz by done. by apply (Hr j).
  - assert (∀ a, <[i:=y]> (k_inodes s) !! i = Some a → a = y) as Hat.
    { intros a Ha. rewrite list_lookup_insert_eq in Ha by done. congruence. }
    destruct Hy as (Hy1 & Hy2 & Hy3).
    intros j k a b Ha Hb Hab Hb0. destruct (decide (k = i)) as [->|Hk].
    + rewrite (Hat b Hb), Hy2, Hy3 in Hab. by apply (Honly j a).
    + destruct (decide (j = i)) as [->|Hj].
      * rewrite (Hat a Ha) in Hab. destruct Hab as (_ & E1 & E2). symmetry. apply (Honly k b Hb). split_and!; congruence.
      * rewrite list_lookup_insert_ne in Ha, Hb by done. by apply (H1 j k a b).
Qed.

(** ** Names *)

(** The C string in the first [n] bytes. *)
Fixpoint cstr (n : nat) (p : list Z) : list Z :=
  match n, p with
  | S n', c :: p' => if c =? 0 then [] else c :: cstr n' p'
  | _, _ => []
  end.
Definition cname (p : list Z) : list Z := cstr (Z.to_nat DIRSIZ) p.

Lemma strncmp_bytes_zero n p q : strncmp_bytes n p q = 0 ↔ cstr n p = cstr n q.
Proof.
  revert p q. induction n as [|n IH]; intros p q; [done|]. cbn [strncmp_bytes cstr].
  destruct p as [|c p], q as [|d q]; cbn.
  - done.
  - destruct (Z.eqb_spec d 0) as [->|]; [done|]. split; [lia|done].
  - destruct (Z.eqb_spec c 0) as [->|]; [done|]. cbn. split; [lia|done].
  - destruct (Z.eqb_spec c 0) as [->|]; cbn.
    + destruct (Z.eqb_spec d 0) as [->|]; [done|]. split; [lia|done].
    + destruct (Z.eqb_spec c d) as [->|].
      * rewrite (proj2 (Z.eqb_neq d 0)), IH by done. split; [by intros ->|by intros [= ?]].
      * split; [lia|]. destruct (d =? 0); [done|]. by intros [= ? ?].
Qed.

Lemma cstr_strncpy n p : cstr n (strncpy_bytes n p) = cstr n p.
Proof.
  unfold strncpy_bytes. revert p. induction n as [|n IH]; intros p; [done|]. destruct p as [|c p]; cbn; [done|].
  case_match; [done|]. f_equal. apply IH.
Qed.

Lemma length_strncpy n p : length (strncpy_bytes n p) = n.
Proof. unfold strncpy_bytes. rewrite length_app, length_take, length_replicate. lia. Qed.

Lemma mk_dirent_roundtrip inum name : 0 ≤ inum < 2 ^ 16 →
  de_inum (mk_dirent inum name) = inum ∧ cname (de_name (mk_dirent inum name)) = cname name ∧ length (mk_dirent inum name) = 16%nat.
Proof.
  intros H. unfold mk_dirent, de_inum, de_name, get16, get_le, cname. split_and!.
  - rewrite drop_0, take_app_length' by by rewrite length_le_split.
    rewrite le_combine_split_mod. by apply Z.mod_small.
  - rewrite drop_app_length' by by rewrite length_le_split. apply cstr_strncpy.
  - rewrite length_app, length_le_split, length_strncpy. done.
Qed.

(** ** Directories *)

(** The entries of the directory [x], [16] bytes each. *)
Definition dirent (C : Z → list Z) (x : inode) (k : nat) : list Z := file_bytes C x (16 * k) 16.
Definition nents (x : inode) : nat := Z.to_nat (i_size x / 16).

(** Entry [k] is in use and has the name. *)
Definition entry_is (C : Z → list Z) (x : inode) (name : list Z) (k : nat) : Prop :=
  de_inum (dirent C x k) ≠ 0 ∧ cname name = cname (de_name (dirent C x k)).
#[global] Instance entry_is_dec C x name k : Decision (entry_is C x name k).
Proof. unfold entry_is. apply _. Defined.

(** The first entry with the name. *)
Definition dir_find (C : Z → list Z) (x : inode) (name : list Z) : option nat :=
  fst <$> list_find (entry_is C x name) (seq 0 (nents x)).

Lemma dir_find_Some C x name k : (k < nents x)%nat → entry_is C x name k → (∀ j, (j < k)%nat → ¬ entry_is C x name j) →
  dir_find C x name = Some k.
Proof.
  intros Hk He Hno. unfold dir_find. assert (list_find (entry_is C x name) (seq 0 (nents x)) = Some (k, k)) as ->; [|done].
  apply list_find_Some. split_and!; [by rewrite lookup_seq_lt|done|]. intros j y Hj Hlt.
  apply lookup_seq in Hj as [-> _]. by apply Hno.
Qed.

Lemma dir_find_None C x name : (∀ j, (j < nents x)%nat → ¬ entry_is C x name j) → dir_find C x name = None.
Proof.
  intros Hno. unfold dir_find. assert (list_find (entry_is C x name) (seq 0 (nents x)) = None) as ->; [|done].
  apply list_find_None, list.Forall_forall. intros j Hj. apply elem_of_seq in Hj. apply Hno. lia.
Qed.

Lemma dir_find_spec C x name :
  match dir_find C x name with
  | Some k => (k < nents x)%nat ∧ entry_is C x name k
  | None => ∀ j, (j < nents x)%nat → ¬ entry_is C x name j
  end.
Proof.
  unfold dir_find. destruct (list_find (entry_is C x name) (seq 0 (nents x))) as [[k y]|] eqn:E; cbn.
  - apply list_find_Some in E as (Hk & He & _). apply lookup_seq in Hk as [-> Hk]. done.
  - apply list_find_None in E. rewrite list.Forall_forall in E. intros j Hj. apply E, elem_of_seq. lia.
Qed.

(** A directory: whole entries, all of them there. *)
Record dir_ok (dev : Z) (C : Z → list Z) (x : inode) : Prop := {
  do_dev : i_dev x = dev;
  do_type : i_type x = T_DIR;
  do_size : 0 ≤ i_size x ≤ 268 * 1024;
  do_whole : i_size x mod 16 = 0;
  do_mapped : mapped C x (i_size x) }.

Section dirs.
Context `{DK : Disk} `{W : Waits}.
Variables (E : stop → Prop) (i : nat) (dev : Z).
Abbreviation wpi := (wp E (λ _, True) idle).

(** Reading entry [k]. *)
Lemma wp_read_dirent {A} s C D P w dp x (k : nat) (f : Z * list Z → K A) Q :
  clean i dev s C D P w → k_inodes s !! dp = Some x → dir_ok dev C x → (k < nents x)%nat →
  (∀ s', bframe s s' → clean i dev s' C D P w → wpi Q (f (16, dirent C x k) s')) →
  wpi Q ((r ← readi_obj dp (16 * k) 16; f r) s).
Proof.
  intros Hc Hip [] Hk HQ. unfold nents in Hk. apply wp_bind. apply (wp_readi_obj _ i dev s C D P w dp x); try done; [dlia|dlia|].
  intros s' Hf Hc'. replace (Z.min 16 (i_size x - 16 * k)) with 16 by dlia. by apply HQ.
Qed.

Lemma wp_dirlookup_loop s0 C D P w dp x name Q : dir_ok dev C x →
  (∀ s1, dir_find C x name = None → bframe s0 s1 → clean i dev s1 C D P w → Q None s1) →
  (∀ k s1, dir_find C x name = Some k → bframe s0 s1 → clean i dev s1 C D P w →
     wpi (λ ip s2, Q (Some (ip, 16 * Z.of_nat k)) s2) (iget dev (de_inum (dirent C x k)) s1)) →
  ∀ (fuel : nat) s (k : nat),
  bframe s0 s → clean i dev s C D P w → k_inodes s !! dp = Some x → (nents x ≤ k + fuel)%nat → (k ≤ nents x)%nat →
  (∀ j, (j < k)%nat → ¬ entry_is C x name j) →
  wpi Q (dirlookup_loop fuel dp name (16 * Z.of_nat k) s).
Proof.
  intros Hd HQ0 HQ fuel. pose proof (do_size _ _ _ Hd) as Hsz. pose proof (do_whole _ _ _ Hd) as Hw.
  assert (∀ k : nat, (16 * k <? i_size x) = bool_decide (k < nents x)%nat) as Hend.
  { intros k. unfold nents. case_bool_decide; [apply Z.ltb_lt|apply Z.ltb_ge]; dlia. }
  induction fuel as [|fuel IH]; intros s k Hf Hc Hip Hfu Hk Hno; cbn [dirlookup_loop]; wstep;
    rewrite (inode_at_Some _ _ _ Hip), Hend.
  { rewrite bool_decide_false by lia. apply HQ0; [|done|done]. apply dir_find_None. intros j Hj. apply Hno. lia. }
  case_bool_decide as Hlt.
  2:{ apply HQ0; [|done|done]. apply dir_find_None. intros j Hj. apply Hno. lia. }
  apply (wp_read_dirent s C D P w dp x); [done..|]. intros s1 Hf1 Hc1. cbn [fst snd]. change (negb (16 =? 16)) with false. cbv iota.
  assert (k_inodes s1 !! dp = Some x) as Hip1 by (by destruct (bframe_get _ _ Hf1) as (_ & _ & -> & _)).
  assert (¬ entry_is C x name k → wpi Q (dirlookup_loop fuel dp name (u32 (16 * k + 16)) s1)) as Hnext.
  { intros Hne. unfold nents in *. rewrite u32_small by dlia. replace (16 * k + 16) with (16 * Z.of_nat (S k)) by lia.
    apply IH; [by etrans|done|done|lia|lia|]. intros j Hj. destruct (decide (j = k)) as [->|]; [done|]. apply Hno. lia. }
  destruct (Z.eqb_spec (de_inum (dirent C x k)) 0) as [Hz|Hnz]; [apply Hnext; by intros []|].
  pose proof (strncmp_bytes_zero (Z.to_nat DIRSIZ) name (de_name (dirent C x k))) as Hcmp.
  fold (namecmp name (de_name (dirent C x k))) in Hcmp.
  destruct (Z.eqb_spec (namecmp name (de_name (dirent C x k))) 0) as [Hn|Hn].
  - rewrite (do_dev _ _ _ Hd). apply wp_bind. eapply wp_mono; [|apply (HQ k); [|by etrans|done]]; [done|].
    apply dir_find_Some; [done| |done]. split; [done|]. by apply Hcmp.
  - apply Hnext. intros [_ He]. by apply Hn, Hcmp.
Qed.

Lemma wp_dirlookup s C D P w dp x name Q :
  clean i dev s C D P w → k_inodes s !! dp = Some x → dir_ok dev C x →
  (∀ s1, dir_find C x name = None → bframe s s1 → clean i dev s1 C D P w → Q None s1) →
  (∀ k s1, dir_find C x name = Some k → bframe s s1 → clean i dev s1 C D P w →
     wpi (λ ip s2, Q (Some (ip, 16 * Z.of_nat k)) s2) (iget dev (de_inum (dirent C x k)) s1)) →
  wpi Q (dirlookup dp name s).
Proof.
  intros Hc Hip Hd HQ0 HQ. unfold dirlookup. wstep. rewrite (inode_at_Some _ _ _ Hip), (do_type _ _ _ Hd).
  change (negb (T_DIR =? T_DIR)) with false. cbv iota.
  apply (wp_dirlookup_loop s C D P w dp x name Q Hd HQ0 HQ _ s 0); try done; unfold nents; lia.
Qed.

(** The first free entry, or the end. *)
Definition free_entry (C : Z → list Z) (x : inode) (k : nat) : Prop :=
  (k ≤ nents x)%nat ∧ ((k < nents x)%nat → de_inum (dirent C x k) = 0) ∧ ∀ j, (j < k)%nat → de_inum (dirent C x j) ≠ 0.

Lemma wp_dirlink_slot s0 C D P w dp x Q : dir_ok dev C x →
  (∀ k s1, free_entry C x k → bframe s0 s1 → clean i dev s1 C D P w → Q (16 * Z.of_nat k) s1) →
  ∀ (fuel : nat) s (k : nat),
  bframe s0 s → clean i dev s C D P w → k_inodes s !! dp = Some x → (nents x ≤ k + fuel)%nat → (k ≤ nents x)%nat →
  (∀ j, (j < k)%nat → de_inum (dirent C x j) ≠ 0) →
  wpi Q (dirlink_slot fuel dp (16 * Z.of_nat k) s).
Proof.
  intros Hd HQ fuel. pose proof (do_size _ _ _ Hd) as Hsz. pose proof (do_whole _ _ _ Hd) as Hw.
  assert (∀ k : nat, (16 * k <? i_size x) = bool_decide (k < nents x)%nat) as Hend.
  { intros k. unfold nents. case_bool_decide; [apply Z.ltb_lt|apply Z.ltb_ge]; dlia. }
  induction fuel as [|fuel IH]; intros s k Hf Hc Hip Hfu Hk Hno; cbn [dirlink_slot]; wstep;
    rewrite (inode_at_Some _ _ _ Hip), Hend.
  { rewrite bool_decide_false by lia. apply HQ; [|done|done]. split_and!; [lia|lia|done]. }
  case_bool_decide as Hlt; [|apply HQ; [split_and!; [lia|lia|done]|done|done]].
  apply (wp_read_dirent s C D P w dp x); [done..|]. intros s1 Hf1 Hc1. cbn [fst snd]. change (negb (16 =? 16)) with false. cbv iota.
  destruct (Z.eqb_spec (de_inum (dirent C x k)) 0) as [Hz|Hnz].
  - apply HQ; [by split_and!|by etrans|done].
  - replace (16 * k + 16) with (16 * Z.of_nat (S k)) by lia. apply IH; [by etrans|done| |lia|lia|].
    + by destruct (bframe_get _ _ Hf1) as (_ & _ & -> & _).
    + intros j Hj. destruct (decide (j = k)) as [->|]; [done|]. apply Hno. lia.
Qed.
End dirs.

(** [dirlookup] returns the inode and the offset of the first entry in use that
    has the name, with a reference taken by [iget], and nothing if there is no
    such entry.  It changes nothing but the reference; it stops only when the
    inode table is full. *)
Theorem dirlookup_correct `{DK : Disk} `{W : Waits} i dev s C D P w dp x name :
  clean i dev s C D P w → k_inodes s !! dp = Some x → dir_ok dev C x → length (k_inodes s) = NINODE →
  wp (λ e, e = Panics "iget: no inodes" ∧ ∀ j z, k_inodes s !! j = Some z → i_ref z ≠ 0) (λ _, True) idle (λ r s',
      match dir_find C x name with
      | None => r = None ∧ bframe s s'
      | Some k => ∃ ip s1 z y, r = Some (ip, 16 * Z.of_nat k) ∧ bframe s s1 ∧ k_inodes s !! ip = Some z ∧
          gotten dev (de_inum (dirent C x k)) z y ∧ s' = set_inodes (<[ip := y]> (k_inodes s)) s1
      end)
    (dirlookup dp name s).
Proof.
  intros Hc Hip Hd Hl. apply (wp_dirlookup _ i dev s C D P w dp x); [done..| |].
  - intros s1 -> Hf _. done.
  - intros k s1 -> Hf _. assert (k_inodes s1 = k_inodes s) as Ei by (by destruct (bframe_get _ _ Hf) as (_ & _ & -> & _)).
    destruct (iget_run dev (de_inum (dirent C x k)) s1) as [(ip & z & y & -> & Hz & Hg & _)|[-> Hno]]; [by rewrite Ei| |].
    + cbn. exists ip, s1, z, y. rewrite Ei in *. done.
    + cbn. split; [done|]. intros j z Hj. by apply (Hno j z); rewrite Ei.
Qed.

(** ** Adding an entry *)

(** A transaction read through its cache. *)
Lemma tview_clean `{DK : Disk} `{W : Waits} i dev ls sz s C D r w :
  tview i dev ls sz s C D ∅ ∅ r w →
  ∃ P, clean i dev s C D P w ∧ ∀ s', bframe s s' → clean i dev s' C D P w → tview i dev ls sz s' C D ∅ ∅ r w.
Proof.
  intros (bl & [] & Ho & Hc). exists (list_to_set bl). split; [split; [done| |]|].
  - rewrite size_list_to_set by done. lia.
  - intros n. destruct (tx_dirty n) as [|]; [apply not_elem_of_empty| |by right]. left. by apply elem_of_list_to_set.
  - intros s' Hf []. destruct (bframe_get _ _ Hf) as (El & _). exists bl. rewrite El. split; [|done]. by split; rewrite ?El.
Qed.

(** The entries after one was written. *)
Lemma written_dirent dev ls sz sb obj C x k C' x' (k0 j : nat) :
  written dev ls sz sb obj (16 * k0) C x k C' x' → length obj = 16%nat → k = 16 → 16 * (j + 1) ≤ 268 * 1024 →
  dirent C' x' j = if decide (j = k0) then obj else dirent C x j.
Proof.
  intros Hw Hl -> Hj. unfold dirent, file_bytes. case_decide as Ej.
  - subst. apply list_eq. intros m. rewrite list_lookup_fmap. destruct (decide (m < 16)%nat).
    + rewrite lookup_seq_lt by done. cbn [fmap option_fmap option_map]. rewrite (wr_data _ _ _ _ _ _ _ _ _ _ _ Hw) by lia.
      rewrite decide_True by lia. replace (Z.to_nat _) with m by lia.
      destruct (lookup_lt_is_Some_2 obj m) as [v ->]; [lia|done].
    + rewrite lookup_seq_ge by lia. symmetry. apply lookup_ge_None. lia.
  - apply list_fmap_ext. intros m a Ha. apply lookup_seq in Ha as [-> Hm].
    rewrite (wr_data _ _ _ _ _ _ _ _ _ _ _ Hw) by lia. by rewrite decide_False by lia.
Qed.

(** The directory with one more entry, under the first free one. *)
Record linked (dev : Z) (C : Z → list Z) (x : inode) (name : list Z) (inum : Z) (k0 : nat) (C' : Z → list Z) (x' : inode)
    : Prop := {
  lk_dir : dir_ok dev C' x';
  lk_entry : dirent C' x' k0 = mk_dirent inum name;
  lk_other j : j ≠ k0 → (j < nents x)%nat → dirent C' x' j = dirent C x j;
  lk_nents : nents x' = Nat.max (nents x) (S k0);
  lk_find : dir_find C' x' name = Some k0 }.

Lemma written_linked dev ls sz sb C x name inum k0 C' x' :
  dir_ok dev C x → i_size x < 268 * 1024 → 0 < inum < 2 ^ 16 → dir_find C x name = None → free_entry C x k0 →
  written dev ls sz sb (mk_dirent inum name) (16 * k0) C x 16 C' x' → linked dev C x name inum k0 C' x'.
Proof.
  intros Hd Hsz Hi Hnone (Hk0 & Hfree & Hused) Hw. destruct (mk_dirent_roundtrip inum name) as (Hr1 & Hr2 & Hr3); [lia|].
  pose proof (do_size _ _ _ Hd). pose proof (do_whole _ _ _ Hd). pose proof (wr_ino _ _ _ _ _ _ _ _ _ _ _ Hw) as Ex.
  assert (i_size x' = Z.max (i_size x) (16 * k0 + 16)) as Es by by rewrite Ex.
  assert (∀ j, (j ≤ nents x)%nat → dirent C' x' j = if decide (j = k0) then mk_dirent inum name else dirent C x j) as Hent.
  { intros j Hj. unfold nents in *. apply (written_dirent dev ls sz sb _ C x 16); try done. dlia. }
  assert (nents x' = Nat.max (nents x) (S k0)) as En by (unfold nents in *; rewrite Es; dlia).
  assert (dirent C' x' k0 = mk_dirent inum name) as He0 by (rewrite Hent by done; by rewrite decide_True).
  split; [|done| |done|].
  - split; [rewrite Ex; apply Hd|rewrite Ex; apply Hd|unfold nents in *; rewrite Es; dlia|unfold nents in *; rewrite Es; dlia|].
    apply (wr_mapped _ _ _ _ _ _ _ _ _ _ _ Hw), Hd.
  - intros j Hj Hlt. rewrite Hent by lia. by rewrite decide_False.
  - apply dir_find_Some; [lia|split; rewrite He0; [by rewrite Hr1; lia|done]|].
    intros j Hj [H1 H2]. rewrite Hent, decide_False in H1, H2 by lia.
    pose proof (dir_find_spec C x name) as Hs. rewrite Hnone in Hs. by apply (Hs j); [lia|].
Qed.


(** ** Instances of the theorems *)

Lemma iget_correct_witness :
  itable_ok (k_inodes kstate0) ∧ match iget 1 5 kstate0 with Ok i s' => itable_ok (k_inodes s') | _ => False end.
Proof.
  assert (∀ i x, k_inodes kstate0 !! i = Some x → x = inode0) as Hx by (intros i x [-> _]%lookup_replicate; done).
  assert (itable_ok (k_inodes kstate0)) as Hok.
  { split; [apply length_replicate|intros i x ->%Hx; done|]. intros i j x y ->%Hx ->%Hx _. cbn. lia. }
  split; [exact Hok|]. pose proof (iget_correct 1 5 kstate0 Hok) as H.
  destruct (iget 1 5 kstate0) as [i s'|w s'|s' k]; [by destruct H as (x & y & _ & _ & _ & _ & ? & _)| |done].
  destruct H as (_ & _ & H). by destruct (H 0%nat inode0 eq_refl).
Defined.

(** An empty directory, and one with a single entry named a, inode 5, in block 47. *)
Definition ex_dir0 : inode := set_i_type T_DIR ex_empty.
Definition ex_dir1 : inode := mkInode 1 6 1 slk0 true T_DIR 0 0 1 16 (47 :: replicate 12 0).
Definition ex_entry : gmap Z (list Z) := <[47 := mk_dirent 5 [97] ++ replicate 1008 0]> ex_disk.
Definition ex_dirs : list inode := [ex_dir0; ex_dir1] ++ replicate 48 inode0.
Definition ex_open_log : log_t := mkLog 2 30 1 false 1 0 (replicate 30 0).

Lemma dirlookup_correct_witness :
  wp (λ e, e = Panics "iget: no inodes" ∧ ∀ j z, ex_dirs !! j = Some z → i_ref z ≠ 0) (λ _, True) idle
    (λ r _, ∃ ip, r = Some (ip, 0)) (@dirlookup ram_disk 0%nat 1 [97] (ex_files ex_dirs ex_idle_log ex_entry)).
Proof.
  assert (dir_ok 1 (disk_block ex_entry) ex_dir1) as Hd.
  { split; cbn; try done. intros bn H1 H2. assert (bn = 0) as -> by lia. by vm_compute. }
  eapply wp_mono; [|exact (@dirlookup_correct ram_disk 0%nat 0 1 (ex_files ex_dirs ex_idle_log ex_entry) _ _ ∅ [] 1%nat ex_dir1 [97]
    (Build_clean 0 1 _ _ _ _ _ (ex_files_rep ex_dirs ex_idle_log ex_entry) ltac:(rewrite size_empty; unfold NBUF; lia) (λ n, or_intror eq_refl))
    eq_refl Hd eq_refl)].
  assert (dir_find (disk_block ex_entry) ex_dir1 [97] = Some 0%nat) as -> by by vm_compute.
  intros r s' (ip & _ & _ & _ & -> & _). by exists ip.
Defined.

