(* ===== verification/FsPath.v ===== *)
(** Path names: [namex] follows the elements of a path through the directories
    on the disk.  It takes and drops references to inodes on the way; only the
    one it returns is left. *)

From stdpp Require Import gmultiset.
From S2P Require Import Prelude Machine Str Types Proc ProcSpec Rely Sleeplock Bio BioSpec BioContent BioRep Bytes Log LogSpec LogRun LogView Fs Dir FsFormat FsBlock FsData FsFile FsWrite FsDir.

(** ** The inode table as a multiset of references *)

Section irep.
Variables (dev : Z) (sb : superblock) (C : Z → list Z) (pid : Z).

(** The references [R] are what the entries in use count, one entry per inode;
    an entry that was read is as on the disk; at most the entry [held] is locked,
    by the process [pid]. *)
Record irep (l : list inode) (R : gmultiset Z) (held : option nat) : Prop := {
  ir_len : length l = NINODE;
  ir_ref j x : l !! j = Some x → 0 ≤ i_ref x;
  ir_ent j x : l !! j = Some x → i_ref x ≠ 0 → i_dev x = dev ∧ i_ref x = multiplicity (i_inum x) R;
  ir_in n : n ∈ R → ∃ j x, l !! j = Some x ∧ i_ref x ≠ 0 ∧ i_inum x = n;
  ir_one j k x y : l !! j = Some x → l !! k = Some y → i_ref x ≠ 0 → i_ref y ≠ 0 → i_inum x = i_inum y → j = k;
  ir_disk j x : l !! j = Some x → i_ref x ≠ 0 → i_valid x = true → dinode_of x = disk_inode sb C (i_inum x);
  ir_lock j x : l !! j = Some x → if decide (held = Some j) then i_lock x = mkSlk true pid else sl_locked (i_lock x) = false }.

(** A change of one entry. *)
Lemma irep_upd l R held j x y R' held' : irep l R held → l !! j = Some x →
  i_ref y = multiplicity (i_inum y) R' → (∀ n, n ≠ i_inum y → multiplicity n R' = multiplicity n R) →
  (i_ref x ≠ 0 ∧ i_inum x = i_inum y) ∨ (i_ref x = 0 ∧ i_inum y ∉ R) →
  (i_ref y ≠ 0 → i_dev y = dev ∧ (i_valid y = true → dinode_of y = disk_inode sb C (i_inum y))) →
  (if decide (held' = Some j) then i_lock y = mkSlk true pid else sl_locked (i_lock y) = false) →
  (∀ k, k ≠ j → held' = Some k ↔ held = Some k) →
  irep (<[j := y]> l) R' held'.
Proof.
  intros [] Hj Hr Hm Hxy Hy Hlk Hh. pose proof (lookup_lt_Some _ _ _ Hj) as Hlt.
  assert (∀ k z, <[j := y]> l !! k = Some z → (k = j ∧ z = y) ∨ (k ≠ j ∧ l !! k = Some z)) as Hlook.
  { intros k z Hz. destruct (decide (k = j)) as [->|]; [|rewrite list_lookup_insert_ne in Hz by done; by right].
    rewrite list_lookup_insert_eq in Hz by done. left. split; congruence. }
  assert (∀ k z, k ≠ j → l !! k = Some z → i_ref z ≠ 0 → i_inum z ≠ i_inum y) as Hother.
  { intros k z Hk Hz Hz0 Heq. destruct Hxy as [[Hx0 Hx]|[Hx0 Hx]]; [by apply Hk, (ir_one0 k j z x); congruence|].
    destruct (ir_ent0 k z Hz Hz0) as [_ Hc]. apply Hx. rewrite <- Heq. unfold elem_of, gmultiset_elem_of. lia. }
  split.
  - by rewrite length_insert.
  - intros k z [[-> ->]|[Hk Hz]]%Hlook; [lia|by apply (ir_ref0 k)].
  - intros k z [[-> ->]|[Hk Hz]]%Hlook Hz0; [by split; [apply Hy|]|]. rewrite Hm by by apply (Hother k). by apply (ir_ent0 k).
  - intros n Hn. destruct (decide (n = i_inum y)) as [->|Hne].
    + exists j, y. rewrite list_lookup_insert_eq by done. split_and!; [done| |done]. unfold elem_of, gmultiset_elem_of in Hn. lia.
    + destruct (ir_in0 n) as (k & z & Hz & Hz0 & <-); [unfold elem_of, gmultiset_elem_of in *; by rewrite <- Hm|].
      exists k, z. rewrite list_lookup_insert_ne; [done|]. intros ->. destruct Hxy as [[_ Hx]|[Hx _]]; congruence.
  - intros k k' a b [[-> ->]|[Hk Ha]]%Hlook [[-> ->]|[Hk' Hb]]%Hlook H1 H2 Eq; [done| | |by apply (ir_one0 k k' a b)].
    + by destruct (Hother k' b Hk' Hb H2).
    + by destruct (Hother k a Hk Ha H1).
  - intros k z [[-> ->]|[Hk Hz]]%Hlook Hz0; [by apply Hy|by apply (ir_disk0 k)].
  - intros k z [[-> ->]|[Hk Hz]]%Hlook; [done|]. specialize (ir_lock0 k z Hz). destruct (Hh k Hk).
    repeat case_decide; naive_solver.
Qed.

(** A table without a free entry has that many inodes. *)
Lemma irep_full l R held : irep l R held → (∀ j x, l !! j = Some x → i_ref x ≠ 0) → (NINODE ≤ size (dom R))%nat.
Proof.
  intros [] Hall. assert (NoDup (i_inum <$> l)) as Hnd.
  { apply NoDup_alt. intros j k n Hj Hk. rewrite list_lookup_fmap in Hj, Hk.
    destruct (l !! j) as [x|] eqn:Ex, (l !! k) as [y|] eqn:Ey; try done. injection Hj as Hj. injection Hk as Hk.
    apply (ir_one0 j k x y); eauto. congruence. }
  rewrite <- ir_len0, <- (length_fmap i_inum), <- (size_list_to_set (C := gset Z) _ Hnd). apply subseteq_size.
  intros n Hn. apply elem_of_list_to_set, list_elem_of_fmap in Hn as (x & -> & Hx). apply list_elem_of_lookup in Hx as [j Hj].
  apply gmultiset_elem_of_dom. destruct (ir_ent0 j x Hj (Hall j x Hj)) as [_ Hc]. specialize (Hall j x Hj).
  unfold elem_of, gmultiset_elem_of. lia.
Qed.
End irep.

(** [s'] is [s] up to the inode table, the cache and idling. *)
Definition nframe (s s' : kstate) : Prop := bframe (set_inodes (k_inodes s') s) s'.

Lemma bframe_inodes v s s' : bframe s s' → bframe (set_inodes v s) (set_inodes v s').
Proof. intros H. unfold bframe in *. by apply (idle_inodes _ _ v) in H. Qed.

#[global] Instance nframe_preorder : PreOrder nframe.
Proof.
  split; [intros s; unfold nframe; by destruct s|]. unfold nframe. intros s1 s2 s3 H1 H2.
  etrans; [|exact H2]. by apply (bframe_inodes (k_inodes s3)) in H1.
Qed.

Lemma bframe_nframe s s' : bframe s s' → nframe s s'.
Proof. intros H. unfold nframe. destruct (bframe_get _ _ H) as (_ & _ & -> & _). by destruct s. Qed.
Lemma nframe_inodes v s : nframe s (set_inodes v s).
Proof. by destruct s. Qed.

(** Entry [ip] is in use for inode [n]. *)
Definition at_ino (s : kstate) (ip : nat) (n : Z) : Prop := ∃ x, k_inodes s !! ip = Some x ∧ i_ref x ≠ 0 ∧ i_inum x = n.

Section nview.
Context `{DK : Disk} `{W : Waits}.
Variables (E : stop → Prop) (i : nat) (dev : Z) (sb : superblock) (C D : Z → list Z) (P : gset Z) (w : list (Z * list Z)).
Abbreviation wpi := (wp E (λ _, True) idle).

(** The file system as a thread sees it that only reads: the blocks are [C], its
    references to inodes and those of others [R]. *)
Record nview (s : kstate) (R : gmultiset Z) (held : option nat) : Prop := {
  nv_clean : clean i dev s C D P w;
  nv_sb : k_sb s = sb;
  nv_rep : irep dev sb C (cur_pid s) (k_inodes s) R held }.

Lemma clean_inodes s v : clean i dev s C D P w → clean i dev (set_inodes v s) C D P w.
Proof.
  intros []. split; try done. destruct cl_rep as [H1 H2 H3 H4 H5 H6 H7 H8 H9 H10 H11]. split; try done. by destruct H1.
Qed.

Lemma nview_bframe s R h s' : nview s R h → bframe s s' → clean i dev s' C D P w → nview s' R h.
Proof.
  intros [] Hf Hc. destruct (bframe_get _ _ Hf) as (_ & Es & Ei & _). split; [done|congruence|]. by rewrite Ei, (bframe_pid _ _ Hf).
Qed.

Lemma nview_inodes s R h v R' h' : nview s R h → irep dev sb C (cur_pid s) v R' h' → nview (set_inodes v s) R' h'.
Proof. intros [] Hi. split; [by apply clean_inodes|done|done]. Qed.

Lemma at_ino_bframe s s' j n : bframe s s' → at_ino s j n → at_ino s' j n.
Proof. intros Hf. unfold at_ino. by destruct (bframe_get _ _ Hf) as (_ & _ & -> & _). Qed.

Lemma upd_inode_insert s j x f : k_inodes s !! j = Some x → upd_inode j f s = set_inodes (<[j := f x]> (k_inodes s)) s.
Proof. intros Hx. unfold upd_inode. by rewrite (alter_insert _ _ _ _ Hx). Qed.

Lemma nv_iget s R h n Q : nview s R h → (size (dom R) < NINODE)%nat →
  (∀ ip s', nview s' (R ⊎ {[+ n +]}) h → nframe s s' → at_ino s' ip n → (∀ j m, at_ino s j m → at_ino s' j m) → Q ip s') →
  wpi Q (iget dev n s).
Proof.
  intros Hv Hsz HQ. destruct (Hv). destruct (nv_rep0).
  destruct (iget_run dev n s ir_len0) as [(ip & x & y & -> & Hx & Hg & Hno)|[-> Hno]].
  2:{ apply irep_full in nv_rep0; [lia|]. intros j z Hz. by apply (Hno j z). }
  cbn [wp]. pose proof (lookup_lt_Some _ _ _ Hx) as Hlt. pose proof (ir_ref0 ip x Hx) as Hr.
  assert (i_ref y ≠ 0 ∧ i_inum y = n) as [Hy0 Hyn] by (destruct Hg as [[(? & ? & ?) ->]|[? ->]]; cbn; split; (lia || done)).
  apply HQ; [|apply nframe_inodes| |].
  - apply (nview_inodes s R h); [done|]. apply (irep_upd dev sb C (cur_pid s) (k_inodes s) R h ip x); try done.
    + rewrite Hyn, multiplicity_disj_union, multiplicity_singleton_eq. destruct Hg as [[(? & ? & Hn) ->]|[H0 ->]]; cbn.
      * destruct (ir_ent0 ip x Hx) as [_ Hc]; [lia|]. rewrite Hc, Hn at 1. lia.
      * assert (n ∉ R) as Hn. { intros (j & z & Hz & Hz0 & Hzn)%ir_in0. apply (Hno H0 j z Hz). split_and!; [|by apply (ir_ent0 j z)|done].
          pose proof (ir_ref0 j z Hz). lia. }
        unfold elem_of, gmultiset_elem_of in Hn. lia.
    + intros m Hm. rewrite Hyn in Hm. rewrite multiplicity_disj_union, multiplicity_singleton_ne by done. lia.
    + destruct Hg as [[(? & ? & Hn) ->]|[H0 ->]]; cbn; [left; split; [lia|done]|right]. split; [done|].
      intros (j & z & Hz & Hz0 & Hzn)%ir_in0. apply (Hno H0 j z Hz). split_and!; [|by apply (ir_ent0 j z)|done]. pose proof (ir_ref0 j z Hz). lia.
    + intros _. destruct Hg as [[(? & ? & Hn) ->]|[H0 ->]]; cbn; [|done]. split; [done|]. apply (ir_disk0 ip x Hx). lia.
    + specialize (ir_lock0 ip x Hx). by destruct Hg as [[_ ->]|[_ ->]].
  - exists y. cbn. by rewrite list_lookup_insert_eq.
  - intros j m (z & Hz & Hz0 & Hzm). unfold at_ino. cbn. destruct (decide (j = ip)) as [->|]; [|rewrite list_lookup_insert_ne by done; by exists z].
    rewrite list_lookup_insert_eq by done. exists y. split_and!; [done|done|]. assert (z = x) as -> by congruence.
    destruct Hg as [[_ ->]|[H0 _]]; [done|congruence].
Qed.

(** An update of entry [j] that keeps its inode and its references. *)
Lemma nv_keep s R h h' j x f : nview s R h → k_inodes s !! j = Some x → i_ref x ≠ 0 →
  i_ref (f x) = i_ref x → i_inum (f x) = i_inum x → i_dev (f x) = i_dev x →
  (i_valid (f x) = true → dinode_of (f x) = disk_inode sb C (i_inum x)) →
  (if decide (h' = Some j) then i_lock (f x) = mkSlk true (cur_pid s) else sl_locked (i_lock (f x)) = false) →
  (∀ k, k ≠ j → h' = Some k ↔ h = Some k) →
  nview (upd_inode j f s) R h' ∧ nframe s (upd_inode j f s) ∧ (∀ k m, at_ino s k m → at_ino (upd_inode j f s) k m).
Proof.
  intros Hv Hx H0 Er En Ed Hd Hl Hh. destruct (ir_ent _ _ _ _ _ _ _ (nv_rep _ _ _ Hv) j x Hx H0) as [Hdv Hc].
  rewrite (upd_inode_insert s j x f Hx). split_and!; [|apply nframe_inodes|].
  - apply (nview_inodes s R h); [done|]. apply (irep_upd dev sb C (cur_pid s) (k_inodes s) R h j x); rewrite ?En; try done.
    + apply Hv.
    + congruence.
    + by left.
    + intros _. split; [congruence|done].
  - intros k m (z & Hz & Hz0 & Hzm). unfold at_ino. cbn. pose proof (lookup_lt_Some _ _ _ Hx).
    destruct (decide (k = j)) as [->|]; [|rewrite list_lookup_insert_ne by done; by exists z].
    rewrite list_lookup_insert_eq by done. exists (f x). assert (z = x) as -> by congruence. split_and!; congruence.
Qed.

Lemma nv_ilock s R ip n Q : nview s R None → at_ino s ip n → d_type (disk_inode sb C n) ≠ 0 →
  (∀ s' y, nview s' R (Some ip) → nframe s s' → k_inodes s' !! ip = Some y → i_ref y ≠ 0 → i_inum y = n → i_dev y = dev →
     dinode_of y = disk_inode sb C n → (∀ j m, at_ino s j m → at_ino s' j m) → Q tt s') →
  wpi Q (ilock (Some ip) s).
Proof.
  intros Hv (x & Hx & H0 & Hn) Hty HQ. destruct (nv_rep _ _ _ Hv). pose proof (ir_ref0 ip x Hx) as Hr.
  pose proof (lookup_lt_Some _ _ _ Hx) as Hlt. destruct (ir_ent0 ip x Hx H0) as [Hdv _].
  pose proof (br_runs _ _ _ _ _ _ _ _ (cl_rep _ _ _ _ _ _ _ (nv_clean _ _ _ Hv))) as Hrun.
  unfold ilock. wstep. rewrite (inode_at_Some _ _ _ Hx), (proj2 (Z.ltb_ge (i_ref x) 1)) by lia.
  eapply wp_ok; [apply (acquiresleep_free _ i s); [done|]|].
  { unfold free. cbn. rewrite (inode_at_Some _ _ _ Hx). specialize (ir_lock0 ip x Hx). by rewrite decide_False in ir_lock0. }
  cbn [sl_put inode_lock]. set (s1 := upd_inode _ _ s). set (x1 := set_i_lock (mkSlk true (cur_pid s)) x).
  destruct (nv_keep s R None (Some ip) ip x (set_i_lock (mkSlk true (cur_pid s)))) as (Hv1 & Hf1 & Hk1); try done.
  { apply (ir_disk0 ip x Hx H0). }
  { by rewrite decide_True. }
  { intros k Hk. split; congruence. }
  fold s1 in Hv1, Hf1, Hk1. assert (k_inodes s1 !! ip = Some x1) as Hx1 by (cbn; by rewrite list_lookup_alter_eq, Hx).
  clearbody s1. wstep. rewrite (inode_at_Some _ _ _ Hx1). change (i_valid x1) with (i_valid x).
  destruct (i_valid x) eqn:Hval; cbn [negb].
  { cbn [wp mret M_ret]. apply (HQ s1 x1); try done. rewrite <- Hn. by apply (ir_disk0 ip x). }
  change (i_dev x1) with (i_dev x). change (i_inum x1) with (i_inum x). rewrite Hdv, Hn. wstep. rewrite (nv_sb _ _ _ Hv1).
  apply (clean_bread _ i dev s1 C D P w _ _ _ (nv_clean _ _ _ Hv1)). intros b s2 Hf2 Hb2 Hd2. wstep. rewrite Hd2. fold (disk_inode sb C n).
  set (d := disk_inode sb C n) in *. wstep.
  assert (k_inodes s2 !! ip = Some x1) as Hx2 by (by destruct (bframe_get _ _ Hf2) as (_ & _ & -> & _)).
  set (s3 := upd_inode ip _ s2).
  assert (brep i dev s3 C D P (<[b := IBLOCK n sb]> ∅) w) as Hb3.
  { destruct Hb2 as [B1 B2 B3 B4 B5 B6 B7 B8 B9 B10 B11]. split; try done. by destruct B1. }
  apply (clean_brelse _ i dev s1 s3 C D P w _ _ _ _ (nv_clean _ _ _ Hv1) Hb3). intros s4 Hf4 Hc4. wstep. wstep.
  assert (k_inodes s4 !! ip = Some (load_dinode d x1)) as Hx4.
  { destruct (bframe_get _ _ Hf4) as (_ & _ & -> & _). unfold s3. cbn. by rewrite list_lookup_alter_eq, Hx2. }
  assert (k_inodes s3 = alter (load_dinode d) ip (k_inodes s1)) as Ei3.
  { unfold s3. cbn. by destruct (bframe_get _ _ Hf2) as (_ & _ & -> & _). }
  set (s5 := upd_inode ip (set_i_valid true) s4). set (y := set_i_valid true (load_dinode d x1)).
  assert (k_inodes s5 !! ip = Some y) as Hx5 by (cbn; by rewrite list_lookup_alter_eq, Hx4).
  rewrite (inode_at_Some _ _ _ Hx5). change (i_type y) with (d_type d). rewrite (proj2 (Z.eqb_neq _ 0)) by done.
  destruct (nv_keep s1 R (Some ip) (Some ip) ip x1 (λ x, set_i_valid true (load_dinode d x))) as (Hv5 & Hf5 & Hk5); try done.
  { intros _. by destruct d eqn:Ed; unfold dinode_of; cbn; rewrite Hn. }
  { exact (ir_lock _ _ _ _ _ _ _ (nv_rep _ _ _ Hv1) ip x1 Hx1). }
  assert (k_inodes s5 = k_inodes (upd_inode ip (λ x, set_i_valid true (load_dinode d x)) s1)) as Ei5.
  { cbn. destruct (bframe_get _ _ Hf4) as (_ & _ & -> & _). by rewrite Ei3, alter_alter. }
  assert (cur_pid s5 = cur_pid s1) as Ep.
  { change (cur_pid s5) with (cur_pid s4). by rewrite (bframe_pid _ _ Hf4), <- (bframe_pid _ _ Hf2). }
  cbn [wp mret M_ret]. apply (HQ s5 y); try done.
  - split; [by apply clean_inodes| |].
    + change (k_sb s4 = sb). destruct (bframe_get _ _ Hf4) as (_ & -> & _), (bframe_get _ _ Hf2) as (_ & Es2 & _). change (k_sb s2 = sb). rewrite Es2. apply Hv1.
    + rewrite Ei5, Ep. apply Hv5.
  - etrans; [exact Hf1|]. etrans; [by apply bframe_nframe|]. etrans; [|apply nframe_inodes]. etrans; [apply nframe_inodes|by apply bframe_nframe].
  - intros j m Hj. unfold at_ino. rewrite Ei5. by apply Hk5, Hk1.
Qed.

Lemma nv_iunlock {A} s R ip n (k : K A) Q : nview s R (Some ip) → at_ino s ip n →
  (∀ s', nview s' R None → nframe s s' → (∀ j m, at_ino s j m → at_ino s' j m) → wpi Q (k s')) →
  wpi Q ((iunlock (Some ip);; k) s).
Proof.
  intros Hv (x & Hx & H0 & Hn) HQ. destruct (nv_rep _ _ _ Hv). pose proof (ir_ref0 ip x Hx) as Hr.
  pose proof (br_runs _ _ _ _ _ _ _ _ (cl_rep _ _ _ _ _ _ _ (nv_clean _ _ _ Hv))) as Hrun.
  pose proof (ir_lock0 ip x Hx) as Hl. rewrite decide_True in Hl by done. unfold iunlock. apply wp_bind.
  eapply wp_ok; [apply (holdingsleep_holds _ i s); [done|]|]. { unfold holds. cbn. by rewrite (inode_at_Some _ _ _ Hx). }
  wstep. rewrite (inode_at_Some _ _ _ Hx), (proj2 (Z.ltb_ge (i_ref x) 1)) by lia. cbn [negb orb]. unfold releasesleep. wstep.
  cbn [sl_put inode_lock]. set (s1 := upd_inode _ _ s).
  destruct (nv_keep s R (Some ip) None ip x (set_i_lock (mkSlk false 0))) as (Hv1 & Hf1 & Hk1); try done.
  { apply (ir_disk0 ip x Hx H0). }
  { intros k' Hk. split; congruence. }
  fold s1 in Hv1, Hf1, Hk1. destruct (wakeup_idle (ChInodeLock ip) s1) as (s2 & Ew & Hi & _); [apply Hrun|].
  cbn [sl_chan inode_lock]. rewrite Ew. cbn [wp]. pose proof (idle_bframe _ _ Hi) as Hf2.
  apply HQ; [|etrans; [done|by apply bframe_nframe]|intros j m Hj; by apply (at_ino_bframe s1), Hk1].
  apply (nview_bframe s1); [done|done|]. destruct (nv_clean _ _ _ Hv1). split; try done. by apply (brep_idle _ _ s1).
Qed.

Lemma nv_iput {A} s R ip n (k : K A) Q : nview s R None → at_ino s ip n → d_nlink (disk_inode sb C n) ≠ 0 →
  (∀ s', nview s' (R ∖ {[+ n +]}) None → nframe s s' → (∀ j m, at_ino s j m → m ∈ R ∖ {[+ n +]} → at_ino s' j m) → wpi Q (k s')) →
  wpi Q ((iput (Some ip);; k) s).
Proof.
  intros Hv (x & Hx & H0 & Hn) Hl HQ. destruct (nv_rep _ _ _ Hv). pose proof (ir_ref0 ip x Hx) as Hr.
  destruct (ir_ent0 ip x Hx H0) as [Hdv Hc]. rewrite Hn in Hc. pose proof (lookup_lt_Some _ _ _ Hx) as Hlt.
  unfold iput, iput_at. apply wp_bind. wstep. rewrite (inode_at_Some _ _ _ Hx).
  assert ((i_ref x =? 1) && i_valid x && (i_nlink x =? 0) = false) as ->.
  { destruct (i_valid x) eqn:Hval; [|by rewrite andb_false_r]. pose proof (ir_disk0 ip x Hx H0 Hval) as Hd. rewrite Hn in Hd.
    rewrite <- Hd in Hl. cbn in Hl. rewrite (proj2 (Z.eqb_neq _ 0)) by done. apply andb_false_r. }
  wstep. change (wpi Q (k (upd_inode ip (λ x, set_i_ref (i_ref x - 1) x) s))). rewrite (upd_inode_insert s ip x) by done.
  set (y := set_i_ref (i_ref x - 1) x). assert (multiplicity n (R ∖ {[+ n +]}) = multiplicity n R - 1)%nat as Hm.
  { by rewrite multiplicity_difference, multiplicity_singleton_eq. }
  assert (∀ m, m ≠ n → multiplicity m (R ∖ {[+ n +]}) = multiplicity m R) as Hm'.
  { intros m Hne. rewrite multiplicity_difference, multiplicity_singleton_ne by done. lia. }
  apply HQ; [|apply nframe_inodes|].
  - apply (nview_inodes s R None); [done|]. apply (irep_upd dev sb C (cur_pid s) (k_inodes s) R None ip x); try done.
    + cbn. rewrite Hn, Hm. lia.
    + cbn. by rewrite Hn.
    + by left.
    + intros _. split; [done|]. apply (ir_disk0 ip x Hx H0).
    + exact (ir_lock0 ip x Hx).
  - intros j m (z & Hz & Hz0 & Hzm) Hin. unfold at_ino. cbn. destruct (decide (j = ip)) as [->|]; [|rewrite list_lookup_insert_ne by done; by exists z].
    rewrite list_lookup_insert_eq by done. exists y. assert (z = x) as -> by congruence. split_and!; [done| |done].
    assert (m = n) as -> by congruence. unfold elem_of, gmultiset_elem_of in Hin. cbn. lia.
Qed.
End nview.

(** ** The meaning of a path *)

Section tree.
Variables (dev : Z) (sb : superblock) (C : Z → list Z).

(** Inode [n] as the disk has it. *)
Definition dnode (n : Z) : inode := load_dinode (disk_inode sb C n) (set_i_inum n (set_i_dev dev inode0)).
Definition is_dir (n : Z) : bool := d_type (disk_inode sb C n) =? T_DIR.

(** The inode that an element names in directory [n], and the one a path leads
    to from [n]. *)
Definition child (n : Z) (e : list Z) : option Z :=
  if is_dir n then (λ k, de_inum (dirent C (dnode n) k)) <$> dir_find C (dnode n) e else None.
Fixpoint resolve (n : Z) (es : list (list Z)) : option Z :=
  match es with
  | [] => Some n
  | e :: es' => match child n e with Some m => resolve m es' | None => None end
  end.
(** The directory that the last element is looked up in. *)
Fixpoint resolve_parent (n : Z) (es : list (list Z)) : option Z :=
  match es with
  | [] => None
  | e :: es' =>
      if is_dir n then
        match es' with
        | [] => Some n
        | _ => match child n e with Some m => resolve_parent m es' | None => None end
        end
      else None
  end.
Definition path_result (parent : bool) (n : Z) (es : list (list Z)) : option Z :=
  if parent then resolve_parent n es else resolve n es.

(** Inode [n] is in use. *)
Definition allocated (n : Z) : Prop := d_type (disk_inode sb C n) ≠ 0.

(** The directories are well-formed, their entries name inodes in use, and those
    have links. *)
Record tree_ok : Prop := {
  tk_link n : allocated n → d_nlink (disk_inode sb C n) ≠ 0;
  tk_dir n : is_dir n = true → dir_ok dev C (dnode n);
  tk_ent n k : is_dir n = true → (k < nents (dnode n))%nat → de_inum (dirent C (dnode n) k) ≠ 0 →
    allocated (de_inum (dirent C (dnode n) k)) }.

(** A directory is its inode on the disk. *)
Lemma dirent_ext x y k : i_addrs x = i_addrs y → dirent C x k = dirent C y k.
Proof.
  intros Ha. unfold dirent, file_bytes. apply list_fmap_ext. intros j m _. unfold fdata, slot, addr_of. by rewrite Ha.
Qed.

Lemma dir_find_ext x y e : i_addrs x = i_addrs y → i_size x = i_size y → dir_find C x e = dir_find C y e.
Proof.
  intros Ha Hs. unfold dir_find, nents. rewrite Hs, (list_find_ext _ (entry_is C y e)); [done|].
  intros k. unfold entry_is. by rewrite (dirent_ext x y k Ha).
Qed.

Lemma child_alloc n e m : tree_ok → child n e = Some m → allocated m.
Proof.
  intros Hok. unfold child. destruct (is_dir n) eqn:Hd; [|done]. pose proof (dir_find_spec C (dnode n) e) as Hf.
  destruct (dir_find C (dnode n) e) as [k|]; [|done]. intros [= <-]. destruct Hf as [Hk [Hz _]]. by apply (tk_ent Hok).
Qed.

Lemma dir_find_take x e : dir_find C x (take (Z.to_nat DIRSIZ) e) = dir_find C x e.
Proof.
  unfold dir_find. rewrite (list_find_ext _ (entry_is C x e)); [done|]. intros k. unfold entry_is, cname. change (Z.to_nat DIRSIZ) with 14%nat.
  assert (∀ n (p : list Z), cstr n (take n p) = cstr n p) as H; [|by rewrite H].
  intros n. induction n as [|n IH]; intros [|c p]; cbn; try done. case_match; [done|]. by rewrite IH.
Qed.
End tree.
