(* ===== verification/Kalloc.v ===== *)
(** The physical page allocator with reference counts: src/kernel/kalloc.c.

    The free list is the code's: [kmem.freelist] points to an element of
    [kmem.runs] and the elements are linked through [next].  A page is named by
    its address; element [pa / PGSIZE] of [runs] describes it. *)

From S2P Require Import Prelude Machine Str Types.

Section kalloc.
Context `{L : Linker}.

(** The test at the top of [_kfree], [kfree], [incref] and [decref]. *)
Definition bad_page (pa : Z) : bool :=
  negb (pa mod PGSIZE =? 0) || (pa <? ld_end) || (pa >=? PHYSTOP).

Definition set_run (i : Z) (r : run) (k : kmem_t) : kmem_t :=
  mkKmem (freelist k) (<[i := r]> (runs k)).

(** [r->next = kmem.freelist; kmem.freelist = r] *)
Definition push_run (i : Z) (k : kmem_t) : kmem_t :=
  mkKmem (Some i) (<[i := mkRun (freelist k) (run_ref (run_at k i))]> (runs k)).

Definition _kfree (pa : Z) : K unit :=
  if bad_page pa then panic "_kfree"
  else
    modify (λ s, set_mem (memset (k_mem s) pa 1 PGSIZE) s);;
    modify (λ s, set_kmem (push_run (pa / PGSIZE) (k_kmem s)) s).

Definition kfree (pa : Z) : K unit :=
  if bad_page pa then panic "kfree"
  else
    modify (λ s, set_mem (memset (k_mem s) pa 1 PGSIZE) s);;
    r ← gets (λ s, run_at (k_kmem s) (pa / PGSIZE));
    if negb (run_ref r =? 1) then halt (Exits (-1))
    else modify (λ s, set_kmem (push_run (pa / PGSIZE) (k_kmem s)) s).

Definition kalloc : K Z :=
  h ← gets (λ s, freelist (k_kmem s));
  match h with
  | Some r =>
      modify (λ s,
        let k := k_kmem s in
        let x := run_at k r in
        set_kmem (mkKmem (run_next x) (<[r := mkRun (run_next x) 1]> (runs k))) s);;
      modify (λ s, set_mem (memset (k_mem s) (r * PGSIZE) 5 PGSIZE) s);;
      mret (r * PGSIZE)
  | None => mret 0
  end.

Definition incref (pa : Z) : K unit :=
  if bad_page pa then panic "incref"
  else modify (λ s,
    let i := pa / PGSIZE in
    let x := run_at (k_kmem s) i in
    set_kmem (set_run i (mkRun (run_next x) (u32 (run_ref x + 1))) (k_kmem s)) s).

Definition decref (pa : Z) : K unit :=
  if bad_page pa then panic "decref"
  else modify (λ s,
    let i := pa / PGSIZE in
    let x := run_at (k_kmem s) i in
    set_kmem (set_run i (mkRun (run_next x) (u32 (run_ref x - 1))) (k_kmem s)) s).

Definition getref (pa : Z) : K Z :=
  gets (λ s, run_ref (run_at (k_kmem s) (pa / PGSIZE))).

(** [for(; p + PGSIZE <= pa_end; p += PGSIZE) _kfree(p)] *)
Fixpoint _freerange_loop (fuel : nat) (p pa_end : Z) : K unit :=
  match fuel with
  | O => halt NoFuel
  | S fuel' =>
      if p + PGSIZE <=? pa_end then _kfree p;; _freerange_loop fuel' (p + PGSIZE) pa_end
      else mret tt
  end.
Definition _freerange (pa_start pa_end : Z) : K unit :=
  let p := PGROUNDUP pa_start in
  _freerange_loop (S (Z.to_nat ((pa_end - p) / PGSIZE))) p pa_end.

Fixpoint freerange_loop (fuel : nat) (p pa_end : Z) : K unit :=
  match fuel with
  | O => halt NoFuel
  | S fuel' =>
      if p + PGSIZE <=? pa_end then kfree p;; freerange_loop fuel' (p + PGSIZE) pa_end
      else mret tt
  end.
Definition freerange (pa_start pa_end : Z) : K unit :=
  let p := PGROUNDUP pa_start in
  freerange_loop (S (Z.to_nat ((pa_end - p) / PGSIZE))) p pa_end.

Definition kinit : K unit := _freerange ld_end PHYSTOP.

(** ** The allocator's invariant *)

(** The linked list that starts at [h] visits the elements [l], in order. *)
Fixpoint chain (rs : gmap Z run) (h : option Z) (l : list Z) : Prop :=
  match l with
  | [] => h = None
  | i :: l' => h = Some i ∧ chain rs (run_next (default (mkRun None 0) (rs !! i))) l'
  end.

(** A page the allocator manages. *)
Definition page_ok (pa : Z) : Prop := pa mod PGSIZE = 0 ∧ ld_end ≤ pa < PHYSTOP.

(** [free_pages s l]: the free list holds exactly the pages [l] (first the one
    [kalloc] will hand out), each managed page at most once. *)
Definition free_pages (s : kstate) (l : list Z) : Prop :=
  chain (runs (k_kmem s)) (freelist (k_kmem s)) ((λ pa, pa / PGSIZE) <$> l) ∧
  NoDup l ∧ Forall page_ok l.

Lemma page_ok_iff pa : page_ok pa ↔ bad_page pa = false.
Proof.
  unfold page_ok, bad_page.
  destruct (Z.eqb_spec (pa mod PGSIZE) 0), (Z.ltb_spec pa ld_end),
    (Z.geb_spec pa PHYSTOP); simpl; split; intros; try done; lia.
Qed.

Lemma bad_page_ok pa : page_ok pa → bad_page pa = false.
Proof. apply page_ok_iff. Qed.

Lemma bad_page_bad pa : ¬ page_ok pa → bad_page pa = true.
Proof. rewrite page_ok_iff. by destruct (bad_page pa). Qed.

Lemma page_ok_pos pa : page_ok pa → 0 < pa < PHYSTOP.
Proof.
  intros [_ H]. pose proof ld_etext_lo. pose proof ld_end_lo.
  unfold KERNBASE in *. lia.
Qed.

Lemma page_index pa : page_ok pa → pa / PGSIZE * PGSIZE = pa.
Proof. intros [H _]. unfold PGSIZE in *. pose proof (Z.div_mod pa 4096). lia. Qed.

Lemma page_index_inj pa pb : page_ok pa → page_ok pb → pa / PGSIZE = pb / PGSIZE → pa = pb.
Proof. intros Ha Hb E. rewrite <- (page_index pa), <- (page_index pb), E by done. done. Qed.

Lemma chain_insert rs h l i r :
  i ∉ l → chain (<[i := r]> rs) h l ↔ chain rs h l.
Proof.
  revert h. induction l as [|j l IH]; intros h Hi; simpl; [done|].
  apply not_elem_of_cons in Hi as [Hj Hi]. rewrite lookup_insert_ne by done.
  by rewrite IH by done.
Qed.

Lemma index_notin pa l :
  page_ok pa → Forall page_ok l → pa ∉ l → pa / PGSIZE ∉ (λ pb, pb / PGSIZE) <$> l.
Proof.
  intros Hp Hl Hn Hin. apply list_elem_of_fmap in Hin as (pb & E & Hb).
  assert (pa = pb) as ->; [|done]. apply page_index_inj; [done| |done].
  by eapply list.Forall_forall.
Qed.

(** ** What each operation does *)

Lemma free_pages_push s pa l m :
  free_pages s l → page_ok pa → pa ∉ l →
  free_pages (set_kmem (push_run (pa / PGSIZE) (k_kmem s)) (set_mem m s)) (pa :: l).
Proof.
  intros (Hc & Hn & Hf) Hp Hpl. split_and!; [|by constructor..].
  simpl. split; [done|]. rewrite lookup_insert_eq. simpl.
  apply chain_insert; [by apply index_notin|done].
Qed.

Lemma free_pages_set_mem s m l : free_pages (set_mem m s) l ↔ free_pages s l.
Proof. done. Qed.

(** The state after [kfree] or [_kfree] of a page. *)
Definition freed (pa : Z) (s : kstate) : kstate :=
  set_kmem (push_run (pa / PGSIZE) (k_kmem s)) (set_mem (memset (k_mem s) pa 1 PGSIZE) s).

Lemma _kfree_run pa s : page_ok pa → _kfree pa s = Ok tt (freed pa s).
Proof. intros H. unfold _kfree. rewrite bad_page_ok by done. done. Qed.

Lemma kfree_run pa s :
  page_ok pa → run_ref (run_at (k_kmem s) (pa / PGSIZE)) = 1 →
  kfree pa s = Ok tt (freed pa s).
Proof.
  intros H Hr. unfold kfree. rewrite bad_page_ok by done.
  unfold mbind, M_bind, modify, gets; simpl. by rewrite Hr.
Qed.

(** The state after [kalloc] handed out page [pa]. *)
Definition allocated (pa : Z) (s : kstate) : kstate :=
  let k := k_kmem s in
  let x := run_at k (pa / PGSIZE) in
  set_mem (memset (k_mem s) pa 5 PGSIZE)
    (set_kmem (mkKmem (run_next x) (<[pa / PGSIZE := mkRun (run_next x) 1]> (runs k))) s).

Lemma kalloc_run_cons s pa l :
  free_pages s (pa :: l) → kalloc s = Ok pa (allocated pa s).
Proof.
  intros ((Hh & Hc) & Hn & Hf). apply list.Forall_cons in Hf as [Hp _].
  unfold kalloc. unfold mbind, M_bind, modify, gets, mret, M_ret. rewrite Hh. simpl.
  by rewrite page_index.
Qed.

Lemma kalloc_run_nil s : free_pages s [] → kalloc s = Ok 0 s.
Proof. intros (Hc & _). simpl in Hc. unfold kalloc, mbind, M_bind, gets. by rewrite Hc. Qed.

Lemma allocated_free s pa l : free_pages s (pa :: l) → free_pages (allocated pa s) l.
Proof.
  intros ((Hh & Hc) & Hn & Hf). apply list.NoDup_cons in Hn as [Hn1 Hn2].
  apply list.Forall_cons in Hf as [Hp Hf]. split_and!; [|done..]. simpl.
  apply chain_insert; [by apply index_notin|done].
Qed.

Lemma ref_freed pa s i : run_ref (run_at (k_kmem (freed pa s)) i) = run_ref (run_at (k_kmem s) i).
Proof.
  unfold freed, run_at, push_run; simpl. rewrite lookup_insert. by case_decide; subst.
Qed.

Lemma ref_allocated pa s i :
  run_ref (run_at (k_kmem (allocated pa s)) i) =
  if decide (i = pa / PGSIZE) then 1 else run_ref (run_at (k_kmem s) i).
Proof.
  unfold allocated, run_at; simpl. rewrite lookup_insert. repeat case_decide; by subst.
Qed.

(** ** The allocator's contract *)

(** [kalloc] hands out the first page of the free list, with reference
    count 1 and junk-filled, and takes it off the list; no other page, no other
    count and no other byte of memory changes.  With an empty free list it
    returns 0 and changes nothing. *)
Theorem kalloc_correct s l :
  free_pages s l →
  match l with
  | [] => kalloc s = Ok 0 s
  | pa :: l' => ∃ s', (kalloc s = Ok pa s') ∧
      page_ok pa ∧ (pa ∉ l') ∧ free_pages s' l' ∧ getref pa s' = Ok 1 s' ∧
      (∀ a, ld8 (k_mem s') a =
        if decide (pa ≤ a < pa + PGSIZE) then 5 else ld8 (k_mem s) a) ∧
      (∀ pb, page_ok pb → pb ≠ pa →
        run_ref (run_at (k_kmem s') (pb / PGSIZE)) = run_ref (run_at (k_kmem s) (pb / PGSIZE)))
  end.
Proof.
  intros H. destruct l as [|pa l']; [by apply kalloc_run_nil|].
  exists (allocated pa s). pose proof H as (_ & Hn & Hf).
  apply list.NoDup_cons in Hn as [Hn _]. apply list.Forall_cons in Hf as [Hp _].
  split_and!; try done.
  - by eapply kalloc_run_cons.
  - by apply allocated_free.
  - unfold getref, gets. by rewrite ref_allocated, decide_True.
  - intros a. simpl. by rewrite ld8_memset.
  - intros pb Hb Hne. rewrite ref_allocated, decide_False; [done|].
    intros E. by apply Hne, page_index_inj.
Qed.

(** [kfree] of a managed page whose count is 1 and that is not free puts
    it at the head of the free list; a page outside the managed range panics;
    a shared page (count other than 1) makes the caller exit(-1) and leaves the
    free list alone. *)
Theorem kfree_correct s l pa :
  free_pages s l →
  (page_ok pa → pa ∉ l → run_ref (run_at (k_kmem s) (pa / PGSIZE)) = 1 →
     ∃ s', kfree pa s = Ok tt s' ∧ free_pages s' (pa :: l) ∧
       ∀ a, ld8 (k_mem s') a =
         if decide (pa ≤ a < pa + PGSIZE) then 1 else ld8 (k_mem s) a) ∧
  (¬ page_ok pa → kfree pa s = Stop (Panics "kfree") s) ∧
  (page_ok pa → run_ref (run_at (k_kmem s) (pa / PGSIZE)) ≠ 1 →
     ∃ s', kfree pa s = Stop (Exits (-1)) s' ∧ free_pages s' l).
Proof.
  intros H. split_and!.
  - intros Hp Hn Hr. exists (freed pa s). split_and!.
    + by apply kfree_run.
    + by apply free_pages_push.
    + intros a. simpl. by rewrite ld8_memset.
  - intros Hp. unfold kfree. by rewrite bad_page_bad.
  - intros Hp Hr. exists (set_mem (memset (k_mem s) pa 1 PGSIZE) s).
    split; [|done]. unfold kfree. rewrite bad_page_ok by done.
    unfold mbind, M_bind, modify, gets; simpl.
    destruct (Z.eqb_spec (run_ref (run_at (k_kmem s) (pa / PGSIZE))) 1); done.
Qed.

(** A page freed with [kfree] is the next one [kalloc] hands out, and the
    free list is then what it was before. *)
Theorem kfree_kalloc s l pa :
  free_pages s l → page_ok pa → pa ∉ l →
  run_ref (run_at (k_kmem s) (pa / PGSIZE)) = 1 →
  ∃ s', (kfree pa;; kalloc) s = Ok pa s' ∧ free_pages s' l.
Proof.
  intros H Hp Hn Hr. exists (allocated pa (freed pa s)).
  assert (free_pages (freed pa s) (pa :: l)) as H' by by apply free_pages_push.
  split; [|by apply allocated_free].
  rewrite (bind_ok _ _ _ _ _ (kfree_run pa s Hp Hr)). by eapply kalloc_run_cons.
Qed.

(** The pages [lo, lo + PGSIZE, ...], [n] of them, highest address first. *)
Definition pages_down (lo : Z) (n : nat) : list Z :=
  (λ i, lo + PGSIZE * Z.of_nat i) <$> reverse (seq 0 n).

Lemma elem_of_pages_down lo n pa :
  pa ∈ pages_down lo n ↔ ∃ i, (i < n)%nat ∧ pa = lo + PGSIZE * Z.of_nat i.
Proof.
  unfold pages_down. rewrite list_elem_of_fmap. setoid_rewrite elem_of_reverse.
  setoid_rewrite elem_of_seq. split; intros (i & H1 & H2); exists i; split; auto; lia.
Qed.

Lemma pages_down_S lo n : pages_down lo (S n) = (lo + PGSIZE * n) :: pages_down lo n.
Proof. unfold pages_down. by rewrite seq_S, reverse_app. Qed.

Lemma _freerange_loop_run (n k : nat) lo s :
  free_pages s (pages_down lo k) →
  (∀ i, (i < k + n)%nat → page_ok (lo + PGSIZE * Z.of_nat i)) →
  ∃ s', _freerange_loop (S n) (lo + PGSIZE * k) (lo + PGSIZE * (k + n)%nat) s = Ok tt s' ∧
    free_pages s' (pages_down lo (k + n)) ∧
    (∀ i, run_ref (run_at (k_kmem s') i) = run_ref (run_at (k_kmem s) i)).
Proof.
  revert k s. induction n as [|n IH]; intros k s Hf Hok.
  - exists s. rewrite Nat.add_0_r. split; [|done]. cbn [_freerange_loop].
    destruct (Z.leb_spec (lo + PGSIZE * k + PGSIZE) (lo + PGSIZE * k)); [unfold PGSIZE in *; lia|done].
  - remember (S n) as n'. cbn [_freerange_loop].
    destruct (Z.leb_spec (lo + PGSIZE * k + PGSIZE) (lo + PGSIZE * (k + n')%nat));
      [|unfold PGSIZE in *; lia].
    assert (page_ok (lo + PGSIZE * k)) as Hp by (apply Hok; lia).
    rewrite (bind_ok _ _ _ _ _ (_kfree_run _ s Hp)).
    destruct (IH (S k) (freed (lo + PGSIZE * k) s)) as (s' & E & Hf' & Hr).
    + rewrite pages_down_S. apply free_pages_push; [done..|].
      rewrite elem_of_pages_down. intros (i & Hi & E). unfold PGSIZE in E. lia.
    + intros i Hi. apply Hok. lia.
    + exists s'. subst n'. replace (k + S n)%nat with (S k + n)%nat by lia.
      split_and!; [|done|intros i; by rewrite Hr, ref_freed].
      rewrite <- E. f_equal. unfold PGSIZE. lia.
Qed.

(** [kinit] from the zeroed BSS state returns with every page between
    [end] and PHYSTOP on the free list exactly once, and nothing else. *)
Theorem kinit_correct s :
  k_kmem s = mkKmem None ∅ →
  ∃ s' l, kinit s = Ok tt s' ∧ free_pages s' l ∧ (∀ pa, pa ∈ l ↔ page_ok pa).
Proof.
  intros Hk. pose proof ld_etext_lo. pose proof ld_end_lo. pose proof ld_end_hi.
  unfold kinit, _freerange.
  assert (ld_end ≤ PGROUNDUP ld_end < ld_end + PGSIZE ∧ PGROUNDUP ld_end mod PGSIZE = 0)
    as [Hlo Hal].
  { apply PGROUNDUP_bounds. unfold PHYSTOP, KERNBASE, PGSIZE in *. lia. }
  generalize dependent (PGROUNDUP ld_end). intros lo Hlo Hal.
  remember (Z.to_nat ((PHYSTOP - lo) / PGSIZE)) as n eqn:Hn.
  assert (PHYSTOP = lo + PGSIZE * n) as Hst.
  { subst n. unfold PHYSTOP, KERNBASE, PGSIZE in *. dlia. }
  assert (∀ pa, (∃ i, (i < n)%nat ∧ pa = lo + PGSIZE * Z.of_nat i) ↔ page_ok pa) as Hpa.
  { intros pa. unfold page_ok. split.
    - intros (i & Hi & ->). rewrite (Z.mul_comm PGSIZE), Z_mod_plus_full. unfold PGSIZE in *. lia.
    - intros [Hm Hr]. exists (Z.to_nat ((pa - lo) / PGSIZE)).
      unfold PGSIZE in *. dlia. }
  destruct (_freerange_loop_run n 0 lo s) as (s' & E & Hf & _).
  - split_and!; [|constructor..]. unfold pages_down. simpl. by rewrite Hk.
  - intros i Hi. apply Hpa. exists i. split; [lia|done].
  - exists s', (pages_down lo n). split_and!; [|done|].
    + rewrite <- E. f_equal; lia.
    + intros pa. by rewrite elem_of_pages_down, Hpa.
Qed.

(** Reference counts are 32-bit: [incref] adds one modulo 2^32, [decref]
    undoes it, and both panic outside the managed pages. *)
Theorem incref_decref s pa :
  (page_ok pa → 0 ≤ run_ref (run_at (k_kmem s) (pa / PGSIZE)) < 2 ^ 32 →
    ∃ s1 s2, incref pa s = Ok tt s1 ∧
      getref pa s1 = Ok (u32 (run_ref (run_at (k_kmem s) (pa / PGSIZE)) + 1)) s1 ∧
      decref pa s1 = Ok tt s2 ∧
      getref pa s2 = Ok (run_ref (run_at (k_kmem s) (pa / PGSIZE))) s2) ∧
  (¬ page_ok pa → incref pa s = Stop (Panics "incref") s ∧
                  decref pa s = Stop (Panics "decref") s).
Proof.
  split.
  - intros Hp Hr. unfold incref, decref. rewrite bad_page_ok by done.
    do 2 eexists. split_and!; [done| |done|]; unfold getref, gets, run_at, set_run; simpl;
      rewrite !lookup_insert_eq; simpl; [done|].
    do 2 f_equal. unfold run_at in Hr. unfold u32.
    rewrite Zminus_mod_idemp_l. rewrite Z.mod_small; lia.
  - intros Hp. unfold incref, decref. by rewrite bad_page_bad.
Qed.

(** The count of a page stays 1 when [kfree] puts it on the free list,
    so a second [kfree] of the same page is not refused: the free list then
    points back to itself and [kalloc] hands the same page out twice. *)
Theorem kfree_twice_aliases s l pa :
  free_pages s l → page_ok pa → run_ref (run_at (k_kmem s) (pa / PGSIZE)) = 1 →
  ∃ s', (kfree pa;; kfree pa;; p1 ← kalloc; p2 ← kalloc; mret (p1, p2)) s = Ok (pa, pa) s'.
Proof.
  intros H Hp Hr.
  rewrite (bind_ok _ _ _ _ _ (kfree_run pa s Hp Hr)).
  rewrite (bind_ok _ _ _ _ _ (kfree_run pa (freed pa s) Hp ltac:(by rewrite ref_freed))).
  unfold kalloc, mbind, M_bind, gets, modify, mret, M_ret, run_at. simpl.
  rewrite !lookup_insert_eq. simpl. rewrite !lookup_insert_eq. simpl.
  rewrite page_index by done. by eexists.
Qed.
End kalloc.

(** ** Instances of the theorems *)

Definition pg (n : Z) : Z := PHYSTOP - n * PGSIZE.

(** Pages [pg 1] and [pg 2] are free, [pg 3] is allocated. *)
Definition ex_state : kstate :=
  set_kmem (mkKmem (Some (pg 1 / PGSIZE))
    (<[pg 1 / PGSIZE := mkRun (Some (pg 2 / PGSIZE)) 0]>
     (<[pg 3 / PGSIZE := mkRun None 1]> ∅))) kstate0.

Lemma ex_state_free : @free_pages small_linker ex_state [pg 1; pg 2].
Proof. split_and!; [done|apply (bool_decide_unpack _); by vm_compute|repeat constructor; by vm_compute]. Qed.

Lemma pg_ok n : 1 ≤ n ≤ 8 → @page_ok small_linker (pg n).
Proof. unfold page_ok, pg; simpl. unfold PHYSTOP, KERNBASE, PGSIZE. intros. split; dlia. Qed.

Lemma kalloc_correct_witness :
  @free_pages small_linker ex_state [pg 1; pg 2] ∧ ∃ s', @kalloc ex_state = Ok (pg 1) s'.
Proof.
  split; [apply ex_state_free|].
  destruct (@kalloc_correct small_linker ex_state _ ex_state_free) as (s' & E & _).
  by exists s'.
Defined.

Lemma ex_state_notin : pg 3 ∉ [pg 1; pg 2].
Proof. apply (bool_decide_unpack _). by vm_compute. Qed.

Lemma kfree_correct_witness :
  @free_pages small_linker ex_state [pg 1; pg 2] ∧
  ∃ s', @kfree small_linker (pg 3) ex_state = Ok tt s' ∧
    @free_pages small_linker s' [pg 3; pg 1; pg 2].
Proof.
  split; [apply ex_state_free|].
  destruct (@kfree_correct small_linker ex_state _ (pg 3) ex_state_free) as [H _].
  destruct H as (s' & E & Hf & _);
    [apply pg_ok; lia|apply ex_state_notin|by vm_compute|by exists s'].
Defined.

Lemma kfree_kalloc_witness :
  @free_pages small_linker ex_state [pg 1; pg 2] ∧
  ∃ s', (@kfree small_linker (pg 3);; kalloc) ex_state = Ok (pg 3) s' ∧
    @free_pages small_linker s' [pg 1; pg 2].
Proof.
  split; [apply ex_state_free|].
  apply (@kfree_kalloc small_linker ex_state _ (pg 3) ex_state_free);
    [apply pg_ok; lia|apply ex_state_notin|by vm_compute].
Defined.

Lemma kinit_correct_witness :
  k_kmem kstate0 = mkKmem None ∅ ∧
  ∃ s' l, @kinit small_linker kstate0 = Ok tt s' ∧ @free_pages small_linker s' l ∧
    (∀ pa, pa ∈ l ↔ @page_ok small_linker pa).
Proof. split; [done|]. exact (@kinit_correct small_linker kstate0 eq_refl). Defined.

Lemma kfree_twice_aliases_witness :
  @free_pages small_linker ex_state [pg 1; pg 2] ∧
  ∃ s', (@kfree small_linker (pg 3);; @kfree small_linker (pg 3);;
         p1 ← kalloc; p2 ← kalloc; mret (p1, p2)) ex_state = Ok (pg 3, pg 3) s'.
Proof.
  split; [apply ex_state_free|].
  apply (@kfree_twice_aliases small_linker ex_state _ (pg 3) ex_state_free);
    [apply pg_ok; lia|by vm_compute].
Defined.
