(* ===== verification/Vm.v ===== *)
(** Page tables and user memory: the operations of src/kernel/vm.c on a
    three-level Sv39 page table that lives in physical memory.

    A [pagetable_t] is the physical address of a table page, a [pte_t *] the
    physical address of an entry, 0 for null.  Loops over addresses carry fuel
    computed from their bounds; [VmSpec] shows that they never run out. *)

From S2P Require Import Prelude Machine Str Types Kalloc.

Section vm.
Context `{L : Linker}.

Definition load64 (a : Z) : K Z := gets (λ s, ld64 (k_mem s) a).
Definition store64 (a v : Z) : K unit := modify (λ s, set_mem (st64 (k_mem s) a v) s).

(** [memset] and [memmove] on kernel addresses.  The kernel page table maps no
    page at 0, so a null pointer faults. *)
Definition kmemset (dst c n : Z) : K unit :=
  if dst =? 0 then fault else modify (λ s, set_mem (memset (k_mem s) dst c n) s).
Definition kmemmove (dst src n : Z) : K unit :=
  if (dst =? 0) || (src =? 0) then fault
  else modify (λ s, set_mem (memmove (k_mem s) dst src n) s).

Definition has (bits pte : Z) : bool := negb (Z.land pte bits =? 0).

(** The loop of [walk] over levels 2 and 1; [None] is [return 0]. *)
Fixpoint walk_loop (level : nat) (pagetable va : Z) (alloc : bool) : K (option Z) :=
  match level with
  | O => mret (Some pagetable)
  | S level' =>
      let pte := pagetable + 8 * PX level va in
      e ← load64 pte;
      if has PTE_V e then walk_loop level' (PTE2PA e) va alloc
      else if negb alloc then mret None
      else
        p ← kalloc;
        if p =? 0 then mret None
        else
          kmemset p 0 PGSIZE;;
          store64 pte (Z.lor (PA2PTE p) PTE_V);;
          walk_loop level' p va alloc
  end.

Definition walk (pagetable va : Z) (alloc : bool) : K Z :=
  if va >=? MAXVA then panic "walk"
  else
    r ← walk_loop 2 pagetable va alloc;
    match r with
    | None => mret 0
    | Some p => mret (p + 8 * PX 0 va)
    end.

Definition walkaddr (pagetable va : Z) : K Z :=
  if va >=? MAXVA then mret 0
  else
    pte ← walk pagetable va false;
    if pte =? 0 then mret 0
    else
      e ← load64 pte;
      if Z.land e PTE_V =? 0 then mret 0
      else if Z.land e PTE_U =? 0 then mret 0
      else mret (PTE2PA e).

Fixpoint mappages_loop (fuel : nat) (pagetable a last pa perm : Z) : K Z :=
  match fuel with
  | O => halt NoFuel
  | S fuel' =>
      pte ← walk pagetable a true;
      if pte =? 0 then mret (-1)
      else
        e ← load64 pte;
        if has PTE_V e then panic "mappages: remap"
        else
          store64 pte (Z.lor (Z.lor (PA2PTE pa) perm) PTE_V);;
          if a =? last then mret 0
          else mappages_loop fuel' pagetable (u64 (a + PGSIZE)) last (u64 (pa + PGSIZE)) perm
  end.

(** When [va + size] wraps around, [last] is below [a] and the loop climbs to
    MAXVA, where [walk] panics. *)
Definition mappages (pagetable va size pa perm : Z) : K Z :=
  if size =? 0 then panic "mappages: size"
  else
    let a := PGROUNDDOWN va in
    let last := PGROUNDDOWN (u64 (va + size - 1)) in
    let stop := if a <=? last then last else MAXVA in
    mappages_loop (S (Z.to_nat ((stop - a) / PGSIZE))) pagetable a last pa perm.

Definition kvmmap (kpgtbl va pa sz perm : Z) : K unit :=
  r ← mappages kpgtbl va sz pa perm;
  if negb (r =? 0) then panic "kvmmap" else mret tt.

Fixpoint uvmunmap_loop (fuel : nat) (pagetable a lim : Z) (do_free : bool) : K unit :=
  match fuel with
  | O => halt NoFuel
  | S fuel' =>
      if a <? lim then
        pte ← walk pagetable a false;
        (if pte =? 0 then mret tt
         else
           e ← load64 pte;
           if Z.land e PTE_V =? 0 then mret tt
           else if PTE_FLAGS e =? PTE_V then panic "uvmunmap: not a leaf"
           else when do_free (kfree (PTE2PA e));; store64 pte 0);;
        uvmunmap_loop fuel' pagetable (u64 (a + PGSIZE)) lim do_free
      else mret tt
  end.

Definition uvmunmap (pagetable va npages : Z) (do_free : bool) : K unit :=
  if negb (va mod PGSIZE =? 0) then panic "uvmunmap: not aligned"
  else uvmunmap_loop (S (Z.to_nat npages)) pagetable va (u64 (va + npages * PGSIZE)) do_free.

Definition uvmcreate : K Z :=
  pagetable ← kalloc;
  if pagetable =? 0 then mret 0
  else kmemset pagetable 0 PGSIZE;; mret pagetable.

Definition uvmfirst (pagetable src sz : Z) : K unit :=
  if sz >=? PGSIZE then panic "uvmfirst: more than a page"
  else
    mem ← kalloc;
    kmemset mem 0 PGSIZE;;
    _ ← mappages pagetable 0 PGSIZE mem (Z.lor (Z.lor (Z.lor PTE_W PTE_R) PTE_X) PTE_U);
    kmemmove mem src sz.

(** [npages] is an [int]. *)
Definition uvmdealloc (pagetable oldsz newsz : Z) : K Z :=
  if newsz >=? oldsz then mret oldsz
  else
    when (PGROUNDUP newsz <? PGROUNDUP oldsz)
      (let npages := s32 ((PGROUNDUP oldsz - PGROUNDUP newsz) / PGSIZE) in
       uvmunmap pagetable (PGROUNDUP newsz) npages true);;
    mret newsz.

Fixpoint uvmalloc_loop (fuel : nat) (pagetable a oldsz newsz xperm : Z) : K Z :=
  match fuel with
  | O => halt NoFuel
  | S fuel' =>
      if a <? newsz then
        mem ← kalloc;
        if mem =? 0 then _ ← uvmdealloc pagetable a oldsz; mret 0
        else
          kmemset mem 0 PGSIZE;;
          r ← mappages pagetable a PGSIZE mem (Z.lor (Z.lor PTE_R PTE_U) xperm);
          if negb (r =? 0) then
            kfree mem;;
            _ ← uvmdealloc pagetable a oldsz; mret 0
          else uvmalloc_loop fuel' pagetable (u64 (a + PGSIZE)) oldsz newsz xperm
      else mret newsz
  end.

Definition uvmalloc (pagetable oldsz newsz xperm : Z) : K Z :=
  if newsz <? oldsz then mret oldsz
  else
    let oldsz := PGROUNDUP oldsz in
    uvmalloc_loop (S (Z.to_nat ((newsz - oldsz + PGSIZE - 1) / PGSIZE)))
      pagetable oldsz oldsz newsz xperm.

(** [freewalk]; [fuel] bounds the depth of the recursion, 3 for a page table
    of three levels. *)
Fixpoint freewalk (fuel : nat) (pagetable : Z) : K unit :=
  match fuel with
  | O => halt NoFuel
  | S fuel' =>
      forM_ (seq 0 512) (λ i,
        pte ← load64 (pagetable + 8 * i);
        if has PTE_V pte && (Z.land pte (Z.lor (Z.lor PTE_R PTE_W) PTE_X) =? 0) then
          freewalk fuel' (PTE2PA pte);;
          store64 (pagetable + 8 * i) 0
        else if has PTE_V pte then panic "freewalk: leaf"
        else mret tt);;
      kfree pagetable
  end.

Definition uvmfree (pagetable sz : Z) : K unit :=
  when (0 <? sz) (uvmunmap pagetable 0 (PGROUNDUP sz / PGSIZE) true);;
  freewalk 3 pagetable.

(** The body shared by [uvmcopy] and [_uvmcopy]; [Some i] is [goto err] at
    address [i]. *)
Fixpoint uvmcopy_loop (fuel : nat) (old new sz i : Z) : K (option Z) :=
  match fuel with
  | O => halt NoFuel
  | S fuel' =>
      if i <? sz then
        pte ← walk old i false;
        e ← (if pte =? 0 then mret 0 else load64 pte);
        if (pte =? 0) || (Z.land e PTE_V =? 0) then
          uvmcopy_loop fuel' old new sz (u64 (i + PGSIZE))
        else
          let pa := PTE2PA e in
          let flags := PTE_FLAGS e in
          mem ← kalloc;
          if mem =? 0 then mret (Some i)
          else
            kmemmove mem pa PGSIZE;;
            r ← mappages new i PGSIZE mem flags;
            if negb (r =? 0) then kfree mem;; mret (Some i)
            else uvmcopy_loop fuel' old new sz (u64 (i + PGSIZE))
      else mret None
  end.

Definition _uvmcopy (old new sz start : Z) : K Z :=
  r ← uvmcopy_loop (S (Z.to_nat ((sz - start + PGSIZE - 1) / PGSIZE))) old new sz start;
  match r with
  | None => mret 0
  | Some i => uvmunmap new 0 (i / PGSIZE) true;; mret (-1)
  end.

Definition uvmcopy (old new sz : Z) : K Z :=
  r ← uvmcopy_loop (S (Z.to_nat ((sz + PGSIZE - 1) / PGSIZE))) old new sz 0;
  match r with
  | None => mret 0
  | Some i => uvmunmap new 0 (i / PGSIZE) true;; mret (-1)
  end.

Definition uvmclear (pagetable va : Z) : K unit :=
  pte ← walk pagetable va false;
  if pte =? 0 then panic "uvmclear"
  else
    e ← load64 pte;
    store64 pte (Z.land e (u64 (Z.lnot PTE_U))).

(** ** Copies between kernel and user memory

    [check_vmas] (vm.c) loads a missing page of a mapped region; it belongs to
    the current process, so it is a parameter here. *)
Section copy.
Variable check_vmas : Z → K Z.

(** The page of [va0]: [walkaddr], and [check_vmas] when it is not mapped;
    [None] is [return -1].  When the page is still missing afterwards, the
    code goes on with address 0, which the kernel does not map. *)
Definition user_page (pagetable va0 : Z) : K (option Z) :=
  pa0 ← walkaddr pagetable va0;
  if pa0 =? 0 then
    vmas ← check_vmas va0;
    if vmas =? -1 then mret None
    else
      pa0 ← walkaddr pagetable va0;
      if pa0 =? 0 then fault else mret (Some pa0)
  else mret (Some pa0).

Fixpoint copyout_loop (fuel : nat) (pagetable dstva src len : Z) : K Z :=
  match fuel with
  | O => halt NoFuel
  | S fuel' =>
      if 0 <? len then
        let va0 := PGROUNDDOWN dstva in
        r ← user_page pagetable va0;
        match r with
        | None => mret (-1)
        | Some pa0 =>
            let n := PGSIZE - (dstva - va0) in
            let n := if n >? len then len else n in
            kmemmove (pa0 + (dstva - va0)) src n;;
            copyout_loop fuel' pagetable (u64 (va0 + PGSIZE)) (src + n) (len - n)
        end
      else mret 0
  end.
Definition copyout (pagetable dstva src len : Z) : K Z :=
  copyout_loop (S (S (Z.to_nat (len / PGSIZE + 1)))) pagetable dstva src len.

Fixpoint copyin_loop (fuel : nat) (pagetable dst srcva len : Z) : K Z :=
  match fuel with
  | O => halt NoFuel
  | S fuel' =>
      if 0 <? len then
        let va0 := PGROUNDDOWN srcva in
        r ← user_page pagetable va0;
        match r with
        | None => mret (-1)
        | Some pa0 =>
            let n := PGSIZE - (srcva - va0) in
            let n := if n >? len then len else n in
            kmemmove dst (pa0 + (srcva - va0)) n;;
            copyin_loop fuel' pagetable (dst + n) (u64 (va0 + PGSIZE)) (len - n)
        end
      else mret 0
  end.
Definition copyin (pagetable dst srcva len : Z) : K Z :=
  copyin_loop (S (S (Z.to_nat (len / PGSIZE + 1)))) pagetable dst srcva len.

(** [copyin] and [copyout] when the kernel end is an object that is not part of
    the memory model (a local variable, a disk buffer, a struct field): the same
    loops, with the object's bytes as a list.  [copyin_obj] also gives the bytes
    copied before it returned. *)
Fixpoint copyin_obj_loop (fuel : nat) (pagetable srcva len : Z) (acc : list Z) : K (Z * list Z) :=
  match fuel with
  | O => halt NoFuel
  | S fuel' =>
      if 0 <? len then
        let va0 := PGROUNDDOWN srcva in
        r ← user_page pagetable va0;
        match r with
        | None => mret (-1, acc)
        | Some pa0 =>
            let n := PGSIZE - (srcva - va0) in
            let n := if n >? len then len else n in
            bs ← gets (λ s, ld_bytes (k_mem s) (pa0 + (srcva - va0)) (Z.to_nat n));
            copyin_obj_loop fuel' pagetable (u64 (va0 + PGSIZE)) (len - n) (acc ++ bs)
        end
      else mret (0, acc)
  end.
Definition copyin_obj (pagetable srcva len : Z) : K (Z * list Z) :=
  copyin_obj_loop (S (S (Z.to_nat (len / PGSIZE + 1)))) pagetable srcva len [].

Fixpoint copyout_obj_loop (fuel : nat) (pagetable dstva : Z) (src : list Z) : K Z :=
  match fuel with
  | O => halt NoFuel
  | S fuel' =>
      let len := Z.of_nat (length src) in
      if 0 <? len then
        let va0 := PGROUNDDOWN dstva in
        r ← user_page pagetable va0;
        match r with
        | None => mret (-1)
        | Some pa0 =>
            let n := PGSIZE - (dstva - va0) in
            let n := if n >? len then len else n in
            modify (λ s, set_mem (st_bytes (k_mem s) (pa0 + (dstva - va0)) (take (Z.to_nat n) src)) s);;
            copyout_obj_loop fuel' pagetable (u64 (va0 + PGSIZE)) (drop (Z.to_nat n) src)
        end
      else mret 0
  end.
Definition copyout_obj (pagetable dstva : Z) (src : list Z) : K Z :=
  copyout_obj_loop (S (S (Z.to_nat (length src / PGSIZE + 1)))) pagetable dstva src.

(** The inner loop of [copyinstr]: copies [n] bytes or up to the NUL. *)
Fixpoint copystr_page (n : nat) (p dst : Z) : K bool :=
  match n with
  | O => mret false
  | S n' =>
      c ← gets (λ s, ld8 (k_mem s) p);
      if c =? 0 then modify (λ s, set_mem (st8 (k_mem s) dst 0) s);; mret true
      else
        modify (λ s, set_mem (st8 (k_mem s) dst c) s);;
        copystr_page n' (p + 1) (dst + 1)
  end.
Fixpoint copyinstr_loop (fuel : nat) (pagetable dst srcva max : Z) : K Z :=
  match fuel with
  | O => halt NoFuel
  | S fuel' =>
      if 0 <? max then
        let va0 := PGROUNDDOWN srcva in
        r ← user_page pagetable va0;
        match r with
        | None => mret (-1)
        | Some pa0 =>
            let n := PGSIZE - (srcva - va0) in
            let n := if n >? max then max else n in
            got_null ← copystr_page (Z.to_nat n) (pa0 + (srcva - va0)) dst;
            if (got_null : bool) then mret 0
            else copyinstr_loop fuel' pagetable (dst + n) (u64 (va0 + PGSIZE)) (max - n)
        end
      else mret (-1)
  end.
Definition copyinstr (pagetable dst srcva max : Z) : K Z :=
  copyinstr_loop (S (S (Z.to_nat (max / PGSIZE + 1)))) pagetable dst srcva max.

(** [copyinstr] into an array outside the memory model: the string, [None] for
    the result -1. *)
Fixpoint copyinstr_obj_loop (fuel : nat) (pagetable srcva max : Z) (acc : list Z) : K (option (list Z)) :=
  match fuel with
  | O => halt NoFuel
  | S fuel' =>
      if 0 <? max then
        let va0 := PGROUNDDOWN srcva in
        r ← user_page pagetable va0;
        match r with
        | None => mret None
        | Some pa0 =>
            let n := PGSIZE - (srcva - va0) in
            let n := if n >? max then max else n in
            bs ← gets (λ s, ld_bytes (k_mem s) (pa0 + (srcva - va0)) (Z.to_nat n));
            if bool_decide (0 ∈ bs) then mret (Some (acc ++ cstr_of bs))
            else copyinstr_obj_loop fuel' pagetable (u64 (va0 + PGSIZE)) (max - n) (acc ++ bs)
        end
      else mret None
  end.
Definition copyinstr_obj (pagetable srcva max : Z) : K (option (list Z)) :=
  copyinstr_obj_loop (S (S (Z.to_nat (max / PGSIZE + 1)))) pagetable srcva max [].
End copy.
End vm.
