(* ===== verification/PageTable.v ===== *)
(** The page table as a structure: which pages are tables of a three-level
    page table, what [walk] finds for an address, and how the structure changes
    when a table is added or an entry is written.

    A page-table memory is seen here as [E : Z → Z → Z], the 64-bit entry at
    index [i] of the page at address [p]; [VmSpec] instantiates it with the
    kernel's memory. *)

From S2P Require Import Prelude Machine Str Types Kalloc Vm.

Section pagetable.
Context `{L : Linker}.

Definition child (e : Z) : option Z := if has PTE_V e then Some (PTE2PA e) else None.

(** The level-1 and the level-0 table for [va], and its valid entry. *)
Definition tbl1 (E : Z → Z → Z) (root va : Z) : option Z := child (E root (PX 2 va)).
Definition tbl0 (E : Z → Z → Z) (root va : Z) : option Z :=
  p ← tbl1 E root va; child (E p (PX 1 va)).
Definition leaf (E : Z → Z → Z) (root va : Z) : option Z :=
  p ← tbl0 E root va; let e := E p (PX 0 va) in if has PTE_V e then Some e else None.

(** [p] is one of the tables of [root]. *)
Definition is_table (E : Z → Z → Z) (root p : Z) : Prop :=
  p = root ∨ (∃ va, tbl1 E root va = Some p) ∨ (∃ va, tbl0 E root va = Some p).

(** The tables form a tree of managed pages none of which is on the free
    list [fl]. *)
Record pt_wf (E : Z → Z → Z) (fl : list Z) (root : Z) : Prop := {
  wf_page p : is_table E root p → page_ok p ∧ p ∉ fl;
  wf_t1_root va : tbl1 E root va ≠ Some root;
  wf_t0_root va : tbl0 E root va ≠ Some root;
  wf_t0_t1 va va' p : tbl0 E root va = Some p → tbl1 E root va' ≠ Some p;
  wf_inj1 va va' p :
    tbl1 E root va = Some p → tbl1 E root va' = Some p → PX 2 va = PX 2 va';
  wf_inj0 va va' p :
    tbl0 E root va = Some p → tbl0 E root va' = Some p →
    PX 2 va = PX 2 va' ∧ PX 1 va = PX 1 va' }.

(** Two addresses walk to the same entry. *)
Definition same_entry (va va' : Z) : Prop :=
  PX 2 va = PX 2 va' ∧ PX 1 va = PX 1 va' ∧ PX 0 va = PX 0 va'.

#[global] Instance same_entry_dec va va' : Decision (same_entry va va').
Proof. unfold same_entry. apply _. Defined.

Lemma same_entry_page va va' :
  0 ≤ va < MAXVA → 0 ≤ va' < MAXVA → same_entry va va' ↔ va / PGSIZE = va' / PGSIZE.
Proof.
  intros H H'. unfold same_entry. rewrite !PX_eq by lia.
  change MAXVA with (2 ^ 38) in *. unfold PGSIZE. simpl Z.mul.
  change (12 + 18) with 30. change (12 + 9) with 21. change (12 + 0) with 12.
  change (2 ^ 30) with 1073741824. change (2 ^ 21) with 2097152. change (2 ^ 12) with 4096.
  change (2 ^ 38) with 274877906944 in *. split; dlia.
Qed.

(** Agreement on the tables of [root] is enough to see the same page table. *)
Lemma tbl_agree E E' root :
  (∀ p i, is_table E root p → 0 ≤ i < 512 → E' p i = E p i) →
  ∀ va, tbl1 E' root va = tbl1 E root va ∧ tbl0 E' root va = tbl0 E root va ∧
        leaf E' root va = leaf E root va.
Proof.
  intros HE va.
  assert (tbl1 E' root va = tbl1 E root va) as H1.
  { unfold tbl1. rewrite HE; [done|by left|by apply PX_range]. }
  assert (tbl0 E' root va = tbl0 E root va) as H0.
  { unfold tbl0. rewrite H1. destruct (tbl1 E root va) as [p|] eqn:Ep; [|done]. cbn [mbind option_bind].
    rewrite HE; [done|right; left; eauto|by apply PX_range]. }
  split_and!; [done..|]. unfold leaf. rewrite H0.
  destruct (tbl0 E root va) as [p|] eqn:Ep; [|done]. cbn [mbind option_bind].
  rewrite HE; [done|right; right; eauto|by apply PX_range].
Qed.

Lemma is_table_agree E E' root :
  (∀ p i, is_table E root p → 0 ≤ i < 512 → E' p i = E p i) →
  ∀ p, is_table E' root p ↔ is_table E root p.
Proof.
  intros HE p. unfold is_table. pose proof (tbl_agree E E' root HE) as H.
  split; (intros [?|[[va Hv]|[va Hv]]]; [by left|right; left|right; right]; exists va;
    destruct (H va) as (H1 & H0 & _); congruence).
Qed.

Lemma pt_wf_agree E E' fl fl' root :
  (∀ p i, is_table E root p → 0 ≤ i < 512 → E' p i = E p i) →
  (∀ p, is_table E root p → p ∉ fl') →
  pt_wf E fl root → pt_wf E' fl' root.
Proof.
  intros HE Hfl W. pose proof (tbl_agree E E' root HE) as H.
  pose proof (is_table_agree E E' root HE) as Ht.
  split.
  - intros p Hp%Ht. split; [by apply (wf_page _ _ _ W)|by apply Hfl].
  - intros va. rewrite (proj1 (H va)). apply W.
  - intros va. rewrite (proj1 (proj2 (H va))). apply W.
  - intros va va' p. rewrite (proj1 (proj2 (H va))), (proj1 (H va')). apply W.
  - intros va va' p. rewrite (proj1 (H va)), (proj1 (H va')). apply W.
  - intros va va' p. rewrite (proj1 (proj2 (H va))), (proj1 (proj2 (H va'))). apply W.
Qed.

(** ** Growing the tree *)

(** The entry [walk] stores for a new table. *)
Definition table_pte (c : Z) : Z := Z.lor (PA2PTE c) PTE_V.

Lemma page_ok_hi c : page_ok c → 0 ≤ c < 2 ^ 56 ∧ 0 ≤ c / 4096 < 2 ^ 44 ∧ 4096 * (c / 4096) = c.
Proof.
  intros Hc. pose proof (page_ok_pos c Hc). destruct Hc as [Hm _].
  unfold PHYSTOP, KERNBASE, PGSIZE in *. split_and!; dlia.
Qed.

Lemma table_pte_eq c : page_ok c → table_pte c = 1024 * (c / 4096) + 1.
Proof.
  intros Hc. destruct (page_ok_hi c Hc) as (H1 & H2 & H3). unfold table_pte.
  rewrite PA2PTE_eq by lia. apply lor_low_add; lia.
Qed.

Lemma table_pte_range c : page_ok c → 0 ≤ table_pte c < 2 ^ 64.
Proof. intros Hc. rewrite table_pte_eq by done. destruct (page_ok_hi c Hc) as (H1 & H2 & H3). lia. Qed.

Lemma child_table c : page_ok c → child (table_pte c) = Some c.
Proof.
  intros Hc. destruct (page_ok_hi c Hc) as (H1 & H2 & H3).
  rewrite table_pte_eq by done. unfold child, has.
  destruct (pte_fields (c / 4096) 1) as [Hpa Hfl]; [lia..|].
  rewrite land_V_flags, Hpa, Hfl, H3. done.
Qed.

Lemma child_0 : child 0 = None.
Proof. done. Qed.

(** [E'] is [E] with the zeroed table [c] hung at entry [i] of table [p]. *)
Definition hang (E E' : Z → Z → Z) (p i c : Z) : Prop :=
  ∀ q j, page_ok q → 0 ≤ j < 512 →
    E' q j = if decide (q = p ∧ j = i) then table_pte c
             else if decide (q = c) then 0 else E q j.

Section grow.
Context (E E' : Z → Z → Z) (fl : list Z) (root va c : Z).
Context (W : pt_wf E (c :: fl) root) (Hc : page_ok c) (Hcfl : c ∉ fl).

Lemma grow_fresh p : is_table E root p → p ≠ c.
Proof.
  intros Hp E0. destruct (wf_page _ _ _ W p Hp) as [_ H].
  apply not_elem_of_cons in H as [H _]. done.
Qed.

Lemma grow_root_ok : page_ok root.
Proof. by apply (wf_page _ _ _ W root); left. Qed.

(** A missing level-1 table is added. *)
Section level2.
Context (H1 : tbl1 E root va = None) (HE : hang E E' root (PX 2 va) c).

Lemma grow2_tbl1 va' :
  tbl1 E' root va' = if decide (PX 2 va' = PX 2 va) then Some c else tbl1 E root va'.
Proof.
  unfold tbl1. rewrite HE by (apply grow_root_ok || by apply PX_range).
  destruct (decide (PX 2 va' = PX 2 va)).
  - rewrite decide_True by done. by apply child_table.
  - rewrite decide_False by (intros [_ ?]; done). rewrite decide_False; [done|].
    apply grow_fresh. by left.
Qed.

Lemma grow2_tbl0 va' : tbl0 E' root va' = tbl0 E root va'.
Proof.
  unfold tbl0. rewrite grow2_tbl1. case_decide as D.
  - assert (tbl1 E root va' = None) as ->.
    { unfold tbl1 in *. by rewrite D. }
    cbn [mbind option_bind]. rewrite HE by (done || by apply PX_range).
    rewrite decide_False, decide_True; [done|done|].
    intros [Hcr _]. by apply (grow_fresh root); [left|].
  - destruct (tbl1 E root va') as [p|] eqn:Ep; [|done]. cbn [mbind option_bind].
    assert (is_table E root p) as Hp by (right; left; eauto).
    rewrite HE by (by apply (wf_page _ _ _ W) || by apply PX_range).
    rewrite decide_False by (intros [-> _]; by eapply wf_t1_root).
    by rewrite decide_False by by apply grow_fresh.
Qed.

Lemma grow2_leaf va' : leaf E' root va' = leaf E root va'.
Proof.
  unfold leaf. rewrite grow2_tbl0. destruct (tbl0 E root va') as [p|] eqn:Ep; [|done]. cbn [mbind option_bind].
  assert (is_table E root p) as Hp by (right; right; eauto).
  rewrite HE by (by apply (wf_page _ _ _ W) || by apply PX_range).
  rewrite decide_False by (intros [-> _]; by eapply wf_t0_root).
  by rewrite decide_False by by apply grow_fresh.
Qed.

Lemma grow2_table p : is_table E' root p ↔ p = c ∨ is_table E root p.
Proof.
  unfold is_table. split.
  - intros [?|[[v Hv]|[v Hv]]].
    + by right; left.
    + rewrite grow2_tbl1 in Hv. case_decide; [left; congruence|]. right; right; left; eauto.
    + rewrite grow2_tbl0 in Hv. right; right; right; eauto.
  - intros [->|[?|[[v Hv]|[v Hv]]]].
    + right; left. exists va. by rewrite grow2_tbl1, decide_True.
    + by left.
    + right; left. exists v. rewrite grow2_tbl1, decide_False; [done|].
      intros D. unfold tbl1 in *. rewrite D in Hv. congruence.
    + right; right. exists v. by rewrite grow2_tbl0.
Qed.

Lemma grow2_wf : pt_wf E' fl root.
Proof.
  assert (root ≠ c) as Hrc by (apply grow_fresh; by left).
  split.
  - intros p [->|Hp]%grow2_table; [done|].
    destruct (wf_page _ _ _ W p Hp) as [? [_ ?]%not_elem_of_cons]. done.
  - intros v. rewrite grow2_tbl1. case_decide; [congruence|apply W].
  - intros v. rewrite grow2_tbl0. apply W.
  - intros v v' p. rewrite grow2_tbl0, grow2_tbl1. intros Hv.
    assert (p ≠ c) by (apply grow_fresh; right; right; eauto).
    case_decide; [congruence|by eapply W].
  - intros v v' p. rewrite !grow2_tbl1. intros Hv Hv'. do 2 case_decide.
    + congruence.
    + exfalso. apply (grow_fresh p); [right; left; eauto|congruence].
    + exfalso. apply (grow_fresh p); [right; left; eauto|congruence].
    + by eapply W.
  - intros v v' p. rewrite !grow2_tbl0. apply W.
Qed.
End level2.

(** A missing level-0 table is added. *)
Section level1.
Context (t1 : Z) (H1 : tbl1 E root va = Some t1) (H0 : tbl0 E root va = None).
Context (HE : hang E E' t1 (PX 1 va) c).

Lemma grow1_t1 : is_table E root t1.
Proof. right; left; eauto. Qed.

Lemma grow1_tbl1 va' : tbl1 E' root va' = tbl1 E root va'.
Proof.
  unfold tbl1. rewrite HE by (apply grow_root_ok || by apply PX_range).
  rewrite decide_False by (intros [-> _]; by eapply wf_t1_root).
  rewrite decide_False; [done|]. apply grow_fresh. by left.
Qed.

Lemma grow1_tbl0 va' :
  tbl0 E' root va' =
  if decide (PX 2 va' = PX 2 va ∧ PX 1 va' = PX 1 va) then Some c else tbl0 E root va'.
Proof.
  unfold tbl0. rewrite grow1_tbl1. destruct (tbl1 E root va') as [p|] eqn:Ep; cbn [mbind option_bind].
  - assert (is_table E root p) as Hp by (right; left; eauto).
    rewrite HE by (by apply (wf_page _ _ _ W) || by apply PX_range).
    rewrite (decide_False (P := p = c)) by by apply grow_fresh.
    destruct (decide (p = t1 ∧ PX 1 va' = PX 1 va)) as [[-> D]|D].
    + rewrite decide_True; [by apply child_table|]. split; [|done]. by eapply W.
    + rewrite decide_False; [done|]. intros [D2 D1]. apply D. split; [|done].
      unfold tbl1 in *. rewrite D2 in Ep. congruence.
  - rewrite decide_False; [done|]. intros [D2 _]. unfold tbl1 in *. rewrite D2 in Ep. congruence.
Qed.

Lemma grow1_leaf va' : leaf E' root va' = leaf E root va'.
Proof.
  unfold leaf. rewrite grow1_tbl0. case_decide as D.
  - assert (tbl0 E root va' = None) as ->.
    { destruct D as [D2 D1]. unfold tbl0, tbl1 in *. rewrite D2, D1. done. }
    cbn [mbind option_bind]. rewrite HE by (done || by apply PX_range).
    rewrite decide_False, decide_True; [done|done|].
    intros [Hct _]. by apply (grow_fresh t1); [apply grow1_t1|].
  - destruct (tbl0 E root va') as [p|] eqn:Ep; [|done]. cbn [mbind option_bind].
    assert (is_table E root p) as Hp by (right; right; eauto).
    rewrite HE by (by apply (wf_page _ _ _ W) || by apply PX_range).
    rewrite decide_False by (intros [-> _]; by eapply wf_t0_t1).
    by rewrite decide_False by by apply grow_fresh.
Qed.

Lemma grow1_table p : is_table E' root p ↔ p = c ∨ is_table E root p.
Proof.
  unfold is_table. split.
  - intros [?|[[v Hv]|[v Hv]]].
    + by right; left.
    + rewrite grow1_tbl1 in Hv. right; right; left; eauto.
    + rewrite grow1_tbl0 in Hv. case_decide; [left; congruence|]. right; right; right; eauto.
  - intros [->|[?|[[v Hv]|[v Hv]]]].
    + right; right. exists va. by rewrite grow1_tbl0, decide_True.
    + by left.
    + right; left. exists v. by rewrite grow1_tbl1.
    + right; right. exists v. rewrite grow1_tbl0, decide_False; [done|].
      intros [D2 D1]. unfold tbl0, tbl1 in *. rewrite D2, D1 in Hv. congruence.
Qed.

Lemma grow1_wf : pt_wf E' fl root.
Proof.
  assert (root ≠ c) as Hrc by (apply grow_fresh; by left).
  split.
  - intros p [->|Hp]%grow1_table; [done|].
    destruct (wf_page _ _ _ W p Hp) as [? [_ ?]%not_elem_of_cons]. done.
  - intros v. rewrite grow1_tbl1. apply W.
  - intros v. rewrite grow1_tbl0. case_decide; [congruence|apply W].
  - intros v v' p. rewrite grow1_tbl1, grow1_tbl0. case_decide; [|apply W].
    intros Hp Hv. apply (grow_fresh p); [right; left; eauto|congruence].
  - intros v v' p. rewrite !grow1_tbl1. apply W.
  - intros v v' p. rewrite !grow1_tbl0. intros Hv Hv'. do 2 case_decide.
    + destruct_and!. split; congruence.
    + exfalso. apply (grow_fresh p); [right; right; eauto|congruence].
    + exfalso. apply (grow_fresh p); [right; right; eauto|congruence].
    + by eapply W.
Qed.
End level1.
End grow.

(** ** Writing an entry of a level-0 table *)

Definition put_entry (E E' : Z → Z → Z) (p i v : Z) : Prop :=
  ∀ q j, page_ok q → 0 ≤ j < 512 → E' q j = if decide (q = p ∧ j = i) then v else E q j.

Section put.
Context (E E' : Z → Z → Z) (fl : list Z) (root va t0 v : Z).
Context (W : pt_wf E fl root) (H0 : tbl0 E root va = Some t0).
Context (HE : put_entry E E' t0 (PX 0 va) v).

Lemma put_tbl1 va' : tbl1 E' root va' = tbl1 E root va'.
Proof.
  unfold tbl1. rewrite HE by ((apply (wf_page _ _ _ W); by left) || by apply PX_range).
  rewrite decide_False; [done|]. intros [-> _]. by eapply wf_t0_root.
Qed.

Lemma put_tbl0 va' : tbl0 E' root va' = tbl0 E root va'.
Proof.
  unfold tbl0. rewrite put_tbl1. destruct (tbl1 E root va') as [p|] eqn:Ep; [|done]. cbn [mbind option_bind].
  rewrite HE by ((apply (wf_page _ _ _ W); right; left; by eauto) || by apply PX_range).
  rewrite decide_False; [done|]. intros [-> _]. by eapply wf_t0_t1.
Qed.

Lemma put_leaf va' :
  leaf E' root va' =
  if decide (same_entry va' va) then (if has PTE_V v then Some v else None)
  else leaf E root va'.
Proof.
  unfold leaf. rewrite put_tbl0. destruct (tbl0 E root va') as [p|] eqn:Ep; cbn [mbind option_bind].
  - rewrite HE by ((apply (wf_page _ _ _ W); right; right; by eauto) || by apply PX_range).
    destruct (decide (p = t0 ∧ PX 0 va' = PX 0 va)) as [[-> D]|D].
    + rewrite decide_True; [done|]. destruct (wf_inj0 _ _ _ W va' va t0 Ep H0). done.
    + rewrite decide_False; [done|]. intros (D2 & D1 & D0). apply D. split; [|done].
      unfold tbl0, tbl1 in *. rewrite D2, D1 in Ep. congruence.
  - rewrite decide_False; [done|]. intros (D2 & D1 & D0).
    unfold tbl0, tbl1 in *. rewrite D2, D1 in Ep. congruence.
Qed.

Lemma put_table p : is_table E' root p ↔ is_table E root p.
Proof. unfold is_table. setoid_rewrite put_tbl1. by setoid_rewrite put_tbl0. Qed.

Lemma put_wf : pt_wf E' fl root.
Proof.
  split.
  - intros p Hp%put_table. by apply (wf_page _ _ _ W).
  - intros ?. rewrite put_tbl1. apply W.
  - intros ?. rewrite put_tbl0. apply W.
  - intros ???. rewrite put_tbl1, put_tbl0. apply W.
  - intros ???. rewrite !put_tbl1. apply W.
  - intros ???. rewrite !put_tbl0. apply W.
Qed.
End put.
End pagetable.
