(* ===== verification/VmSpec.v ===== *)
(** Correctness of the page-table operations of [Vm]: they implement a finite
    map from virtual pages to entries.  [leaf (ent m) root va] is that map; the
    theorems say how each operation of vm.c changes it, that the tables stay a
    tree of pages disjoint from the free list, and that no byte outside the
    tables and the free pages is touched. *)

From S2P Require Import Prelude Machine Str Types Kalloc Vm PageTable.

(** The entry at index [i] of the table page [p]. *)
Definition ent (m : memory) (p i : Z) : Z := ld64 m (p + 8 * i).

Section vmspec.
Context `{L : Linker}.

(** ** Memory writes seen as page-table updates *)

Lemma pages_disjoint p q : page_ok p → page_ok q → p ≠ q → p + PGSIZE ≤ q ∨ q + PGSIZE ≤ p.
Proof. intros [Hp _] [Hq _] H. unfold PGSIZE in *. dlia. Qed.

Lemma ent_st64 m p i v q j :
  page_ok p → page_ok q → 0 ≤ i < 512 → 0 ≤ j < 512 → 0 ≤ v < 2 ^ 64 →
  ent (st64 m (p + 8 * i) v) q j = if decide (q = p ∧ j = i) then v else ent m q j.
Proof.
  intros Hp Hq Hi Hj Hv. unfold ent. case_decide as D.
  - destruct D as [-> ->]. by apply ld64_st64_eq.
  - apply ld64_st64_ne. destruct (decide (q = p)) as [->|Hne].
    + assert (j ≠ i) by tauto. lia.
    + destruct (pages_disjoint q p) as [?|?]; [done..| |]; unfold PGSIZE in *; lia.
Qed.

Lemma ent_memset0 m c q j :
  page_ok c → page_ok q → 0 ≤ j < 512 →
  ent (memset m c 0 PGSIZE) q j = if decide (q = c) then 0 else ent m q j.
Proof.
  intros Hc Hq Hj. unfold ent. case_decide as D.
  - subst. apply ld64_zero. intros b Hb. rewrite ld8_memset, decide_True; [done|]. unfold PGSIZE. lia.
  - apply ld64_ext. intros b Hb. rewrite ld8_memset, decide_False; [done|].
    destruct (pages_disjoint q c) as [?|?]; [done..| |]; unfold PGSIZE in *; lia.
Qed.

Lemma ent_memset_ne m c v q j :
  page_ok c → page_ok q → q ≠ c → 0 ≤ j < 512 →
  ent (memset m c v PGSIZE) q j = ent m q j.
Proof.
  intros Hc Hq Hne Hj. apply ld64_ext. intros b Hb.
  rewrite ld8_memset, decide_False; [done|].
  destruct (pages_disjoint q c) as [?|?]; [done..| |]; unfold PGSIZE in *; lia.
Qed.

(** ** The primitive accesses *)

Lemma load64_run a s : load64 a s = Ok (ld64 (k_mem s) a) s.
Proof. done. Qed.

Lemma store64_run a v s : store64 a v s = Ok tt (set_mem (st64 (k_mem s) a v) s).
Proof. done. Qed.

Lemma kmemset_run a v n s : a ≠ 0 → kmemset a v n s = Ok tt (set_mem (memset (k_mem s) a v n) s).
Proof. intros H. unfold kmemset. by destruct (Z.eqb_spec a 0). Qed.

Lemma kmemmove_run d a n s :
  d ≠ 0 → a ≠ 0 → kmemmove d a n s = Ok tt (set_mem (memmove (k_mem s) d a n) s).
Proof. intros H H'. unfold kmemmove. by destruct (Z.eqb_spec d 0), (Z.eqb_spec a 0). Qed.

(** ** The state of one page table *)

Definition ref_of (s : kstate) (p : Z) : Z := run_ref (run_at (k_kmem s) (p / PGSIZE)).

(** The allocator and the tables of [root] are in order, and each table has
    reference count 1. *)
Record vm_ok (s : kstate) (fl : list Z) (root : Z) : Prop := {
  vo_free : free_pages s fl;
  vo_wf : pt_wf (ent (k_mem s)) fl root;
  vo_ref p : is_table (ent (k_mem s)) root p → ref_of s p = 1 }.

(** The pages an operation on [root] may write: free pages and tables. *)
Definition zone (s : kstate) (fl : list Z) (root p : Z) : Prop :=
  p ∈ fl ∨ is_table (ent (k_mem s)) root p.

Definition in_page (p a : Z) : Prop := p ≤ a < p + PGSIZE.

(** What an operation on the table [root] leaves alone. *)
Record vm_step (root : Z) (s : kstate) (fl : list Z) (s' : kstate) (fl' : list Z) : Prop := {
  vs_rest : same_rest s s';
  vs_zone p : zone s' fl' root p → zone s fl root p;
  vs_mem a : (∀ p, zone s fl root p → ¬ in_page p a) → ld8 (k_mem s') a = ld8 (k_mem s) a;
  vs_ref p : page_ok p → p ∉ fl → ref_of s' p = ref_of s p;
  vs_fl : ∃ l, fl = l ++ fl' }.

Lemma vm_step_refl root s fl : vm_step root s fl s fl.
Proof. split; try done; [apply same_rest_refl|by exists []]. Qed.

Lemma vm_step_trans root s1 fl1 s2 fl2 s3 fl3 :
  vm_step root s1 fl1 s2 fl2 → vm_step root s2 fl2 s3 fl3 → vm_step root s1 fl1 s3 fl3.
Proof.
  intros A B. destruct (vs_fl _ _ _ _ _ A) as [l Hl]. destruct (vs_fl _ _ _ _ _ B) as [l' Hl'].
  split.
  - eapply same_rest_trans; [apply A|apply B].
  - intros p H. by apply A, B.
  - intros a H. rewrite (vs_mem _ _ _ _ _ B), (vs_mem _ _ _ _ _ A); [done..|].
    intros p Hp. by apply H, A.
  - intros p Hp Hfl. rewrite (vs_ref _ _ _ _ _ B), (vs_ref _ _ _ _ _ A); [done..|].
    subst. rewrite elem_of_app in Hfl. tauto.
  - exists (l ++ l'). subst. by rewrite app_assoc.
Qed.

(** ** Hanging a fresh table into the tree *)

(** The state after [kalloc], [memset] and the store of the new entry. *)
Definition hung (p i c : Z) (s : kstate) : kstate :=
  let s1 := allocated c s in
  set_mem (st64 (memset (k_mem s1) c 0 PGSIZE) (p + 8 * i) (table_pte c)) s1.

Lemma hung_hang p i c s :
  page_ok p → page_ok c → 0 ≤ i < 512 →
  hang (ent (k_mem s)) (ent (k_mem (hung p i c s))) p i c.
Proof.
  intros Hp Hc Hi q j Hq Hj. unfold hung, allocated. autorewrite with kst.
  rewrite ent_st64 by (done || by apply table_pte_range).
  case_decide; [done|]. rewrite ent_memset0 by done.
  case_decide; [done|]. by apply ent_memset_ne.
Qed.

Lemma hung_mem p i c s a :
  page_ok p → 0 ≤ i < 512 → ¬ in_page p a → ¬ in_page c a →
  ld8 (k_mem (hung p i c s)) a = ld8 (k_mem s) a.
Proof.
  unfold in_page. intros Hp Hi Ha Hca. unfold hung, allocated. autorewrite with kst.
  rewrite ld8_st64_out by (unfold PGSIZE in *; lia).
  rewrite !ld8_memset, !decide_False by done. done.
Qed.

Lemma hung_free p i c s fl : free_pages s (c :: fl) → free_pages (hung p i c s) fl.
Proof. intros H. apply free_pages_set_mem. by apply allocated_free. Qed.

Lemma hung_ref p i c s q :
  page_ok c → page_ok q → ref_of (hung p i c s) q = if decide (q = c) then 1 else ref_of s q.
Proof.
  intros Hc Hq. unfold ref_of. unfold hung. rewrite k_kmem_set_mem.
  rewrite ref_allocated. repeat case_decide; subst; try done.
  exfalso. by apply H0, page_index_inj.
Qed.

(** Bookkeeping shared by the two levels: given that the tables after the
    hanging are the old ones and [c], the rest follows. *)
Lemma hung_step root s fl p i c :
  vm_ok s (c :: fl) root → is_table (ent (k_mem s)) root p → 0 ≤ i < 512 →
  pt_wf (ent (k_mem (hung p i c s))) fl root →
  (∀ q, is_table (ent (k_mem (hung p i c s))) root q ↔
        q = c ∨ is_table (ent (k_mem s)) root q) →
  vm_ok (hung p i c s) fl root ∧ vm_step root s (c :: fl) (hung p i c s) fl.
Proof.
  intros [Hf W Hr] Hp Hi W' Ht.
  pose proof Hf as (_ & Hnd & Hok). apply list.Forall_cons in Hok as [Hc _].
  apply list.NoDup_cons in Hnd as [Hcfl _].
  destruct (wf_page _ _ _ W p Hp) as [Hpok Hpc]. apply not_elem_of_cons in Hpc as [Hpc _].
  split; split.
  - by apply hung_free.
  - done.
  - intros q Hq. pose proof (wf_page _ _ _ W' q Hq) as [Hqok _].
    rewrite hung_ref by done. case_decide; [done|].
    apply Hr. by apply Ht in Hq as [->|?].
  - unfold hung, allocated. auto with xv6.
  - intros q [Hq|Hq]; [left; by apply elem_of_cons; right|].
    apply Ht in Hq as [->|?]; [left; by apply elem_of_cons; left|by right].
  - intros a Ha. apply hung_mem; [done..| |].
    + apply Ha. by right.
    + apply Ha. left. by apply elem_of_cons; left.
  - intros q Hq Hqfl. apply not_elem_of_cons in Hqfl as [Hqc _].
    rewrite hung_ref, decide_False by done. done.
  - by exists [c].
Qed.

(** ** [walk] *)

Lemma table_ok s fl root p :
  vm_ok s fl root → is_table (ent (k_mem s)) root p → page_ok p.
Proof. intros V Hp. by apply (wf_page _ _ _ (vo_wf _ _ _ V)). Qed.

Lemma has_child e : child e = if has PTE_V e then Some (PTE2PA e) else None.
Proof. done. Qed.

(** One missing table: [kalloc], clear it, store its entry. *)
Lemma alloc_table_run p i s c fl (k : Z → K (option Z)) :
  free_pages s (c :: fl) → page_ok c →
  (p' ← kalloc;
   if p' =? 0 then mret None
   else kmemset p' 0 PGSIZE;; store64 (p + 8 * i) (Z.lor (PA2PTE p') PTE_V);; k p') s
  = k c (hung p i c s).
Proof.
  intros Hf Hc. rewrite (bind_ok _ _ _ _ _ (kalloc_run_cons s c fl Hf)).
  pose proof (page_ok_pos c Hc). destruct (Z.eqb_spec c 0); [lia|].
  rewrite (bind_ok _ _ _ _ _ (kmemset_run c 0 PGSIZE _ ltac:(lia))).
  rewrite (bind_ok _ _ _ _ _ (store64_run _ _ _)).
  unfold hung, table_pte. cbv zeta. by autorewrite with kst.
Qed.

Lemma alloc_table_none p i s (k : Z → K (option Z)) :
  free_pages s [] →
  (p' ← kalloc;
   if p' =? 0 then mret None
   else kmemset p' 0 PGSIZE;; store64 (p + 8 * i) (Z.lor (PA2PTE p') PTE_V);; k p') s
  = Ok None s.
Proof. intros Hf. by rewrite (bind_ok _ _ _ _ _ (kalloc_run_nil s Hf)). Qed.

Lemma walk_loop_step (n : nat) p va s :
  walk_loop (S n) p va true s =
  if has PTE_V (ent (k_mem s) p (PX (S n) va))
  then walk_loop n (PTE2PA (ent (k_mem s) p (PX (S n) va))) va true s
  else (p' ← kalloc;
        if p' =? 0 then mret None
        else kmemset p' 0 PGSIZE;; store64 (p + 8 * PX (S n) va) (Z.lor (PA2PTE p') PTE_V);;
             walk_loop n p' va true) s.
Proof.
  cbn [walk_loop]. unfold load64. rewrite (bind_ok _ _ _ _ _ (eq_refl : gets _ s = Ok _ s)).
  unfold ent. by destruct (has _ _).
Qed.

(** At most [n] pages are taken from the free list. *)
Definition uses (n : nat) (fl fl' : list Z) : Prop := (length fl ≤ length fl' + n)%nat.

Lemma uses_refl n fl : uses n fl fl.
Proof. unfold uses. lia. Qed.
Lemma uses_cons c fl : uses 1 (c :: fl) fl.
Proof. unfold uses. cbn. lia. Qed.
Lemma uses_trans n m fl1 fl2 fl3 : uses n fl1 fl2 → uses m fl2 fl3 → uses (n + m) fl1 fl3.
Proof. unfold uses. lia. Qed.
Lemma uses_le n m fl1 fl2 : (n ≤ m)%nat → uses n fl1 fl2 → uses m fl1 fl2.
Proof. unfold uses. lia. Qed.

Lemma tbl0_tbl1 E root va : is_Some (tbl0 E root va) → is_Some (tbl1 E root va).
Proof. unfold tbl0. destruct (tbl1 E root va); [done|]. by intros [? ?]. Qed.

(** The iteration of the loop at level 2. *)
Lemma walk_level2 s fl root va :
  vm_ok s fl root →
  ∃ o s1 fl1,
    walk_loop 2 root va true s =
      match o with Some t1 => walk_loop 1 t1 va true s1 | None => Ok None s1 end ∧
    vm_ok s1 fl1 root ∧ vm_step root s fl s1 fl1 ∧
    (∀ va', leaf (ent (k_mem s1)) root va' = leaf (ent (k_mem s)) root va') ∧
    uses 1 fl fl1 ∧ (is_Some (tbl1 (ent (k_mem s)) root va) → s1 = s ∧ fl1 = fl) ∧
    match o with
    | Some t1 => tbl1 (ent (k_mem s1)) root va = Some t1
    | None => fl1 = []
    end.
Proof.
  intros V. pose proof (vo_wf _ _ _ V) as W. rewrite walk_loop_step. change (Z.of_nat 2) with 2.
  destruct (has PTE_V (ent (k_mem s) root (PX 2 va))) eqn:Hv.
  - exists (Some (PTE2PA (ent (k_mem s) root (PX 2 va)))), s, fl.
    split_and!; [done|done|apply vm_step_refl|done|by apply uses_refl|done|]. unfold tbl1. by rewrite has_child, Hv.
  - assert (tbl1 (ent (k_mem s)) root va = None) as H1.
    { unfold tbl1. by rewrite has_child, Hv. }
    destruct fl as [|c fl].
    + exists None, s, []. split_and!; [|done|apply vm_step_refl|done|by apply uses_refl|done|done].
      apply alloc_table_none. apply V.
    + pose proof (vo_free _ _ _ V) as Hf. pose proof Hf as (_ & Hnd & Hok).
      apply list.Forall_cons in Hok as [Hc _]. apply list.NoDup_cons in Hnd as [Hcfl _].
      assert (page_ok root) as Hr by (eapply table_ok; [done|by left]).
      assert (0 ≤ PX 2 va < 512) as Hi by by apply PX_range.
      pose proof (hung_hang root (PX 2 va) c s Hr Hc Hi) as HE.
      exists (Some c), (hung root (PX 2 va) c s), fl.
      destruct (hung_step root s fl root (PX 2 va) c) as [V' St]; [done|by left|done| |..].
      { eapply grow2_wf; eauto. }
      { intros q. eapply grow2_table; eauto. }
      split_and!; [|done|done| |by apply uses_cons|rewrite H1; by intros [? ?]|].
      * by apply (alloc_table_run root (PX 2 va) s c fl (λ p', walk_loop 1 p' va true)).
      * intros va'. eapply grow2_leaf; eauto.
      * erewrite grow2_tbl1 by eauto. by rewrite decide_True.
Qed.

(** The iteration at level 1. *)
Lemma walk_level1 s fl root va t1 :
  vm_ok s fl root → tbl1 (ent (k_mem s)) root va = Some t1 →
  ∃ o s1 fl1,
    walk_loop 1 t1 va true s = Ok o s1 ∧
    vm_ok s1 fl1 root ∧ vm_step root s fl s1 fl1 ∧
    (∀ va', leaf (ent (k_mem s1)) root va' = leaf (ent (k_mem s)) root va') ∧
    uses 1 fl fl1 ∧ (is_Some (tbl0 (ent (k_mem s)) root va) → fl1 = fl) ∧
    match o with
    | Some t0 => tbl0 (ent (k_mem s1)) root va = Some t0
    | None => fl1 = []
    end.
Proof.
  intros V H1. pose proof (vo_wf _ _ _ V) as W. rewrite walk_loop_step. change (Z.of_nat 1) with 1.
  assert (tbl0 (ent (k_mem s)) root va = child (ent (k_mem s) t1 (PX 1 va))) as H0.
  { unfold tbl0. by rewrite H1. }
  destruct (has PTE_V (ent (k_mem s) t1 (PX 1 va))) eqn:Hv.
  - exists (Some (PTE2PA (ent (k_mem s) t1 (PX 1 va)))), s, fl.
    split_and!; [done|done|apply vm_step_refl|done|by apply uses_refl|done|]. by rewrite H0, has_child, Hv.
  - rewrite has_child, Hv in H0. destruct fl as [|c fl].
    + exists None, s, []. split_and!; [|done|apply vm_step_refl|done|by apply uses_refl|done|done].
      apply alloc_table_none. apply V.
    + pose proof (vo_free _ _ _ V) as Hf. pose proof Hf as (_ & Hnd & Hok).
      apply list.Forall_cons in Hok as [Hc _]. apply list.NoDup_cons in Hnd as [Hcfl _].
      assert (is_table (ent (k_mem s)) root t1) as Ht by (right; left; eauto).
      assert (page_ok t1) as Hr by by eapply table_ok.
      assert (0 ≤ PX 1 va < 512) as Hi by by apply PX_range.
      pose proof (hung_hang t1 (PX 1 va) c s Hr Hc Hi) as HE.
      exists (Some c), (hung t1 (PX 1 va) c s), fl.
      destruct (hung_step root s fl t1 (PX 1 va) c) as [V' St]; [done..| | |].
      { eapply grow1_wf; eauto. }
      { intros q. eapply grow1_table; eauto. }
      split_and!; [|done|done| |by apply uses_cons|rewrite H0; by intros [? ?]|].
      * by apply (alloc_table_run t1 (PX 1 va) s c fl (λ p', walk_loop 0 p' va true)).
      * intros va'. eapply grow1_leaf; eauto.
      * erewrite grow1_tbl0 by eauto. by rewrite decide_True.
Qed.

(** [walk(pagetable, va, 1)] finds or builds the tables for [va]. *)
Lemma walk_alloc s fl root va :
  vm_ok s fl root → 0 ≤ va < MAXVA →
  ∃ r s' fl',
    walk root va true s = Ok r s' ∧ vm_ok s' fl' root ∧ vm_step root s fl s' fl' ∧
    (∀ va', leaf (ent (k_mem s')) root va' = leaf (ent (k_mem s)) root va') ∧
    uses 2 fl fl' ∧ (is_Some (tbl0 (ent (k_mem s)) root va) → fl' = fl) ∧
    ((r = 0 ∧ fl' = []) ∨
     ∃ t0, tbl0 (ent (k_mem s')) root va = Some t0 ∧ r = t0 + 8 * PX 0 va ∧ r ≠ 0).
Proof.
  intros V Hva. unfold walk. destruct (Z.geb_spec va MAXVA); [lia|].
  destruct (walk_level2 s fl root va V) as (o & s1 & fl1 & E1 & V1 & St1 & Hl1 & U1 & P1 & Ho).
  assert (P : is_Some (tbl0 (ent (k_mem s)) root va) → s1 = s ∧ fl1 = fl) by (intros Hs; by apply P1, tbl0_tbl1).
  destruct o as [t1|].
  - destruct (walk_level1 s1 fl1 root va t1 V1 Ho) as (o & s2 & fl2 & E2 & V2 & St2 & Hl2 & U2 & P2 & Ho2).
    assert (P' : is_Some (tbl0 (ent (k_mem s)) root va) → fl2 = fl) by (intros Hs; destruct (P Hs) as [-> ->]; auto).
    pose proof (uses_trans _ _ _ _ _ U1 U2) as U.
    rewrite E2 in E1. destruct o as [t0|].
    + exists (t0 + 8 * PX 0 va), s2, fl2. rewrite (bind_ok _ _ _ _ _ E1).
      assert (page_ok t0) as Ht0 by (eapply table_ok; [done|right; right; eauto]).
      pose proof (page_ok_pos t0 Ht0). pose proof (PX_range 0 va ltac:(lia)).
      split_and!; [done|done|by eapply vm_step_trans|intros; by rewrite Hl2|done|done|].
      right. exists t0. split_and!; [done|done|lia].
    + exists 0, s2, fl2. rewrite (bind_ok _ _ _ _ _ E1).
      split_and!; [done|done|by eapply vm_step_trans|intros; by rewrite Hl2|done|done|by left].
  - exists 0, s1, fl1. rewrite (bind_ok _ _ _ _ _ E1). split_and!; try done; [by eapply uses_le; [|exact U1]; lia|intros Hs; by apply P|by left].
Qed.

(** [walk(pagetable, va, 0)] reads only. *)
Lemma walk_lookup s fl root va :
  vm_ok s fl root → 0 ≤ va < MAXVA →
  walk root va false s =
    Ok (match tbl0 (ent (k_mem s)) root va with
        | Some t0 => t0 + 8 * PX 0 va | None => 0 end) s ∧
  (∀ t0, tbl0 (ent (k_mem s)) root va = Some t0 → t0 + 8 * PX 0 va ≠ 0).
Proof.
  intros V Hva. split.
  - unfold walk. destruct (Z.geb_spec va MAXVA); [lia|]. unfold walk_loop, load64, gets.
    unfold tbl0, tbl1, child, ent, mbind, M_bind, option_bind, mret, M_ret. cbn [obind].
    change (Z.of_nat 2) with 2. change (Z.of_nat 1) with 1.
    destruct (has PTE_V (ld64 (k_mem s) (root + 8 * PX 2 va))); [|done].
    by destruct (has PTE_V (ld64 (k_mem s) _)).
  - intros t0 Ht. assert (page_ok t0) as Ht0 by (eapply table_ok; [done|right; right; eauto]).
    pose proof (page_ok_pos t0 Ht0). pose proof (PX_range 0 va ltac:(lia)). lia.
Qed.

(** An address whose tables exist: [walk] finds the entry, allocating or not. *)
Lemma walk_present s fl root va t0 alloc :
  vm_ok s fl root → 0 ≤ va < MAXVA → tbl0 (ent (k_mem s)) root va = Some t0 →
  walk root va alloc s = Ok (t0 + 8 * PX 0 va) s ∧ t0 + 8 * PX 0 va ≠ 0.
Proof.
  intros V Hva H0. split; [|by eapply walk_lookup].
  unfold walk. destruct (Z.geb_spec va MAXVA); [lia|]. unfold walk_loop, load64, gets.
  unfold tbl0, tbl1, child, ent, mbind, M_bind, option_bind, mret, M_ret in *. cbn [obind].
  change (Z.of_nat 2) with 2. change (Z.of_nat 1) with 1.
  destruct (has PTE_V (ld64 (k_mem s) (root + 8 * PX 2 va))); [|done].
  destruct (has PTE_V (ld64 (k_mem s) _)); [|done]. by injection H0 as ->.
Qed.

Lemma leaf_some E root va e :
  leaf E root va = Some e →
  ∃ t0, tbl0 E root va = Some t0 ∧ E t0 (PX 0 va) = e ∧ has PTE_V e = true.
Proof.
  unfold leaf. destruct (tbl0 E root va) as [t0|]; [|done]. cbn [mbind option_bind].
  destruct (has PTE_V (E t0 (PX 0 va))) eqn:Hv; [|done]. intros [=<-]. by exists t0.
Qed.

(** ** Storing a leaf entry *)

(** The entry [mappages] stores. *)
Definition mk_pte (pa perm : Z) : Z := Z.lor (Z.lor (PA2PTE pa) perm) PTE_V.

Lemma mk_pte_ok pa perm :
  0 ≤ pa < 2 ^ 56 → 0 ≤ perm < 1024 →
  0 ≤ mk_pte pa perm < 2 ^ 64 ∧ has PTE_V (mk_pte pa perm) = true ∧
  PTE2PA (mk_pte pa perm) = PGROUNDDOWN pa ∧ PTE_FLAGS (mk_pte pa perm) = Z.lor perm PTE_V.
Proof.
  intros Hpa Hp. destruct (pte_make pa perm Hpa Hp) as [E Hr]. unfold mk_pte.
  destruct (pte_fields (pa / 4096) (Z.lor perm PTE_V)) as [Ha Hf]; [dlia|done|].
  rewrite E. split_and!.
  - dlia.
  - dlia.
  - unfold has. by rewrite land_V_flags, Hf, lor_V_valid.
  - rewrite Ha, PGROUNDDOWN_eq by lia. done.
  - done.
Qed.

Lemma store_leaf s fl root va t0 v :
  vm_ok s fl root → tbl0 (ent (k_mem s)) root va = Some t0 → 0 ≤ v < 2 ^ 64 →
  let s' := set_mem (st64 (k_mem s) (t0 + 8 * PX 0 va) v) s in
  vm_ok s' fl root ∧ vm_step root s fl s' fl ∧
  (∀ va', leaf (ent (k_mem s')) root va' =
          if decide (same_entry va' va) then (if has PTE_V v then Some v else None)
          else leaf (ent (k_mem s)) root va').
Proof.
  intros V H0 Hv s'. pose proof (vo_wf _ _ _ V) as W.
  assert (is_table (ent (k_mem s)) root t0) as Ht by (right; right; eauto).
  assert (page_ok t0) as Hok by by eapply table_ok.
  assert (0 ≤ PX 0 va < 512) as Hi by by apply PX_range.
  assert (put_entry (ent (k_mem s)) (ent (k_mem s')) t0 (PX 0 va) v) as HE.
  { intros q j Hq Hj. by apply ent_st64. }
  pose proof (put_table _ _ _ _ _ _ _ W H0 HE) as Hta.
  split_and!; [split|split|].
  - by apply free_pages_set_mem, V.
  - by eapply put_wf.
  - intros p Hp%Hta. by apply V.
  - unfold s'. auto with xv6.
  - intros p [?|?%Hta]; [by left|by right].
  - intros a Ha. unfold s'. autorewrite with kst. apply ld8_st64_out.
    pose proof (Ha t0 (or_intror Ht)). unfold in_page, PGSIZE in *. lia.
  - done.
  - by exists [].
  - intros va'. by eapply put_leaf.
Qed.

(** ** [mappages] *)

(** The pages [a, a + n * PGSIZE) map to the frames from [pa] on. *)
Definition mapped (E E' : Z → Z → Z) (root a n pa perm : Z) : Prop :=
  ∀ va, 0 ≤ va < MAXVA →
    leaf E' root va =
    if decide (a ≤ va < a + n * PGSIZE)
    then Some (mk_pte (pa + PGSIZE * ((va - a) / PGSIZE)) perm)
    else leaf E root va.

Lemma leaf_tbl0 E root va t0 :
  tbl0 E root va = Some t0 →
  leaf E root va = if has PTE_V (E t0 (PX 0 va)) then Some (E t0 (PX 0 va)) else None.
Proof. intros H. unfold leaf. by rewrite H. Qed.

(** One iteration of the loop. *)
Lemma mappages_iter s fl root a last pa perm (n : nat) :
  vm_ok s fl root → 0 ≤ a < MAXVA → 0 ≤ pa < 2 ^ 56 → 0 ≤ perm < 1024 →
  leaf (ent (k_mem s)) root a = None →
  ∃ s' fl', vm_ok s' fl' root ∧ vm_step root s fl s' fl' ∧
    uses 2 fl fl' ∧ (is_Some (tbl0 (ent (k_mem s)) root a) → fl' = fl) ∧
    ((mappages_loop (S n) root a last pa perm s = Ok (-1) s' ∧ fl' = [] ∧
      ∀ va', leaf (ent (k_mem s')) root va' = leaf (ent (k_mem s)) root va') ∨
     mappages_loop (S n) root a last pa perm s =
       (if a =? last then mret 0
        else mappages_loop n root (u64 (a + PGSIZE)) last (u64 (pa + PGSIZE)) perm) s' ∧
     ∀ va', leaf (ent (k_mem s')) root va' =
            if decide (same_entry va' a) then Some (mk_pte pa perm)
            else leaf (ent (k_mem s)) root va').
Proof.
  intros V Ha Hpa Hp Hn. destruct (mk_pte_ok pa perm Hpa Hp) as (Hv & Hvv & _).
  destruct (walk_alloc s fl root a V Ha) as (r & s1 & fl1 & E1 & V1 & St1 & Hl1 & U1 & P1 & Hr).
  cbn [mappages_loop]. rewrite (bind_ok _ _ _ _ _ E1).
  destruct Hr as [[-> ->]|(t0 & H0 & -> & Hr)].
  { exists s1, []. split_and!; [done..|]. by left. }
  destruct (Z.eqb_spec (t0 + 8 * PX 0 a) 0) as [?|_]; [lia|].
  rewrite (bind_ok _ _ _ _ _ (load64_run _ _)).
  pose proof (leaf_tbl0 _ _ _ _ H0) as Hlf. rewrite Hl1, Hn in Hlf. unfold ent in Hlf at 1.
  destruct (has PTE_V (ld64 (k_mem s1) (t0 + 8 * PX 0 a))); [done|].
  rewrite (bind_ok _ _ _ _ _ (store64_run _ _ _)).
  destruct (store_leaf s1 fl1 root a t0 (mk_pte pa perm) V1 H0 Hv) as (V2 & St2 & Hl2).
  eexists _, fl1. split_and!; [exact V2|by eapply vm_step_trans|done|done|]. right. split; [done|].
  intros va'. rewrite Hl2, Hvv, Hl1. done.
Qed.

Lemma mapped_0 E E' root a pa perm :
  (∀ va, leaf E' root va = leaf E root va) → mapped E E' root a 0 pa perm.
Proof. intros H va Hva. rewrite decide_False by lia. apply H. Qed.

Lemma same_entry_range va a :
  0 ≤ va < MAXVA → 0 ≤ a < MAXVA → a mod PGSIZE = 0 →
  same_entry va a ↔ a ≤ va < a + PGSIZE.
Proof. intros Hva Ha Hal. rewrite same_entry_page by done. pgd. Qed.

Lemma mapped_cons E E1 E2 root a k pa perm :
  0 ≤ a < MAXVA → a mod PGSIZE = 0 → 0 ≤ k →
  (∀ va, leaf E1 root va =
         if decide (same_entry va a) then Some (mk_pte pa perm) else leaf E root va) →
  mapped E1 E2 root (a + PGSIZE) k (pa + PGSIZE) perm →
  mapped E E2 root a (k + 1) pa perm.
Proof.
  intros Ha Hal Hk H1 H2 va Hva. rewrite H2, H1 by done.
  pose proof (same_entry_range va a Hva Ha Hal) as Hse.
  destruct (decide (a + PGSIZE ≤ va < a + PGSIZE + k * PGSIZE)).
  - rewrite decide_True by pg. do 2 f_equal. pgd.
  - destruct (decide (same_entry va a)) as [D|D].
    + apply Hse in D. rewrite decide_True by pg. rewrite Z.div_small by pg. do 2 f_equal. lia.
    + rewrite decide_False; [done|]. intros D'. apply D, Hse. pg.
Qed.

(** The 2 MB block of an address: addresses of a block share their tables. *)
Definition block_of (va : Z) : Z := va / 2 ^ 21.

Lemma tbl0_block E root va va' : block_of va = block_of va' → tbl0 E root va = tbl0 E root va'.
Proof.
  unfold block_of. intros H. assert (PX 1 va = PX 1 va' ∧ PX 2 va = PX 2 va') as [H1 H2]; [|unfold tbl0, tbl1; by rewrite H1, H2].
  rewrite !PX_eq by lia. change (12 + 9 * 1) with 21. change (12 + 9 * 2) with 30. rewrite H. split; [done|].
  change (2 ^ 30) with (2 ^ 21 * 2 ^ 9). rewrite <- !Z.div_div by lia. by rewrite H.
Qed.

Lemma block_next a : 0 ≤ a → a mod PGSIZE = 0 → block_of (a + PGSIZE) = block_of a ∨ block_of (a + PGSIZE) = block_of a + 1.
Proof. intros Ha Hal. unfold block_of, PGSIZE in *. change (2 ^ 21) with 2097152. dlia. Qed.

(** The pages taken by the first step and the rest of the loop. *)
Lemma uses_next E E1 root a last fl fl1 fl2 :
  0 ≤ a → a mod PGSIZE = 0 → a + PGSIZE ≤ last → uses 2 fl fl1 → (is_Some (tbl0 E root a) → fl1 = fl) → is_Some (tbl0 E1 root a) →
  uses (2 * Z.to_nat (block_of last - block_of (a + PGSIZE) + 1)) fl1 fl2 →
  (is_Some (tbl0 E1 root (a + PGSIZE)) → uses (2 * Z.to_nat (block_of last - block_of (a + PGSIZE))) fl1 fl2) →
  uses (2 * Z.to_nat (block_of last - block_of a + 1)) fl fl2 ∧
  (is_Some (tbl0 E root a) → uses (2 * Z.to_nat (block_of last - block_of a)) fl fl2).
Proof.
  intros Ha Hal Hl U1 P1 Hs U P. assert (block_of (a + PGSIZE) ≤ block_of last) by (apply Z.div_le_mono; lia).
  destruct (block_next a Ha Hal) as [E'|E']; rewrite E' in *.
  - rewrite (tbl0_block _ _ _ a E') in P. specialize (P Hs). split; [|intros Hs'; by rewrite <- (P1 Hs')].
    eapply uses_le; [|by eapply uses_trans]. lia.
  - split; [eapply uses_le; [|by eapply uses_trans]; lia|]. intros Hs'. rewrite <- (P1 Hs'). eapply uses_le; [|exact U]. lia.
Qed.

Lemma leaf_tables E root va e : leaf E root va = Some e → is_Some (tbl0 E root va).
Proof. intros (t0 & H & _)%leaf_some. by exists t0. Qed.

Lemma mappages_loop_run (n : nat) : ∀ s fl root a last pa perm,
  vm_ok s fl root → a mod PGSIZE = 0 → 0 ≤ a → last = a + n * PGSIZE → last < MAXVA →
  0 ≤ pa → pa + n * PGSIZE < 2 ^ 56 → 0 ≤ perm < 1024 →
  (∀ va, a ≤ va < last + PGSIZE → leaf (ent (k_mem s)) root va = None) →
  ∃ r s' fl' (k : Z),
    mappages_loop (S n) root a last pa perm s = Ok r s' ∧
    vm_ok s' fl' root ∧ vm_step root s fl s' fl' ∧
    mapped (ent (k_mem s)) (ent (k_mem s')) root a k pa perm ∧
    uses (2 * Z.to_nat (block_of last - block_of a + 1)) fl fl' ∧
    (is_Some (tbl0 (ent (k_mem s)) root a) → uses (2 * Z.to_nat (block_of last - block_of a)) fl fl') ∧
    (r = 0 ∧ k = n + 1 ∨ r = -1 ∧ fl' = [] ∧ 0 ≤ k ≤ n).
Proof.
  induction n as [|n IH]; intros s fl root a last pa perm V Hal Ha Hlast Hmax Hpa Hpl Hp Hn.
  all: match goal with |- context [mappages_loop (S ?k) _ _ _ _ _] =>
    destruct (mappages_iter s fl root a last pa perm k V ltac:(pg) ltac:(pg) Hp
                ltac:(apply Hn; pg)) as (s1 & fl1 & V1 & St1 & U1 & P1 & [(E & Hfl & Hl)|(E & Hl)]) end.
  all: rewrite E; clear E.
  all: assert (U0 : 0 ≤ block_of last - block_of a) by (pose proof (Z.div_le_mono a last (2 ^ 21)); unfold block_of; pg).
  all: assert (U : uses (2 * Z.to_nat (block_of last - block_of a + 1)) fl fl1) by (eapply uses_le; [|exact U1]; lia).
  all: assert (P : is_Some (tbl0 (ent (k_mem s)) root a) → uses (2 * Z.to_nat (block_of last - block_of a)) fl fl1) by (intros Hs; rewrite (P1 Hs); apply uses_refl).
  1, 3: subst fl1; exists (-1), s1, [], 0; split_and!; [done..|by apply mapped_0|done|done|right; split_and!; done || lia].
  - destruct (Z.eqb_spec a last); [|lia].
    exists 0, s1, fl1, (0 + 1). split_and!; [done..| |done|done|left; split_and!; done || lia].
    eapply mapped_cons; [pg|done|done|exact Hl|by apply mapped_0].
  - destruct (Z.eqb_spec a last); [pg|]. rewrite !u64_small by pg.
    destruct (IH s1 fl1 root (a + PGSIZE) last (pa + PGSIZE) perm) as
      (r & s2 & fl2 & k & E & V2 & St2 & Hm & U2 & P2 & Hr); [done|pgd|pg..|done| |].
    { intros va Hva. rewrite Hl. rewrite decide_False; [apply Hn; pg|].
      intros D. apply same_entry_range in D; [pg|pgd|pg|done]. }
    destruct (uses_next (ent (k_mem s)) (ent (k_mem s1)) root a last fl fl1 fl2 Ha Hal ltac:(pg) U1 P1) as [? ?]; [|exact U2|exact P2|].
    { eapply leaf_tables. rewrite Hl, decide_True by (apply same_entry_range; pg). done. }
    exists r, s2, fl2, (k + 1). split_and!; [done|done|by eapply vm_step_trans| |done|done|].
    + eapply mapped_cons; [pg|done|lia|exact Hl|done].
    + destruct Hr as [[-> ->]|(-> & -> & ?)]; [left|right]; split_and!; done || lia.
Qed.

(** The number of pages that [va, va + size) touches. *)
Definition pages_of (va size : Z) : Z := (va + size - 1) / PGSIZE - va / PGSIZE + 1.

Lemma mappages_run_uses s fl root va size pa perm :
  vm_ok s fl root → 0 ≤ va → 0 < size → va + size ≤ MAXVA →
  0 ≤ pa → pa + size ≤ 2 ^ 55 → 0 ≤ perm < 1024 →
  (∀ va', PGROUNDDOWN va ≤ va' < PGROUNDDOWN (va + size - 1) + PGSIZE →
          leaf (ent (k_mem s)) root va' = None) →
  ∃ r s' fl' k, mappages root va size pa perm s = Ok r s' ∧
    vm_ok s' fl' root ∧ vm_step root s fl s' fl' ∧
    mapped (ent (k_mem s)) (ent (k_mem s')) root (PGROUNDDOWN va) k pa perm ∧
    uses (2 * Z.to_nat (block_of (va + size - 1) - block_of va + 1)) fl fl' ∧
    (r = 0 ∧ k = pages_of va size ∨ r = -1 ∧ fl' = [] ∧ 0 ≤ k < pages_of va size).
Proof.
  intros V Hva Hsz Hm Hpa Hpl Hp Hn. unfold mappages, pages_of.
  destruct (Z.eqb_spec size 0); [lia|]. rewrite u64_small by pg.
  rewrite !PGROUNDDOWN_eq in * by pg. set (d := (va + size - 1) / PGSIZE) in *.
  assert (va / PGSIZE ≤ d) by (apply Z.div_le_mono; pg).
  destruct (Z.leb_spec (PGSIZE * (va / PGSIZE)) (PGSIZE * d)) as [Hle|]; [|pg].
  replace (PGSIZE * d - PGSIZE * (va / PGSIZE)) with ((d - va / PGSIZE) * PGSIZE) by lia.
  rewrite Z.div_mul by done.
  destruct (mappages_loop_run (Z.to_nat (d - va / PGSIZE)) s fl root
    (PGSIZE * (va / PGSIZE)) (PGSIZE * d) pa perm) as (r & s' & fl' & k & E & V' & St & Hmp & U & _ & Hr);
    [done|pgd|pgd|pg|unfold d in *; pgd|done|unfold d in *; pgd|done|done|].
  assert (∀ x, 0 ≤ x → block_of (PGSIZE * (x / PGSIZE)) = block_of x) as Hb.
  { intros x Hx. unfold block_of, PGSIZE. change (2 ^ 21) with 2097152. dlia. }
  unfold d in U. rewrite !Hb in U by lia.
  exists r, s', fl', k. split_and!; [done..|].
  destruct Hr as [[-> ->]|(-> & -> & ?)]; [left|right]; split_and!; done || lia.
Qed.

Lemma mappages_run s fl root va size pa perm :
  vm_ok s fl root → 0 ≤ va → 0 < size → va + size ≤ MAXVA →
  0 ≤ pa → pa + size ≤ 2 ^ 55 → 0 ≤ perm < 1024 →
  (∀ va', PGROUNDDOWN va ≤ va' < PGROUNDDOWN (va + size - 1) + PGSIZE →
          leaf (ent (k_mem s)) root va' = None) →
  ∃ r s' fl' k, mappages root va size pa perm s = Ok r s' ∧
    vm_ok s' fl' root ∧ vm_step root s fl s' fl' ∧
    mapped (ent (k_mem s)) (ent (k_mem s')) root (PGROUNDDOWN va) k pa perm ∧
    (r = 0 ∧ k = pages_of va size ∨ r = -1 ∧ fl' = [] ∧ 0 ≤ k < pages_of va size).
Proof.
  intros V Hva Hsz Hm Hpa Hpl Hp Hn.
  destruct (mappages_run_uses s fl root va size pa perm) as (r & s' & fl' & k & ? & ? & ? & ? & _ & ?); [done..|].
  by exists r, s', fl', k.
Qed.

(** C11: [mappages] on a region that is not mapped yet: with enough memory it
    returns 0 and the map of the page table is the old one with the pages of
    [va, va + size) added, each with its frame and [perm]; when the free list
    runs out it returns -1 with a prefix of the region mapped.  In both cases
    the tables stay well formed, and nothing but the tables and pages taken
    from the free list is written. *)
Theorem mappages_correct s fl root va size pa perm :
  vm_ok s fl root → 0 ≤ va → 0 < size → va + size ≤ MAXVA →
  0 ≤ pa → pa + size ≤ 2 ^ 55 → 0 ≤ perm < 1024 →
  (∀ va', PGROUNDDOWN va ≤ va' < PGROUNDDOWN (va + size - 1) + PGSIZE →
          leaf (ent (k_mem s)) root va' = None) →
  ∃ r s' fl' k, mappages root va size pa perm s = Ok r s' ∧
    vm_ok s' fl' root ∧ vm_step root s fl s' fl' ∧
    mapped (ent (k_mem s)) (ent (k_mem s')) root (PGROUNDDOWN va) k pa perm ∧
    (r = 0 ∧ k = pages_of va size ∨ r = -1 ∧ fl' = [] ∧ 0 ≤ k < pages_of va size).
Proof. apply mappages_run. Qed.

(** A page that is already mapped is never silently remapped: [mappages]
    panics. *)
Theorem mappages_remap s fl root va size pa perm e :
  vm_ok s fl root → 0 ≤ va → 0 < size → va + size ≤ MAXVA →
  leaf (ent (k_mem s)) root (PGROUNDDOWN va) = Some e →
  ∃ s', mappages root va size pa perm s = Stop (Panics "mappages: remap") s'.
Proof.
  intros V Hva Hsz Hm He. unfold mappages. destruct (Z.eqb_spec size 0); [lia|].
  pose proof (PGROUNDDOWN_bounds va Hva).
  assert (0 ≤ PGROUNDDOWN va < MAXVA) as Ha by (rewrite PGROUNDDOWN_eq in * by done; pgd).
  destruct (leaf_some _ _ _ _ He) as (t0 & Ht & Hee & Hv).
  destruct (walk_present s fl root _ t0 true V Ha Ht) as [E1 Hnz].
  exists s. cbn [mappages_loop]. rewrite (bind_ok _ _ _ _ _ E1).
  destruct (Z.eqb_spec (t0 + 8 * PX 0 (PGROUNDDOWN va)) 0); [lia|].
  rewrite (bind_ok _ _ _ _ _ (load64_run _ _)). unfold ent in Hee. by rewrite Hee, Hv.
Qed.

Lemma walkaddr_run s fl root va :
  vm_ok s fl root → 0 ≤ va →
  walkaddr root va s =
    Ok (if va <? MAXVA then
          match leaf (ent (k_mem s)) root va with
          | Some e => if has PTE_U e then PTE2PA e else 0
          | None => 0
          end
        else 0) s.
Proof.
  intros V Hva. unfold walkaddr. destruct (Z.geb_spec va MAXVA), (Z.ltb_spec va MAXVA); try lia; [done|].
  destruct (walk_lookup s fl root va V) as [E Hnz]; [lia|]. rewrite (bind_ok _ _ _ _ _ E).
  unfold leaf. destruct (tbl0 (ent (k_mem s)) root va) as [t0|] eqn:Ht0; [|done].
  cbn [mbind option_bind].
  destruct (Z.eqb_spec (t0 + 8 * PX 0 va) 0) as [Hz|_]; [by apply Hnz in Hz|].
  rewrite (bind_ok _ _ _ _ _ (load64_run _ _)). unfold has, ent.
  destruct (Z.land (ld64 (k_mem s) (t0 + 8 * PX 0 va)) PTE_V =? 0); [done|]. simpl.
  by destruct (Z.land _ PTE_U =? 0).
Qed.
(** [walkaddr] is the translation of user addresses: the frame of the
    page's entry when that entry is valid and user-accessible, and 0 for every
    other address, above MAXVA included; it changes nothing. *)
Theorem walkaddr_correct s fl root va :
  vm_ok s fl root → 0 ≤ va →
  walkaddr root va s =
    Ok (if va <? MAXVA then
          match leaf (ent (k_mem s)) root va with
          | Some e => if has PTE_U e then PTE2PA e else 0
          | None => 0
          end
        else 0) s.
Proof. apply walkaddr_run. Qed.
End vmspec.
