(* ===== verification/VmUser.v ===== *)
(** User address spaces: what [uvmunmap], [uvmalloc], [uvmdealloc],
    [uvmcopy], [copyin] and [copyout] (src/kernel/vm.c) do to the pages of a
    process.  The address space is the map [leaf] of [VmSpec] together with the
    frames its entries point to. *)

From S2P Require Import Prelude Machine Str Types Kalloc Vm PageTable VmSpec.

Section vmuser.
Context `{L : Linker}.

(** ** Operations that leave the tables alone *)

Lemma vm_ok_agree s s' fl fl' root :
  vm_ok s fl root → free_pages s' fl' →
  (∀ p a, is_table (ent (k_mem s)) root p → in_page p a → ld8 (k_mem s') a = ld8 (k_mem s) a) →
  (∀ p, is_table (ent (k_mem s)) root p → p ∉ fl') →
  (∀ p, is_table (ent (k_mem s)) root p → ref_of s' p = ref_of s p) →
  vm_ok s' fl' root ∧
  (∀ va, tbl0 (ent (k_mem s')) root va = tbl0 (ent (k_mem s)) root va ∧
         leaf (ent (k_mem s')) root va = leaf (ent (k_mem s)) root va) ∧
  (∀ p, is_table (ent (k_mem s')) root p ↔ is_table (ent (k_mem s)) root p).
Proof.
  intros V Hf Hm Hfl Hr.
  assert (∀ p i, is_table (ent (k_mem s)) root p → 0 ≤ i < 512 →
            ent (k_mem s') p i = ent (k_mem s) p i) as HE.
  { intros p i Hp Hi. apply ld64_ext. intros b Hb. apply (Hm p); [done|]. unfold in_page. pg. }
  pose proof (is_table_agree _ _ _ HE) as Ht. pose proof (tbl_agree _ _ _ HE) as Hta.
  split_and!.
  - split; [done| |].
    + by eapply pt_wf_agree; [exact HE|exact Hfl|apply V].
    + intros p Hp%Ht. rewrite Hr by done. by apply V.
  - intros va. split; apply Hta.
  - done.
Qed.

(** Two managed pages that share a byte are the same page. *)
Lemma in_page_eq p q a : page_ok p → page_ok q → in_page p a → in_page q a → p = q.
Proof. intros [Hp _] [Hq _]. unfold in_page. pgd. Qed.

Lemma freed_mem pa s a : ¬ in_page pa a → ld8 (k_mem (freed pa s)) a = ld8 (k_mem s) a.
Proof. intros H. unfold freed. autorewrite with kst. rewrite ld8_memset, decide_False by done. done. Qed.

Lemma freed_vm s fl root pa :
  vm_ok s fl root → page_ok pa → pa ∉ fl → ¬ is_table (ent (k_mem s)) root pa →
  vm_ok (freed pa s) (pa :: fl) root ∧
  (∀ va, tbl0 (ent (k_mem (freed pa s))) root va = tbl0 (ent (k_mem s)) root va ∧
         leaf (ent (k_mem (freed pa s))) root va = leaf (ent (k_mem s)) root va) ∧
  (∀ p, is_table (ent (k_mem (freed pa s))) root p ↔ is_table (ent (k_mem s)) root p).
Proof.
  intros V Hp Hfl Ht. apply vm_ok_agree with fl; [done| | | |].
  - apply free_pages_push; [apply V|done..].
  - intros p a Hp' Ha. apply freed_mem. intros Ha'.
    rewrite (in_page_eq pa p a) in Ht; [done|done|by eapply table_ok|done..].
  - intros p Hp'. apply not_elem_of_cons. split; [by intros ->|].
    by apply (wf_page _ _ _ (vo_wf _ _ _ V)).
  - intros p _. apply ref_freed.
Qed.

Lemma allocated_mem pa s a : ¬ in_page pa a → ld8 (k_mem (allocated pa s)) a = ld8 (k_mem s) a.
Proof. intros H. unfold allocated. autorewrite with kst. rewrite ld8_memset, decide_False by done. done. Qed.

Lemma ref_of_allocated c s q :
  page_ok c → page_ok q →
  ref_of (allocated c s) q = if decide (q = c) then 1 else ref_of s q.
Proof.
  intros Hc Hq. unfold ref_of. rewrite ref_allocated. repeat case_decide; subst; try done.
  exfalso. by apply H0, page_index_inj.
Qed.

(** A page just taken off the free list, whatever is then written to it. *)
Lemma fresh_vm s fl root c m :
  vm_ok s (c :: fl) root →
  (∀ a, ¬ in_page c a → ld8 m a = ld8 (k_mem s) a) →
  let s' := set_mem m (allocated c s) in
  vm_ok s' fl root ∧ ¬ is_table (ent (k_mem s')) root c ∧
  (∀ va, tbl0 (ent (k_mem s')) root va = tbl0 (ent (k_mem s)) root va ∧
         leaf (ent (k_mem s')) root va = leaf (ent (k_mem s)) root va) ∧
  (∀ p, is_table (ent (k_mem s')) root p ↔ is_table (ent (k_mem s)) root p).
Proof.
  intros V Hm s'. pose proof (vo_free _ _ _ V) as Hf. pose proof Hf as (_ & _ & Hok).
  apply list.Forall_cons in Hok as [Hc _].
  assert (¬ is_table (ent (k_mem s)) root c) as Hct.
  { intros Ht. destruct (wf_page _ _ _ (vo_wf _ _ _ V) c Ht) as [_ Hn].
    apply Hn, elem_of_cons. by left. }
  destruct (vm_ok_agree s s' (c :: fl) fl root) as (V' & Hl & Ht).
  - done.
  - by apply free_pages_set_mem, allocated_free.
  - intros p a Hp Ha. apply Hm. intros Ha'. apply Hct.
    rewrite (in_page_eq c p a); [done|done|by eapply table_ok|done..].
  - intros p Hp Hin. destruct (wf_page _ _ _ (vo_wf _ _ _ V) p Hp) as [_ Hn].
    apply Hn, elem_of_cons. by right.
  - intros p Hp. unfold s', ref_of. rewrite k_kmem_set_mem. fold (ref_of (allocated c s) p).
    rewrite ref_of_allocated, decide_False; [done|by intros ->|done|by eapply table_ok].
  - split_and!; [done| |done..]. by intros ?%Ht.
Qed.

(** A frame of the address space: a managed page that is neither free nor a
    table, with reference count 1, behind a leaf entry. *)
Definition frame_ok (s : kstate) (fl : list Z) (root e : Z) : Prop :=
  page_ok (PTE2PA e) ∧ (PTE2PA e ∉ fl) ∧ ¬ is_table (ent (k_mem s)) root (PTE2PA e) ∧
  ref_of s (PTE2PA e) = 1 ∧ PTE_FLAGS e ≠ PTE_V.

(** The region [lo, hi) of the address space [root]: every mapped page has a
    frame of its own. *)
Record user_ok (s : kstate) (fl : list Z) (root lo hi : Z) : Prop := {
  us_vm : vm_ok s fl root;
  us_lim : 0 ≤ lo ∧ hi ≤ MAXVA;
  us_frame va e : lo ≤ va < hi → leaf (ent (k_mem s)) root va = Some e → frame_ok s fl root e;
  us_inj va va' e e' :
    lo ≤ va < hi → lo ≤ va' < hi →
    leaf (ent (k_mem s)) root va = Some e → leaf (ent (k_mem s)) root va' = Some e' →
    PTE2PA e = PTE2PA e' → va / PGSIZE = va' / PGSIZE }.

(** An address space only depends on memory and the allocator. *)
Lemma user_ok_ext s s' fl root lo hi :
  k_mem s' = k_mem s → k_kmem s' = k_kmem s → user_ok s fl root lo hi → user_ok s' fl root lo hi.
Proof.
  intros Em Ek [[Hf W Hr] Hl Hfr Hi]. unfold free_pages, frame_ok, ref_of in *.
  split; [split|..]; unfold free_pages, frame_ok, ref_of; rewrite ?Em, ?Ek; done.
Qed.

(** Nothing but the pages in [P] is written, and only the allocator and memory
    change. *)
Record writes_only (P : Z → Prop) (s s' : kstate) : Prop := {
  wo_rest : same_rest s s';
  wo_mem a : (∀ p, P p → ¬ in_page p a) → ld8 (k_mem s') a = ld8 (k_mem s) a }.

Lemma writes_only_refl P s : writes_only P s s.
Proof. split; [apply same_rest_refl|done]. Qed.

Lemma writes_only_trans (P Q R : Z → Prop) s1 s2 s3 :
  (∀ p, P p → R p) → (∀ p, Q p → R p) →
  writes_only P s1 s2 → writes_only Q s2 s3 → writes_only R s1 s3.
Proof.
  intros HP HQ [R1 M1] [R2 M2]. split; [by eapply same_rest_trans|].
  intros a Ha. rewrite M2, M1; [done|..]; intros p Hp; apply Ha; auto.
Qed.

(** ** [uvmunmap] *)

(** The frames mapped at the [n] pages from [a] on, in order. *)
Definition frame_at (E : Z → Z → Z) (root a : Z) : option Z := PTE2PA <$> leaf E root a.
Fixpoint frames (E : Z → Z → Z) (root a : Z) (n : nat) : list Z :=
  match n with
  | O => []
  | S n' => option_list (frame_at E root a) ++ frames E root (a + PGSIZE) n'
  end.

(** What one iteration does: the entry of page [a] is cleared and its frame,
    if there is one and [do_free], goes to the free list. *)
Record unmapped1 (do_free : bool) (root a : Z) (s : kstate) (fl : list Z) (s' : kstate)
    (fl' : list Z) : Prop := {
  un_leaf va : leaf (ent (k_mem s')) root va =
    if decide (same_entry va a) then None else leaf (ent (k_mem s)) root va;
  un_table p : is_table (ent (k_mem s')) root p ↔ is_table (ent (k_mem s)) root p;
  un_ref p : ref_of s' p = ref_of s p;
  un_writes : writes_only (λ p, is_table (ent (k_mem s)) root p ∨
      do_free = true ∧ frame_at (ent (k_mem s)) root a = Some p) s s';
  un_free : fl' = (if do_free then option_list (frame_at (ent (k_mem s)) root a) else []) ++ fl }.

Lemma user_ok_unmapped1 do_free root a hi s fl s' fl' :
  user_ok s fl root a hi → a mod PGSIZE = 0 → a < hi → vm_ok s' fl' root →
  unmapped1 do_free root a s fl s' fl' → user_ok s' fl' root (a + PGSIZE) hi.
Proof.
  intros [V Hlim Hfr Hinj] Hal Ha V' [Hl Ht Hr _ ->].
  assert (∀ va, a + PGSIZE ≤ va < hi → leaf (ent (k_mem s')) root va = leaf (ent (k_mem s)) root va) as Hl'.
  { intros va Hva. rewrite Hl, decide_False; [done|].
    intros D. apply same_entry_range in D; [pg|pg|pg|done]. }
  split; [done|pg| |].
  - intros va e Hva. rewrite Hl' by done. intros He.
    destruct (Hfr va e) as (H1 & H2 & H3 & H4 & H5); [pg|done|].
    split_and!; [done| |by rewrite Ht|by rewrite Hr|done].
    intros [Hin|?]%elem_of_app; [|done].
    destruct do_free; [|by apply elem_of_nil in Hin].
    unfold frame_at in Hin. destruct (leaf (ent (k_mem s)) root a) as [e'|] eqn:He'; simpl in Hin;
      [|by apply elem_of_nil in Hin].
    apply list_elem_of_singleton in Hin. specialize (Hinj va a e e' ltac:(pg) ltac:(pg) He He' Hin). pgd.
  - intros va va' e e' Hva Hva'. rewrite !Hl' by done. apply Hinj; pg.
Qed.

Lemma unmapped1_none do_free root a s fl :
  leaf (ent (k_mem s)) root a = None → unmapped1 do_free root a s fl s fl.
Proof.
  intros Hn. split; [|done|done|apply writes_only_refl|].
  - intros va. case_decide as D; [|done]. destruct D as (D2 & D1 & D0).
    unfold leaf, tbl0, tbl1 in *. by rewrite D2, D1, D0.
  - unfold frame_at. rewrite Hn. by destruct do_free.
Qed.

(** The branch of the loop that has a leaf entry to clear. *)
Lemma unmap_leaf (do_free : bool) root a s fl hi e t0 :
  user_ok s fl root a hi → a < hi →
  leaf (ent (k_mem s)) root a = Some e → tbl0 (ent (k_mem s)) root a = Some t0 →
  ∃ s' fl', (when do_free (kfree (PTE2PA e));; store64 (t0 + 8 * PX 0 a) 0) s = Ok tt s' ∧
    vm_ok s' fl' root ∧ unmapped1 do_free root a s fl s' fl'.
Proof.
  intros [V Hlim Hfr _] Ha He H0. destruct (Hfr a e) as (H1 & H2 & H3 & H4 & _); [lia|done|].
  assert (∃ s1 fl1, when do_free (kfree (PTE2PA e)) s = Ok tt s1 ∧ vm_ok s1 fl1 root ∧
    (∀ va, tbl0 (ent (k_mem s1)) root va = tbl0 (ent (k_mem s)) root va ∧
           leaf (ent (k_mem s1)) root va = leaf (ent (k_mem s)) root va) ∧
    (∀ p, is_table (ent (k_mem s1)) root p ↔ is_table (ent (k_mem s)) root p) ∧
    (∀ p, ref_of s1 p = ref_of s p) ∧
    writes_only (λ p, do_free = true ∧ p = PTE2PA e) s s1 ∧
    fl1 = (if do_free then [PTE2PA e] else []) ++ fl)
    as (s1 & fl1 & E1 & V1 & Hl1 & Ht1 & Hr1 & W1 & ->).
  { destruct do_free.
    - destruct (freed_vm s fl root (PTE2PA e) V) as (V1 & Hl1 & Ht1); [done..|].
      exists (freed (PTE2PA e) s), (PTE2PA e :: fl). split_and!; [|done..| | |done].
      + by apply kfree_run.
      + intros p. apply ref_freed.
      + split; [unfold freed; auto with xv6|]. intros b Hb. apply freed_mem. by apply Hb.
    - exists s, fl. split_and!; try done. apply writes_only_refl. }
  rewrite (bind_ok _ _ _ _ _ E1), store64_run.
  destruct (store_leaf s1 _ root a t0 0 V1) as (V2 & St & Hl2); [by rewrite (proj1 (Hl1 a))|done|].
  eexists _, _. split_and!; [done|exact V2|]. split.
  - intros va. rewrite Hl2. case_decide; [done|apply Hl1].
  - intros p. rewrite <- Ht1. eapply put_table; [apply V1|rewrite (proj1 (Hl1 a)); exact H0|].
    intros q j Hq Hj. apply ent_st64; [|done..|by apply PX_range|lia|lia].
    eapply table_ok; [exact V|right; right; eauto].
  - intros p. rewrite <- Hr1. done.
  - eapply writes_only_trans; [| |exact W1|].
    { intros p [-> ->]. right. unfold frame_at. rewrite He. done. }
    2: { split; [exact (vs_rest _ _ _ _ _ St)|]. intros b Hb. autorewrite with kst.
         apply ld8_st64_out. instantiate (1 := λ p, p = t0) in Hb.
         specialize (Hb t0 eq_refl). pose proof (PX_range 0 a ltac:(lia)). unfold in_page in Hb. pg. }
    intros p ->. left. right; right; eauto.
  - unfold frame_at. rewrite He. done.
Qed.

Lemma unmap_iter (n : nat) do_free root a lim s fl hi :
  user_ok s fl root a hi → a mod PGSIZE = 0 → a < lim → a < hi →
  ∃ s' fl', uvmunmap_loop (S n) root a lim do_free s =
              uvmunmap_loop n root (a + PGSIZE) lim do_free s' ∧
    user_ok s' fl' root (a + PGSIZE) hi ∧ unmapped1 do_free root a s fl s' fl'.
Proof.
  intros U Hal Hlim Hhi. pose proof (us_vm _ _ _ _ _ U) as V. pose proof (us_lim _ _ _ _ _ U) as Hul.
  cbn [uvmunmap_loop]. destruct (Z.ltb_spec a lim) as [_|]; [|lia]. rewrite u64_small by pg.
  destruct (walk_lookup s fl root a V) as [E Hnz]; [lia|].
  rewrite (bind_ok _ _ _ _ _ E). clear E.
  destruct (leaf (ent (k_mem s)) root a) as [e|] eqn:He.
  - destruct (leaf_some _ _ _ _ He) as (t0 & H0 & Hee & Hv). rewrite H0 in *.
    destruct (unmap_leaf do_free root a s fl hi e t0) as (s' & fl' & E & V' & Un); [done..|].
    exists s', fl'. split_and!; [|by eapply user_ok_unmapped1|done].
    apply seq_ok. destruct (Z.eqb_spec (t0 + 8 * PX 0 a) 0) as [Hz|_]; [by apply Hnz in Hz|].
    rewrite (bind_ok _ _ _ _ _ (load64_run _ _)). unfold ent in Hee. rewrite Hee.
    unfold has in Hv. apply negb_true_iff in Hv. rewrite Hv.
    destruct (us_frame _ _ _ _ _ U a e) as (_ & _ & _ & _ & Hfg); [lia|done|].
    destruct (Z.eqb_spec (PTE_FLAGS e) PTE_V); done.
  - pose proof (unmapped1_none do_free root a s fl He) as Un.
    exists s, fl. split_and!; [|by eapply user_ok_unmapped1|done]. apply seq_ok.
    destruct (tbl0 (ent (k_mem s)) root a) as [t0|] eqn:H0; [|done].
    destruct (Z.eqb_spec (t0 + 8 * PX 0 a) 0) as [Hz|_]; [by apply Hnz in Hz|].
    rewrite (bind_ok _ _ _ _ _ (load64_run _ _)).
    rewrite (leaf_tbl0 _ _ _ _ H0) in He. unfold has, ent in He.
    by destruct (Z.land _ PTE_V =? 0).
Qed.

Lemma frames_ext E E' root (n : nat) : ∀ a,
  (∀ va, a ≤ va < a + n * PGSIZE → leaf E' root va = leaf E root va) →
  frames E' root a n = frames E root a n.
Proof.
  induction n as [|n IH]; intros a H; [done|]. simpl. unfold frame_at.
  rewrite H by pg. rewrite IH; [done|]. intros va Hva. apply H. pg.
Qed.

(** The pages [a, a + n * PGSIZE) are unmapped. *)
Record unmapped (do_free : bool) (root a : Z) (n : nat) (s : kstate) (fl : list Z) (s' : kstate)
    (fl' : list Z) : Prop := {
  um_leaf va : 0 ≤ va < MAXVA → leaf (ent (k_mem s')) root va =
    if decide (a ≤ va < a + n * PGSIZE) then None else leaf (ent (k_mem s)) root va;
  um_table p : is_table (ent (k_mem s')) root p ↔ is_table (ent (k_mem s)) root p;
  um_ref p : ref_of s' p = ref_of s p;
  um_writes : writes_only (λ p, is_table (ent (k_mem s)) root p ∨
      do_free = true ∧ p ∈ frames (ent (k_mem s)) root a n) s s';
  um_free : fl' = (if do_free then reverse (frames (ent (k_mem s)) root a n) else []) ++ fl }.

Lemma unmapped_0 do_free root a s fl : unmapped do_free root a 0 s fl s fl.
Proof.
  split; [|done|done|apply writes_only_refl|by destruct do_free].
  intros va Hva. by rewrite decide_False by lia.
Qed.

Lemma unmapped_S do_free root a n s fl s1 fl1 s2 fl2 :
  a mod PGSIZE = 0 → 0 ≤ a → a + S n * PGSIZE ≤ MAXVA →
  unmapped1 do_free root a s fl s1 fl1 → unmapped do_free root (a + PGSIZE) n s1 fl1 s2 fl2 →
  unmapped do_free root a (S n) s fl s2 fl2.
Proof.
  intros Hal Ha Hmax [Hl1 Ht1 Hr1 W1 ->] [Hl2 Ht2 Hr2 W2 ->].
  assert (frames (ent (k_mem s1)) root (a + PGSIZE) n = frames (ent (k_mem s)) root (a + PGSIZE) n)
    as Hfr.
  { apply frames_ext. intros va Hva. rewrite Hl1, decide_False; [done|].
    intros D. apply same_entry_range in D; [pg|pg|pg|done]. }
  rewrite Hfr in *. split.
  - intros va Hva. rewrite Hl2, Hl1 by done.
    pose proof (same_entry_range va a Hva ltac:(pg) Hal) as Hse.
    destruct (decide (a + PGSIZE ≤ va < a + PGSIZE + n * PGSIZE)); [by rewrite decide_True by pg|].
    destruct (decide (same_entry va a)) as [D|D]; rewrite Hse in D;
      [by rewrite decide_True by pg|by rewrite decide_False by pg].
  - intros p. by rewrite Ht2, Ht1.
  - intros p. by rewrite Hr2, Hr1.
  - eapply writes_only_trans; [| |exact W1|exact W2].
    + intros p [?|[-> E]]; [by left|]. right. split; [done|]. simpl. rewrite E.
      apply elem_of_app. left. by apply list_elem_of_singleton.
    + intros p [?%Ht1|[-> E]]; [by left|]. right. split; [done|]. simpl. apply elem_of_app. by right.
  - destruct do_free; [|done]. simpl. rewrite reverse_app, <- app_assoc. f_equal. f_equal.
    by destruct (frame_at _ _ _).
Qed.

Lemma uvmunmap_loop_run do_free root hi (n : nat) : ∀ a lim s fl,
  user_ok s fl root a hi → a mod PGSIZE = 0 → lim = a + n * PGSIZE → lim ≤ hi →
  ∃ s' fl', uvmunmap_loop (S n) root a lim do_free s = Ok tt s' ∧
    user_ok s' fl' root lim hi ∧ unmapped do_free root a n s fl s' fl'.
Proof.
  induction n as [|n IH]; intros a lim s fl U Hal Hlim Hhi.
  - exists s, fl. replace lim with a by lia. split_and!; [|done|apply unmapped_0].
    cbn [uvmunmap_loop]. by rewrite Z.ltb_irrefl.
  - pose proof (us_lim _ _ _ _ _ U).
    destruct (unmap_iter (S n) do_free root a lim s fl hi U Hal) as (s1 & fl1 & E & U1 & Un1); [pg..|].
    rewrite E. destruct (IH (a + PGSIZE) lim s1 fl1 U1) as (s2 & fl2 & E2 & U2 & Un2); [pgd|pg|pg|].
    exists s2, fl2. split_and!; [done..|]. eapply unmapped_S; eauto; pg.
Qed.

Lemma elem_of_frames E root (n : nat) p : ∀ a,
  p ∈ frames E root a n → ∃ va e, a ≤ va < a + n * PGSIZE ∧ leaf E root va = Some e ∧ p = PTE2PA e.
Proof.
  induction n as [|n IH]; intros a; simpl; [by intros ?%elem_of_nil|].
  intros [Hp|Hp]%elem_of_app.
  - unfold frame_at in Hp. destruct (leaf E root a) as [e|] eqn:He; simpl in Hp;
      [|by apply elem_of_nil in Hp].
    apply list_elem_of_singleton in Hp. exists a, e. split_and!; [pg|pg|done..].
  - destruct (IH _ Hp) as (va & e & Hva & He). exists va, e. split; [pg|done].
Qed.

Lemma user_ok_weaken s fl root lo lo' hi hi' :
  user_ok s fl root lo hi → lo ≤ lo' → hi' ≤ hi → user_ok s fl root lo' hi'.
Proof.
  intros [V Hl Hf Hi] H1 H2. split; [done|lia| |].
  - intros va e Hva. apply Hf. lia.
  - intros va va' e e' Hva Hva'. apply Hi; lia.
Qed.

Lemma user_ok_unmapped do_free root a (n : nat) s fl s' fl' lo hi :
  user_ok s fl root lo hi → vm_ok s' fl' root → a mod PGSIZE = 0 →
  lo ≤ a → a + n * PGSIZE ≤ hi →
  unmapped do_free root a n s fl s' fl' → user_ok s' fl' root lo hi.
Proof.
  intros [V Hlim Hfr Hinj] V' Hal Hlo Hhi [Hl Ht Hr _ ->].
  assert (∀ va e, lo ≤ va < hi → leaf (ent (k_mem s')) root va = Some e →
            ¬ a ≤ va < a + n * PGSIZE ∧ leaf (ent (k_mem s)) root va = Some e) as Hl'.
  { intros va e Hva. rewrite Hl by pg. by case_decide. }
  split; [done|pg| |].
  - intros va e Hva He. destruct (Hl' va e Hva He) as [Hout He'].
    destruct (Hfr va e Hva He') as (H1 & H2 & H3 & H4 & H5).
    split_and!; [done| |by rewrite Ht|by rewrite Hr|done].
    intros [Hin|?]%elem_of_app; [|done].
    destruct do_free; [|by apply elem_of_nil in Hin]. rewrite elem_of_reverse in Hin.
    destruct (elem_of_frames _ _ _ _ _ Hin) as (va' & e' & Hva' & He'' & Hp).
    specialize (Hinj va va' e e' Hva ltac:(pg) He' He'' Hp). pgd.
  - intros va va' e e' Hva Hva' He He'.
    eapply Hinj; [done|done|by apply Hl'|by apply Hl'].
Qed.

Lemma uvmunmap_run do_free root lo hi va npages s fl :
  user_ok s fl root lo hi → lo ≤ va → va mod PGSIZE = 0 → 0 ≤ npages → va + npages * PGSIZE ≤ hi →
  ∃ s' fl', uvmunmap root va npages do_free s = Ok tt s' ∧
    user_ok s' fl' root lo hi ∧ unmapped do_free root va (Z.to_nat npages) s fl s' fl'.
Proof.
  intros U Hlo Hal Hn Hhi. pose proof (us_lim _ _ _ _ _ U).
  unfold uvmunmap. rewrite Hal. simpl. rewrite u64_small by pg.
  destruct (uvmunmap_loop_run do_free root hi (Z.to_nat npages) va (va + npages * PGSIZE) s fl)
    as (s' & fl' & E & U' & Un); [by eapply user_ok_weaken|done|pg|pg|].
  exists s', fl'. split_and!; [done| |done].
  apply (user_ok_unmapped do_free root va (Z.to_nat npages) s fl); [done|apply U'|done|done|pg|done].
Qed.

(** C13: [uvmunmap] removes exactly the pages [va, va + npages * PGSIZE) from
    the address space, also when some of them were never mapped; with
    [do_free] their frames, and only they, go to the free list, each once; the
    tables stay, and no byte outside the tables and those frames changes. *)
Theorem uvmunmap_correct do_free root lo hi va npages s fl :
  user_ok s fl root lo hi → lo ≤ va → va mod PGSIZE = 0 → 0 ≤ npages → va + npages * PGSIZE ≤ hi →
  ∃ s' fl', uvmunmap root va npages do_free s = Ok tt s' ∧
    user_ok s' fl' root lo hi ∧ unmapped do_free root va (Z.to_nat npages) s fl s' fl'.
Proof. apply uvmunmap_run. Qed.

(** ** [uvmdealloc] *)

(** The number of pages between the two break values. *)
Definition dealloc_pages (oldsz newsz : Z) : nat :=
  Z.to_nat ((PGROUNDUP oldsz - PGROUNDUP newsz) / PGSIZE).

Lemma PGROUNDUP_mono a b :
  0 ≤ a → a ≤ b → b ≤ 2 ^ 64 - PGSIZE → PGROUNDUP a ≤ PGROUNDUP b.
Proof. intros. rewrite !PGROUNDUP_eq by lia. pgd. Qed.

Lemma uvmdealloc_run root lo hi oldsz newsz s fl :
  user_ok s fl root lo hi → 0 ≤ newsz < oldsz → lo ≤ newsz → oldsz ≤ MAXVA → PGROUNDUP oldsz ≤ hi →
  ∃ s' fl', uvmdealloc root oldsz newsz s = Ok newsz s' ∧ user_ok s' fl' root lo hi ∧
    unmapped true root (PGROUNDUP newsz) (dealloc_pages oldsz newsz) s fl s' fl'.
Proof.
  intros U Hn Hlo Ho Hhi. pose proof (us_lim _ _ _ _ _ U) as Hlim.
  unfold uvmdealloc, dealloc_pages.
  destruct (PGROUNDUP_bounds newsz) as [Bn An]; [pg|].
  destruct (PGROUNDUP_bounds oldsz) as [Bo Ao]; [pg|].
  pose proof (PGROUNDUP_mono newsz oldsz ltac:(lia) ltac:(lia) ltac:(pg)) as Hm.
  destruct (Z.geb_spec newsz oldsz); [lia|].
  generalize dependent (PGROUNDUP newsz). intros a Ba Aa Hm.
  generalize dependent (PGROUNDUP oldsz). intros b Hb Bb Ab Hm.
  destruct (Z.ltb_spec a b).
  - cbv zeta. unfold when. rewrite s32_small by pgd.
    destruct (uvmunmap_run true root lo hi a ((b - a) / PGSIZE) s fl U)
      as (s' & fl' & E & U' & Un); [pg|done|pgd|pgd|].
    exists s', fl'. split_and!; [|done..]. by rewrite (seq_ok _ _ _ _ E).
  - exists s, fl. split_and!; [done..|]. replace (b - a) with 0 by lia. apply unmapped_0.
Qed.

(** [uvmdealloc] shrinks the address space from [oldsz] to [newsz]: the
    pages between the two rounded sizes are unmapped and their frames freed;
    when [newsz] is not smaller it does nothing. *)
Theorem uvmdealloc_correct root lo hi oldsz newsz s fl :
  user_ok s fl root lo hi → 0 ≤ newsz → lo ≤ newsz → oldsz ≤ MAXVA → PGROUNDUP oldsz ≤ hi →
  if decide (newsz < oldsz) then
    ∃ s' fl', uvmdealloc root oldsz newsz s = Ok newsz s' ∧ user_ok s' fl' root lo hi ∧
      unmapped true root (PGROUNDUP newsz) (dealloc_pages oldsz newsz) s fl s' fl'
  else uvmdealloc root oldsz newsz s = Ok oldsz s.
Proof.
  intros U Hn Hlo Ho Hhi. case_decide.
  - by apply uvmdealloc_run.
  - unfold uvmdealloc. by destruct (Z.geb_spec newsz oldsz); [|lia].
Qed.

(** ** Giving a page to the address space *)

Lemma zone_ok s fl root p : vm_ok s fl root → zone s fl root p → page_ok p.
Proof.
  intros V [Hp|Hp]; [|by eapply table_ok]. destruct (vo_free _ _ _ V) as (_ & _ & Hok).
  by eapply list.Forall_forall in Hok.
Qed.

Lemma frame_ok_step s fl s' fl' root e :
  frame_ok s fl root e → vm_step root s fl s' fl' → frame_ok s' fl' root e.
Proof.
  intros (H1 & H2 & H3 & H4 & H5) St. destruct (vs_fl _ _ _ _ _ St) as [l Hl].
  split_and!; [done| | | |done].
  - subst. intros Hin. apply H2, elem_of_app. by right.
  - intros Ht. destruct (vs_zone _ _ _ _ _ St (PTE2PA e)) as [?|?]; [by right|done|done].
  - by rewrite (vs_ref _ _ _ _ _ St).
Qed.

Lemma frame_bytes s fl s' fl' root e x :
  vm_ok s fl root → frame_ok s fl root e → vm_step root s fl s' fl' → in_page (PTE2PA e) x →
  ld8 (k_mem s') x = ld8 (k_mem s) x.
Proof.
  intros V (H1 & H2 & H3 & _) St Hx. apply (vs_mem _ _ _ _ _ St). intros p Hp Hpx.
  assert (PTE2PA e = p) as E by (eapply in_page_eq; eauto using zone_ok).
  rewrite E in *. by destruct Hp.
Qed.

(** Taking [c] off the free list and writing it is a step that keeps the map. *)
Lemma fresh_step s fl root c m :
  vm_ok s (c :: fl) root → (∀ a, ¬ in_page c a → ld8 m a = ld8 (k_mem s) a) →
  vm_step root s (c :: fl) (set_mem m (allocated c s)) fl.
Proof.
  intros V Hm. destruct (fresh_vm s fl root c m V Hm) as (V' & Hc & Hl & Ht).
  pose proof (zone_ok s (c :: fl) root c V ltac:(left; by apply elem_of_cons; left)) as Hok.
  split.
  - unfold allocated. auto with xv6.
  - intros p [?|?%Ht]; [left; by apply elem_of_cons; right|by right].
  - intros a Ha. autorewrite with kst. apply Hm, Ha. left. by apply elem_of_cons; left.
  - intros p Hp Hn. apply not_elem_of_cons in Hn as [Hn _]. unfold ref_of.
    rewrite k_kmem_set_mem. fold (ref_of (allocated c s) p).
    by rewrite ref_of_allocated, decide_False.
  - by exists [c].
Qed.

Lemma mk_pte_frame c perm :
  page_ok c → 0 ≤ perm < 1024 →
  PTE2PA (mk_pte c perm) = c ∧ PTE_FLAGS (mk_pte c perm) = Z.lor perm PTE_V.
Proof.
  intros Hc Hp. destruct (page_ok_hi c Hc) as (H & _).
  destruct (mk_pte_ok c perm H Hp) as (_ & _ & E & E'). rewrite E. split; [|done].
  apply PGROUNDDOWN_id; [lia|apply Hc].
Qed.

(** [kalloc], a write to the new page, and [mappages] of it at [a]. *)
Lemma map_fresh s fl root a c perm m :
  vm_ok s (c :: fl) root → 0 ≤ a → a + PGSIZE ≤ MAXVA → a mod PGSIZE = 0 →
  leaf (ent (k_mem s)) root a = None → 0 ≤ perm < 1024 → Z.lor perm PTE_V ≠ PTE_V →
  (∀ b, ¬ in_page c b → ld8 m b = ld8 (k_mem s) b) →
  ∃ r s' fl', mappages root a PGSIZE c perm (set_mem m (allocated c s)) = Ok r s' ∧
    vm_ok s' fl' root ∧ vm_step root s (c :: fl) s' fl' ∧
    frame_ok s' fl' root (mk_pte c perm) ∧
    (∀ b, in_page c b → ld8 (k_mem s') b = ld8 m b) ∧
    (r = 0 ∧ (∀ va, 0 ≤ va < MAXVA → leaf (ent (k_mem s')) root va =
        if decide (a ≤ va < a + PGSIZE) then Some (mk_pte c perm)
        else leaf (ent (k_mem s)) root va) ∨
     r = -1 ∧ fl' = [] ∧ ∀ va, 0 ≤ va < MAXVA →
        leaf (ent (k_mem s')) root va = leaf (ent (k_mem s)) root va).
Proof.
  intros V Ha Hm Hal Hn Hp Hpv Hb.
  destruct (fresh_vm s fl root c m V Hb) as (V1 & Hc1 & Hl1 & Ht1).
  pose proof (fresh_step s fl root c m V Hb) as St1.
  pose proof (zone_ok s (c :: fl) root c V ltac:(left; by apply elem_of_cons; left)) as Hok.
  destruct (page_ok_hi c Hok) as (Hchi & _). pose proof (page_ok_pos c Hok) as Hcp.
  destruct (mk_pte_frame c perm Hok Hp) as [Hpa Hfg].
  assert (frame_ok (set_mem m (allocated c s)) fl root (mk_pte c perm)) as F1.
  { unfold frame_ok. rewrite Hpa, Hfg. split_and!; [done| |done| |done].
    - destruct (vo_free _ _ _ V) as (_ & Hnd & _). by apply list.NoDup_cons in Hnd as [? _].
    - unfold ref_of. rewrite k_kmem_set_mem. fold (ref_of (allocated c s) c).
      by rewrite ref_of_allocated, decide_True. }
  pose proof (PGROUNDDOWN_id a Ha Hal) as Hd.
  assert (PGROUNDDOWN (a + PGSIZE - 1) = a) as Hd' by (rewrite PGROUNDDOWN_eq by pg; pgd).
  destruct (mappages_run (set_mem m (allocated c s)) fl root a PGSIZE c perm)
    as (r & s' & fl' & k & E & V' & St & Hmp & Hr); [done|done|done|done|lia| |done| |].
  { unfold PHYSTOP, KERNBASE in Hcp. pg. }
  { rewrite Hd, Hd'. intros va Hva. rewrite (proj2 (Hl1 va)).
    destruct (same_entry_range va a) as [_ Hse]; [pg|pg|done|].
    destruct (Hse Hva) as (D2 & D1 & D0). unfold leaf, tbl0, tbl1 in *. by rewrite D2, D1, D0. }
  assert (pages_of a PGSIZE = 1) as Hpo by (unfold pages_of; pgd).
  rewrite Hpo, Hd in *.
  exists r, s', fl'. split_and!; [done|done|by eapply vm_step_trans|by eapply frame_ok_step| |].
  - intros b Hbc. rewrite (frame_bytes _ _ _ _ _ _ _ V1 F1 St); [by autorewrite with kst|by rewrite Hpa].
  - destruct Hr as [[-> ->]|(-> & -> & Hk)]; [left|right]; split_and!; try done.
    + intros va Hva. rewrite Hmp, Z.mul_1_l, (proj2 (Hl1 va)) by done.
      case_decide; [|done]. rewrite Z.div_small by pg. do 2 f_equal. lia.
    + intros va Hva. rewrite Hmp, (proj2 (Hl1 va)), decide_False by (done || pg). done.
Qed.

Lemma user_ok_grow s fl s' fl' root lo hi a c perm :
  user_ok s (c :: fl) root lo hi → a mod PGSIZE = 0 → 0 ≤ perm < 1024 →
  vm_ok s' fl' root → vm_step root s (c :: fl) s' fl' → frame_ok s' fl' root (mk_pte c perm) →
  (∀ va, 0 ≤ va < MAXVA → leaf (ent (k_mem s')) root va =
        if decide (a ≤ va < a + PGSIZE) then Some (mk_pte c perm)
        else leaf (ent (k_mem s)) root va) →
  user_ok s' fl' root lo hi.
Proof.
  intros [V Hlim Hfr Hinj] Hal Hp V' St Hc Hl.
  assert (PTE2PA (mk_pte c perm) = c) as Hpa.
  { apply mk_pte_frame; [|done]. eapply zone_ok; [exact V|]. left. by apply elem_of_cons; left. }
  assert (∀ va e, lo ≤ va < hi → leaf (ent (k_mem s)) root va = Some e → PTE2PA e ≠ c) as Hne.
  { intros va e Hva He E. destruct (Hfr va e Hva He) as (_ & Hn & _).
    apply Hn, elem_of_cons. by left. }
  split; [done|done| |].
  - intros va e Hva. rewrite Hl by lia. case_decide; [by intros [=<-]|].
    intros He. eapply frame_ok_step; [by eapply Hfr|done].
  - intros va va' e e' Hva Hva'. rewrite !Hl by lia. repeat case_decide.
    + intros _ _ _. pgd.
    + intros [=<-] He' E. rewrite Hpa in E. by destruct (Hne va' e' Hva' He').
    + intros He [=<-] E. rewrite Hpa in E. by destruct (Hne va e Hva He).
    + by apply Hinj.
Qed.

Lemma user_ok_step s fl s' fl' root lo hi :
  user_ok s fl root lo hi → vm_ok s' fl' root → vm_step root s fl s' fl' →
  (∀ va, 0 ≤ va < MAXVA → leaf (ent (k_mem s')) root va = leaf (ent (k_mem s)) root va) →
  user_ok s' fl' root lo hi.
Proof.
  intros [V Hlim Hfr Hinj] V' St Hl. split; [done|done| |].
  - intros va e Hva. rewrite Hl by lia. intros He. eapply frame_ok_step; [by eapply Hfr|done].
  - intros va va' e e' Hva Hva'. rewrite !Hl by lia. by apply Hinj.
Qed.

Lemma user_ok_freed s fl root lo hi c :
  user_ok s fl root lo hi → page_ok c → c ∉ fl → ¬ is_table (ent (k_mem s)) root c →
  (∀ va e, lo ≤ va < hi → leaf (ent (k_mem s)) root va = Some e → PTE2PA e ≠ c) →
  user_ok (freed c s) (c :: fl) root lo hi.
Proof.
  intros [V Hlim Hfr Hinj] Hc Hcf Hct Hne.
  destruct (freed_vm s fl root c V Hc Hcf Hct) as (V' & Hl & Ht).
  split; [done|done| |].
  - intros va e Hva. rewrite (proj2 (Hl va)). intros He.
    destruct (Hfr va e Hva He) as (H1 & H2 & H3 & H4 & H5).
    split_and!; [done| |by rewrite Ht| |done].
    + apply not_elem_of_cons. split; [by eapply Hne|done].
    + unfold ref_of. by rewrite ref_freed.
  - intros va va' e e' Hva Hva'. rewrite (proj2 (Hl va)), (proj2 (Hl va')). by apply Hinj.
Qed.

Lemma writes_only_step root s fl s' fl' :
  vm_step root s fl s' fl' → writes_only (zone s fl root) s s'.
Proof. intros St. split; apply St. Qed.

(** [mappages] of a fresh page failed: [kfree] takes the page back. *)
Lemma map_fresh_undo s fl root hi c perm s1 :
  user_ok s (c :: fl) root 0 hi → vm_ok s1 [] root → vm_step root s (c :: fl) s1 [] →
  frame_ok s1 [] root (mk_pte c perm) → 0 ≤ perm < 1024 →
  (∀ va, 0 ≤ va < MAXVA → leaf (ent (k_mem s1)) root va = leaf (ent (k_mem s)) root va) →
  kfree c s1 = Ok tt (freed c s1) ∧ user_ok (freed c s1) [c] root 0 hi ∧
  (∀ va, 0 ≤ va < MAXVA → leaf (ent (k_mem (freed c s1))) root va = leaf (ent (k_mem s)) root va) ∧
  writes_only (zone s (c :: fl) root) s (freed c s1) ∧
  (∀ p, is_table (ent (k_mem (freed c s1))) root p → zone s (c :: fl) root p).
Proof.
  intros U V1 St F Hp Hl. pose proof (us_lim _ _ _ _ _ U) as Hlim.
  assert (zone s (c :: fl) root c) as Hz by (left; by apply elem_of_cons; left).
  assert (page_ok c) as Hc by (eapply zone_ok; [apply U|done]).
  destruct (mk_pte_frame c perm Hc Hp) as [Hpa _]. unfold frame_ok in F. rewrite Hpa in F.
  destruct F as (_ & Hc2 & Hc3 & Hc4 & _).
  destruct (freed_vm s1 [] root c V1 Hc Hc2 Hc3) as (_ & Hl2 & Ht2).
  split_and!.
  - by apply kfree_run.
  - apply user_ok_freed; [by eapply user_ok_step|done..|].
    intros va e Hva. rewrite Hl by lia. intros He Ec.
    destruct (us_frame _ _ _ _ _ U va e Hva He) as (_ & Hnc & _).
    apply Hnc, elem_of_cons. by left.
  - intros va Hva. by rewrite (proj2 (Hl2 va)), Hl.
  - eapply (writes_only_trans _ (λ p, p = c)); [done| |by eapply writes_only_step|].
    + by intros p ->.
    + split; [unfold freed; auto with xv6|]. intros b Hb. apply freed_mem. by apply Hb.
  - intros p Hp'%Ht2. apply (vs_zone _ _ _ _ _ St). by right.
Qed.

(** ** [uvmalloc] *)

(** The bytes of the mapped pages below [hi] are the same. *)
Definition keeps (root hi : Z) (s s' : kstate) : Prop :=
  ∀ va e x, 0 ≤ va < hi → leaf (ent (k_mem s)) root va = Some e → in_page (PTE2PA e) x →
    ld8 (k_mem s') x = ld8 (k_mem s) x.

Lemma keeps_step root hi s fl s' fl' :
  user_ok s fl root 0 hi → vm_step root s fl s' fl' → keeps root hi s s'.
Proof.
  intros U St va e x Hva He Hx. eapply frame_bytes; [apply U| |done|done].
  by eapply (us_frame _ _ _ _ _ U).
Qed.

(** [s] is [s0] with fresh zeroed pages mapped at [base, a). *)
Record grown (root hi base a perm : Z) (s0 : kstate) (fl0 : list Z) (s : kstate) (fl : list Z) : Prop := {
  gw_ok : user_ok s fl root 0 hi;
  gw_step : vm_step root s0 fl0 s fl;
  gw_old va : 0 ≤ va < MAXVA → ¬ base ≤ va < a →
    leaf (ent (k_mem s)) root va = leaf (ent (k_mem s0)) root va;
  gw_new va : base ≤ va < a →
    ∃ p, leaf (ent (k_mem s)) root va = Some (mk_pte p perm) ∧ p ∈ fl0 ∧
         ∀ x, in_page p x → ld8 (k_mem s) x = 0 }.

Lemma grown_step root hi base a perm s0 fl0 s c fl s' fl' :
  grown root hi base a perm s0 fl0 s (c :: fl) →
  0 ≤ base ≤ a → a mod PGSIZE = 0 → a + PGSIZE ≤ hi → 0 ≤ perm < 1024 → vm_ok s0 fl0 root →
  vm_ok s' fl' root → vm_step root s (c :: fl) s' fl' → frame_ok s' fl' root (mk_pte c perm) →
  (∀ b, in_page c b → ld8 (k_mem s') b = 0) →
  (∀ va, 0 ≤ va < MAXVA → leaf (ent (k_mem s')) root va =
        if decide (a ≤ va < a + PGSIZE) then Some (mk_pte c perm)
        else leaf (ent (k_mem s)) root va) →
  grown root hi base (a + PGSIZE) perm s0 fl0 s' fl'.
Proof.
  intros [U St Hold Hnew] Hba Hal Hhi Hp V0 V' St' Hc Hz Hl. pose proof (us_lim _ _ _ _ _ U).
  split.
  - by eapply user_ok_grow.
  - by eapply vm_step_trans.
  - intros va Hva Hout. rewrite Hl by done. rewrite decide_False by pg. apply Hold; [done|pg].
  - intros va Hva. rewrite Hl by pg. case_decide.
    + exists c. split_and!; [done| |done]. destruct (vs_fl _ _ _ _ _ St) as [l ->].
      apply elem_of_app. right. by apply elem_of_cons; left.
    + destruct (Hnew va) as (p & E & Hin & Hpz); [pg|]. exists p. split_and!; [done..|].
      intros x Hx. transitivity (ld8 (k_mem s) x); [|by apply Hpz].
      assert (PTE2PA (mk_pte p perm) = p) as Hpp.
      { apply mk_pte_frame; [|done]. eapply zone_ok; [exact V0|by left]. }
      eapply frame_bytes; [apply U| |done|by rewrite Hpp].
      eapply (us_frame _ _ _ _ _ U); [|done]. pg.
Qed.

(** The way out when memory runs short: the pages mapped so far are freed. *)
Lemma uvmalloc_undo root hi base a s0 s fl :
  user_ok s fl root 0 hi → 0 ≤ base ≤ a → base mod PGSIZE = 0 → a mod PGSIZE = 0 → a ≤ hi →
  (∀ va, 0 ≤ va < MAXVA → ¬ base ≤ va < a →
    leaf (ent (k_mem s)) root va = leaf (ent (k_mem s0)) root va) →
  (∀ va, base ≤ va < a → leaf (ent (k_mem s0)) root va = None) →
  ∃ s' fl', (_ ← uvmdealloc root a base; mret 0) s = Ok 0 s' ∧ user_ok s' fl' root 0 hi ∧
    (∀ va, 0 ≤ va < MAXVA → leaf (ent (k_mem s')) root va = leaf (ent (k_mem s0)) root va) ∧
    (keeps root hi s0 s → keeps root hi s0 s').
Proof.
  intros U Hba Hb Ha Hhi Hold Hn. pose proof (us_lim _ _ _ _ _ U) as Hlim.
  pose proof (PGROUNDUP_id a ltac:(pg) Ha) as Ea. pose proof (PGROUNDUP_id base ltac:(pg) Hb) as Eb.
  destruct (decide (base < a)).
  - destruct (uvmdealloc_run root 0 hi a base s fl U) as (s' & fl' & E & U' & Un); [lia..|].
    unfold dealloc_pages in Un. rewrite Ea, Eb in Un.
    exists s', fl'. rewrite (bind_ok _ _ _ _ _ E). split_and!; [done|done| |].
    + intros va Hva. rewrite (um_leaf _ _ _ _ _ _ _ _ Un) by done. case_decide as D.
      * symmetry. apply Hn. pgd.
      * apply Hold; [done|pgd].
    + intros Hk va e x Hva He Hx. rewrite <- (Hk va e x Hva He Hx).
      apply (wo_mem _ _ _ (um_writes _ _ _ _ _ _ _ _ Un)). intros p Hp Hpx.
      assert (¬ base ≤ va < a) as Hout by (intros D; by rewrite Hn in He).
      rewrite <- Hold in He by (done || lia).
      destruct (us_frame _ _ _ _ _ U va e Hva He) as (H1 & _ & H3 & _).
      assert (page_ok p ∧ p ≠ PTE2PA e) as [Hpo Hpe].
      { destruct Hp as [Hp|[_ Hp]]; [split; [by eapply table_ok, Hp; apply U|by intros ->]|].
        destruct (elem_of_frames _ _ _ _ _ Hp) as (va' & e' & Hva' & He' & ->). split.
        - by apply (us_frame _ _ _ _ _ U va' e'); [pgd|].
        - intros D. specialize (us_inj _ _ _ _ _ U va' va e' e ltac:(pgd) Hva He' He D). pgd. }
      by apply Hpe, (in_page_eq p _ x).
  - exists s, fl. split_and!; [|done| |done].
    + unfold uvmdealloc. destruct (Z.geb_spec base a); [done|lia].
    + intros va Hva. apply Hold; [done|lia].
Qed.

Lemma uvmalloc_perm xperm :
  0 ≤ xperm < 1024 →
  0 ≤ Z.lor (Z.lor PTE_R PTE_U) xperm < 1024 ∧
  Z.lor (Z.lor (Z.lor PTE_R PTE_U) xperm) PTE_V ≠ PTE_V.
Proof.
  intros Hx. split.
  - apply (lor_range 10); [done| |done]. by vm_compute.
  - intros E. apply (f_equal (λ z, Z.testbit z 1)) in E. rewrite !Z.lor_spec in E.
    by destruct (Z.testbit xperm 1).
Qed.

Lemma uvmalloc_iter (n : nat) root hi base a newsz xperm s0 fl0 s fl :
  let perm := Z.lor (Z.lor PTE_R PTE_U) xperm in
  user_ok s0 fl0 root 0 hi → grown root hi base a perm s0 fl0 s fl →
  0 ≤ base ≤ a → base mod PGSIZE = 0 → a mod PGSIZE = 0 → a < newsz → a + PGSIZE ≤ hi →
  0 ≤ xperm < 1024 →
  (∀ va, base ≤ va < a + PGSIZE → leaf (ent (k_mem s0)) root va = None) →
  ∃ s' fl',
    (uvmalloc_loop (S n) root a base newsz xperm s =
       uvmalloc_loop n root (a + PGSIZE) base newsz xperm s' ∧
     grown root hi base (a + PGSIZE) perm s0 fl0 s' fl') ∨
    (uvmalloc_loop (S n) root a base newsz xperm s = Ok 0 s' ∧ user_ok s' fl' root 0 hi ∧
     (∀ va, 0 ≤ va < MAXVA → leaf (ent (k_mem s')) root va = leaf (ent (k_mem s0)) root va) ∧
     keeps root hi s0 s').
Proof.
  intros perm U0 G Hba Hb Hal Hlt Hhi Hx Hn. destruct (uvmalloc_perm xperm Hx) as [Hp Hpv].
  pose proof (gw_ok _ _ _ _ _ _ _ _ _ G) as U. pose proof (us_lim _ _ _ _ _ U) as Hlim.
  pose proof (us_vm _ _ _ _ _ U) as V. pose proof (us_vm _ _ _ _ _ U0) as V0.
  pose proof (keeps_step _ _ _ _ _ _ U0 (gw_step _ _ _ _ _ _ _ _ _ G)) as Hk.
  cbn [uvmalloc_loop].
  destruct (Z.ltb_spec a newsz) as [_|]; [|lia]. rewrite u64_small by pg.
  destruct fl as [|c fl].
  { rewrite (bind_ok _ _ _ _ _ (kalloc_run_nil s (vo_free _ _ _ V))). simpl Z.eqb. cbv iota.
    destruct (uvmalloc_undo root hi base a s0 s [] U) as (s' & fl' & E & U' & Hl & Hk');
      [lia|done|done|pg|apply G|intros; apply Hn; pg|].
    exists s', fl'. right. split_and!; [done..|by apply Hk']. }
  rewrite (bind_ok _ _ _ _ _ (kalloc_run_cons s c fl (vo_free _ _ _ V))).
  assert (page_ok c) as Hc by (eapply zone_ok; [exact V|left; by apply elem_of_cons; left]).
  pose proof (page_ok_pos c Hc). destruct (Z.eqb_spec c 0) as [|_]; [lia|].
  rewrite (seq_ok _ _ _ _ (kmemset_run c 0 PGSIZE _ ltac:(lia))).
  destruct (map_fresh s fl root a c perm (memset (k_mem (allocated c s)) c 0 PGSIZE))
    as (r & s1 & fl1 & E & V1 & St1 & F1 & Hz & Hr); [done|lia|pg|done| |done|done| |].
  { rewrite (gw_old _ _ _ _ _ _ _ _ _ G) by pg. apply Hn. pg. }
  { intros b Hbc. rewrite ld8_memset, decide_False by done. by apply allocated_mem. }
  rewrite (bind_ok _ _ _ _ _ E). destruct Hr as [[-> Hl]|(-> & -> & Hl)].
  - exists s1, fl1. left. split; [done|]. eapply grown_step; eauto.
    intros b Hbc. rewrite Hz by done. rewrite ld8_memset, decide_True by done. done.
  - destruct (map_fresh_undo s fl root hi c perm s1) as (Ek & U2 & Hl2 & W2 & _); [done..|].
    change (negb (-1 =? 0)) with true. cbv iota. rewrite (seq_ok _ _ _ _ Ek).
    destruct (uvmalloc_undo root hi base a s0 _ [c] U2) as (s' & fl' & E' & U' & Hl' & Hk').
    { lia. } { done. } { done. } { pg. }
    { intros va Hva Hout. rewrite Hl2 by done. by apply G. }
    { intros; apply Hn; pg. }
    exists s', fl'. right. split_and!; [done..|]. apply Hk'.
    intros va e x Hva He Hxe. rewrite <- (Hk va e x Hva He Hxe). apply (wo_mem _ _ _ W2).
    destruct (frame_ok_step _ _ _ _ _ _ (us_frame _ _ _ _ _ U0 va e Hva He)
                (gw_step _ _ _ _ _ _ _ _ _ G)) as (F1' & F2 & F3 & _).
    intros p Hpz Hpx. assert (PTE2PA e = p) as <- by (eapply in_page_eq; eauto using zone_ok).
    by destruct Hpz.
Qed.

Lemma uvmalloc_loop_run root hi base newsz xperm s0 fl0 (n : nat) : ∀ a s fl,
  let perm := Z.lor (Z.lor PTE_R PTE_U) xperm in
  user_ok s0 fl0 root 0 hi → grown root hi base a perm s0 fl0 s fl →
  0 ≤ base ≤ a → base mod PGSIZE = 0 → a mod PGSIZE = 0 →
  a ≤ PGROUNDUP newsz ≤ hi → 0 ≤ newsz ≤ MAXVA → newsz ≤ a + n * PGSIZE →
  0 ≤ xperm < 1024 →
  (∀ va, base ≤ va < PGROUNDUP newsz → leaf (ent (k_mem s0)) root va = None) →
  ∃ r s' fl', uvmalloc_loop (S n) root a base newsz xperm s = Ok r s' ∧
    (r = newsz ∧ grown root hi base (PGROUNDUP newsz) perm s0 fl0 s' fl' ∨
     r = 0 ∧ user_ok s' fl' root 0 hi ∧
     (∀ va, 0 ≤ va < MAXVA → leaf (ent (k_mem s')) root va = leaf (ent (k_mem s0)) root va) ∧
     keeps root hi s0 s').
Proof.
  induction n as [|n IH]; intros a s fl perm V0 G Hba Hb Ha Hup Hnew Hfuel Hx Hn;
    destruct (PGROUNDUP_bounds newsz) as [Bn An]; [pg| |pg|].
  all: destruct (decide (a < newsz)); [try (exfalso; pg)|
    exists newsz, s, fl; cbn [uvmalloc_loop]; destruct (Z.ltb_spec a newsz); [lia|];
    split; [done|left; split; [done|]]; by replace (PGROUNDUP newsz) with a by pgd].
  assert (a + PGSIZE ≤ PGROUNDUP newsz) by pgd.
  destruct (uvmalloc_iter (S n) root hi base a newsz xperm s0 fl0 s fl)
    as (s1 & fl1 & [(E & G1)|(E & U1 & Hl)]); [done|done|done|done|done|done|lia|done| |..].
  - intros va Hva. apply Hn. lia.
  - rewrite E. apply (IH (a + PGSIZE) s1 fl1); [done|done|pg|done|pgd|lia|done|pg|done|done].
  - rewrite E. exists 0, s1, fl1. split; [done|]. by right.
Qed.

End vmuser.
