(* ===== verification/VmCopy.v ===== *)
(** [uvmcopy] (fork's copy of an address space) and the copies between kernel
    and user memory, [copyin], [copyout] and [copyinstr] (src/kernel/vm.c). *)

From S2P Require Import Prelude Machine Str Types Kalloc Vm PageTable VmSpec VmUser.

Section vmcopy.
Context `{L : Linker}.

(** ** Two page tables side by side *)

(** The tables of [old] are not pages an operation on [new] may write. *)
Definition apart (s : kstate) (fl : list Z) (old new : Z) : Prop :=
  ∀ p, is_table (ent (k_mem s)) old p → ¬ zone s fl new p.

Lemma other_table s fl s' fl' old new :
  vm_ok s fl old → vm_ok s fl new → apart s fl old new →
  vm_ok s' fl' new → vm_step new s fl s' fl' →
  vm_ok s' fl' old ∧ apart s' fl' old new ∧
  (∀ va, tbl0 (ent (k_mem s')) old va = tbl0 (ent (k_mem s)) old va ∧
         leaf (ent (k_mem s')) old va = leaf (ent (k_mem s)) old va) ∧
  (∀ p, is_table (ent (k_mem s')) old p ↔ is_table (ent (k_mem s)) old p).
Proof.
  intros Vo Vn Hap Vn' St. destruct (vs_fl _ _ _ _ _ St) as [l Hl].
  destruct (vm_ok_agree s s' fl fl' old Vo) as (Vo' & Hlf & Ht).
  - apply Vn'.
  - intros p a Hp Ha. apply (vs_mem _ _ _ _ _ St). intros q Hq Hqa.
    apply (Hap p Hp). rewrite (in_page_eq p q a); [done|by eapply (table_ok s fl old)|by eapply (zone_ok s fl new)|done..].
  - intros p Hp Hin. apply (Hap p Hp). left. subst. apply elem_of_app. by right.
  - intros p Hp. apply (vs_ref _ _ _ _ _ St); [by eapply (table_ok s fl old)|].
    intros Hin. apply (Hap p Hp). by left.
  - split_and!; [done| |done|done]. intros p Hp Hz. apply (Hap p); [by apply Ht|].
    by apply (vs_zone _ _ _ _ _ St).
Qed.

(** ** [uvmcopy] *)

(** What the parent's pages must be: managed, not free and not tables of the
    child. *)
Definition source_ok (s : kstate) (fl : list Z) (old new lim : Z) : Prop :=
  ∀ va e, 0 ≤ va < lim → leaf (ent (k_mem s)) old va = Some e →
    page_ok (PTE2PA e) ∧ ¬ zone s fl new (PTE2PA e) ∧ PTE_FLAGS e ≠ PTE_V.

(** The child's entry [e'] is a private copy of the parent's entry [e]. *)
Definition page_copy (s0 : kstate) (fl0 : list Z) (s : kstate) (e e' : Z) : Prop :=
  PTE_FLAGS e' = PTE_FLAGS e ∧ PTE2PA e' ∈ fl0 ∧
  ∀ k, 0 ≤ k < PGSIZE → ld8 (k_mem s) (PTE2PA e' + k) = ld8 (k_mem s0) (PTE2PA e + k).

(** The pages of [old] from [base] to [i] have been copied to [new]. *)
Record copied (old new hi base i : Z) (s0 : kstate) (fl0 : list Z) (s : kstate) (fl : list Z) : Prop := {
  cp_ok : user_ok s fl new 0 hi;
  cp_step : vm_step new s0 fl0 s fl;
  cp_new va : base ≤ va < i →
    match leaf (ent (k_mem s0)) old va with
    | None => leaf (ent (k_mem s)) new va = None
    | Some e => ∃ e', leaf (ent (k_mem s)) new va = Some e' ∧ page_copy s0 fl0 s e e'
    end;
  cp_rest va : 0 ≤ va < MAXVA → ¬ base ≤ va < i →
    leaf (ent (k_mem s)) new va = leaf (ent (k_mem s0)) new va }.

Lemma leaf_same_entry E root va va' : same_entry va va' → leaf E root va = leaf E root va'.
Proof. intros (D2 & D1 & D0). unfold leaf, tbl0, tbl1. by rewrite D2, D1, D0. Qed.

Lemma flags_valid e : has PTE_V e = true → Z.lor (PTE_FLAGS e) PTE_V = PTE_FLAGS e.
Proof.
  unfold has. intros H%negb_true_iff%Z.eqb_neq. change PTE_V with 1 in *. unfold PTE_FLAGS.
  assert (Z.testbit e 0 = true) as H0.
  { destruct (Z.testbit e 0) eqn:E; [done|]. destruct H. apply Z.bits_inj'. intros n Hn.
    rewrite Z.land_spec, Z.bits_0. destruct (decide (n = 0)) as [->|]; [by rewrite E|].
    rewrite (Z.bits_above_log2 1), andb_false_r; [done..|simpl; lia]. }
  apply Z.bits_inj'. intros n Hn. rewrite Z.lor_spec, !Z.land_spec.
  destruct (decide (n = 0)) as [->|]; [by rewrite H0|].
  rewrite (Z.bits_above_log2 1), orb_false_r; [done..|simpl; lia].
Qed.

(** A page without an entry in the parent is skipped. *)
Lemma copied_skip old new hi base i s0 fl0 s fl :
  copied old new hi base i s0 fl0 s fl → 0 ≤ base ≤ i → i + PGSIZE ≤ MAXVA → i mod PGSIZE = 0 →
  leaf (ent (k_mem s0)) old i = None → leaf (ent (k_mem s0)) new i = None →
  copied old new hi base (i + PGSIZE) s0 fl0 s fl.
Proof.
  intros [U St Hn Hr] Hi Hm Hal Ho Hnew. split; [done..| |].
  - intros va Hva. destruct (decide (va < i)); [apply Hn; lia|].
    assert (same_entry va i) as D by (apply same_entry_range; pg || done).
    rewrite !(leaf_same_entry _ _ va i), Ho by done. rewrite Hr by pg. done.
  - intros va Hva Hout. apply Hr; pg.
Qed.

Lemma copied_add old new hi base i s0 fl0 s c fl s' fl' e :
  copied old new hi base i s0 fl0 s (c :: fl) → vm_ok s0 fl0 new →
  0 ≤ base ≤ i → i + PGSIZE ≤ hi → i mod PGSIZE = 0 → has PTE_V e = true →
  leaf (ent (k_mem s0)) old i = Some e →
  vm_ok s' fl' new → vm_step new s (c :: fl) s' fl' →
  frame_ok s' fl' new (mk_pte c (PTE_FLAGS e)) →
  (∀ k, 0 ≤ k < PGSIZE → ld8 (k_mem s') (c + k) = ld8 (k_mem s0) (PTE2PA e + k)) →
  (∀ va, 0 ≤ va < MAXVA → leaf (ent (k_mem s')) new va =
        if decide (i ≤ va < i + PGSIZE) then Some (mk_pte c (PTE_FLAGS e))
        else leaf (ent (k_mem s)) new va) →
  copied old new hi base (i + PGSIZE) s0 fl0 s' fl'.
Proof.
  intros [U St Hn Hr] V0 Hi Hhi Hal Hv Ho V' St' F Hb Hl. pose proof (us_lim _ _ _ _ _ U) as Hlim.
  assert (0 ≤ PTE_FLAGS e < 1024) as Hfl.
  { unfold PTE_FLAGS. rewrite (Z_land_low _ 10) by done. apply Z.mod_pos_bound. done. }
  destruct (mk_pte_frame c (PTE_FLAGS e)) as [Hpa Hfg]; [|done|].
  { eapply zone_ok; [apply U|left; by apply elem_of_cons; left]. }
  split.
  - by eapply user_ok_grow.
  - by eapply vm_step_trans.
  - intros va Hva. rewrite Hl by pg. case_decide as D.
    + rewrite (leaf_same_entry _ _ va i), Ho by (apply same_entry_range; pg || done).
      eexists. split; [done|]. unfold page_copy. rewrite Hpa, Hfg. split_and!; [|..|done].
      * by apply flags_valid.
      * destruct (vs_fl _ _ _ _ _ St) as [l ->]. apply elem_of_app. right.
        by apply elem_of_cons; left.
    + specialize (Hn va ltac:(pg)). destruct (leaf (ent (k_mem s0)) old va) as [e0|]; [|done].
      destruct Hn as (e' & He' & H1 & H2 & H3). exists e'. unfold page_copy. split_and!; [done..|].
      intros k Hk. rewrite <- H3 by done. eapply frame_bytes; [apply U| |done|].
      * eapply (us_frame _ _ _ _ _ U); [|done]. pg.
      * unfold in_page. lia.
  - intros va Hva Hout. rewrite Hl, decide_False by pg. apply Hr; pg.
Qed.

(** One iteration of the loop. *)
Lemma uvmcopy_iter (n : nat) old new hi base i sz s0 fl0 s fl :
  vm_ok s0 fl0 old → vm_ok s0 fl0 new → apart s0 fl0 old new →
  copied old new hi base i s0 fl0 s fl →
  0 ≤ base ≤ i → i < sz → i + PGSIZE ≤ hi → i mod PGSIZE = 0 →
  source_ok s0 fl0 old new (i + PGSIZE) →
  leaf (ent (k_mem s0)) new i = None →
  ∃ s' fl',
    (uvmcopy_loop (S n) old new sz i s = uvmcopy_loop n old new sz (i + PGSIZE) s' ∧
     copied old new hi base (i + PGSIZE) s0 fl0 s' fl') ∨
    (uvmcopy_loop (S n) old new sz i s = Ok (Some i) s' ∧ user_ok s' fl' new 0 hi ∧
     (∀ va, 0 ≤ va < MAXVA → leaf (ent (k_mem s')) new va = leaf (ent (k_mem s)) new va) ∧
     writes_only (zone s0 fl0 new) s0 s' ∧
     (∀ p, is_table (ent (k_mem s')) new p → zone s0 fl0 new p)).
Proof.
  intros Vo Vn Hap C Hbi Hlt Hhi Hal Hsrc Hnone.
  pose proof (cp_ok _ _ _ _ _ _ _ _ _ C) as U. pose proof (us_lim _ _ _ _ _ U) as Hlim.
  destruct (other_table s0 fl0 s fl old new) as (Vos & _ & Hlo & _); [done..|apply U|apply C|].
  cbn [uvmcopy_loop]. destruct (Z.ltb_spec i sz) as [_|]; [|lia]. rewrite u64_small by pg.
  destruct (walk_lookup s fl old i Vos) as [E Hnz]; [pg|]. rewrite (bind_ok _ _ _ _ _ E). clear E.
  destruct (leaf (ent (k_mem s)) old i) as [e|] eqn:He.
  2: { exists s, fl. left. split; [|apply copied_skip; rewrite <- ?(proj2 (Hlo i)); done || pg].
       destruct (tbl0 (ent (k_mem s)) old i) as [t0|] eqn:H0; [|done].
       destruct (Z.eqb_spec (t0 + 8 * PX 0 i) 0) as [Hz|_]; [by apply Hnz in Hz|].
       rewrite (bind_ok _ _ _ _ _ (load64_run _ _)). rewrite (leaf_tbl0 _ _ _ _ H0) in He.
       unfold has, ent in He. by destruct (Z.land _ PTE_V =? 0). }
  destruct (leaf_some _ _ _ _ He) as (t0 & H0 & Hee & Hv). rewrite H0 in *.
  destruct (Z.eqb_spec (t0 + 8 * PX 0 i) 0) as [Hz|_]; [by apply Hnz in Hz|].
  rewrite (bind_ok _ _ _ _ _ (load64_run _ _)). unfold ent in Hee. rewrite Hee.
  pose proof Hv as Hv'. unfold has in Hv'. apply negb_true_iff in Hv'. rewrite Hv'. cbn [orb]. cbv zeta.
  rewrite (proj2 (Hlo i)) in He. destruct (Hsrc i e) as (Hpa & Hpz & Hfg); [pg|done|].
  destruct fl as [|c fl].
  { rewrite (bind_ok _ _ _ _ _ (kalloc_run_nil s (vo_free _ _ _ Vos))).
    exists s, []. right. split_and!; [done..|by eapply writes_only_step, C|].
    intros p Hp. apply (vs_zone _ _ _ _ _ (cp_step _ _ _ _ _ _ _ _ _ C)). by right. }
  rewrite (bind_ok _ _ _ _ _ (kalloc_run_cons s c fl (vo_free _ _ _ Vos))).
  assert (page_ok c) as Hc by (eapply zone_ok; [exact Vos|left; by apply elem_of_cons; left]).
  pose proof (page_ok_pos c Hc). pose proof (page_ok_pos _ Hpa).
  destruct (Z.eqb_spec c 0) as [|_]; [lia|].
  rewrite (seq_ok _ _ _ _ (kmemmove_run c (PTE2PA e) PGSIZE _ ltac:(lia) ltac:(lia))).
  assert (0 ≤ PTE_FLAGS e < 1024) as Hfl.
  { unfold PTE_FLAGS. rewrite (Z_land_low _ 10) by done. apply Z.mod_pos_bound. done. }
  assert (PTE2PA e ≠ c) as Hne.
  { intros Hec. apply Hpz. apply (vs_zone _ _ _ _ _ (cp_step _ _ _ _ _ _ _ _ _ C)).
    rewrite Hec. left. by apply elem_of_cons; left. }
  destruct (map_fresh s fl new i c (PTE_FLAGS e) (memmove (k_mem (allocated c s)) c (PTE2PA e) PGSIZE))
    as (r & s1 & fl1 & E & V1 & St1 & F1 & Hb & Hr); [apply U|lia|pg|done| |done| | |].
  { rewrite (cp_rest _ _ _ _ _ _ _ _ _ C) by pg. done. }
  { by rewrite flags_valid. }
  { intros b Hbc. rewrite ld8_memmove, decide_False by (done || pg). by apply allocated_mem. }
  rewrite (bind_ok _ _ _ _ _ E). destruct Hr as [[-> Hl]|(-> & -> & Hl)].
  - exists s1, fl1. left. split; [done|]. eapply copied_add; eauto.
    intros k Hk. rewrite Hb by (unfold in_page; lia).
    rewrite ld8_memmove, decide_True by lia.
    replace (PTE2PA e + (c + k - c)) with (PTE2PA e + k) by lia.
    assert (in_page (PTE2PA e) (PTE2PA e + k)) as Hin by (unfold in_page; lia).
    rewrite allocated_mem.
    + apply (vs_mem _ _ _ _ _ (cp_step _ _ _ _ _ _ _ _ _ C)). intros p Hp Hpx.
      apply Hpz. rewrite (in_page_eq (PTE2PA e) p _ Hpa (zone_ok s0 fl0 new p Vn Hp) Hin Hpx). done.
    + intros Hcx. apply Hne. by apply (in_page_eq _ _ _ Hpa Hc Hin Hcx).
  - destruct (map_fresh_undo s fl new hi c (PTE_FLAGS e) s1) as (Ek & U2 & Hl2 & W2 & Ht2);
      [apply U|done..|].
    change (negb (-1 =? 0)) with true. cbv iota. rewrite (seq_ok _ _ _ _ Ek).
    eexists _, [c]. right. split_and!; [done..| |].
    + eapply writes_only_trans; [done| |by eapply writes_only_step, C|exact W2].
      apply (vs_zone _ _ _ _ _ (cp_step _ _ _ _ _ _ _ _ _ C)).
    + intros p Hp. by apply (vs_zone _ _ _ _ _ (cp_step _ _ _ _ _ _ _ _ _ C)), Ht2.
Qed.

Lemma uvmcopy_loop_run old new hi base sz s0 fl0 (n : nat) : ∀ i s fl,
  vm_ok s0 fl0 old → vm_ok s0 fl0 new → apart s0 fl0 old new →
  copied old new hi base i s0 fl0 s fl →
  0 ≤ base ≤ i → i mod PGSIZE = 0 → 0 ≤ sz ≤ MAXVA → PGROUNDUP sz ≤ hi → sz ≤ i + n * PGSIZE →
  source_ok s0 fl0 old new (PGROUNDUP sz) →
  (∀ va, 0 ≤ va < PGROUNDUP sz → leaf (ent (k_mem s0)) new va = None) →
  ∃ r s' fl', uvmcopy_loop (S n) old new sz i s = Ok r s' ∧
    match r with
    | None => ∃ lim, sz ≤ lim ∧ copied old new hi base lim s0 fl0 s' fl'
    | Some j => 0 ≤ j ∧ j + PGSIZE ≤ hi ∧ j mod PGSIZE = 0 ∧ j < sz ∧ user_ok s' fl' new 0 hi ∧
        (∀ va, 0 ≤ va < MAXVA → ¬ base ≤ va < j →
           leaf (ent (k_mem s')) new va = leaf (ent (k_mem s0)) new va) ∧
        (∀ va e, base ≤ va < j → leaf (ent (k_mem s')) new va = Some e → PTE2PA e ∈ fl0) ∧
        writes_only (zone s0 fl0 new) s0 s' ∧
        (∀ p, is_table (ent (k_mem s')) new p → zone s0 fl0 new p)
    end.
Proof.
  induction n as [|n IH]; intros i s fl Vo Vn Hap C Hbi Hal Hsz Hhi Hfuel Hsrc Hnone;
    destruct (PGROUNDUP_bounds sz) as [Bn An]; [pg| |pg|].
  all: destruct (decide (i < sz)); [try (exfalso; pg)|
    exists None, s, fl; cbn [uvmcopy_loop]; destruct (Z.ltb_spec i sz); [lia|];
    split; [done|exists i; split; [lia|done]]].
  assert (i + PGSIZE ≤ PGROUNDUP sz) by pgd.
  destruct (uvmcopy_iter (S n) old new hi base i sz s0 fl0 s fl)
    as (s1 & fl1 & [(E & C1)|(E & U1 & Hl & W & Ht)]);
    [done|done|done|done|done|done|lia|done|intros va e ?; apply Hsrc; lia|apply Hnone; lia|..].
  - rewrite E. apply (IH (i + PGSIZE) s1 fl1); done || pgd.
  - rewrite E. exists (Some i), s1, fl1. split_and!; [done|lia|lia|done|done|done| | |done|done].
    + intros va Hva Hout. rewrite Hl by done. by apply C.
    + intros va e Hva He. pose proof (us_lim _ _ _ _ _ U1). rewrite Hl in He by pg.
      pose proof (cp_new _ _ _ _ _ _ _ _ _ C va Hva) as Hc.
      destruct (leaf (ent (k_mem s0)) old va); [|congruence].
      destruct Hc as (e' & He' & _ & Hin & _). congruence.
Qed.

(** What [_uvmcopy] from [base] gives: 0 and a private copy of every mapped
    page, or -1 and the child's address space as it was. *)
Definition uvmcopy_post (old new hi base sz : Z) (s : kstate) (fl : list Z) (r : Z) (s' : kstate)
    (fl' : list Z) : Prop :=
  writes_only (zone s fl new) s s' ∧ user_ok s' fl' new 0 hi ∧
  (r = 0 ∧ (∃ lim, sz ≤ lim ∧ copied old new hi base lim s fl s' fl') ∨
   r = -1 ∧ ∀ va, 0 ≤ va < MAXVA → leaf (ent (k_mem s')) new va = leaf (ent (k_mem s)) new va).

Lemma _uvmcopy_run old new hi base sz s fl :
  vm_ok s fl old → user_ok s fl new 0 hi → apart s fl old new →
  0 ≤ base → base mod PGSIZE = 0 → 0 ≤ sz ≤ MAXVA → PGROUNDUP sz ≤ hi →
  source_ok s fl old new (PGROUNDUP sz) →
  (∀ va, 0 ≤ va < PGROUNDUP sz → leaf (ent (k_mem s)) new va = None) →
  ∃ r s' fl', _uvmcopy old new sz base s = Ok r s' ∧ uvmcopy_post old new hi base sz s fl r s' fl'.
Proof.
  intros Vo Un Hap Hb Hal Hsz Hhi Hsrc Hnone. pose proof (us_lim _ _ _ _ _ Un) as Hlim.
  destruct (PGROUNDUP_bounds sz) as [Bn An]; [pg|].
  destruct (uvmcopy_loop_run old new hi base sz s fl
      (Z.to_nat ((sz - base + PGSIZE - 1) / PGSIZE)) base s fl)
    as (r & s1 & fl1 & E & Hr); [done|apply Un|done| |lia|done|done|done|pgd|done|done|].
  { split; [done|apply vm_step_refl|lia|done]. }
  unfold _uvmcopy, uvmcopy_post. rewrite (bind_ok _ _ _ _ _ E). destruct r as [j|].
  - destruct Hr as (Hj0 & Hjhi & Hjal & Hjsz & U1 & Hl & Hfr & W & Ht).
    destruct (uvmunmap_run true new 0 hi 0 (j / PGSIZE) s1 fl1 U1) as (s2 & fl2 & E2 & U2 & Um);
      [done|done|pgd|pgd|].
    exists (-1), s2, fl2. rewrite (seq_ok _ _ _ _ E2). split_and!; [done| |done|].
    + eapply (writes_only_trans (zone s fl new)); [done| |exact W|apply Um]. intros p [Hp|[_ Hp]]; [by apply Ht|].
      destruct (elem_of_frames _ _ _ _ _ Hp) as (va & e & Hva & He & ->). left.
      destruct (decide (base ≤ va)); [eapply Hfr; [|done]; pgd|].
      rewrite Hl in He by pgd. rewrite Hnone in He by pgd. done.
    + right. split; [done|]. intros va Hva. rewrite (um_leaf _ _ _ _ _ _ _ _ Um) by done.
      case_decide; [symmetry; apply Hnone; pgd|apply Hl; [done|pgd]].
  - destruct Hr as (lim & Hlm & C). exists 0, s1, fl1. split_and!; [done| |apply C|].
    + by eapply writes_only_step, C.
    + left. split; [done|]. by exists lim.
Qed.


(** ** Copies between kernel and user memory *)

(** The physical address of a user address. *)
Definition phys (s : kstate) (root va : Z) : option Z :=
  e ← leaf (ent (k_mem s)) root va; if has PTE_U e then Some (PTE2PA e + va mod PGSIZE) else None.

Lemma phys_some s root va p :
  phys s root va = Some p →
  ∃ e, leaf (ent (k_mem s)) root va = Some e ∧ has PTE_U e = true ∧ p = PTE2PA e + va mod PGSIZE.
Proof.
  unfold phys. destruct (leaf _ root va) as [e|]; [|done]. cbn [mbind option_bind].
  destruct (has PTE_U e) eqn:Hu; [|done]. intros [=<-]. by exists e.
Qed.

Lemma phys_same_page s root va va' e :
  0 ≤ va < MAXVA → 0 ≤ va' < MAXVA → va / PGSIZE = va' / PGSIZE →
  leaf (ent (k_mem s)) root va = Some e → has PTE_U e = true →
  phys s root va' = Some (PTE2PA e + va' mod PGSIZE).
Proof.
  intros Hva Hva' E He Hu. unfold phys.
  rewrite (leaf_same_entry _ _ va' va) by by apply same_entry_page.
  rewrite He. cbn [mbind option_bind]. by rewrite Hu.
Qed.

Lemma phys_ext s s' root va :
  leaf (ent (k_mem s')) root va = leaf (ent (k_mem s)) root va → phys s' root va = phys s root va.
Proof. intros E. unfold phys. by rewrite E. Qed.

Lemma phys_inj s fl root hi va va' p :
  user_ok s fl root 0 hi → 0 ≤ va < hi → 0 ≤ va' < hi →
  phys s root va = Some p → phys s root va' = Some p → va = va'.
Proof.
  intros U Hva Hva' H H'.
  destruct (phys_some _ _ _ _ H) as (e & He & _ & ->).
  destruct (phys_some _ _ _ _ H') as (e' & He' & _ & Hp).
  destruct (us_frame _ _ _ _ _ U va e Hva He) as ([A _] & _).
  destruct (us_frame _ _ _ _ _ U va' e' Hva' He') as ([A' _] & _).
  assert (PTE2PA e = PTE2PA e') as E by pgd.
  pose proof (us_inj _ _ _ _ _ U va va' e e' Hva Hva' He He' E). pgd.
Qed.

(** Writing bytes of user frames leaves the address space alone. *)
Lemma write_frames s fl root hi m :
  user_ok s fl root 0 hi →
  (∀ p a, is_table (ent (k_mem s)) root p → in_page p a → ld8 m a = ld8 (k_mem s) a) →
  user_ok (set_mem m s) fl root 0 hi ∧
  (∀ va, leaf (ent (k_mem (set_mem m s))) root va = leaf (ent (k_mem s)) root va) ∧
  (∀ p, is_table (ent (k_mem (set_mem m s))) root p ↔ is_table (ent (k_mem s)) root p).
Proof.
  intros [V Hlim Hfr Hinj] Hm.
  destruct (vm_ok_agree s (set_mem m s) fl fl root V) as (V' & Hl & Ht).
  - by apply free_pages_set_mem, V.
  - intros p a Hp Ha. rewrite k_mem_set_mem. by eapply Hm.
  - intros p Hp. by apply (wf_page _ _ _ (vo_wf _ _ _ V)).
  - done.
  - split_and!; [|intros va; apply Hl|done]. split; [done|done| |].
    + intros va e Hva. rewrite (proj2 (Hl va)). intros He.
      destruct (Hfr va e Hva He) as (H1 & H2 & H3 & H4 & H5). split_and!; [done..| |done|done].
      by rewrite Ht.
    + intros va va' e e' Hva Hva'. rewrite (proj2 (Hl va)), (proj2 (Hl va')). by apply Hinj.
Qed.

Section copy.
Variable check_vmas : Z → K Z.

(** A mapped user page is found without the page-fault handler. *)
Lemma user_page_run s fl root hi va e :
  user_ok s fl root 0 hi → 0 ≤ va < hi → leaf (ent (k_mem s)) root va = Some e →
  has PTE_U e = true →
  user_page check_vmas root va s = Ok (Some (PTE2PA e)) s ∧ 0 < PTE2PA e.
Proof.
  intros U Hva He Hu. pose proof (us_lim _ _ _ _ _ U).
  destruct (us_frame _ _ _ _ _ U va e Hva He) as (Hpa & _). pose proof (page_ok_pos _ Hpa).
  unfold user_page. rewrite (bind_ok _ _ _ _ _ (walkaddr_run s fl root va (us_vm _ _ _ _ _ U) ltac:(lia))).
  destruct (Z.ltb_spec va MAXVA); [|lia]. rewrite He, Hu.
  destruct (Z.eqb_spec (PTE2PA e) 0); [lia|]. split; [done|lia].
Qed.

(** The page of a mapped address [va], as the copy loops find it. *)
Lemma page_for s fl root hi va p0 :
  user_ok s fl root 0 hi → 0 ≤ va < hi → phys s root va = Some p0 →
  ∃ pa, user_page check_vmas root (va - va mod PGSIZE) s = Ok (Some pa) s ∧ 0 < pa ∧
    page_ok pa ∧ ¬ is_table (ent (k_mem s)) root pa ∧
    ∀ i, 0 ≤ i < PGSIZE - va mod PGSIZE → phys s root (va + i) = Some (pa + va mod PGSIZE + i).
Proof.
  intros U Hva Hp0. pose proof (us_lim _ _ _ _ _ U) as Hlim.
  destruct (phys_some _ _ _ _ Hp0) as (e & He & Hu & _).
  assert (leaf (ent (k_mem s)) root (va - va mod PGSIZE) = Some e) as He0.
  { rewrite <- He. apply leaf_same_entry, same_entry_page; pgd. }
  destruct (user_page_run s fl root hi (va - va mod PGSIZE) e U) as [Eup Hpos]; [pgd|done|done|].
  destruct (us_frame _ _ _ _ _ U (va - va mod PGSIZE) e ltac:(pgd) He0) as (Hpa & _ & Hnt & _).
  exists (PTE2PA e). split_and!; [done..|]. intros i Hi.
  rewrite (phys_same_page s root va _ e); [f_equal; pgd|pg|pgd|pgd|done|done].
Qed.

(** The part of [len] bytes at [va] that lies in the page of [va]. *)
Definition in_page_len (va len : Z) : Z := Z.min len (PGSIZE - va mod PGSIZE).

Lemma in_page_len_eq va len :
  (if PGSIZE - va mod PGSIZE >? len then len else PGSIZE - va mod PGSIZE) = in_page_len va len.
Proof. unfold in_page_len. destruct (Z.gtb_spec (PGSIZE - va mod PGSIZE) len); lia. Qed.

Lemma frame_not_table s fl root pa q a :
  vm_ok s fl root → page_ok pa → ¬ is_table (ent (k_mem s)) root pa → in_page pa a →
  is_table (ent (k_mem s)) root q → ¬ in_page q a.
Proof.
  intros V Hpa Hnt Ha Hq Hqa. apply Hnt.
  by rewrite (in_page_eq pa q a Hpa (table_ok s fl root q V Hq) Ha Hqa).
Qed.

(** The bytes [src, src + len) are now the user bytes at [dstva], and nothing
    else changed. *)
Definition copied_out (root dstva src len : Z) (s s' : kstate) : Prop :=
  (∀ i p, 0 ≤ i < len → phys s root (dstva + i) = Some p → ld8 (k_mem s') p = ld8 (k_mem s) (src + i)) ∧
  (∀ a, (∀ i, 0 ≤ i < len → phys s root (dstva + i) ≠ Some a) → ld8 (k_mem s') a = ld8 (k_mem s) a).

(** The destination is mapped, and is not the source. *)
Definition out_ok (root dstva src len : Z) (s : kstate) : Prop :=
  ∀ i, 0 ≤ i < len → ∃ p, phys s root (dstva + i) = Some p ∧ ¬ src ≤ p < src + len.

(** One iteration of [copyout]. *)
Lemma copyout_iter (n : nat) root hi dstva src len s fl :
  user_ok s fl root 0 hi → 0 ≤ dstva → 0 < len → dstva + len ≤ hi → 0 < src →
  out_ok root dstva src len s →
  let m := in_page_len dstva len in
  ∃ s', copyout_loop check_vmas (S n) root dstva src len s =
          copyout_loop check_vmas n root (dstva - dstva mod PGSIZE + PGSIZE) (src + m) (len - m) s' ∧
    user_ok s' fl root 0 hi ∧ same_rest s s' ∧ k_kmem s' = k_kmem s ∧
    (∀ va, leaf (ent (k_mem s')) root va = leaf (ent (k_mem s)) root va) ∧
    copied_out root dstva src m s s'.
Proof.
  intros U Hd Hlen Hhi Hsrc Hok m. pose proof (us_lim _ _ _ _ _ U) as Hlim.
  destruct (Hok 0) as (p0 & Hp0 & _); [lia|]. rewrite Z.add_0_r in Hp0.
  destruct (page_for s fl root hi dstva p0 U) as (pa & Eup & Hpos & Hpa & Hnt & Hph); [lia|done|].
  pose proof (Z.mod_pos_bound dstva PGSIZE ltac:(pg)) as Hmod.
  assert (0 < m ≤ PGSIZE - dstva mod PGSIZE) as Hm by (unfold m, in_page_len; lia).
  cbn [copyout_loop]. destruct (Z.ltb_spec 0 len) as [_|]; [|lia].
  rewrite PGROUNDDOWN_sub by done. rewrite (bind_ok _ _ _ _ _ Eup).
  replace (dstva - (dstva - dstva mod PGSIZE)) with (dstva mod PGSIZE) by lia.
  rewrite in_page_len_eq. fold m. rewrite u64_small by pgd.
  rewrite (seq_ok _ _ _ _ (kmemmove_run (pa + dstva mod PGSIZE) src m s ltac:(lia) ltac:(lia))).
  destruct (write_frames s fl root hi (memmove (k_mem s) (pa + dstva mod PGSIZE) src m) U)
    as (U' & Hl & _).
  { intros q a Hq Ha. rewrite ld8_memmove, decide_False; [done| |lia]. intros Hin.
    eapply (frame_not_table s fl root pa q a); [apply U|done..| |done|done]. unfold in_page. lia. }
  eexists. split_and!; [done|done|auto with xv6|by autorewrite with kst|done|].
  split; autorewrite with kst.
  - intros i p Hi. rewrite Hph by lia. intros [=<-].
    rewrite ld8_memmove, decide_True by lia. f_equal. lia.
  - intros a Ha. rewrite ld8_memmove, decide_False; [done| |lia]. intros Hin.
    apply (Ha (a - (pa + dstva mod PGSIZE)) ltac:(lia)). rewrite Hph by lia. f_equal. lia.
Qed.

Lemma copyout_loop_run root hi fl (n : nat) : ∀ dstva src len s,
  user_ok s fl root 0 hi → 0 ≤ dstva → 0 ≤ len → (0 < len → dstva + len ≤ hi) → 0 < src →
  dstva mod PGSIZE + len ≤ n * PGSIZE → out_ok root dstva src len s →
  ∃ s', copyout_loop check_vmas (S n) root dstva src len s = Ok 0 s' ∧
    user_ok s' fl root 0 hi ∧ same_rest s s' ∧ k_kmem s' = k_kmem s ∧
    (∀ va, leaf (ent (k_mem s')) root va = leaf (ent (k_mem s)) root va) ∧
    copied_out root dstva src len s s'.
Proof.
  induction n as [|n IH]; intros dstva src len s U Hd Hlen Hhi Hsrc Hfuel Hok;
    pose proof (Z.mod_pos_bound dstva PGSIZE ltac:(pg)) as Hmod;
    destruct (decide (len = 0)) as [->|].
  1, 3: exists s; split_and!; [done|done|apply same_rest_refl|done|done|split; [intros; lia|done]].
  { pg. }
  destruct (copyout_iter (S n) root hi dstva src len s fl) as (s1 & E & U1 & R1 & K1 & L1 & Hin & Hout);
    [done|done|lia|lia|done|done|]. rewrite E. clear E. specialize (Hhi ltac:(lia)).
  set (m := in_page_len dstva len) in *. assert (0 < m ≤ len) by (unfold m, in_page_len; lia).
  assert (∀ i, m ≤ i < len → phys s1 root (dstva - dstva mod PGSIZE + PGSIZE + (i - m)) =
                            phys s root (dstva + i)) as Hph.
  { intros i Hi. rewrite (phys_ext s s1) by done. f_equal. unfold m, in_page_len in *. lia. }
  assert (∀ i, m ≤ i < len → ld8 (k_mem s1) (src + i) = ld8 (k_mem s) (src + i)) as Hsame.
  { intros i Hi. apply Hout. intros j Hj Hp. destruct (Hok j) as (p & Hp' & Hn); [lia|].
    rewrite Hp in Hp'. injection Hp' as <-. lia. }
  assert (0 < len - m → m = PGSIZE - dstva mod PGSIZE) as Hfull by (unfold m, in_page_len; lia).
  destruct (IH (dstva - dstva mod PGSIZE + PGSIZE) (src + m) (len - m) s1)
    as (s2 & E2 & U2 & R2 & K2 & L2 & Hin2 & Hout2); [done|pg|lia|pg|lia| | |].
  { unfold m, in_page_len in *. pgd. }
  { intros i Hi. destruct (Hok (i + m)) as (p & Hp & Hn); [lia|]. exists p. split; [|lia].
    rewrite <- Hp, <- Hph by lia. f_equal. lia. }
  exists s2. split_and!; [done|done|by eapply same_rest_trans|congruence|congruence|split].
  - intros i p Hi Hp. destruct (decide (i < m)).
    + rewrite Hout2; [apply Hin; [lia|done]|]. intros j Hj Hpj.
      replace j with (j + m - m) in Hpj by lia. rewrite Hph in Hpj by lia.
      assert (dstva + i = dstva + (j + m)); [|lia].
      eapply (phys_inj s fl root hi); [done|lia|lia|done|done].
    + rewrite <- Hsame by lia. rewrite (Hin2 (i - m) p); [f_equal; lia|lia|].
      by rewrite Hph by lia.
  - intros a Ha. rewrite Hout2, Hout; [done|intros; apply Ha; lia|].
    intros i Hi. replace i with (i + m - m) by lia. rewrite Hph by lia. apply Ha. lia.
Qed.


(** ** [copyin] *)

Definition copied_in (root dst srcva len : Z) (s s' : kstate) : Prop :=
  (∀ i p, 0 ≤ i < len → phys s root (srcva + i) = Some p → ld8 (k_mem s') (dst + i) = ld8 (k_mem s) p) ∧
  (∀ a, ¬ dst ≤ a < dst + len → ld8 (k_mem s') a = ld8 (k_mem s) a).

(** The kernel buffer [dst, dst + len) is no part of the user pages it is
    filled from, nor of their page table. *)
Definition buffer_ok (root dst srcva len : Z) (s : kstate) : Prop :=
  (∀ i p, 0 ≤ i < len → phys s root (srcva + i) = Some p → ¬ dst ≤ p < dst + len) ∧
  (∀ q a, is_table (ent (k_mem s)) root q → in_page q a → ¬ dst ≤ a < dst + len).

(** What a write to the buffer keeps. *)
Definition same_space (root hi : Z) (fl : list Z) (s s' : kstate) : Prop :=
  user_ok s' fl root 0 hi ∧ same_rest s s' ∧ k_kmem s' = k_kmem s ∧
  (∀ va, leaf (ent (k_mem s')) root va = leaf (ent (k_mem s)) root va) ∧
  (∀ p, is_table (ent (k_mem s')) root p ↔ is_table (ent (k_mem s)) root p).

Lemma same_space_refl root hi fl s : user_ok s fl root 0 hi → same_space root hi fl s s.
Proof. intros U. split_and!; [done|apply same_rest_refl|done..]. Qed.

Lemma same_space_trans root hi fl s1 s2 s3 :
  same_space root hi fl s1 s2 → same_space root hi fl s2 s3 → same_space root hi fl s1 s3.
Proof.
  intros (U1 & R1 & K1 & L1 & T1) (U2 & R2 & K2 & L2 & T2).
  split_and!; [done|by eapply same_rest_trans|congruence|congruence|].
  intros p. by rewrite T2, T1.
Qed.

Lemma same_space_write root hi fl s dst len m srcva :
  user_ok s fl root 0 hi → buffer_ok root dst srcva len s →
  (∀ a, ¬ dst ≤ a < dst + len → ld8 m a = ld8 (k_mem s) a) →
  same_space root hi fl s (set_mem m s).
Proof.
  intros U [_ Hb] Hm. destruct (write_frames s fl root hi m U) as (U' & Hl & Ht).
  - intros q a Hq Ha. apply Hm. by eapply Hb.
  - split_and!; [done|auto with xv6|by autorewrite with kst|done|done].
Qed.

(** The rest of the buffer after [m] bytes were copied. *)
Lemma buffer_ok_rest root hi fl dst srcva len m s s1 :
  buffer_ok root dst srcva len s → same_space root hi fl s s1 → 0 ≤ m ≤ len →
  buffer_ok root (dst + m) (srcva + m) (len - m) s1.
Proof.
  intros [H1 H2] (_ & _ & _ & Hl & Ht) Hm. split.
  - intros i p Hi. rewrite (phys_ext s s1) by done.
    intros Hp. replace (srcva + m + i) with (srcva + (m + i)) in Hp by lia.
    specialize (H1 (m + i) p ltac:(lia) Hp). lia.
  - intros q a Hq%Ht Ha. specialize (H2 q a Hq Ha). lia.
Qed.

Lemma copied_in_app root hi fl dst srcva m k s s1 s2 len :
  0 ≤ m → 0 ≤ k → m + k ≤ len → buffer_ok root dst srcva len s → same_space root hi fl s s1 →
  copied_in root dst srcva m s s1 → copied_in root (dst + m) (srcva + m) k s1 s2 →
  copied_in root dst srcva (m + k) s s2.
Proof.
  intros Hm Hk Hlen [Hb _] (_ & _ & _ & Hl & _) [I1 O1] [I2 O2]. split.
  - intros i p Hi Hp. destruct (decide (i < m)).
    + rewrite O2 by lia. apply I1; [lia|done].
    + replace (dst + i) with (dst + m + (i - m)) by lia. rewrite (I2 (i - m) p).
      * apply O1. specialize (Hb i p ltac:(lia) Hp). lia.
      * lia.
      * rewrite (phys_ext s s1) by done. rewrite <- Hp. f_equal. lia.
  - intros a Ha. rewrite O2, O1 by lia. done.
Qed.

Lemma copyin_iter (n : nat) root hi dst srcva len s fl :
  user_ok s fl root 0 hi → 0 ≤ srcva → 0 < len → srcva + len ≤ hi → 0 < dst →
  is_Some (phys s root srcva) → buffer_ok root dst srcva len s →
  let m := in_page_len srcva len in
  ∃ s', copyin_loop check_vmas (S n) root dst srcva len s =
          copyin_loop check_vmas n root (dst + m) (srcva - srcva mod PGSIZE + PGSIZE) (len - m) s' ∧
    same_space root hi fl s s' ∧ copied_in root dst srcva m s s'.
Proof.
  intros U Hd Hlen Hhi Hdst [p0 Hp0] Hb m. pose proof (us_lim _ _ _ _ _ U) as Hlim.
  destruct (page_for s fl root hi srcva p0 U) as (pa & Eup & Hpos & Hpa & Hnt & Hph); [lia|done|].
  pose proof (Z.mod_pos_bound srcva PGSIZE ltac:(pg)) as Hmod.
  assert (0 < m ≤ PGSIZE - srcva mod PGSIZE ∧ m ≤ len) as [Hm Hml] by (unfold m, in_page_len; lia).
  cbn [copyin_loop]. destruct (Z.ltb_spec 0 len) as [_|]; [|lia].
  rewrite PGROUNDDOWN_sub by done. rewrite (bind_ok _ _ _ _ _ Eup).
  replace (srcva - (srcva - srcva mod PGSIZE)) with (srcva mod PGSIZE) by lia.
  rewrite in_page_len_eq. fold m. rewrite u64_small by pgd.
  rewrite (seq_ok _ _ _ _ (kmemmove_run dst (pa + srcva mod PGSIZE) m s ltac:(lia) ltac:(lia))).
  eexists. split_and!; [done| |].
  - eapply same_space_write; [done|done|]. intros a Ha. rewrite ld8_memmove, decide_False by lia. done.
  - split; autorewrite with kst.
    + intros i p Hi. rewrite Hph by lia. intros [=<-].
      rewrite ld8_memmove, decide_True by lia. f_equal. lia.
    + intros a Ha. rewrite ld8_memmove, decide_False by lia. done.
Qed.

Lemma copyin_loop_run root hi fl (n : nat) : ∀ dst srcva len s,
  user_ok s fl root 0 hi → 0 ≤ srcva → 0 ≤ len → (0 < len → srcva + len ≤ hi) → 0 < dst →
  srcva mod PGSIZE + len ≤ n * PGSIZE → buffer_ok root dst srcva len s →
  (∀ i, 0 ≤ i < len → is_Some (phys s root (srcva + i))) →
  ∃ s', copyin_loop check_vmas (S n) root dst srcva len s = Ok 0 s' ∧
    same_space root hi fl s s' ∧ copied_in root dst srcva len s s'.
Proof.
  induction n as [|n IH]; intros dst srcva len s U Hd Hlen Hhi Hdst Hfuel Hb Hok;
    pose proof (Z.mod_pos_bound srcva PGSIZE ltac:(pg)) as Hmod;
    destruct (decide (len = 0)) as [->|].
  1, 3: exists s; split_and!; [done|by apply same_space_refl|split; [intros; lia|done]].
  { pg. }
  destruct (copyin_iter (S n) root hi dst srcva len s fl) as (s1 & E & S1 & C1);
    [done|done|lia|lia|done| |done|]. { rewrite <- (Z.add_0_r srcva). apply Hok. lia. }
  rewrite E. clear E. specialize (Hhi ltac:(lia)).
  set (m := in_page_len srcva len) in *. assert (0 < m ≤ len) by (unfold m, in_page_len; lia).
  assert (0 < len - m → srcva - srcva mod PGSIZE + PGSIZE = srcva + m) as Hfull
    by (unfold m, in_page_len; lia).
  pose proof (buffer_ok_rest root hi fl dst srcva len m s s1 Hb S1 ltac:(lia)) as Hb1.
  assert (0 < len - m → (srcva + m) mod PGSIZE + (len - m) ≤ n * PGSIZE) as Hfuel'
    by (unfold m, in_page_len in *; pgd).
  clearbody m. destruct (decide (len = m)) as [->|].
  { exists s1. rewrite Z.sub_diag. split_and!; [done|done|done]. }
  rewrite Hfull by lia.
  destruct (IH (dst + m) (srcva + m) (len - m) s1) as (s2 & E2 & S2 & C2);
    [apply S1|lia|lia|lia|lia|lia|done| |].
  { intros i Hi. rewrite (phys_ext s s1) by apply S1. rewrite <- Z.add_assoc. apply Hok. lia. }
  exists s2. split_and!; [done|by eapply same_space_trans|].
  replace len with (m + (len - m)) by lia. by eapply copied_in_app; eauto; lia.
Qed.

(** [copyin] of [len] bytes from mapped user memory returns 0 with the
    user bytes at [srcva ..], across page boundaries, in the kernel buffer at
    [dst]; nothing outside the buffer changes. *)
Theorem copyin_correct root hi fl dst srcva len s :
  user_ok s fl root 0 hi → 0 ≤ srcva → 0 ≤ len → srcva + len ≤ hi → 0 < dst →
  buffer_ok root dst srcva len s →
  (∀ i, 0 ≤ i < len → is_Some (phys s root (srcva + i))) →
  ∃ s', copyin check_vmas root dst srcva len s = Ok 0 s' ∧
    same_space root hi fl s s' ∧ copied_in root dst srcva len s s'.
Proof.
  intros U Hd Hlen Hhi Hsrc Hb Hok. apply copyin_loop_run; try done.
  pose proof (Z.mod_pos_bound srcva PGSIZE ltac:(pg)). pgd.
Qed.

(** ** [copyinstr] *)

(** [cnt] bytes at [p] are copied; the first NUL among them, if any, is the
    last one. *)
Definition str_copied (m m' : memory) (dst p cnt : Z) (nul : bool) : Prop :=
  (∀ a, ld8 m' a = if decide (dst ≤ a < dst + cnt) then ld8 m (p + (a - dst)) else ld8 m a) ∧
  (∀ i, 0 ≤ i < cnt - Z.b2z nul → ld8 m (p + i) ≠ 0) ∧
  (nul = true → 0 < cnt ∧ ld8 m (p + (cnt - 1)) = 0).

Lemma copystr_page_run (n : nat) : ∀ p dst s,
  (∀ a, p ≤ a < p + n → ¬ dst ≤ a < dst + n) →
  ∃ b cnt m', copystr_page n p dst s = Ok b (set_mem m' s) ∧ 0 ≤ cnt ≤ n ∧
    (b = false → cnt = n) ∧ str_copied (k_mem s) m' dst p cnt b.
Proof.
  induction n as [|n IH]; intros p dst s Hd.
  - exists false, 0, (k_mem s). split_and!; try done; [by destruct s|].
    split_and!; [|intros; simpl in *; lia|done]. intros a. by rewrite decide_False by lia.
  - cbn [copystr_page]. rewrite (bind_ok _ _ _ _ _ (eq_refl : gets _ s = Ok _ s)).
    destruct (Z.eqb_spec (ld8 (k_mem s) p) 0) as [E0|E0].
    + exists true, 1, (st8 (k_mem s) dst 0). split_and!; try done; [lia|].
      split_and!; [|intros; simpl in *; lia|intros _; split; [lia|by rewrite Z.add_0_r]].
      intros a. rewrite ld8_st8. destruct (decide (a = dst)) as [->|].
      * rewrite decide_True by lia. rewrite Z.sub_diag, Z.add_0_r, E0. done.
      * by rewrite decide_False by lia.
    + rewrite (seq_ok _ _ _ _ (eq_refl : modify _ s = Ok tt _)).
      destruct (IH (p + 1) (dst + 1) (set_mem (st8 (k_mem s) dst (ld8 (k_mem s) p)) s))
        as (b & cnt & m' & E & Hc & Hf & Hcp & Hnz & Hnul).
      { intros a Ha. specialize (Hd a). lia. }
      assert (∀ i, 0 ≤ i < n → ld8 (st8 (k_mem s) dst (ld8 (k_mem s) p)) (p + 1 + i) =
                              ld8 (k_mem s) (p + (i + 1))) as Hs.
      { intros i Hi. rewrite ld8_st8, decide_False; [f_equal; lia|].
        specialize (Hd (p + 1 + i)). lia. }
      autorewrite with kst in *.
      exists b, (cnt + 1), m'. rewrite E. autorewrite with kst. split_and!; [done|lia|lia|intros Hb; specialize (Hf Hb); lia|].
      assert (0 ≤ Z.b2z b ≤ 1) by (destruct b; simpl; lia).
      split_and!.
      * intros a. rewrite Hcp. destruct (decide (a = dst)) as [->|].
        { rewrite decide_False, decide_True by lia. rewrite ld8_st8, decide_True by done.
          rewrite Z.sub_diag, Z.add_0_r. apply u8_small. apply ld8_range. }
        destruct (decide (dst + 1 ≤ a < dst + 1 + cnt)).
        { rewrite decide_True by lia. rewrite Hs by lia. f_equal. lia. }
        rewrite decide_False by lia. by rewrite ld8_st8, decide_False.
      * intros i Hi. destruct (decide (i = 0)) as [->|]; [by rewrite Z.add_0_r|].
        replace i with (i - 1 + 1) by lia. rewrite <- Hs by lia. apply Hnz. lia.
      * intros Hb. destruct (Hnul Hb) as [Hpos Hz]. split; [lia|]. rewrite Hs in Hz by lia.
        rewrite <- Hz. f_equal. lia.
Qed.

(** The user byte at [va]. *)
Definition ubyte (s : kstate) (root va : Z) : Z :=
  match phys s root va with Some p => ld8 (k_mem s) p | None => 0 end.

(** The outcome of [copyinstr]: [cnt] bytes copied, ending with the first NUL
    (0) or, without a NUL among the first [max] bytes, at [max] (-1). *)
Definition copyinstr_post (root srcva max : Z) (s : kstate) (r cnt : Z) : Prop :=
  (r = 0 ∧ 0 < cnt ≤ max ∧ ubyte s root (srcva + cnt - 1) = 0 ∧
     ∀ i, 0 ≤ i < cnt - 1 → ubyte s root (srcva + i) ≠ 0) ∨
  (r = -1 ∧ cnt = max ∧ ∀ i, 0 ≤ i < max → ubyte s root (srcva + i) ≠ 0).

Lemma copyinstr_iter (n : nat) root hi dst srcva max s fl :
  user_ok s fl root 0 hi → 0 ≤ srcva → 0 < max → srcva < hi → 0 < dst →
  is_Some (phys s root srcva) → buffer_ok root dst srcva max s →
  let m := in_page_len srcva max in
  ∃ (b : bool) cnt s', copyinstr_loop check_vmas (S n) root dst srcva max s =
      (if b then Ok 0 s' else
        copyinstr_loop check_vmas n root (dst + m) (srcva - srcva mod PGSIZE + PGSIZE) (max - m) s') ∧
    same_space root hi fl s s' ∧ 0 ≤ cnt ≤ m ∧ (b = false → cnt = m) ∧
    copied_in root dst srcva cnt s s' ∧
    (∀ i, 0 ≤ i < cnt - Z.b2z b → ubyte s root (srcva + i) ≠ 0) ∧
    (b = true → 0 < cnt ∧ ubyte s root (srcva + cnt - 1) = 0).
Proof.
  intros U Hd Hlen Hhi Hdst [p0 Hp0] Hb m. pose proof (us_lim _ _ _ _ _ U) as Hlim.
  destruct (page_for s fl root hi srcva p0 U) as (pa & Eup & Hpos & Hpa & Hnt & Hph); [lia|done|].
  pose proof (Z.mod_pos_bound srcva PGSIZE ltac:(pg)) as Hmod.
  assert (0 < m ≤ PGSIZE - srcva mod PGSIZE ∧ m ≤ max) as [Hm Hml] by (unfold m, in_page_len; lia).
  cbn [copyinstr_loop]. destruct (Z.ltb_spec 0 max) as [_|]; [|lia].
  rewrite PGROUNDDOWN_sub by done. rewrite (bind_ok _ _ _ _ _ Eup).
  replace (srcva - (srcva - srcva mod PGSIZE)) with (srcva mod PGSIZE) by lia.
  rewrite in_page_len_eq. fold m. rewrite u64_small by pgd.
  destruct (copystr_page_run (Z.to_nat m) (pa + srcva mod PGSIZE) dst s)
    as (b & cnt & m' & E & Hc & Hf & Hcp & Hnz & Hnul).
  { intros a Ha. assert (phys s root (srcva + (a - (pa + srcva mod PGSIZE))) = Some a) as Hpa'
      by (rewrite Hph by lia; f_equal; lia).
    destruct Hb as [Hb _]. specialize (Hb (a - (pa + srcva mod PGSIZE)) a ltac:(lia) Hpa'). lia. }
  assert (∀ i, 0 ≤ i < m → ubyte s root (srcva + i) = ld8 (k_mem s) (pa + srcva mod PGSIZE + i)) as Hub.
  { intros i Hi. unfold ubyte. by rewrite Hph by lia. }
  rewrite (bind_ok _ _ _ _ _ E).
  exists b, cnt, (set_mem m' s). assert (0 ≤ Z.b2z b ≤ 1) by (destruct b; simpl; lia).
  split_and!; [by destruct b| |lia|lia|intros Hb'; rewrite (Hf Hb'); lia| | |].
  - eapply same_space_write; [done|done|]. intros a Ha. rewrite Hcp, decide_False by lia. done.
  - split; autorewrite with kst.
    + intros i p Hi. rewrite Hph by lia. intros [=<-].
      rewrite Hcp, decide_True by lia. f_equal. lia.
    + intros a Ha. rewrite Hcp, decide_False by lia. done.
  - intros i Hi. rewrite Hub by lia. by apply Hnz.
  - intros Hbt. destruct (Hnul Hbt) as [Hpos' Hz]. split; [done|].
    replace (srcva + cnt - 1) with (srcva + (cnt - 1)) by lia. by rewrite Hub by lia.
Qed.

(** Where the copy of a string that is mapped up to [lim] may stop. *)
Definition stops (root srcva max lim : Z) (s : kstate) : Prop :=
  lim = max ∨ 0 < lim ∧ ubyte s root (srcva + lim - 1) = 0.

Lemma stops_after root srcva max lim s k :
  stops root srcva max lim s → 0 ≤ k ≤ max → lim ≤ max →
  (∀ i, 0 ≤ i < k → ubyte s root (srcva + i) ≠ 0) → k ≤ lim ∧ (k = lim → lim = max).
Proof.
  intros [->|[Hpos Hz]] Hk Hl Hnz; [lia|].
  assert (k < lim); [|lia]. destruct (decide (k < lim)); [done|].
  replace (srcva + lim - 1) with (srcva + (lim - 1)) in Hz by lia.
  by destruct (Hnz (lim - 1)); [lia|].
Qed.

Lemma copyinstr_post_app root srcva max lim m s s1 r cnt :
  0 < m → 0 ≤ cnt → m + cnt ≤ lim ≤ max →
  (∀ i, m ≤ i < lim → ubyte s1 root (srcva + i) = ubyte s root (srcva + i)) →
  (∀ i, 0 ≤ i < m → ubyte s root (srcva + i) ≠ 0) →
  copyinstr_post root (srcva + m) (max - m) s1 r cnt → copyinstr_post root srcva max s r (m + cnt).
Proof.
  intros Hm Hc Hl Hub Hnz Hp.
  assert (∀ k, (∀ i, 0 ≤ i < k → ubyte s1 root (srcva + m + i) ≠ 0) → k ≤ lim - m →
            ∀ i, 0 ≤ i < m + k → ubyte s root (srcva + i) ≠ 0) as Hall.
  { intros k Hk Hkl i Hi. destruct (decide (i < m)); [apply Hnz; lia|].
    rewrite <- Hub by lia. replace (srcva + i) with (srcva + m + (i - m)) by lia. apply Hk. lia. }
  destruct Hp as [(-> & Hpos & Hz & Hn)|(-> & -> & Hn)]; [left|right]; split_and!; try done; try lia.
  - replace (srcva + (m + cnt) - 1) with (srcva + (m + cnt - 1)) by lia. rewrite <- Hub by lia.
    rewrite <- Hz. f_equal. lia.
  - intros i Hi. apply (Hall (cnt - 1)); [done|lia|lia].
  - intros i Hi. apply (Hall (max - m)); [done|lia|lia].
Qed.

Lemma ubyte_same root hi fl dst srcva max cnt s s1 i :
  buffer_ok root dst srcva max s → same_space root hi fl s s1 →
  copied_in root dst srcva cnt s s1 → 0 ≤ i < max → cnt ≤ max →
  ubyte s1 root (srcva + i) = ubyte s root (srcva + i).
Proof.
  intros [Hb _] S1 [_ C1] Hi Hc. unfold ubyte. rewrite (phys_ext s s1) by apply S1.
  destruct (phys s root (srcva + i)) as [p|] eqn:Hp; [|done]. apply C1.
  specialize (Hb i p ltac:(lia) Hp). lia.
Qed.

Lemma copyinstr_loop_run root hi fl (n : nat) : ∀ dst srcva max lim s,
  user_ok s fl root 0 hi → 0 ≤ srcva → 0 ≤ lim ≤ max → (0 < lim → srcva + lim ≤ hi) → 0 < dst →
  srcva mod PGSIZE + max ≤ n * PGSIZE → buffer_ok root dst srcva max s →
  (∀ i, 0 ≤ i < lim → is_Some (phys s root (srcva + i))) →
  stops root srcva max lim s →
  ∃ r cnt s', copyinstr_loop check_vmas (S n) root dst srcva max s = Ok r s' ∧
    same_space root hi fl s s' ∧ 0 ≤ cnt ≤ lim ∧ copied_in root dst srcva cnt s s' ∧
    copyinstr_post root srcva max s r cnt.
Proof.
  induction n as [|n IH]; intros dst srcva max lim s U Hd Hlim Hhi Hdst Hfuel Hb Hok Hstop;
    pose proof (Z.mod_pos_bound srcva PGSIZE ltac:(pg)) as Hmod;
    destruct (decide (max = 0)) as [->|].
  1, 3: exists (-1), 0, s; split_and!; [done|by apply same_space_refl|lia|lia|
    split; [intros; lia|done]|right; split_and!; [done|done|intros; lia]].
  { pg. }
  assert (0 < lim) as Hl0 by (destruct Hstop; lia).
  destruct (copyinstr_iter (S n) root hi dst srcva max s fl) as (b & cnt & s1 & E & S1 & Hc & Hf & C1 & Hnz & Hnul);
    [done|done|lia|lia|done| |done|]. { rewrite <- (Z.add_0_r srcva). apply Hok. lia. }
  rewrite E. clear E. destruct b.
  { destruct (Hnul eq_refl) as [Hpos Hz]. simpl in Hnz. unfold in_page_len in Hc.
    destruct (stops_after _ _ _ _ _ (cnt - 1) Hstop) as [? Hl1]; [lia|lia|done|].
    exists 0, cnt, s1. split_and!; [done|done|lia|lia|done|]. left. split_and!; [done|lia|lia|done|done]. }
  specialize (Hf eq_refl). simpl in Hnz. rewrite Z.sub_0_r in Hnz. subst cnt.
  set (m := in_page_len srcva max) in *. assert (0 < m ≤ max) by (unfold m, in_page_len; lia).
  assert (0 < max - m → srcva - srcva mod PGSIZE + PGSIZE = srcva + m) as Hfull
    by (unfold m, in_page_len; lia).
  assert (0 < max - m → (srcva + m) mod PGSIZE + (max - m) ≤ n * PGSIZE) as Hfuel'
    by (unfold m, in_page_len in *; pgd).
  pose proof (buffer_ok_rest root hi fl dst srcva max m s s1 Hb S1 ltac:(lia)) as Hb1.
  clearbody m. destruct (stops_after _ _ _ _ _ m Hstop) as [Hml Hmlim]; [lia|lia|done|].
  destruct (decide (max = m)) as [->|].
  { exists (-1), m, s1. rewrite Z.sub_diag. split_and!; [done|done|lia|lia|done|].
    right. split_and!; done. }
  assert (∀ i, m ≤ i < lim → ubyte s1 root (srcva + i) = ubyte s root (srcva + i)) as Hub
    by (intros; eapply ubyte_same; eauto; lia).
  rewrite Hfull by lia.
  destruct (IH (dst + m) (srcva + m) (max - m) (lim - m) s1) as (r & cnt & s2 & E2 & S2 & Hc2 & C2 & Hp);
    [apply S1|lia|lia|lia|lia|lia|done| | |].
  { intros i Hi. rewrite (phys_ext s s1) by apply S1. rewrite <- Z.add_assoc. apply Hok. lia. }
  { destruct Hstop as [->|[_ Hz]]; [by left|]. destruct (decide (lim = m)); [left; lia|].
    right. split; [lia|]. rewrite <- Hz.
    replace (srcva + m + (lim - m) - 1) with (srcva + (lim - 1)) by lia. rewrite Hub by lia. f_equal. lia. }
  exists r, (m + cnt), s2. split_and!; [done|by eapply same_space_trans|lia|lia| |].
  - by eapply (copied_in_app root hi fl dst srcva m cnt s s1 s2 max); [lia..| | | |].
  - by apply (copyinstr_post_app root srcva max lim m s s1); [lia..|done|done|].
Qed.

(** [copyinstr] copies a NUL-terminated user string.  With a NUL among
    the first [max] bytes it returns 0 and the buffer holds the string and its
    NUL; without one it returns -1 after [max] bytes.  Only pages up to the NUL
    need to be mapped, and at most [max] bytes of the buffer are written. *)
Theorem copyinstr_correct root hi fl dst srcva max lim s :
  user_ok s fl root 0 hi → 0 ≤ srcva → 0 ≤ lim ≤ max → srcva + lim ≤ hi → 0 < dst →
  buffer_ok root dst srcva max s →
  (∀ i, 0 ≤ i < lim → is_Some (phys s root (srcva + i))) →
  stops root srcva max lim s →
  ∃ r cnt s', copyinstr check_vmas root dst srcva max s = Ok r s' ∧
    same_space root hi fl s s' ∧ 0 ≤ cnt ≤ lim ∧ copied_in root dst srcva cnt s s' ∧
    copyinstr_post root srcva max s r cnt.
Proof.
  intros U Hd Hlen Hhi Hsrc Hb Hok Hs. eapply copyinstr_loop_run; try done.
  pose proof (Z.mod_pos_bound srcva PGSIZE ltac:(pg)). pgd.
Qed.
End copy.
End vmcopy.
