(* ===== verification/VmRun.v ===== *)
(** Address spaces on a concrete machine: RAM with eight free pages, the
    allocator initialised by [kinit] and a process with one page of memory.
    The theorems of [VmSpec], [VmUser] and [VmCopy] are applied to it. *)

From S2P Require Import Prelude Machine Str Types Kalloc Vm PageTable VmSpec VmUser VmCopy.

Section create.
Context `{L : Linker}.

(** A new, empty address space beside the others. *)
Lemma uvmcreate_run s c fl :
  free_pages s (c :: fl) →
  ∃ s', uvmcreate s = Ok c s' ∧ user_ok s' fl c 0 MAXVA ∧
    (∀ va, leaf (ent (k_mem s')) c va = None) ∧
    (∀ p, is_table (ent (k_mem s')) c p ↔ p = c) ∧
    (∀ old, vm_ok s (c :: fl) old →
       vm_ok s' fl old ∧ apart s' fl old c ∧ vm_step old s (c :: fl) s' fl ∧
       ∀ va, leaf (ent (k_mem s')) old va = leaf (ent (k_mem s)) old va).
Proof.
  intros Hf. pose proof Hf as (_ & Hnd & Hok). apply list.Forall_cons in Hok as [Hc _].
  apply list.NoDup_cons in Hnd as [Hcn _].
  pose proof (page_ok_pos c Hc). unfold uvmcreate.
  rewrite (bind_ok _ _ _ _ _ (kalloc_run_cons s c fl Hf)).
  destruct (Z.eqb_spec c 0) as [|_]; [lia|].
  rewrite (seq_ok _ _ _ _ (kmemset_run c 0 PGSIZE _ ltac:(lia))).
  set (s' := set_mem (memset (k_mem (allocated c s)) c 0 PGSIZE) (allocated c s)).
  assert (∀ i, 0 ≤ i < 512 → ent (k_mem s') c i = 0) as H0.
  { intros i Hi. unfold s'. autorewrite with kst. rewrite ent_memset0, decide_True by done. done. }
  assert (∀ va, tbl1 (ent (k_mem s')) c va = None) as H1.
  { intros va. unfold tbl1. by rewrite H0 by by apply PX_range. }
  assert (∀ va, tbl0 (ent (k_mem s')) c va = None) as H2.
  { intros va. unfold tbl0. by rewrite H1. }
  assert (∀ va, leaf (ent (k_mem s')) c va = None) as H3.
  { intros va. unfold leaf. by rewrite H2. }
  assert (∀ p, is_table (ent (k_mem s')) c p ↔ p = c) as Ht.
  { intros p. split; [|intros ->; by left]. intros [?|[[va Hv]|[va Hv]]]; [done|..]; congruence. }
  assert (free_pages s' fl) as Hf' by by apply free_pages_set_mem, allocated_free.
  assert (ref_of s' c = 1) as Hr.
  { unfold s', ref_of. rewrite k_kmem_set_mem. fold (ref_of (allocated c s) c).
    by rewrite ref_of_allocated, decide_True. }
  assert (∀ old, vm_ok s (c :: fl) old →
       vm_ok s' fl old ∧ apart s' fl old c ∧ vm_step old s (c :: fl) s' fl ∧
       ∀ va, leaf (ent (k_mem s')) old va = leaf (ent (k_mem s)) old va) as Hold.
  { intros old V.
    assert (∀ b, ¬ in_page c b → ld8 (memset (k_mem (allocated c s)) c 0 PGSIZE) b = ld8 (k_mem s) b) as Hb.
    { intros b Hbc. rewrite ld8_memset, decide_False by done. by apply allocated_mem. }
    destruct (fresh_vm s fl old c _ V Hb) as (V' & Hct & Hl & Htt).
    split_and!; [exact V'| |by apply fresh_step|intros; apply Hl].
    intros p Hp [Hz|Hz]; [by destruct (wf_page _ _ _ (vo_wf _ _ _ V') p Hp)|].
    apply Ht in Hz as ->. by apply Hct. }
  exists s'. split; [done|]. clearbody s'. split_and!; [|done..].
  split; [split|done| |].
  - done.
  - split; try (intros; congruence). intros p Hp. apply Ht in Hp as ->. done.
  - intros p Hp. by apply Ht in Hp as ->.
  - intros va e _. rewrite H3. by intros [=].
  - intros va va' e e' _ _. rewrite H3. by intros [=].
Qed.
End create.

(** The result and the final state of a run that returned. *)
Definition result {S A} (o : outcome S A) : option A := match o with Ok a _ => Some a | _ => None end.
Definition final {S A} (s0 : S) (o : outcome S A) : S := match o with Ok _ s => s | _ => s0 end.

#[local] Existing Instance small_linker.

Definition ex_boot : kstate := final kstate0 (kinit kstate0).
Definition ex_root : Z := pg 1.
Definition ex_empty : kstate := final kstate0 (uvmcreate ex_boot).
(** One page of memory at address 0. *)
Definition ex_user : kstate := final kstate0 (uvmalloc ex_root 0 PGSIZE PTE_W ex_empty).

Lemma ex_boot_free : free_pages ex_boot [pg 1; pg 2; pg 3; pg 4; pg 5; pg 6; pg 7; pg 8].
Proof.
  split_and!; [by vm_compute|apply (bool_decide_unpack _); by vm_compute|].
  repeat constructor; by vm_compute.
Qed.

Definition ex_fl : list Z := [pg 2; pg 3; pg 4; pg 5; pg 6; pg 7; pg 8].

Lemma ex_empty_ok :
  user_ok ex_empty ex_fl ex_root 0 MAXVA ∧
  (∀ va, leaf (ent (k_mem ex_empty)) ex_root va = None) ∧
  (∀ p, is_table (ent (k_mem ex_empty)) ex_root p ↔ p = ex_root).
Proof.
  destruct (uvmcreate_run ex_boot (pg 1) ex_fl ex_boot_free) as (s' & E & U & Hl & Ht & _).
  unfold ex_empty. rewrite E. exact (conj U (conj Hl Ht)).
Qed.

#[local] Opaque ex_boot ex_empty ex_user.

(** The process memory: page 0 is a zeroed frame. *)
Lemma ex_user_grown : ∃ fl,
  grown ex_root MAXVA 0 PGSIZE (Z.lor (Z.lor PTE_R PTE_U) PTE_W) ex_empty ex_fl ex_user fl.
Proof.
  destruct ex_empty_ok as (U & Hl & _).
  assert (grown ex_root MAXVA 0 0 (Z.lor (Z.lor PTE_R PTE_U) PTE_W) ex_empty ex_fl ex_empty ex_fl) as G.
  { split; [done|apply vm_step_refl|done|intros; lia]. }
  destruct (uvmalloc_loop_run ex_root MAXVA 0 PGSIZE PTE_W ex_empty ex_fl 1 0 ex_empty ex_fl U G)
    as (r & s' & fl & E & Hr); [done|done|done|by vm_compute|done|done|done|intros; apply Hl|].
  assert (uvmalloc ex_root 0 PGSIZE PTE_W ex_empty = Ok r s') as E' by exact E.
  assert (result (uvmalloc ex_root 0 PGSIZE PTE_W ex_empty) = Some PGSIZE) as R by by vm_compute.
  rewrite E' in R. injection R as ->.
  destruct Hr as [[_ Hg]|[[=] _]]. exists fl.
  Transparent ex_user. unfold ex_user. rewrite E'. exact Hg.
Qed.
#[local] Opaque ex_user.

(** ** The theorems at work *)

Lemma mappages_correct_witness :
  vm_ok ex_empty ex_fl ex_root ∧
  ∃ r s' (fl' : list Z) k, mappages ex_root 100 PGSIZE KERNBASE PTE_R ex_empty = Ok r s' ∧
    mapped (ent (k_mem ex_empty)) (ent (k_mem s')) ex_root 0 k KERNBASE PTE_R ∧
    (r = 0 ∧ k = 2 ∨ r = -1 ∧ fl' = [] ∧ 0 ≤ k < 2).
Proof.
  destruct ex_empty_ok as (U & Hl & _). split; [apply U|].
  destruct (mappages_correct ex_empty ex_fl ex_root 100 PGSIZE KERNBASE PTE_R)
    as (r & s' & fl' & k & E & _ & _ & Hm & Hr); [apply U|done..|by intros; apply Hl|].
  exists r, s', fl', k. exact (conj E (conj Hm Hr)).
Defined.

Lemma ex_user_leaf : ∃ fl p,
  user_ok ex_user fl ex_root 0 MAXVA ∧ p ∈ ex_fl ∧
  (∀ x, in_page p x → ld8 (k_mem ex_user) x = 0) ∧
  ∀ va, 0 ≤ va < PGSIZE →
    leaf (ent (k_mem ex_user)) ex_root va = Some (mk_pte p (Z.lor (Z.lor PTE_R PTE_U) PTE_W)).
Proof.
  destruct ex_user_grown as [fl [U _ _ Hn]]. destruct (Hn 0) as (p & Hp & Hin & Hz); [done|].
  exists fl, p. split_and!; [done..|]. intros va Hva. rewrite <- Hp.
  apply leaf_same_entry. apply same_entry_page; clear -Hva; pgd.
Qed.

(** Every byte of the page is a user byte in page [p]. *)
Lemma ex_user_phys : ∃ fl p,
  user_ok ex_user fl ex_root 0 MAXVA ∧ page_ok p ∧
  (∀ x, in_page p x → ld8 (k_mem ex_user) x = 0) ∧
  ∀ va, 0 ≤ va < PGSIZE → phys ex_user ex_root va = Some (p + va).
Proof.
  destruct ex_user_leaf as (fl & p & U & Hin & Hz & Hl). exists fl, p.
  assert (page_ok p) as Hp.
  { destruct ex_boot_free as (_ & _ & Hok). apply list.Forall_cons in Hok as [_ Hok].
    by eapply list.Forall_forall in Hok. }
  split_and!; [done..|]. intros va Hva. unfold phys. rewrite Hl by done. cbn [mbind option_bind].
  set (perm := Z.lor (Z.lor PTE_R PTE_U) PTE_W).
  destruct (mk_pte_frame p perm Hp) as [-> Hf]; [done|].
  unfold has. rewrite land_U_flags, Hf. replace (va mod PGSIZE) with va by pgd. done.
Qed.

Lemma mappages_remap_witness : ∃ fl e,
  vm_ok ex_user fl ex_root ∧ leaf (ent (k_mem ex_user)) ex_root (PGROUNDDOWN 0) = Some e ∧
  ∃ s', mappages ex_root 0 PGSIZE KERNBASE PTE_R ex_user = Stop (Panics "mappages: remap") s'.
Proof.
  destruct ex_user_leaf as (fl & p & U & _ & _ & Hl). eexists fl, _.
  split_and!; [apply U|by apply Hl|].
  eapply (mappages_remap ex_user fl); [apply U|done..|by apply Hl].
Defined.

Lemma walkaddr_correct_witness : ∃ fl,
  vm_ok ex_user fl ex_root ∧ walkaddr ex_root MAXVA ex_user = Ok 0 ex_user.
Proof.
  destruct ex_user_leaf as (fl & p & U & _). exists fl. split; [apply U|].
  exact (walkaddr_correct ex_user fl ex_root MAXVA (us_vm _ _ _ _ _ U) ltac:(by vm_compute)).
Defined.

Lemma uvmunmap_correct_witness : ∃ fl,
  user_ok ex_user fl ex_root 0 MAXVA ∧
  ∃ s' fl', uvmunmap ex_root 0 2 true ex_user = Ok tt s' ∧
    unmapped true ex_root 0 2 ex_user fl s' fl'.
Proof.
  destruct ex_user_leaf as (fl & p & U & _). exists fl. split; [done|].
  destruct (uvmunmap_correct true ex_root 0 MAXVA 0 2 ex_user fl U) as (s' & fl' & E & _ & Hu);
    [done..|]. exists s', fl'. exact (conj E Hu).
Defined.

Lemma uvmdealloc_correct_witness : ∃ fl,
  user_ok ex_user fl ex_root 0 MAXVA ∧
  ∃ s' fl', uvmdealloc ex_root PGSIZE 0 ex_user = Ok 0 s' ∧ user_ok s' fl' ex_root 0 MAXVA.
Proof.
  destruct ex_user_leaf as (fl & p & U & _). exists fl. split; [done|].
  pose proof (uvmdealloc_correct ex_root 0 MAXVA PGSIZE 0 ex_user fl U) as H.
  rewrite decide_True in H by done. destruct H as (s' & fl' & E & U' & _); [by vm_compute..|].
  exists s', fl'. exact (conj E U').
Defined.


(** A handler that finds no mapped region. *)
Definition no_vma (_ : Z) : K Z := mret (-1).

(** A buffer in the kernel image, below [end]. *)
Lemma kernel_buffer p : page_ok p → KERNBASE + PGSIZE ≤ p.
Proof. intros [_ [H _]]. revert H. unfold ld_end, small_linker, PHYSTOP, KERNBASE. pg. Qed.

Lemma ex_user_buffer srcva len :
  0 ≤ srcva → 0 ≤ len → srcva + len ≤ PGSIZE → buffer_ok ex_root KERNBASE srcva len ex_user.
Proof.
  intros Hs Hl Hle. destruct ex_user_phys as (fl & p & U & Hp & Hz & Hph).
  pose proof (kernel_buffer p Hp). split.
  - intros i q Hi. rewrite Hph by lia. intros [=<-]. pg.
  - intros q a Hq Ha. pose proof (kernel_buffer q (table_ok _ _ _ _ (us_vm _ _ _ _ _ U) Hq)).
    unfold in_page in Ha. pg.
Qed.


Lemma copyin_correct_witness : ∃ fl,
  user_ok ex_user fl ex_root 0 MAXVA ∧ buffer_ok ex_root KERNBASE 16 32 ex_user ∧
  ∃ s', copyin no_vma ex_root KERNBASE 16 32 ex_user = Ok 0 s' ∧
    copied_in ex_root KERNBASE 16 32 ex_user s'.
Proof.
  destruct ex_user_phys as (fl & p & U & Hp & Hz & Hph).
  pose proof (ex_user_buffer 16 32 ltac:(lia) ltac:(lia) ltac:(pg)) as Hb.
  exists fl. split; [exact U|]. split; [exact Hb|].
  destruct (copyin_correct no_vma ex_root MAXVA fl KERNBASE 16 32 ex_user U)
    as (s' & E & _ & C); [by vm_compute..|exact Hb|intros i Hi; eexists; apply Hph; pg|].
  exists s'. exact (conj E C).
Defined.

Lemma copyinstr_correct_witness : ∃ fl,
  user_ok ex_user fl ex_root 0 MAXVA ∧ stops ex_root 16 32 1 ex_user ∧
  ∃ r cnt s', copyinstr no_vma ex_root KERNBASE 16 32 ex_user = Ok r s' ∧
    copyinstr_post ex_root 16 32 ex_user r cnt.
Proof.
  destruct ex_user_phys as (fl & p & U & Hp & Hz & Hph).
  assert (stops ex_root 16 32 1 ex_user) as Hs.
  { right. split; [done|]. unfold ubyte. rewrite Hph by pg.
    apply Hz. unfold in_page. pg. }
  exists fl. split; [exact U|]. split; [exact Hs|].
  destruct (copyinstr_correct no_vma ex_root MAXVA fl KERNBASE 16 32 1 ex_user U)
    as (r & cnt & s' & E & _ & _ & _ & Hr);
    [by vm_compute..|apply ex_user_buffer; pg|intros i Hi; eexists; apply Hph; pg|exact Hs|].
  exists r, cnt, s'. exact (conj E Hr).
Defined.

(** The process and an empty child. *)
Definition ex_child : Z := pg 5.
Definition ex_forking : kstate := final kstate0 (uvmcreate ex_user).

Lemma ex_forking_ok : ∃ fl,
  vm_ok ex_forking fl ex_root ∧ user_ok ex_forking fl ex_child 0 MAXVA ∧
  apart ex_forking fl ex_root ex_child ∧ source_ok ex_forking fl ex_root ex_child PGSIZE ∧
  (∀ va, leaf (ent (k_mem ex_forking)) ex_child va = None) ∧
  ∃ e, leaf (ent (k_mem ex_forking)) ex_root 0 = Some e ∧ frame_ok ex_forking fl ex_root e ∧ has PTE_U e = true.
Proof.
  destruct ex_user_leaf as (fl & p & U & Hpin & _ & Hp). pose proof (vo_free _ _ _ (us_vm _ _ _ _ _ U)) as Hf.
  assert (∃ fl', fl = ex_child :: fl') as [fl' ->].
  { assert (result (kalloc ex_user) = Some ex_child) as R by by vm_compute.
    destruct fl as [|c fl']; [rewrite (kalloc_run_nil _ Hf) in R; by injection R|].
    rewrite (kalloc_run_cons _ _ _ Hf) in R. injection R as ->. by exists fl'. }
  destruct (uvmcreate_run ex_user ex_child fl' Hf) as (s' & E & U' & Hl & Ht & Ho).
  destruct (Ho ex_root (us_vm _ _ _ _ _ U)) as (V' & Hap & St & Hlo).
  assert (ex_forking = s') as Efs by (unfold ex_forking; by rewrite E).
  rewrite Efs. clear Efs E. exists fl'. split; [exact V'|]. split; [exact U'|]. split; [exact Hap|].
  split; [|split; [exact Hl|exists (mk_pte p (Z.lor (Z.lor PTE_R PTE_U) PTE_W)); split_and!]].
  2:{ rewrite Hlo. apply Hp. pg. }
  2:{ eapply frame_ok_step; [refine (us_frame _ _ _ _ _ U 0 _ _ (Hp 0 _)); pg|exact St]. }
  2:{ unfold ex_fl in Hpin. clear -Hpin.
      repeat (apply elem_of_cons in Hpin as [->|Hpin]; [vm_compute; exact eq_refl|]). by apply elem_of_nil in Hpin. }
  intros va e Hva. rewrite Hlo. intros He.
  destruct (us_frame _ _ _ _ _ U va e ltac:(pg) He) as (H1 & H2 & H3 & H4 & H5).
  split; [exact H1|]. split; [|exact H5]. intros [Hz|Hz].
  - apply H2, elem_of_cons. by right.
  - apply Ht in Hz. apply H2, elem_of_cons. by left.
Qed.

