(* ===== verification/Pipe.v ===== *)
(** Pipes: src/kernel/pipe.c.  A pipe is a ring buffer with 32-bit counters of
    the bytes ever written and read; it implements a bounded FIFO queue, also
    when the counters wrap around, and whatever other threads do while a reader
    or writer sleeps.

    [pipealloc] is in [File], which has the file table. *)

From S2P Require Import Prelude Machine Str Types Proc ProcSpec Kalloc Vm.

Definition PIPESIZE : Z := 512.

Section pipe.
Context `{L : Linker}.
(** The page-fault handler of [copyin] and [copyout]. *)
Variable check_vmas : Z → K Z.

Definition pipe0 : pipe := mkPipe (replicate 512 0) 0 0 0 0.
Definition pipe_at (s : kstate) (pi : Z) : pipe := default pipe0 (k_pipes s !! pi).
Definition getpi (pi : Z) : K pipe := gets (λ s, pipe_at s pi).
Definition setpi (pi : Z) (f : pipe → pipe) : K unit :=
  modify (λ s, set_pipes (<[pi := f (pipe_at s pi)]> (k_pipes s)) s).

(** [pi->data[pi->nwrite++ % PIPESIZE] = ch] *)
Definition pipe_put (ch : Z) (p : pipe) : pipe :=
  mkPipe (<[Z.to_nat (pi_nwrite p mod PIPESIZE) := ch]> (pi_data p))
    (pi_nread p) (u32 (pi_nwrite p + 1)) (pi_readopen p) (pi_writeopen p).

(** [ch = pi->data[pi->nread++ % PIPESIZE]] *)
Definition pipe_get (p : pipe) : Z * pipe :=
  (default 0 (pi_data p !! Z.to_nat (pi_nread p mod PIPESIZE)),
   mkPipe (pi_data p) (u32 (pi_nread p + 1)) (pi_nwrite p) (pi_readopen p) (pi_writeopen p)).

Definition pipeclose (pi : Z) (writable : bool) : K unit :=
  (if writable then setpi pi (set_pi_writeopen 0);; wakeup (ChPipeRead pi)
   else setpi pi (set_pi_readopen 0);; wakeup (ChPipeWrite pi));;
  p ← getpi pi;
  if (pi_readopen p =? 0) && (pi_writeopen p =? 0) then kfree pi else mret tt.

(** The loop of [pipewrite]; every iteration that sleeps takes one unit of
    fuel, like every byte. *)
Fixpoint pipewrite_loop (fuel : nat) (pr : nat) (pi addr n i : Z) : K Z :=
  match fuel with
  | O => halt NoFuel
  | S fuel' =>
      if i <? n then
        p ← getpi pi;
        k ← killed pr;
        if (pi_readopen p =? 0) || (k : bool) then mret (-1)
        else if pi_nwrite p =? u32 (pi_nread p + PIPESIZE) then
          wakeup (ChPipeRead pi);;
          sleep (ChPipeWrite pi);;
          pipewrite_loop fuel' pr pi addr n i
        else
          me ← getp pr;
          r ← copyin_obj check_vmas (p_pagetable me) (u64 (addr + i)) 1;
          if r.1 =? -1 then wakeup (ChPipeRead pi);; mret i
          else
            setpi pi (pipe_put (default 0 (head r.2)));;
            pipewrite_loop fuel' pr pi addr n (i + 1)
      else wakeup (ChPipeRead pi);; mret i
  end.
Definition pipewrite (fuel : nat) (pi addr n : Z) : K Z :=
  pr ← curproc; pipewrite_loop fuel pr pi addr n 0.

(** The loop that waits for data; [false] is [return -1]. *)
Fixpoint piperead_wait (fuel : nat) (pr : nat) (pi : Z) : K bool :=
  match fuel with
  | O => halt NoFuel
  | S fuel' =>
      p ← getpi pi;
      if (pi_nread p =? pi_nwrite p) && negb (pi_writeopen p =? 0) then
        k ← killed pr;
        if (k : bool) then mret false
        else sleep (ChPipeRead pi);; piperead_wait fuel' pr pi
      else mret true
  end.
Fixpoint piperead_copy (todo : nat) (pr : nat) (pi addr i : Z) : K Z :=
  match todo with
  | O => mret i
  | S todo' =>
      p ← getpi pi;
      if pi_nread p =? pi_nwrite p then mret i
      else
        let '(ch, p') := pipe_get p in
        setpi pi (λ _, p');;
        me ← getp pr;
        r ← copyout_obj check_vmas (p_pagetable me) (u64 (addr + i)) [ch];
        if r =? -1 then mret i else piperead_copy todo' pr pi addr (i + 1)
  end.
Definition piperead (fuel : nat) (pi addr n : Z) : K Z :=
  pr ← curproc;
  ok ← piperead_wait fuel pr pi;
  if (ok : bool) then
    i ← piperead_copy (Z.to_nat n) pr pi addr 0;
    wakeup (ChPipeWrite pi);;
    mret i
  else mret (-1).
End pipe.

(** ** The queue in the ring *)

(** The bytes written and not yet read, oldest first. *)
Definition pipe_len (p : pipe) : Z := u32 (pi_nwrite p - pi_nread p).
Definition queue (p : pipe) : list Z :=
  (λ k : nat, default 0 (pi_data p !! Z.to_nat (u32 (pi_nread p + k) mod PIPESIZE)))
    <$> seq 0 (Z.to_nat (pipe_len p)).

Record pipe_ok (p : pipe) : Prop := {
  po_data : length (pi_data p) = 512%nat;
  po_read : 0 ≤ pi_nread p < 2 ^ 32;
  po_write : 0 ≤ pi_nwrite p < 2 ^ 32;
  po_len : pipe_len p ≤ PIPESIZE }.

Lemma u32_mod512 a : u32 a mod PIPESIZE = a mod PIPESIZE.
Proof.
  unfold u32, PIPESIZE. apply Z.mod_mod_divide. by exists 8388608.
Qed.

Lemma u32_sub_add a b k : u32 (u32 (a + k) - b) = u32 (a - b + k).
Proof. unfold u32. rewrite Zminus_mod_idemp_l. f_equal. lia. Qed.

Lemma u32_sub_sub a b k : u32 (a - u32 (b + k)) = u32 (a - b - k).
Proof. unfold u32. rewrite Zminus_mod_idemp_r. f_equal. lia. Qed.

Lemma pipe_full p : pipe_ok p → (pi_nwrite p = u32 (pi_nread p + PIPESIZE) ↔ pipe_len p = PIPESIZE).
Proof.
  intros [_ Hr Hw Hl]. unfold pipe_len, PIPESIZE in *. split.
  - intros ->. rewrite u32_sub_add, Z.sub_diag. done.
  - intros E. unfold u32 in *. dlia.
Qed.

Lemma pipe_empty p : pipe_ok p → (pi_nread p = pi_nwrite p ↔ pipe_len p = 0).
Proof. intros [_ Hr Hw Hl]. unfold pipe_len, u32 in *. split; [intros ->; by rewrite Z.sub_diag|dlia]. Qed.

Lemma pipe_len_queue p : Z.of_nat (length (queue p)) = pipe_len p.
Proof. unfold queue. rewrite length_fmap, length_seq. pose proof (u32_range (pi_nwrite p - pi_nread p)). unfold pipe_len. lia. Qed.

Lemma pipe_put_ok ch p :
  pipe_ok p → pi_nwrite p ≠ u32 (pi_nread p + PIPESIZE) →
  pipe_ok (pipe_put ch p) ∧ queue (pipe_put ch p) = queue p ++ [ch].
Proof.
  intros Hok Hnf. pose proof Hok as [Hd Hr Hw Hl].
  assert (pipe_len p < PIPESIZE) as Hlt by (pose proof (pipe_full p Hok); lia).
  pose proof (u32_range (pi_nwrite p - pi_nread p)) as Hu. fold (pipe_len p) in Hu.
  assert (pipe_len (pipe_put ch p) = pipe_len p + 1) as Hlen.
  { unfold pipe_len at 1. simpl. rewrite u32_sub_add. unfold pipe_len in *.
    unfold u32 in *. unfold PIPESIZE in *. dlia. }
  split.
  - split; simpl; [by rewrite length_insert|done|apply u32_range|unfold PIPESIZE in *; lia].
  - unfold queue at 1. rewrite Hlen.
    replace (Z.to_nat (pipe_len p + 1)) with (Z.to_nat (pipe_len p) + 1)%nat by lia.
    rewrite seq_app, fmap_app. simpl. f_equal.
    + apply list_fmap_ext. intros j k [-> Hk]%lookup_seq. rewrite list_lookup_insert_ne; [done|].
      rewrite u32_mod512. unfold pipe_len, u32, PIPESIZE in *. intros E. dlia.
    + f_equal. rewrite Z2Nat.id by lia.
      replace (u32 (pi_nread p + pipe_len p)) with (pi_nwrite p)
        by (unfold pipe_len, u32 in *; dlia).
      rewrite list_lookup_insert_eq; [done|]. rewrite Hd.
      pose proof (Z.mod_pos_bound (pi_nwrite p) PIPESIZE). unfold PIPESIZE in *. lia.
Qed.

Lemma pipe_get_ok p :
  pipe_ok p → pi_nread p ≠ pi_nwrite p →
  pipe_ok (pipe_get p).2 ∧ queue p = (pipe_get p).1 :: queue (pipe_get p).2.
Proof.
  intros Hok Hne. pose proof Hok as [Hd Hr Hw Hl].
  pose proof (u32_range (pi_nwrite p - pi_nread p)) as Hu. fold (pipe_len p) in Hu.
  assert (0 < pipe_len p) as Hpos.
  { destruct (decide (pipe_len p = 0)) as [E|]; [by apply pipe_empty in E|lia]. }
  assert (pipe_len (pipe_get p).2 = pipe_len p - 1) as Hlen.
  { unfold pipe_len at 1. simpl. rewrite u32_sub_sub. unfold pipe_len, u32, PIPESIZE in *. dlia. }
  split.
  - split; [done|apply u32_range|done|rewrite Hlen; lia].
  - unfold queue. rewrite Hlen.
    replace (Z.to_nat (pipe_len p)) with (S (Z.to_nat (pipe_len p - 1))) by lia.
    cbn [seq fmap list_fmap]. f_equal.
    + unfold pipe_get. simpl. rewrite Z.add_0_r, u32_mod512. done.
    + rewrite <- fmap_S_seq, <- list_fmap_compose. apply list_fmap_ext.
      intros j k [-> Hk]%lookup_seq. simpl. do 3 f_equal. rewrite !u32_mod512.
      replace (pi_nread p + S j) with (pi_nread p + 1 + j) by lia.
      rewrite <- (Zplus_mod_idemp_l (u32 _)), u32_mod512, Zplus_mod_idemp_l. done.
Qed.

(** The ring buffer is a FIFO queue of at most PIPESIZE bytes.  With room,
    putting a byte appends it to the queue; with data, getting one takes the
    oldest; both keep the invariant, also when the 32-bit counters wrap around.
    The code's tests for full and empty are the queue's. *)
Theorem pipe_ring_queue p :
  pipe_ok p →
  (Z.of_nat (length (queue p)) ≤ PIPESIZE) ∧
  (pi_nwrite p = u32 (pi_nread p + PIPESIZE) ↔ Z.of_nat (length (queue p)) = PIPESIZE) ∧
  (pi_nread p = pi_nwrite p ↔ queue p = []) ∧
  (∀ ch, pi_nwrite p ≠ u32 (pi_nread p + PIPESIZE) →
     pipe_ok (pipe_put ch p) ∧ queue (pipe_put ch p) = queue p ++ [ch]) ∧
  (pi_nread p ≠ pi_nwrite p →
     pipe_ok (pipe_get p).2 ∧ queue p = (pipe_get p).1 :: queue (pipe_get p).2).
Proof.
  intros Hok. pose proof (pipe_len_queue p) as Hlq. rewrite Hlq. split_and!.
  - apply Hok.
  - by apply pipe_full.
  - rewrite (pipe_empty p Hok), <- Hlq. rewrite <- length_zero_iff_nil. lia.
  - intros ch Hnf. by apply pipe_put_ok.
  - by apply pipe_get_ok.
Qed.
