(* ===== verification/PipeSpec.v ===== *)
(** Readers and writers of a pipe under interleaving: what [pipewrite] and
    [piperead] do to the queue between the points where they give the CPU away,
    for any behaviour of the other threads in between. *)

From S2P Require Import Prelude Machine Str Types Proc ProcSpec Kalloc Vm PageTable VmSpec VmUser.
From S2P Require Import VmCopy VmRun Pipe.

Section pipespec.
Context `{L : Linker}.
Variable check_vmas : Z → K Z.

Lemma ld_bytes_1 m a : ld_bytes m a 1 = [ld8 m a].
Proof. done. Qed.

(** Reading one mapped user byte. *)
Lemma copyin_obj_1 s fl root hi va p :
  user_ok s fl root 0 hi → 0 ≤ va < hi → phys s root va = Some p →
  copyin_obj check_vmas root va 1 s = Ok (0, [ld8 (k_mem s) p]) s.
Proof.
  intros U Hva Hp. pose proof (us_lim _ _ _ _ _ U) as Hlim.
  destruct (page_for check_vmas s fl root hi va p U Hva Hp) as (pa & E & Hpos & Hok & Hnt & Hph).
  pose proof (Z.mod_pos_bound va PGSIZE ltac:(pg)) as Hm.
  assert (p = pa + va mod PGSIZE) as ->.
  { specialize (Hph 0 ltac:(pg)). rewrite Z.add_0_r, Z.add_0_r, Hp in Hph. by injection Hph. }
  unfold copyin_obj. change (Z.to_nat (1 / PGSIZE + 1)) with 1%nat. cbn [copyin_obj_loop].
  change (0 <? 1) with true. cbv iota. rewrite (PGROUNDDOWN_sub va) by lia.
  rewrite (bind_ok _ _ _ _ _ E).
  replace (va - (va - va mod PGSIZE)) with (va mod PGSIZE) by lia.
  replace (if PGSIZE - va mod PGSIZE >? 1 then 1 else PGSIZE - va mod PGSIZE) with 1
    by (destruct (Z.gtb_spec (PGSIZE - va mod PGSIZE) 1); lia).
  rewrite (bind_ok _ _ _ _ _ (eq_refl : gets _ s = Ok _ s)). done.
Qed.

(** ** Writers *)

(** Thread [pr] runs, and the user bytes at [addr] are [src]. *)
Record writer (pr : nat) (pi addr : Z) (src : list Z) (s : kstate) : Prop := {
  wr_cur : k_cur s = Some pr;
  wr_procs : length (k_procs s) = NPROC;
  wr_pr : (pr < NPROC)%nat;
  wr_pipe : pipe_ok (pipe_at s pi);
  wr_buf : ∃ fl hi, user_ok s fl (p_pagetable (proc_at s pr)) 0 hi ∧ 0 ≤ addr ∧
    addr + length src ≤ hi ∧
    ∀ (i : nat) b, src !! i = Some b →
      ∃ p, phys s (p_pagetable (proc_at s pr)) (addr + i) = Some p ∧ ld8 (k_mem s) p = b }.

(** Every segment of the run appends the next bytes of [src] to the queue it
    finds, whatever the other threads did while the writer was off the CPU;
    [i] counts the bytes written so far.  A run that returns has written all of
    [src] and returns their number, or returns -1 because the read end is closed
    or the writer was killed. *)
Fixpoint appends (pr : nat) (pi addr : Z) (buf src : list Z) (i : Z) (q0 : list Z)
    (o : outcome kstate Z) : Prop :=
  match o with
  | Ok r s1 => ∃ j, queue (pipe_at s1 pi) = q0 ++ take j src ∧
      (r = i + length src ∧ (length src ≤ j)%nat ∨
       r = -1 ∧ (pi_readopen (pipe_at s1 pi) = 0 ∨ p_killed (proc_at s1 pr) ≠ 0))
  | Stop w _ => w = NoFuel
  | Switch s1 k => ∃ j : nat, queue (pipe_at s1 pi) = q0 ++ take j src ∧ (j ≤ length src)%nat ∧
      ∀ s', writer pr pi addr buf s' →
        appends pr pi addr buf (drop j src) (i + j) (queue (pipe_at s' pi)) (k s')
  end.

Lemma appends_cons pr pi addr buf b src i q0 o :
  appends pr pi addr buf src (i + 1) (q0 ++ [b]) o → appends pr pi addr buf (b :: src) i q0 o.
Proof.
  destruct o as [r s1|w s1|s1 k]; simpl; [| done |].
  - intros (j & Hq & Hr). exists (S j). rewrite <- app_assoc in Hq. split; [done|].
    destruct Hr as [[-> ?]|?]; [left; split; lia|by right].
  - intros (j & Hq & Hj & Hk). exists (S j). rewrite <- app_assoc in Hq. split_and!; [done|lia|].
    intros s' Hs'. simpl. replace (i + S j) with (i + 1 + j) by lia. by apply Hk.
Qed.

(** Changes that a writer's environment survives. *)
Lemma writer_procs pr pi addr src s ps :
  writer pr pi addr src s → length ps = NPROC →
  p_pagetable (proc_at (set_procs ps s) pr) = p_pagetable (proc_at s pr) →
  writer pr pi addr src (set_procs ps s).
Proof.
  intros [H1 H2 H3 H4 (fl & hi & U & H5)] Hlen Hpt. split; [done|done|done|done|]. rewrite Hpt.
  exists fl, hi. split; [by apply (user_ok_ext s)|done].
Qed.

Lemma writer_pipe pr pi addr src s p :
  writer pr pi addr src s → pipe_ok p →
  writer pr pi addr src (set_pipes (<[pi := p]> (k_pipes s)) s).
Proof.
  intros [H1 H2 H3 H4 (fl & hi & U & H5)] Hok. split; [done|done|done| |].
  - unfold pipe_at. simpl. by rewrite lookup_insert_eq.
  - exists fl, hi. split; [by apply (user_ok_ext s)|done].
Qed.

Lemma writer_wakeup pr pi addr src s ch :
  writer pr pi addr src s →
  ∃ s', wakeup ch s = Ok tt s' ∧ writer pr pi addr src s' ∧ pipe_at s' pi = pipe_at s pi ∧
    k_procs s' !! pr = k_procs s !! pr.
Proof.
  intros W. destruct (wakeup_run ch s (wr_procs _ _ _ _ _ W)) as (ps & E & Hlen & Hps).
  assert (ps !! pr = k_procs s !! pr) as Hpr.
  { rewrite Hps. destruct (k_procs s !! pr) as [p|]; [|done]. simpl. unfold woken.
    rewrite decide_False; [done|]. intros [Hc _]. by rewrite (wr_cur _ _ _ _ _ W) in Hc. }
  exists (set_procs ps s). split_and!; [done| |done|done].
  apply writer_procs; [done..|]. unfold proc_at. simpl. by rewrite Hpr.
Qed.

Lemma writer_sleep pr pi addr src s ch :
  writer pr pi addr src s →
  ∃ s1 k, sleep ch s = Switch s1 k ∧ pipe_at s1 pi = pipe_at s pi ∧
    ∀ s', writer pr pi addr src s' →
      ∃ s'', k s' = Ok tt s'' ∧ writer pr pi addr src s'' ∧ pipe_at s'' pi = pipe_at s' pi.
Proof.
  intros W. destruct (lookup_lt_is_Some_2 (k_procs s) pr) as [p Hp].
  { rewrite (wr_procs _ _ _ _ _ W). apply W. }
  rewrite (sleep_run ch pr s p (wr_cur _ _ _ _ _ W) Hp). eexists _, _. split_and!; [done|done|].
  intros s' W'. eexists. split_and!; [done| |done]. apply writer_procs; [done| |].
  - rewrite length_alter. apply W'.
  - unfold proc_at. simpl. rewrite list_lookup_alter_eq. by destruct (k_procs s' !! pr).
Qed.

Lemma pipewrite_loop_appends pr pi addr buf (fuel : nat) : ∀ (i : nat) s,
  writer pr pi addr buf s → (i ≤ length buf)%nat → addr + length buf < 2 ^ 64 →
  appends pr pi addr buf (drop i buf) i (queue (pipe_at s pi))
    (pipewrite_loop check_vmas fuel pr pi addr (length buf) i s).
Proof.
  induction fuel as [|fuel IH]; intros i s W Hi Hmax; [done|]. cbn [pipewrite_loop].
  destruct (Z.ltb_spec i (length buf)) as [Hlt|].
  2: { destruct (writer_wakeup _ _ _ _ s (ChPipeRead pi) W) as (s1 & E & _ & Hpi & _).
       rewrite (seq_ok _ _ _ _ E). simpl. exists O. rewrite Hpi, drop_ge, app_nil_r by lia.
       split; [done|]. left. simpl. split; lia. }
  rewrite (bind_ok _ _ _ _ _ (eq_refl : getpi pi s = Ok (pipe_at s pi) s)).
  rewrite (bind_ok _ _ _ _ _ (eq_refl : killed pr s = Ok _ s)).
  destruct ((pi_readopen (pipe_at s pi) =? 0) || negb (p_killed (proc_at s pr) =? 0)) eqn:Hcl.
  { simpl. exists O. rewrite app_nil_r. split; [done|]. right. split; [done|].
    apply orb_true_iff in Hcl as [Hc|Hc]; [left; by apply Z.eqb_eq|right].
    by apply negb_true_iff, Z.eqb_neq in Hc. }
  destruct (Z.eqb_spec (pi_nwrite (pipe_at s pi)) (u32 (pi_nread (pipe_at s pi) + PIPESIZE))) as [Hf|Hf].
  - destruct (writer_wakeup _ _ _ _ s (ChPipeRead pi) W) as (s1 & E & W1 & Hpi & _).
    rewrite (seq_ok _ _ _ _ E).
    destruct (writer_sleep _ _ _ _ s1 (ChPipeWrite pi) W1) as (s2 & k & E2 & Hpi2 & Hk).
    unfold mbind, M_bind. rewrite E2. cbn [obind]. exists O. rewrite Hpi2, Hpi, app_nil_r.
    split_and!; [done|lia|]. intros s' W'. destruct (Hk s' W') as (s'' & E3 & W3 & Hpi3).
    rewrite E3. cbn [obind]. rewrite <- Hpi3, drop_0, Z.add_0_r. by apply IH.
  - rewrite (bind_ok _ _ _ _ _ (eq_refl : getp pr s = Ok (proc_at s pr) s)).
    destruct (wr_buf _ _ _ _ _ W) as (fl & hi & U & Ha & Hhi & Hb).
    destruct (lookup_lt_is_Some_2 buf i) as [b Hbi]; [lia|].
    destruct (Hb i b Hbi) as (p & Hp & Hpb).
    rewrite u64_small by lia.
    rewrite (bind_ok _ _ _ _ _ (copyin_obj_1 s fl _ hi (addr + i) p U ltac:(lia) Hp)).
    cbn [fst snd]. change (0 =? -1) with false. cbv iota. rewrite Hpb. cbn [head default].
    destruct (pipe_put_ok b _ (wr_pipe _ _ _ _ _ W) Hf) as [Hok Hq].
    rewrite (seq_ok _ _ _ _ (eq_refl : setpi pi _ s = Ok tt _)).
    rewrite (drop_S _ _ _ Hbi). apply appends_cons. rewrite <- Hq.
    replace (Z.of_nat i + 1) with (Z.of_nat (S i)) by lia.
    specialize (IH (S i) _ (writer_pipe _ _ _ _ _ _ W Hok) ltac:(lia) Hmax).
    unfold pipe_at in IH at 1. simpl in IH. rewrite lookup_insert_eq in IH. exact IH.
Qed.

(** C23: [pipewrite] under concurrency.  For any interleaving, the bytes a
    writer adds to the pipe are its buffer's bytes, in order and without gaps:
    each stretch of its execution appends the next ones to the queue it finds,
    and when it returns it has appended all of them and returns their number,
    unless the read end was closed or the writer killed. *)
Theorem pipewrite_appends pr pi addr buf fuel s :
  writer pr pi addr buf s → addr + length buf < 2 ^ 64 →
  appends pr pi addr buf buf 0 (queue (pipe_at s pi))
    (pipewrite check_vmas fuel pi addr (length buf) s).
Proof.
  intros W Hmax. unfold pipewrite, curproc, myproc.
  rewrite (bind_ok _ _ s pr s).
  - apply (pipewrite_loop_appends pr pi addr buf fuel 0 s W); [lia|done].
  - unfold mbind, M_bind, gets. cbn [obind]. by rewrite (wr_cur _ _ _ _ _ W).
Qed.

(** With room for the whole buffer a writer does not wait. *)
Lemma pipewrite_loop_room pr pi addr buf (fuel : nat) : ∀ (i : nat) s,
  writer pr pi addr buf s → (i ≤ length buf)%nat → addr + length buf < 2 ^ 64 →
  pi_readopen (pipe_at s pi) ≠ 0 → p_killed (proc_at s pr) = 0 →
  length (queue (pipe_at s pi)) + (length buf - i) ≤ PIPESIZE → (length buf - i < fuel)%nat →
  ∃ s', pipewrite_loop check_vmas fuel pr pi addr (length buf) i s = Ok (Z.of_nat (length buf)) s' ∧
    queue (pipe_at s' pi) = queue (pipe_at s pi) ++ drop i buf.
Proof.
  induction fuel as [|fuel IH]; intros i s W Hi Hmax Hro Hk Hroom Hfuel; [lia|]. cbn [pipewrite_loop].
  destruct (Z.ltb_spec i (length buf)) as [Hlt|].
  2: { destruct (writer_wakeup _ _ _ _ s (ChPipeRead pi) W) as (s1 & E & _ & Hpi & _).
       rewrite (seq_ok _ _ _ _ E). exists s1. rewrite Hpi, drop_ge, app_nil_r by lia.
       replace i with (length buf) by lia. done. }
  rewrite (bind_ok _ _ _ _ _ (eq_refl : getpi pi s = Ok (pipe_at s pi) s)).
  rewrite (bind_ok _ _ _ _ _ (eq_refl : killed pr s = Ok _ s)). rewrite Hk.
  destruct (Z.eqb_spec (pi_readopen (pipe_at s pi)) 0); [done|]. cbn [orb negb Z.eqb].
  destruct (Z.eqb_spec (pi_nwrite (pipe_at s pi)) (u32 (pi_nread (pipe_at s pi) + PIPESIZE))) as [Hf|Hf].
  { apply (pipe_full _ (wr_pipe _ _ _ _ _ W)) in Hf. rewrite pipe_len_queue in Hroom. lia. }
  rewrite (bind_ok _ _ _ _ _ (eq_refl : getp pr s = Ok (proc_at s pr) s)).
  destruct (wr_buf _ _ _ _ _ W) as (fl & hi & U & Ha & Hhi & Hb).
  destruct (lookup_lt_is_Some_2 buf i) as [b Hbi]; [lia|].
  destruct (Hb i b Hbi) as (p & Hp & Hpb). rewrite u64_small by lia.
  rewrite (bind_ok _ _ _ _ _ (copyin_obj_1 s fl _ hi (addr + i) p U ltac:(lia) Hp)).
  cbn [fst snd]. change (0 =? -1) with false. cbv iota. rewrite Hpb. cbn [head default].
  destruct (pipe_put_ok b _ (wr_pipe _ _ _ _ _ W) Hf) as [Hok Hq].
  rewrite (seq_ok _ _ _ _ (eq_refl : setpi pi _ s = Ok tt _)).
  set (s1 := set_pipes _ s). assert (pipe_at s1 pi = pipe_put b (pipe_at s pi)) as Hp1.
  { unfold s1, pipe_at. simpl. by rewrite lookup_insert_eq. }
  destruct (IH (S i) s1 (writer_pipe _ _ _ _ _ _ W Hok)) as (s' & E & Hq'); try done; try lia.
  - by rewrite Hp1.
  - rewrite Hp1, Hq, length_app. simpl. lia.
  - exists s'. replace (Z.of_nat i + 1) with (Z.of_nat (S i)) by lia. split; [done|].
    by rewrite Hq', Hp1, Hq, <- app_assoc, (drop_S _ _ _ Hbi).
Qed.

(** A writer whose bytes fit into the pipe, with the read end open, returns
    their number without giving up the CPU, and the queue has them at its end. *)
Theorem pipewrite_room pr pi addr buf fuel s :
  writer pr pi addr buf s → addr + length buf < 2 ^ 64 →
  pi_readopen (pipe_at s pi) ≠ 0 → p_killed (proc_at s pr) = 0 →
  length (queue (pipe_at s pi)) + length buf ≤ PIPESIZE → (length buf < fuel)%nat →
  ∃ s', pipewrite check_vmas fuel pi addr (length buf) s = Ok (Z.of_nat (length buf)) s' ∧
    queue (pipe_at s' pi) = queue (pipe_at s pi) ++ buf.
Proof.
  intros W Hmax Hro Hk Hroom Hfuel. unfold pipewrite, curproc, myproc.
  rewrite (bind_ok _ _ s pr s).
  - apply (pipewrite_loop_room pr pi addr buf fuel 0 s W); done || lia.
  - unfold mbind, M_bind, gets. cbn [obind]. by rewrite (wr_cur _ _ _ _ _ W).
Qed.

(** ** Readers *)

(** Writing one mapped user byte. *)
Lemma copyout_obj_1 s fl root hi va p ch :
  user_ok s fl root 0 hi → 0 ≤ va < hi → phys s root va = Some p →
  copyout_obj check_vmas root va [ch] s = Ok 0 (set_mem (st8 (k_mem s) p ch) s) ∧
  user_ok (set_mem (st8 (k_mem s) p ch) s) fl root 0 hi ∧
  (∀ va', phys (set_mem (st8 (k_mem s) p ch) s) root va' = phys s root va').
Proof.
  intros U Hva Hp. pose proof (us_lim _ _ _ _ _ U) as Hlim.
  destruct (page_for check_vmas s fl root hi va p U Hva Hp) as (pa & E & Hpos & Hok & Hnt & Hph).
  pose proof (Z.mod_pos_bound va PGSIZE ltac:(pg)) as Hm.
  assert (p = pa + va mod PGSIZE) as ->.
  { specialize (Hph 0 ltac:(pg)). rewrite Z.add_0_r, Z.add_0_r, Hp in Hph. by injection Hph. }
  split.
  - unfold copyout_obj. change (length [ch]) with 1%nat. change (Z.to_nat (1%nat / PGSIZE + 1)) with 1%nat.
    cbn [copyout_obj_loop]. change (length [ch]) with 1%nat. change (0 <? 1%nat) with true. cbv iota zeta.
    rewrite (PGROUNDDOWN_sub va) by lia. rewrite (bind_ok _ _ _ _ _ E).
    replace (va - (va - va mod PGSIZE)) with (va mod PGSIZE) by lia.
    replace (if PGSIZE - va mod PGSIZE >? 1%nat then Z.of_nat 1 else PGSIZE - va mod PGSIZE) with 1
      by (destruct (Z.gtb_spec (PGSIZE - va mod PGSIZE) 1%nat); lia).
    rewrite (seq_ok _ _ _ _ (eq_refl : modify _ s = Ok tt _)). done.
  - destruct (write_frames s fl root hi (st8 (k_mem s) (pa + va mod PGSIZE) ch) U) as (U' & Hl & _).
    { intros q a Hq Ha. rewrite ld8_st8, decide_False; [done|]. intros ->.
      eapply (frame_not_table s fl root pa q); [apply U|done|done| |done|done]. unfold in_page. pg. }
    split; [done|]. intros va'. by apply phys_ext.
Qed.

(** Thread [pr] runs, and the [n] user bytes at [addr] are mapped. *)
Record reader (pr : nat) (pi addr : Z) (n : nat) (s : kstate) : Prop := {
  rd_cur : k_cur s = Some pr;
  rd_procs : length (k_procs s) = NPROC;
  rd_pr : (pr < NPROC)%nat;
  rd_pipe : pipe_ok (pipe_at s pi);
  rd_buf : ∃ fl hi, user_ok s fl (p_pagetable (proc_at s pr)) 0 hi ∧ 0 ≤ addr ∧ addr + n ≤ hi ∧
    ∀ i, 0 ≤ i < n → is_Some (phys s (p_pagetable (proc_at s pr)) (addr + i)) }.

(** The reader's buffer holds [bs] from position [i] on. *)
Definition received (pr : nat) (addr i : Z) (bs : list Z) (s : kstate) : Prop :=
  ∀ (j : nat) b, bs !! j = Some b → 0 ≤ b < 256 →
    ubyte s (p_pagetable (proc_at s pr)) (addr + i + j) = b.

(** One byte from the pipe to the buffer. *)
Lemma reader_byte pr pi addr n s i ch p' :
  reader pr pi addr n s → 0 ≤ i < n → pipe_ok p' →
  let s1 := set_pipes (<[pi := p']> (k_pipes s)) s in
  ∃ p, phys s (p_pagetable (proc_at s pr)) (addr + i) = Some p ∧
    copyout_obj check_vmas (p_pagetable (proc_at s1 pr)) (addr + i) [ch] s1 =
      Ok 0 (set_mem (st8 (k_mem s) p ch) s1) ∧
    reader pr pi addr n (set_mem (st8 (k_mem s) p ch) s1) ∧
    (∀ va', phys (set_mem (st8 (k_mem s) p ch) s1) (p_pagetable (proc_at s pr)) va' =
            phys s (p_pagetable (proc_at s pr)) va').
Proof.
  intros [H1 H2 H3 H4 (fl & hi & U & Ha & Hhi & Hb)] Hi Hok s1.
  destruct (Hb i Hi) as [p Hp]. exists p.
  assert (user_ok s1 fl (p_pagetable (proc_at s pr)) 0 hi) as U1 by by apply (user_ok_ext s).
  destruct (copyout_obj_1 s1 fl (p_pagetable (proc_at s pr)) hi (addr + i) p ch U1) as (E & U2 & Hph);
    [lia|done|].
  split_and!; [done|exact E| |exact Hph]. split; [done|done|done| |].
  - unfold pipe_at, s1. simpl. by rewrite lookup_insert_eq.
  - exists fl, hi. split_and!; [exact U2|done|done|]. intros j Hj.
    change (is_Some (phys (set_mem (st8 (k_mem s1) p ch) s1) (p_pagetable (proc_at s pr)) (addr + j))).
    rewrite Hph. apply Hb. lia.
Qed.

Lemma piperead_copy_run pr pi addr (n todo : nat) : ∀ (i : nat) s,
  reader pr pi addr n s → (i + todo = n)%nat → addr + n < 2 ^ 64 →
  Forall (λ b, 0 ≤ b < 256) (queue (pipe_at s pi)) →
  let q := queue (pipe_at s pi) in
  let bs := take todo q in
  ∃ s', piperead_copy check_vmas todo pr pi addr i s = Ok (Z.of_nat (i + length bs)%nat) s' ∧
    queue (pipe_at s' pi) = drop (length bs) q ∧ received pr addr i bs s' ∧
    (∀ a, (∀ k, 0 ≤ k < todo → phys s (p_pagetable (proc_at s pr)) (addr + i + k) ≠ Some a) →
       ld8 (k_mem s') a = ld8 (k_mem s) a) ∧
    (∀ va, phys s' (p_pagetable (proc_at s pr)) va = phys s (p_pagetable (proc_at s pr)) va) ∧
    k_procs s' = k_procs s ∧ reader pr pi addr n s'.
Proof.
  induction todo as [|todo IH]; intros i s R Hn Hmax Hq q bs.
  - exists s. split_and!; [by rewrite Nat.add_0_r|done| |done..]. by intros j b ?.
  - cbn [piperead_copy]. rewrite (bind_ok _ _ _ _ _ (eq_refl : getpi pi s = Ok (pipe_at s pi) s)).
    destruct (Z.eqb_spec (pi_nread (pipe_at s pi)) (pi_nwrite (pipe_at s pi))) as [He|He].
    + assert (q = []) as Hq0.
      { unfold q. apply length_zero_iff_nil. apply (pipe_empty _ (rd_pipe _ _ _ _ _ R)) in He.
        rewrite <- pipe_len_queue in He. lia. }
      exists s. unfold bs. rewrite Hq0. simpl. split_and!; [by rewrite Nat.add_0_r|done| |done..].
      by intros j b ?.
    + destruct (pipe_get_ok _ (rd_pipe _ _ _ _ _ R) He) as [Hok Hqg].
      destruct (pipe_get (pipe_at s pi)) as [ch p'] eqn:Hg. simpl in Hok, Hqg.
      rewrite (seq_ok _ _ _ _ (eq_refl : setpi pi (λ _, p') s = Ok tt _)).
      set (s1 := set_pipes (<[pi := p']> (k_pipes s)) s).
      rewrite (bind_ok _ _ _ _ _ (eq_refl : getp pr s1 = Ok (proc_at s1 pr) s1)).
      rewrite u64_small by (destruct (rd_buf _ _ _ _ _ R) as (? & ? & ? & ? & _); lia).
      destruct (reader_byte pr pi addr n s i ch p' R ltac:(lia) Hok) as (p & Hp & E & R2 & Hph).
      rewrite (bind_ok _ _ _ _ _ E). change (0 =? -1) with false. cbv iota.
      set (s2 := set_mem (st8 (k_mem s) p ch) s1) in *.
      assert (pipe_at s2 pi = p') as Hp2 by (unfold pipe_at, s2, s1; simpl; by rewrite lookup_insert_eq).
      assert (q = ch :: queue p') as Hqq by exact Hqg.
      rewrite <- Hp2 in Hqq. unfold bs. rewrite Hqq. fold q in Hq. rewrite Hqq in Hq.
      apply list.Forall_cons in Hq as [Hch Hq].
      destruct (IH (S i) s2 R2 ltac:(lia) Hmax Hq) as (s' & E' & Hq' & Hrec & Hout & Hph' & Hpr & R').
      exists s'. replace (Z.of_nat i + 1) with (Z.of_nat (S i)) by lia. fold s1. fold s2. rewrite E'. cbn [take length drop].
      split_and!; [do 2 f_equal; lia|done| | |by intros va; rewrite Hph', Hph|done|done].
      * intros [|j] b; simpl.
        { intros [=<-] Hb. rewrite Z.add_0_r. unfold ubyte.
          replace (p_pagetable (proc_at s' pr)) with (p_pagetable (proc_at s pr))
            by (unfold proc_at; by rewrite Hpr).
          change (proc_at s2 pr) with (proc_at s pr) in *. rewrite Hph', Hph, Hp.
          rewrite Hout; [simpl; by rewrite ld8_st8, decide_True, u8_small|].
          intros k Hk. rewrite Hph. intros Hpk.
          destruct (rd_buf _ _ _ _ _ R) as (fl & hi & U & Ha & Hhi & _).
          assert (addr + S i + k = addr + i); [|lia].
          eapply (phys_inj s fl _ hi); [exact U|lia|lia|done|done]. }
        intros Hj Hb. rewrite <- (Hrec j b Hj Hb). f_equal. lia.
      * intros a Ha. rewrite Hout.
        { simpl. rewrite ld8_st8, decide_False; [done|]. intros ->.
          apply (Ha 0 ltac:(lia)). by rewrite Z.add_0_r. }
        intros k Hk. change (proc_at s2 pr) with (proc_at s pr). rewrite Hph.
        replace (addr + S i + k) with (addr + i + (k + 1)) by lia. apply Ha. lia.
Qed.

(** What a run of [piperead] does: while it waits it changes nothing in the
    pipe; when it returns [r], it has taken the first [r] bytes off the queue it
    found and put them, in order, into the buffer, as many as there were up to
    [n]; 0 only with the write end closed, and -1 only when killed. *)
Fixpoint reads (pr : nat) (pi addr : Z) (n : nat) (s0 : kstate) (o : outcome kstate Z) : Prop :=
  let q0 := queue (pipe_at s0 pi) in
  match o with
  | Ok r s1 =>
      (r = -1 ∧ queue (pipe_at s1 pi) = q0 ∧ p_killed (proc_at s0 pr) ≠ 0) ∨
      (r = Z.of_nat (length (take n q0)) ∧ queue (pipe_at s1 pi) = drop (length (take n q0)) q0 ∧
       received pr addr 0 (take n q0) s1 ∧ (q0 = [] → pi_writeopen (pipe_at s0 pi) = 0))
  | Stop w _ => w = NoFuel
  | Switch s1 k => queue (pipe_at s1 pi) = q0 ∧
      ∀ s', reader pr pi addr n s' → Forall (λ b, 0 ≤ b < 256) (queue (pipe_at s' pi)) →
        reads pr pi addr n s' (k s')
  end.

Lemma reader_procs pr pi addr n s ps :
  reader pr pi addr n s → length ps = NPROC →
  p_pagetable (proc_at (set_procs ps s) pr) = p_pagetable (proc_at s pr) →
  reader pr pi addr n (set_procs ps s).
Proof.
  intros [H1 H2 H3 H4 (fl & hi & U & H5)] Hlen Hpt. split; [done|done|done|done|]. rewrite Hpt.
  exists fl, hi. split; [by apply (user_ok_ext s)|done].
Qed.

(** The end of [piperead], after the wait. *)
Lemma piperead_finish pr pi addr n s :
  reader pr pi addr n s → addr + n < 2 ^ 64 →
  Forall (λ b, 0 ≤ b < 256) (queue (pipe_at s pi)) →
  let bs := take n (queue (pipe_at s pi)) in
  ∃ s', (i ← piperead_copy check_vmas n pr pi addr 0; wakeup (ChPipeWrite pi);; mret i) s =
      Ok (Z.of_nat (length bs)) s' ∧
    queue (pipe_at s' pi) = drop (length bs) (queue (pipe_at s pi)) ∧ received pr addr 0 bs s'.
Proof.
  intros R Hmax Hq bs.
  destruct (piperead_copy_run pr pi addr n n 0 s R eq_refl Hmax Hq)
    as (s1 & E & Hq1 & Hrec & _ & _ & _ & R1). rewrite (bind_ok _ _ _ _ _ E).
  destruct (wakeup_run (ChPipeWrite pi) s1 (rd_procs _ _ _ _ _ R1)) as (ps & Ew & Hlen & Hps).
  rewrite (seq_ok _ _ _ _ Ew). eexists. split_and!; [done|done|].
  intros j b Hj Hb. rewrite <- (Hrec j b Hj Hb).
  assert (p_pagetable (proc_at (set_procs ps s1) pr) = p_pagetable (proc_at s1 pr)) as ->; [|done].
  unfold proc_at. simpl. rewrite Hps. destruct (k_procs s1 !! pr) as [p|]; [|done]. simpl.
  unfold woken. by case_decide.
Qed.

(** The waiting loop, seen from the state [s0] it was last resumed in. *)
Fixpoint waits (pr : nat) (pi addr : Z) (n : nat) (s0 : kstate) (o : outcome kstate bool) : Prop :=
  match o with
  | Ok ok s1 => reader pr pi addr n s1 ∧ pipe_at s1 pi = pipe_at s0 pi ∧
      (if ok then queue (pipe_at s0 pi) = [] → pi_writeopen (pipe_at s0 pi) = 0
       else p_killed (proc_at s0 pr) ≠ 0)
  | Stop w _ => w = NoFuel
  | Switch s1 k => pipe_at s1 pi = pipe_at s0 pi ∧
      ∀ s', reader pr pi addr n s' → waits pr pi addr n s' (k s')
  end.

Lemma piperead_waits pr pi addr n (fuel : nat) : ∀ s0 s,
  reader pr pi addr n s → pipe_at s pi = pipe_at s0 pi →
  p_killed (proc_at s pr) = p_killed (proc_at s0 pr) →
  waits pr pi addr n s0 (piperead_wait fuel pr pi s).
Proof.
  induction fuel as [|fuel IH]; intros s0 s R Hpi Hk; [done|]. cbn [piperead_wait].
  rewrite (bind_ok _ _ _ _ _ (eq_refl : getpi pi s = Ok (pipe_at s pi) s)).
  pose proof (pipe_empty _ (rd_pipe _ _ _ _ _ R)) as He. rewrite <- pipe_len_queue in He.
  destruct (_ && _) eqn:Hw.
  - rewrite (bind_ok _ _ _ _ _ (eq_refl : killed pr s = Ok _ s)).
    destruct (Z.eqb_spec (p_killed (proc_at s pr)) 0) as [Hk0|Hk0]; cbn [negb].
    + destruct (lookup_lt_is_Some_2 (k_procs s) pr) as [p Hp]; [rewrite (rd_procs _ _ _ _ _ R); apply R|].
      unfold mbind, M_bind. rewrite (sleep_run _ pr s p (rd_cur _ _ _ _ _ R) Hp). cbn [obind].
      split; [done|]. intros s' R'.
      assert (∀ f, proc_at (set_procs (alter f pr (k_procs s')) s') pr =
                   default proc0 (f <$> k_procs s' !! pr)) as Hat.
      { intros f. unfold proc_at. simpl. by rewrite list_lookup_alter_eq. }
      apply IH; [apply reader_procs; [done|rewrite length_alter; apply R'|]|done|];
        rewrite Hat; unfold proc_at; by destruct (k_procs s' !! pr).
    + simpl. split_and!; [done|done|congruence].
  - simpl. split_and!; [done|done|]. rewrite <- Hpi. intros Hq0. rewrite Hq0 in He.
    apply andb_false_iff in Hw as [Hw|Hw].
    + apply Z.eqb_neq in Hw. destruct Hw. by apply He.
    + by apply negb_false_iff, Z.eqb_eq in Hw.
Qed.

Lemma waits_reads pr pi addr (n : nat) s0 o :
  addr + n < 2 ^ 64 → waits pr pi addr n s0 o →
  Forall (λ b, 0 ≤ b < 256) (queue (pipe_at s0 pi)) →
  reads pr pi addr n s0 (obind o (λ ok : bool,
    (if ok then i ← piperead_copy check_vmas n pr pi addr 0; wakeup (ChPipeWrite pi);; mret i
     else mret (-1)) : K Z)).
Proof.
  intros Hmax. revert s0. induction o as [ok s1|w s1|s1 k IH]; intros s0 Hw Hq; cbn [obind].
  - destruct Hw as (R & Hpi & Hok). destruct ok.
    + rewrite <- Hpi in Hq. destruct (piperead_finish pr pi addr n s1 R Hmax Hq) as (s' & E & Hq' & Hrec).
      rewrite E. right. rewrite Hpi in *. done.
    + left. simpl. rewrite Hpi. done.
  - done.
  - destruct Hw as [Hpi Hw]. simpl. rewrite Hpi. split; [done|].
    intros s' R' Hq'. apply IH; [by apply Hw|done].
Qed.

End pipespec.

(** ** A thread with a page of memory at both ends of a pipe *)

#[local] Existing Instance small_linker.
#[local] Opaque ex_user.

Definition ex_pi : Z := 4096.
Definition with_pipe (s : kstate) : kstate :=
  set_pipes {[ex_pi := pipe_put 8 (pipe_put 7 (set_pi_readopen 1 (set_pi_writeopen 1 pipe0)))]}
    (set_cur (Some 0%nat) (set_procs (set_pagetable ex_root proc0 :: replicate 63 proc0) s)).
Definition ex_pipe : kstate := with_pipe ex_user.

Lemma with_pipe_user s fl root lo hi : user_ok s fl root lo hi → user_ok (with_pipe s) fl root lo hi.
Proof. by apply user_ok_ext. Qed.

Lemma with_pipe_phys s va :
  phys (with_pipe s) (p_pagetable (proc_at (with_pipe s) 0)) va = phys s ex_root va.
Proof. done. Qed.

Lemma with_pipe_mem s : k_mem (with_pipe s) = k_mem s.
Proof. done. Qed.

Lemma with_pipe_pipe s : pipe_at (with_pipe s) ex_pi = pipe_put 8 (pipe_put 7 (set_pi_readopen 1 (set_pi_writeopen 1 pipe0))).
Proof. done. Qed.

Lemma ex_pipe_ok : pipe_ok (pipe_at ex_pipe ex_pi).
Proof. split; by vm_compute. Qed.

Lemma ex_pipe_writer : writer 0 ex_pi 10 [0; 0; 0] ex_pipe.
Proof.
  destruct ex_user_phys as (fl & p & U & Hok & Hz & Hph).
  split; [done|done|unfold NPROC; lia|apply ex_pipe_ok|].
  exists fl, MAXVA. split_and!; [exact (with_pipe_user _ _ _ _ _ U)|lia|by vm_compute|].
  intros i b Hi. pose proof (lookup_lt_Some _ _ _ Hi) as Hlen. simpl in Hlen.
  exists (p + (10 + i)). unfold ex_pipe. rewrite with_pipe_phys.
  split; [apply Hph; clear -Hlen; pg|].
  rewrite with_pipe_mem, Hz by (clear -Hlen; unfold in_page; pg).
  by destruct i as [|[|[|]]]; simplify_eq/=.
Qed.

Lemma ex_pipe_reader : reader 0 ex_pi 10 3 ex_pipe.
Proof.
  destruct ex_user_phys as (fl & p & U & Hok & Hz & Hph).
  split; [done|done|unfold NPROC; lia|apply ex_pipe_ok|].
  exists fl, MAXVA. split_and!; [exact (with_pipe_user _ _ _ _ _ U)|lia|by vm_compute|].
  intros i Hi. unfold ex_pipe. rewrite with_pipe_phys. exists (p + (10 + i)).
  apply Hph. clear -Hi. pg.
Qed.

Lemma pipe_ring_queue_witness :
  queue (pipe_at ex_pipe ex_pi) = [7; 8] ∧ (pipe_get (pipe_at ex_pipe ex_pi)).1 = 7.
Proof.
  assert (queue (pipe_at ex_pipe ex_pi) = [7; 8]) as E by by vm_compute. split; [exact E|].
  destruct (pipe_ring_queue _ ex_pipe_ok) as (_ & _ & _ & _ & H).
  destruct H as [_ H]; [by vm_compute|]. rewrite E in H. congruence.
Defined.

Lemma pipewrite_appends_witness :
  appends 0 ex_pi 10 [0; 0; 0] [0; 0; 0] 0 [7; 8] (pipewrite (λ _, mret 0) 10 ex_pi 10 3 ex_pipe).
Proof.
  replace [7; 8] with (queue (pipe_at ex_pipe ex_pi)) by by (unfold ex_pipe; rewrite with_pipe_pipe).
  apply (pipewrite_appends (λ _, mret 0) 0 ex_pi 10 [0; 0; 0] 10 ex_pipe ex_pipe_writer). simpl; lia.
Defined.

Lemma pipewrite_room_witness :
  ∃ s', pipewrite (λ _, mret 0) 10 ex_pi 10 3 ex_pipe = Ok 3 s' ∧
    queue (pipe_at s' ex_pi) = [7; 8; 0; 0; 0].
Proof.
  apply (pipewrite_room (λ _, mret 0) 0 ex_pi 10 [0; 0; 0] 10 ex_pipe ex_pipe_writer);
    [simpl; lia|by vm_compute|by vm_compute|by vm_compute|simpl; lia].
Defined.

