(* ===== verification/Vma.v ===== *)
(** Demand paging: regions of the address space whose pages are read from a file
    at the first access ([allocPhysicalVMA] in src/kernel/trap.c), copy on write
    of pages shared with [fork], and the handler [check_vmas] (src/kernel/vm.c)
    that the kernel's copies from and to user memory call for a missing page.
    With the handler defined, [either_copyout] and [either_copyin]
    (src/kernel/proc.c) close the circle between [readi] and the user copies. *)

From S2P Require Import Prelude Machine Str Types Proc ProcSpec Rely Sleeplock Kalloc Vm Bio Bytes Log Fs.

(** ** fcntl.h *)

Definition O_RDONLY : Z := 0x000.
Definition O_WRONLY : Z := 0x001.
Definition O_RDWR : Z := 0x002.
Definition O_CREATE : Z := 0x200.
Definition O_TRUNC : Z := 0x400.
Definition PROT_READ : Z := 0x001.
Definition PROT_WRITE : Z := 0x002.
Definition PROT_RW : Z := 0x003.
Definition PROT_EXEC : Z := 0x006.
Definition MAP_SHARED : Z := 0x004.
Definition MAP_PRIVATE : Z := 0x005.
Definition MAP_FAILED : Z := u64 (-1).

(** A [struct vma *]: the text or data region of a process, or an element of the
    global table [vmas]. *)
Inductive vref : Type := VText (p : nat) | VData (p : nat) | VTable (j : nat).

Definition vma_at (s : kstate) (v : vref) : vma :=
  match v with
  | VText p => p_text (proc_at s p)
  | VData p => p_data (proc_at s p)
  | VTable j => default vma0 (k_vmas s !! j)
  end.
Definition getv (v : vref) : K vma := gets (λ s, vma_at s v).
Definition setv (v : vref) (f : vma → vma) : K unit :=
  match v with
  | VText p => setp p (λ x, set_ptext (f (p_text x)) x)
  | VData p => setp p (λ x, set_pdata (f (p_data x)) x)
  | VTable j => modify (λ s, set_kvmas (alter f j (k_vmas s)) s)
  end.

(** [addr >= v->addr && addr < v->addr + v->size] on 64-bit numbers. *)
Definition in_vma (addr : Z) (v : vma) : bool :=
  (addr >=? v_addr v) && (addr <? u64 (v_addr v + v_size v)).

(** The page permissions of a mapping; the [switch] on [prot]. *)
Definition vma_prot (prot : Z) : Z :=
  if prot =? PROT_READ then PTE_R
  else if prot =? PROT_WRITE then PTE_W
  else if prot =? PROT_RW then Z.lor PTE_R PTE_W
  else 0.

(** A read or write through a page-table entry pointer that may be null. *)
Definition load_pte (pte : Z) : K Z := if pte =? 0 then fault else load64 pte.
Definition store_pte (pte v : Z) : K unit := if pte =? 0 then fault else store64 pte v.

Section vma.
Context `{L : Linker} `{D : Disk} `{W : Waits}.

Definition allocPhysicalVMA (vr : vref) (p : nat) (addr prot : Z) : K unit :=
  phy_addr ← kalloc;
  when (phy_addr =? 0) (setkilled p);;
  kmemset phy_addr 0 PGSIZE;;
  v ← getv vr;
  ilock (v_ip v);;
  v ← getv vr;
  let last := PGROUNDDOWN (u64 (v_addr v + v_filesize v)) in
  (if last >=? PGROUNDDOWN addr then
     let size := if last =? PGROUNDDOWN addr
                 then s32 (v_filesize v - PGROUNDDOWN (u64 (addr - v_addr v))) else PGSIZE in
     match v_ip v with
     | None => fault
     | Some ip =>
         r ← readi to_kernel ip phy_addr (u32 (PGROUNDDOWN (u64 (addr - v_addr v)) + v_offset v))
               (u32 size) tt;
         when (r.1 <? 0) (setkilled p)
     end
   else mret tt);;
  setp p (λ x, set_page_faults (s32 (p_page_faults x + 1)) x);;
  v ← getv vr;
  iunlock (v_ip v);;
  x ← getp p;
  r ← mappages (p_pagetable x) (PGROUNDDOWN addr) PGSIZE phy_addr prot;
  when (r <? 0) (kfree phy_addr;; setkilled p).

(** The mapped regions of process [p], in order. *)
Definition find_vma (p : nat) (addr : Z) : K (option nat) :=
  x ← getp p;
  for_ret (p_vmas x) (λ o,
    match o with
    | None => mret None
    | Some j => v ← getv (VTable j); mret (if in_vma addr v then Some j else None)
    end).

(** A write to a page of a mapping: a page with other references is copied, the
    last reference becomes writable. *)
Definition cow_fault (p : nat) (addr phy : Z) : K unit :=
  r ← getref phy;
  let ref := s32 r in
  x ← getp p;
  when (ref >? 1)
    (new_phy ← kalloc;
     when (new_phy =? 0) (setkilled p);;
     kmemmove new_phy phy PGSIZE;;
     pte ← walk (p_pagetable x) addr false;
     e ← load_pte pte;
     store_pte pte (Z.land e (u64 (Z.lnot PTE_V)));;
     e ← load_pte pte;
     r ← mappages (p_pagetable x) (PGROUNDDOWN addr) PGSIZE new_phy (Z.lor (PTE_FLAGS e) PTE_W);
     when (r <? 0) (kfree new_phy;; setkilled p);;
     decref phy);;
  when (ref =? 1)
    (pte ← walk (p_pagetable x) addr false;
     e ← load_pte pte;
     store_pte pte (Z.lor e PTE_W)).

(** A missing page of a mapping. *)
Definition map_fault (p : nat) (addr : Z) : K bool :=
  r ← find_vma p addr;
  match r with
  | None => mret false
  | Some j =>
      v ← getv (VTable j);
      allocPhysicalVMA (VTable j) p addr (Z.lor (vma_prot (v_prot v)) PTE_U);;
      mret true
  end.

Definition check_vmas (addr : Z) : K Z :=
  p ← curproc;
  x ← getp p;
  if in_vma addr (p_text x) then
    allocPhysicalVMA (VText p) p addr (Z.lor (Z.lor PTE_R PTE_X) PTE_U);; mret 0
  else if in_vma addr (p_data x) then
    allocPhysicalVMA (VData p) p addr (Z.lor (Z.lor PTE_R PTE_W) PTE_U);; mret 0
  else
    phy ← walkaddr (p_pagetable x) addr;
    cow ← (if phy =? 0 then mret false else r ← find_vma p addr; mret (bool_decide (is_Some r)));
    solved ← (if (cow : bool) then cow_fault p addr phy;; mret true else map_fault p addr);
    if (solved : bool) then mret 0 else mret (-1).

(** ** The ends of the copies of [readi] and [writei] *)

(** The current process's page table. *)
Definition my_pagetable : K Z := i ← curproc; p ← getp i; mret (p_pagetable p).

Definition either_copyout (user_dst : bool) (dst : Z) (src : list Z) (acc : unit) : K (Z * unit) :=
  if user_dst then
    pt ← my_pagetable;
    r ← copyout_obj check_vmas pt dst src;
    mret (r, tt)
  else to_kernel dst src acc.

Definition either_copyin (user_src : bool) (src len : Z) : K (Z * list Z) :=
  if user_src then pt ← my_pagetable; copyin_obj check_vmas pt src len
  else from_kernel src len.
End vma.
