(* ===== verification/File.v ===== *)
(** Open files: src/kernel/file.c, and [pipealloc] of src/kernel/pipe.c, which
    makes a pair of them.  The device switch [devsw] is a parameter: its entries
    are set at boot ([consoleinit] sets the console's). *)

From S2P Require Import Prelude Machine Str Types Proc ProcSpec Rely Sleeplock Kalloc Vm Bio Bytes Log Fs Vma Pipe.

Definition file_at (s : kstate) (f : nat) : file := default file0 (k_files s !! f).
Definition getf (f : nat) : K file := gets (λ s, file_at s f).
Definition setf (f : nat) (g : file → file) : K unit :=
  modify (λ s, set_files (alter g f (k_files s)) s).

(** [devsw[major].read] and [.write]: [None] is a null function pointer. *)
Record devsw_t : Type := mkDevsw {
  dev_read : Z → option (bool → Z → Z → K Z);
  dev_write : Z → option (bool → Z → Z → K Z) }.

(** The bytes of a [struct stat]: dev 4, ino 4, type 2, nlink 2, 4 bytes of
    padding, size 8. *)
Definition stat_bytes (pad : list Z) (st : stat) : list Z :=
  le_split 4 (u32 (st_dev st)) ++ le_split 4 (st_ino st) ++ le_split 2 (u16 (st_type st)) ++
  le_split 2 (u16 (st_nlink st)) ++ pad ++ le_split 8 (st_size st).

Section file.
Context `{L : Linker} `{D : Disk} `{W : Waits}.
Variable devsw : devsw_t.
(** The four bytes of padding of a [struct stat] on the stack. *)
Variable stat_pad : list Z.

Definition filealloc : K (option nat) :=
  for_ret (seq 0 NFILE) (λ f,
    x ← getf f;
    if f_ref x =? 0 then setf f (set_f_ref 1);; mret (Some f) else mret None).

Definition filedup (f : nat) : K nat :=
  x ← getf f;
  if f_ref x <? 1 then panic "filedup"
  else setf f (λ x, set_f_ref (f_ref x + 1) x);; mret f.

Definition fileclose (f : nat) : K unit :=
  x ← getf f;
  if f_ref x <? 1 then panic "fileclose"
  else
    setf f (λ x, set_f_ref (f_ref x - 1) x);;
    ff ← getf f;
    if f_ref ff >? 0 then mret tt
    else
      setf f (set_f_ref 0);;
      setf f (set_f_type FD_NONE);;
      match f_type ff with
      | FD_PIPE => pipeclose (f_pipe ff) (f_writable ff)
      | FD_INODE | FD_DEVICE => begin_op;; iput (f_ip ff);; end_op
      | FD_NONE => mret tt
      end.

Definition with_ip {A} (ip : option nat) (k : nat → K A) : K A :=
  match ip with None => fault | Some i => k i end.

Definition filestat (f : nat) (addr : Z) : K Z :=
  x ← getf f;
  match f_type x with
  | FD_INODE | FD_DEVICE =>
      ilock (f_ip x);;
      st ← with_ip (f_ip x) stati;
      iunlock (f_ip x);;
      pt ← my_pagetable;
      r ← copyout_obj check_vmas pt addr (stat_bytes stat_pad st);
      if r <? 0 then mret (-1) else mret 0
  | _ => mret (-1)
  end.

(** The entry of the device switch for [major], in range. *)
Definition dev_entry (tbl : Z → option (bool → Z → Z → K Z)) (major : Z) : option (bool → Z → Z → K Z) :=
  if (major <? 0) || (major >=? NDEV) then None else tbl major.

Definition fileread (f : nat) (addr n : Z) : K Z :=
  x ← getf f;
  if negb (f_readable x) then mret (-1)
  else
    match f_type x with
    | FD_PIPE => piperead check_vmas max_waits (f_pipe x) addr n
    | FD_DEVICE =>
        match dev_entry (dev_read devsw) (f_major x) with
        | None => mret (-1)
        | Some read => read true addr n
        end
    | FD_INODE =>
        ilock (f_ip x);;
        x ← getf f;
        r ← with_ip (f_ip x) (λ ip, readi (either_copyout true) ip addr (f_off x) (u32 n) tt);
        when (r.1 >? 0) (setf f (λ x, set_f_off (u32 (f_off x + r.1)) x));;
        iunlock (f_ip x);;
        mret r.1
    | FD_NONE => panic "fileread"
    end.

(** The loop of [filewrite] over chunks of at most [max] bytes; the number of
    bytes written. *)
Definition filewrite_max : Z := ((MAXOPBLOCKS - 1 - 1 - 2) / 2) * BSIZE.

Fixpoint filewrite_loop (fuel : nat) (f : nat) (addr n i : Z) : K Z :=
  if i <? n then
    match fuel with
    | O => halt NoFuel
    | S fuel' =>
        let n1 := if n - i >? filewrite_max then filewrite_max else n - i in
        x ← getf f;
        begin_op;;
        ilock (f_ip x);;
        x ← getf f;
        r ← with_ip (f_ip x) (λ ip,
              writei (either_copyin true) ip (u64 (addr + i)) (f_off x) (u32 n1));
        when (r >? 0) (setf f (λ x, set_f_off (u32 (f_off x + r)) x));;
        iunlock (f_ip x);;
        end_op;;
        if negb (r =? n1) then mret i else filewrite_loop fuel' f addr n (i + r)
    end
  else mret i.

Definition filewrite (f : nat) (addr n : Z) : K Z :=
  x ← getf f;
  if negb (f_writable x) then mret (-1)
  else
    match f_type x with
    | FD_PIPE => pipewrite check_vmas (Z.to_nat n + S max_waits) (f_pipe x) addr n
    | FD_DEVICE =>
        match dev_entry (dev_write devsw) (f_major x) with
        | None => mret (-1)
        | Some write => write true addr n
        end
    | FD_INODE =>
        i ← filewrite_loop (Z.to_nat n) f addr n 0;
        mret (if i =? n then n else -1)
    | FD_NONE => panic "filewrite"
    end.

(** The two files of a new pipe, or [None] for the result -1.  [data] is what
    the page holds when [kalloc] hands it out. *)
Definition pipealloc : K (option (nat * nat)) :=
  f0 ← filealloc;
  f1 ← match f0 with None => mret None | Some _ => filealloc end;
  match f0, f1 with
  | Some f0, Some f1 =>
      pi ← kalloc;
      if pi =? 0 then fileclose f0;; fileclose f1;; mret None
      else
        data ← gets (λ s, ld_bytes (k_mem s) pi 512);
        modify (λ s, set_pipes (<[pi := mkPipe data 0 0 1 1]> (k_pipes s)) s);;
        setf f0 (λ x, mkFile FD_PIPE (f_ref x) true false pi (f_ip x) (f_off x) (f_major x));;
        setf f1 (λ x, mkFile FD_PIPE (f_ref x) false true pi (f_ip x) (f_off x) (f_major x));;
        mret (Some (f0, f1))
  | Some f0, None => fileclose f0;; mret None
  | None, _ => mret None
  end.
End file.
