(* ===== verification/ProcLife.v ===== *)
(** Processes from birth to death: the parts of src/kernel/proc.c that build and
    tear down a process ([allocproc], [freeproc], [fork], [exit], [wait],
    [growproc], [userinit]) and the tables of mapped regions ([allocvma],
    [deallocvma], ...).

    The saved user registers of a process live in its trapframe page, at the
    offsets of [struct trapframe].  [exit] is called from deep inside the kernel
    ([kfree] calls it): such a call ends the run of the caller with the outcome
    [Exits], and [handle_exit] runs [exit] from there. *)

From S2P Require Import Prelude Machine Str Types Proc ProcSpec Rely Sleeplock Kalloc Vm Bio Bytes Log Fs Dir Vma Pipe File.

(** ** Trapframes *)

Definition TF_kernel_satp : Z := 0.
Definition TF_kernel_sp : Z := 8.
Definition TF_kernel_trap : Z := 16.
Definition TF_epc : Z := 24.
Definition TF_kernel_hartid : Z := 32.
Definition TF_sp : Z := 48.
Definition TF_a (n : Z) : Z := 112 + 8 * n.
Definition TF_SIZE : Z := 288.

Definition tf_get (p : nat) (off : Z) : K Z :=
  x ← getp p; if p_trapframe x =? 0 then fault else load64 (p_trapframe x + off).
Definition tf_set (p : nat) (off v : Z) : K unit :=
  x ← getp p; if p_trapframe x =? 0 then fault else store64 (p_trapframe x + off) (u64 v).

(** ** Strings in arrays *)

(** [safestrcpy(dst, t, n)] for an array [dst] of at least [n] > 0 bytes. *)
Definition safestrcpy_bytes (n : nat) (t dst : list Z) : list Z :=
  list_inserts 0 (take (n - 1) (cstr_of t) ++ [0]) dst.

(** [PGROUNDUP] of an [int]. *)
Definition PGROUNDUP_int (x : Z) : Z := s32 (Z.land (s32 (x + PGSIZE - 1)) (Z.lnot (PGSIZE - 1))).

(** [for (int k = 0; k < lim; k += PGSIZE)] *)
Definition for_pages (lim : Z) (body : Z → K unit) : K unit :=
  forM_ (seq 0 (Z.to_nat ((lim + PGSIZE - 1) / PGSIZE))) (λ k, body (PGSIZE * k)).

Section proclife.
Context `{L : Linker} `{D : Disk} `{W : Waits}.

Definition proc_mapstacks (kpgtbl : Z) : K unit :=
  forM_ all_procs (λ i,
    pa ← kalloc;
    if pa =? 0 then panic "kalloc"
    else kvmmap kpgtbl (KSTACK i) pa PGSIZE (Z.lor PTE_R PTE_W)).

Definition proc_pagetable (p : nat) : K Z :=
  pagetable ← uvmcreate;
  if pagetable =? 0 then mret 0
  else
    r ← mappages pagetable TRAMPOLINE PGSIZE ld_trampoline (Z.lor PTE_R PTE_X);
    if r <? 0 then uvmfree pagetable 0;; mret 0
    else
      x ← getp p;
      r ← mappages pagetable TRAPFRAME PGSIZE (p_trapframe x) (Z.lor PTE_R PTE_W);
      if r <? 0 then
        uvmunmap pagetable TRAMPOLINE 1 false;;
        uvmfree pagetable 0;;
        mret 0
      else mret pagetable.

Definition proc_freepagetable (pagetable sz : Z) : K unit :=
  uvmunmap pagetable TRAMPOLINE 1 false;;
  uvmunmap pagetable TRAPFRAME 1 false;;
  uvmfree pagetable sz.

Definition freeproc (p : nat) : K unit :=
  x ← getp p;
  when (negb (p_trapframe x =? 0)) (kfree (p_trapframe x));;
  setp p (set_trapframe 0);;
  x ← getp p;
  when (negb (p_pagetable x =? 0)) (proc_freepagetable (p_pagetable x) (p_sz x));;
  setp p (set_pagetable 0);;
  setp p (set_sz 0);;
  setp p (set_pid 0);;
  setp p (set_parent None);;
  setp p (λ x, set_name (<[0%nat := 0]> (p_name x)) x);;
  setp p (set_chan None);;
  setp p (set_killed 0);;
  setp p (set_xstate 0);;
  setp p (set_state UNUSED).

(** The part of [allocproc] after [found:]. *)
Definition allocproc_found (p : nat) : K (option nat) :=
  pid ← allocpid;
  setp p (set_pid pid);;
  setp p (set_state USED);;
  setp p (set_nmp TRAPFRAME);;
  setp p (set_page_faults 0);;
  tf ← kalloc;
  setp p (set_trapframe tf);;
  if tf =? 0 then freeproc p;; mret None
  else
    pt ← proc_pagetable p;
    setp p (set_pagetable pt);;
    if pt =? 0 then freeproc p;; mret None else mret (Some p).

Definition allocproc : K (option nat) :=
  r ← for_ret all_procs (λ i,
    x ← getp i; mret (if decide (p_state x = UNUSED) then Some i else None));
  match r with None => mret None | Some p => allocproc_found p end.

(** ['i','n','i','t','c','o','d','e'] *)
Definition initcode_name : list Z := [105; 110; 105; 116; 99; 111; 100; 101].

(** [initcode] is the address of the 52 bytes of the array. *)
Definition userinit (initcode : Z) : K unit :=
  r ← allocproc;
  modify (set_initproc r);;
  match r with
  | None => fault
  | Some p =>
      x ← getp p;
      uvmfirst (p_pagetable x) initcode 52;;
      setp p (set_sz PGSIZE);;
      tf_set p TF_epc 0;;
      tf_set p TF_sp PGSIZE;;
      setp p (λ x, set_name (safestrcpy_bytes 16 initcode_name (p_name x)) x);;
      cwd ← namei [SLASH];
      setp p (set_cwd cwd);;
      setp p (set_tickets 1);;
      setp p (set_state RUNNABLE)
  end.

(** [n] is an [int]. *)
Definition growproc (n : Z) : K Z :=
  p ← curproc;
  x ← getp p;
  if n >? 0 then
    sz ← uvmalloc (p_pagetable x) (p_sz x) (u64 (p_sz x + n)) PTE_W;
    if sz =? 0 then mret (-1) else setp p (set_sz sz);; mret 0
  else if n <? 0 then
    sz ← uvmdealloc (p_pagetable x) (p_sz x) (u64 (p_sz x + n));
    setp p (set_sz sz);; mret 0
  else setp p (set_sz (p_sz x));; mret 0.

(** ** Regions *)

(** The first unused element of [vmas]. *)
Definition find_free_vma : K (option nat) :=
  for_ret (seq 0 NVMAS) (λ j, v ← getv (VTable j); mret (if v_used v then None else Some j)).

(** [f->ref++] without the checks of [filedup]. *)
Definition file_ref (mfile : option nat) : K unit :=
  match mfile with None => fault | Some f => setf f (λ x, set_f_ref (f_ref x + 1) x) end.

Definition allocvma (length prot flags : Z) (f : nat) (fd offset : Z) : K Z :=
  p ← curproc;
  x ← getp p;
  match list_find (λ o, o = None) (p_vmas x) with
  | None => mret MAP_FAILED
  | Some (i, _) =>
      r ← find_free_vma;
      match r with
      | None => mret MAP_FAILED
      | Some j =>
          setp p (λ x, set_pvmas (<[i := Some j]> (p_vmas x)) x);;
          ff ← getf f;
          setv (VTable j) (λ v, mkVma true (Some f) fd (f_ip ff) (v_addr v) prot flags length length offset);;
          file_ref (Some f);;
          setp p (λ x, set_nmp (u64 (p_nmp x - PGROUNDUP_int length)) x);;
          x ← getp p;
          setv (VTable j) (set_v_addr (p_nmp x));;
          mret (p_nmp x)
      end
  end.

(** The names [prot] and [flags] are swapped in the source. *)
Definition allocvmaelf (p : nat) (length filesz : Z) (ip : option nat) (offset vaddr : Z) (text : bool) : K unit :=
  let flags := if text then Z.lor PROT_EXEC PROT_READ else PROT_RW in
  setv (if text then VText p else VData p) (λ v,
    mkVma true (v_mfile v) (v_fd v) ip vaddr MAP_PRIVATE flags length filesz offset).

Definition _deallocvma (vr : vref) : K unit :=
  p ← curproc;
  v ← getv vr;
  for_pages (PGROUNDUP_int (v_size v)) (λ j,
    x ← getp p;
    v ← getv vr;
    phy_addr ← walkaddr (p_pagetable x) (u64 (v_addr v + j));
    when (negb (phy_addr =? 0)) (uvmunmap (p_pagetable x) (u64 (v_addr v + j)) 1 true));;
  setv vr (set_v_used false).

(** [while (w < PGSIZE)]: the page at [va] goes to offset [off] of the file.  An
    iteration that writes nothing repeats without end. *)
Fixpoint writeback_page (fuel : nat) (ip : nat) (va off w n1 : Z) : K Z :=
  if w <? PGSIZE then
    match fuel with
    | O => halt NoFuel
    | S fuel' =>
        r ← writei (either_copyin true) ip (u64 (va + w)) (u32 (off + w)) (u32 n1);
        let w := w + r in
        let n1 := PGSIZE - w in
        writeback_page fuel' ip va off w (if n1 >? filewrite_max then filewrite_max else n1)
    end
  else mret w.

(** The loop of [deallocvma] for MAP_SHARED. *)
Fixpoint dealloc_shared (fuel : nat) (p j : nat) (addr size k : Z) : K unit :=
  if k <? size then
    match fuel with
    | O => halt NoFuel
    | S fuel' =>
        let n1 := if size - k >? filewrite_max then filewrite_max else size - k in
        x ← getp p;
        pa ← walkaddr (p_pagetable x) (u64 (addr + k));
        if pa =? 0 then dealloc_shared fuel' p j addr size (k + PGSIZE)
        else
          begin_op;;
          v ← getv (VTable j);
          ilock (v_ip v);;
          v ← getv (VTable j);
          w ← with_ip (v_ip v) (λ ip,
                writeback_page (Z.to_nat PGSIZE) ip (u64 (addr + k)) (u32 (v_offset v + k)) 0 n1);
          pa ← walkaddr (p_pagetable x) (u64 (addr + k));
          ref ← getref pa;
          (if ref =? 1 then uvmunmap (p_pagetable x) (u64 (addr + k)) 1 true
           else
             pa ← walkaddr (p_pagetable x) (u64 (addr + k));
             decref pa;;
             uvmunmap (p_pagetable x) (u64 (addr + k)) 1 false);;
          v ← getv (VTable j);
          iunlock (v_ip v);;
          end_op;;
          dealloc_shared fuel' p j addr size (k + w)
    end
  else mret tt.

(** The loop for MAP_PRIVATE. *)
Definition dealloc_private (p : nat) (addr size : Z) : K unit :=
  for_pages (PGROUNDUP_int size) (λ k,
    x ← getp p;
    phy_addr ← walkaddr (p_pagetable x) (u64 (addr + k));
    when (negb (phy_addr =? 0))
      (ref ← getref phy_addr;
       if ref =? 1 then uvmunmap (p_pagetable x) (u64 (addr + k)) 1 true
       else uvmunmap (p_pagetable x) (u64 (addr + k)) 1 false)).

(** [p->nmp]: the lowest address of a mapped region. *)
Definition reset_nmp (p : nat) : K unit :=
  x ← getp p;
  vs ← gets (λ s, (λ j, vma_at s (VTable j)) <$> omap id (p_vmas x));
  setp p (set_nmp (foldl (λ m v, if v_addr v <? m then v_addr v else m) TRAPFRAME vs)).

(** The region is gone: the file's reference is dropped. *)
Definition dealloc_complete (p i j : nat) : K unit :=
  v ← getv (VTable j);
  (match v_mfile v with
   | None => fault
   | Some f =>
       ff ← getf f;
       if f_ref ff =? 1 then
         fileclose f;;
         setp p (λ x, set_ofile (<[Z.to_nat (v_fd v) := None]> (p_ofile x)) x)
       else setf f (λ x, set_f_ref (f_ref x - 1) x)
   end);;
  setp p (λ x, set_pvmas (<[i := None]> (p_vmas x)) x).

(** [deallocvma] for element [i] of the process's regions, [vmas[j]]. *)
Definition dealloc_region (p i j : nat) (addr size : Z) : K Z :=
  v ← getv (VTable j);
  let complete := (addr =? v_addr v) && (size =? v_size v) in
  let first := (addr =? v_addr v) && (size <? v_size v) in
  let last := (addr >? v_addr v) && (u64 (addr + size) =? u64 (v_addr v + v_size v)) in
  let new_offset := if negb complete && first then s32 (v_offset v + size) else v_offset v in
  if negb (complete || first || last) then mret (-1)
  else
    (if complete then setv (VTable j) (set_v_used false)
     else if first then
       setv (VTable j) (λ v, set_v_size (v_size v - size) (set_v_addr (u64 (v_addr v + size)) v))
     else setv (VTable j) (λ v, set_v_size (v_size v - size) v));;
    (if v_flags v =? MAP_SHARED then dealloc_shared (S (Z.to_nat (size / PGSIZE))) p j addr size 0
     else dealloc_private p addr size);;
    setv (VTable j) (set_v_offset new_offset);;
    when complete (dealloc_complete p i j);;
    reset_nmp p;;
    mret 0.

Definition deallocvma (addr size : Z) : K Z :=
  p ← curproc;
  x ← getp p;
  r ← for_ret (imap pair (p_vmas x)) (λ '(i, o),
    match o with
    | None => mret None
    | Some j =>
        v ← getv (VTable j);
        if v_used v && in_vma addr v then r ← dealloc_region p i j addr size; mret (Some r)
        else mret None
    end);
  mret (default (-1) r).

(** ** fork *)

(** The page permissions of the child's mapping, and of the parent's when the
    region is private. *)
Definition fork_prot (prot flags : Z) : Z :=
  if prot =? PROT_READ then PTE_R
  else if prot =? PROT_WRITE then (if negb (flags =? MAP_PRIVATE) then PTE_W else 0)
  else if prot =? PROT_RW then
    (if negb (flags =? MAP_PRIVATE) then Z.lor PTE_R PTE_W else PTE_R)
  else 0.

(** One page of a region: [j0] is the parent's region and [j] the child's. *)
Definition fork_page (p np j0 j : nat) (k : Z) : K unit :=
  x ← getp p;
  v0 ← getv (VTable j0);
  phy ← walkaddr (p_pagetable x) (u64 (v_addr v0 + k));
  when (negb (phy =? 0))
    (let prot := fork_prot (v_prot v0) (v_flags v0) in
     y ← getp np;
     v ← getv (VTable j);
     r ← mappages (p_pagetable y) (PGROUNDDOWN (u64 (v_addr v + k))) PGSIZE phy (Z.lor prot PTE_U);
     when (r <? 0) (setkilled np);;
     when (v_flags v0 =? MAP_PRIVATE)
       (entry ← walk (p_pagetable x) (u64 (v_addr v0 + k)) false;
        store_pte entry (Z.lor (Z.lor (Z.lor (PA2PTE phy) prot) PTE_V) PTE_U));;
     incref phy).

(** The child's copy of region [i]. *)
Definition fork_region (p np i j0 : nat) : K unit :=
  r ← find_free_vma;
  match r with
  | None => mret tt
  | Some j =>
      setp np (λ x, set_pvmas (<[i := Some j]> (p_vmas x)) x);;
      v0 ← getv (VTable j0);
      setv (VTable j) (λ v, mkVma true (v_mfile v0) (v_fd v0) (v_ip v0) (v_addr v) (v_prot v0)
                              (v_flags v0) (v_size v0) (v_filesize v0) (v_offset v0));;
      file_ref (v_mfile v0);;
      setp np (λ x, set_nmp (u64 (p_nmp x - PGROUNDUP_int (v_size v0))) x);;
      x ← getp np;
      setv (VTable j) (set_v_addr (p_nmp x));;
      for_pages (PGROUNDUP_int (v_size v0)) (fork_page p np j0 j)
  end.

Definition fork : K Z :=
  p ← curproc;
  r ← allocproc;
  match r with
  | None => mret (-1)
  | Some np =>
      x ← getp p;
      let t := p_text x in
      let d := p_data x in
      allocvmaelf np (v_size t) (v_filesize t) (v_ip t) (v_offset t) (v_addr t) true;;
      allocvmaelf np (v_size d) (v_filesize d) (v_ip d) (v_offset d) (v_addr d) false;;
      x ← getp p;
      y ← getp np;
      r ← _uvmcopy (p_pagetable x) (p_pagetable y) (p_sz x)
            (PGROUNDUP (u64 (v_addr (p_text x) + v_size (p_text x))));
      if r <? 0 then freeproc np;; mret (-1)
      else
        setp np (set_sz (p_sz x));;
        setp np (set_tickets (p_tickets x));;
        kmemmove (p_trapframe y) (p_trapframe x) TF_SIZE;;
        tf_set np (TF_a 0) 0;;
        forM_ (imap pair (p_ofile x)) (λ '(i, o),
          match o with
          | None => mret tt
          | Some f => f ← filedup f; setp np (λ y, set_ofile (<[i := Some f]> (p_ofile y)) y)
          end);;
        cwd ← with_ip (p_cwd x) idup;
        setp np (set_cwd (Some cwd));;
        setp np (λ y, set_name (safestrcpy_bytes 16 (p_name x) (p_name y)) y);;
        y ← getp np;
        let pid := p_pid y in
        forM_ (imap pair (p_vmas x)) (λ '(i, o),
          match o with None => mret tt | Some j0 => fork_region p np i j0 end);;
        setp np (set_parent (Some p));;
        setp np (set_state RUNNABLE);;
        mret pid
  end.

(** ** exit and wait *)

(** [exit(status)]; it never returns: a zombie that is resumed panics. *)
Definition exit (status : Z) : K unit :=
  p ← curproc;
  ini ← gets k_initproc;
  if decide (ini = Some p) then panic "init exiting"
  else
    forM_ (seq 0 NOFILE) (λ fd,
      x ← getp p;
      match p_ofile x !! fd with
      | Some (Some f) =>
          fileclose f;;
          setp p (λ x, set_ofile (<[fd := None]> (p_ofile x)) x)
      | _ => mret tt
      end);;
    _deallocvma (VText p);;
    _deallocvma (VData p);;
    forM_ (seq 0 PER_PROCESS_VMAS) (λ i,
      x ← getp p;
      match p_vmas x !! i with
      | Some (Some j) =>
          v ← getv (VTable j);
          _ ← deallocvma (v_addr v) (v_size v);
          mret tt
      | _ => mret tt
      end);;
    begin_op;;
    x ← getp p;
    iput (p_cwd x);;
    end_op;;
    setp p (set_cwd None);;
    reparent p;;
    x ← getp p;
    (match p_parent x with Some pp => wakeup (ChProc pp) | None => mret tt end);;
    setp p (set_xstate status);;
    setp p (set_state ZOMBIE);;
    sched;;
    panic "zombie exit".

(** A run that calls [exit] somewhere inside goes on with the body of [exit],
    which may call [exit] again. *)
Fixpoint on_exit {A} (handler : Z → kstate → outcome kstate A) (o : outcome kstate A) : outcome kstate A :=
  match o with
  | Ok a s => Ok a s
  | Stop (Exits st) s => handler st s
  | Stop w s => Stop w s
  | Switch s k => Switch s (λ s', on_exit handler (k s'))
  end.
Fixpoint run_exit (fuel : nat) (status : Z) : K unit :=
  match fuel with
  | O => halt NoFuel
  | S fuel' => λ s, on_exit (run_exit fuel') (exit status s)
  end.
Definition handle_exit (m : K unit) : K unit := λ s, on_exit (run_exit max_waits) (m s).

(** The scan of [wait] for a zombie child: [inl] is the result of [wait], [inr]
    tells whether there are children. *)
Fixpoint wait_scan (pps : list nat) (p : nat) (addr : Z) (havekids : bool) : K (Z + bool) :=
  match pps with
  | [] => mret (inr havekids)
  | pp :: pps' =>
      y ← getp pp;
      if decide (p_parent y = Some p) then
        if decide (p_state y = ZOMBIE) then
          x ← getp p;
          r ← (if addr =? 0 then mret 0
               else copyout_obj check_vmas (p_pagetable x) addr (le_split 4 (u32 (p_xstate y))));
          if r <? 0 then mret (inl (-1))
          else freeproc pp;; mret (inl (p_pid y))
        else wait_scan pps' p addr true
      else wait_scan pps' p addr havekids
  end.

Fixpoint wait_loop (fuel : nat) (p : nat) (addr : Z) : K Z :=
  r ← wait_scan all_procs p addr false;
  match r with
  | inl v => mret v
  | inr havekids =>
      k ← killed p;
      if negb havekids || (k : bool) then mret (-1)
      else
        match fuel with
        | O => halt NoFuel
        | S fuel' => sleep (ChProc p);; wait_loop fuel' p addr
        end
  end.
Definition wait (addr : Z) : K Z := p ← curproc; wait_loop max_waits p addr.

(** ** pinfo *)

Definition pstat_bytes (ps : list proc) : list Z :=
  let col (f : proc → Z) := mjoin ((λ p, le_split 4 (u32 (f p))) <$> ps) in
  col (λ p, if decide (p_state p = UNUSED) then 0 else 1) ++ col p_tickets ++ col p_pid ++ col p_ticks.

Definition pinfo (ps : Z) : K Z :=
  st ← gets (λ s, pstat_bytes (k_procs s));
  pt ← my_pagetable;
  r ← copyout_obj check_vmas pt ps st;
  if r <? 0 then mret (-1) else mret 0.
End proclife.
