(* ===== verification/KernelVm.v ===== *)
(** The page table of the kernel: [kvmmake] and [kvminit] of src/kernel/vm.c with
    [proc_mapstacks].  [kvminit_correct] gives the whole map: RAM and devices at
    their own addresses, text not writable, the trampoline at the top and a stack
    with an unmapped page below it for every process. *)

From S2P Require Import Prelude Machine Str Types Proc ProcSpec Rely Sleeplock Kalloc Vm PageTable VmSpec VmUser VmCopy VmRun Bio Bytes Log Fs Dir Vma Pipe File ProcLife.

Section kernelvm.
Context `{L : Linker}.

Definition kvmmake : K Z :=
  kpgtbl ← kalloc;
  kmemset kpgtbl 0 PGSIZE;;
  kvmmap kpgtbl UART0 UART0 PGSIZE (Z.lor PTE_R PTE_W);;
  kvmmap kpgtbl VIRTIO0 VIRTIO0 PGSIZE (Z.lor PTE_R PTE_W);;
  kvmmap kpgtbl PLIC PLIC 0x400000 (Z.lor PTE_R PTE_W);;
  kvmmap kpgtbl KERNBASE KERNBASE (ld_etext - KERNBASE) (Z.lor PTE_R PTE_X);;
  kvmmap kpgtbl ld_etext ld_etext (PHYSTOP - ld_etext) (Z.lor PTE_R PTE_W);;
  kvmmap kpgtbl TRAMPOLINE ld_trampoline PGSIZE (Z.lor PTE_R PTE_X);;
  proc_mapstacks kpgtbl;;
  mret kpgtbl.

Definition kvminit : K unit := p ← kvmmake; modify (set_kpgtbl p).

(** ** The map *)

Abbreviation RW := (Z.lor PTE_R PTE_W).
Abbreviation RX := (Z.lor PTE_R PTE_X).

(** The address itself, with the permissions [perm]. *)
Definition ident (va perm : Z) : option Z := Some (mk_pte (PGSIZE * (va / PGSIZE)) perm).

(** The entry for [va], given the pages of the stacks: the pages below the
    trampoline are, from the top, an unmapped page and a stack in turn. *)
Definition kmap (stacks : list Z) (va : Z) : option Z :=
  let k := (TRAMPOLINE - va - 1) / PGSIZE in
  if decide (UART0 ≤ va < VIRTIO0 + PGSIZE) then ident va RW
  else if decide (PLIC ≤ va < PLIC + 0x400000) then ident va RW
  else if decide (KERNBASE ≤ va < ld_etext) then ident va RX
  else if decide (ld_etext ≤ va < PHYSTOP) then ident va RW
  else if decide (TRAMPOLINE ≤ va) then Some (mk_pte ld_trampoline RX)
  else if decide (k mod 2 = 1) then pa ← stacks !! Z.to_nat (k / 2); Some (mk_pte pa RW)
  else None.

(** A page table with a given map. *)
Record kvm (s : kstate) (fl : list Z) (root : Z) (f : Z → option Z) : Prop := {
  kv_ok : vm_ok s fl root;
  kv_leaf va : 0 ≤ va < MAXVA → leaf (ent (k_mem s)) root va = f va }.

Lemma kvmmap_run s fl root f va pa size perm n :
  kvm s fl root f → 0 ≤ va → va mod PGSIZE = 0 → 0 < size → size mod PGSIZE = 0 → va + size ≤ MAXVA →
  0 ≤ pa → pa + size ≤ 2 ^ 55 → 0 ≤ perm < 1024 →
  (∀ va', va ≤ va' < va + size → f va' = None) →
  (2 * Z.to_nat (block_of (va + size - 1) - block_of va + 1) ≤ n < length fl)%nat →
  ∃ s' fl', kvmmap root va pa size perm s = Ok tt s' ∧ vm_step root s fl s' fl' ∧ uses n fl fl' ∧
    kvm s' fl' root (λ va', if decide (va ≤ va' < va + size) then Some (mk_pte (pa + PGSIZE * ((va' - va) / PGSIZE)) perm) else f va').
Proof.
  intros [V Hl] Hva Hal Hsz Hsa Hm Hpa Hpl Hp Hn Hc.
  assert (Hd : PGROUNDDOWN va = va) by (by apply PGROUNDDOWN_id).
  assert (He : PGROUNDDOWN (va + size - 1) + PGSIZE = va + size) by (rewrite PGROUNDDOWN_eq by pg; pgd).
  destruct (mappages_run_uses s fl root va size pa perm) as (r & s' & fl' & k & E & V' & St & Hmp & U & Hr); [done..| |].
  { rewrite Hd, He. intros va' Hv. rewrite Hl by lia. by apply Hn. }
  unfold kvmmap. rewrite (bind_ok _ _ _ _ _ E).
  destruct Hr as [[-> ->]|(-> & -> & _)]; [|unfold uses in U; cbn in U; lia].
  exists s', fl'. split_and!; [done|done|eapply uses_le; [|exact U]; lia|]. split; [done|].
  intros va' Hv. rewrite Hmp, Hd, Hl by done. assert (Hk : pages_of va size * PGSIZE = size) by (unfold pages_of; pgd). by rewrite Hk.
Qed.

Lemma kvm_ext s fl root f g : (∀ va, 0 ≤ va < MAXVA → f va = g va) → kvm s fl root f → kvm s fl root g.
Proof. intros H [V Hl]. split; [done|]. intros va Hv. by rewrite Hl, H. Qed.

(** [kalloc] beside a page table. *)
Lemma kvm_kalloc s c fl root f : kvm s (c :: fl) root f →
  kalloc s = Ok c (allocated c s) ∧ page_ok c ∧ kvm (allocated c s) fl root f ∧ vm_step root s (c :: fl) (allocated c s) fl ∧ ¬ zone (allocated c s) fl root c.
Proof.
  intros [V Hl]. pose proof (vo_free _ _ _ V) as Hf.
  assert (Hb : ∀ a, ¬ in_page c a → ld8 (k_mem (allocated c s)) a = ld8 (k_mem s) a) by (intros a; apply allocated_mem).
  destruct (fresh_vm s fl root c _ V Hb) as (V1 & Hnt & Hl1 & _). pose proof (fresh_step s fl root c _ V Hb) as St.
  replace (set_mem (k_mem (allocated c s)) (allocated c s)) with (allocated c s) in * by by destruct (allocated c s).
  split_and!; [by eapply kalloc_run_cons|destruct Hf as (_ & _ & [Hc _]%list.Forall_cons); done| |done|].
  2:{ intros [Hin|Ht]; [|done]. destruct Hf as (_ & [Hn _]%list.NoDup_cons & _). done. }
  split; [done|]. intros va Hv. rewrite (proj2 (Hl1 va)). by apply Hl.
Qed.

(** ** The stacks *)

Lemma kstack_range (i : nat) va : (i < 64)%nat → KSTACK i ≤ va < KSTACK i + PGSIZE ↔ (TRAMPOLINE - va - 1) / PGSIZE = 2 * i + 1.
Proof. intros Hi. unfold KSTACK, TRAMPOLINE. pgd. Qed.

Lemma kstack_high (i : nat) va : (i < 64)%nat → KSTACK i ≤ va < KSTACK i + PGSIZE → PHYSTOP + PGSIZE ≤ va < TRAMPOLINE.
Proof. intros Hi. unfold KSTACK, TRAMPOLINE, PHYSTOP, KERNBASE. pg. Qed.

(** The map with one more stack. *)
Lemma kmap_snoc stacks pa va : (length stacks < 64)%nat →
  kmap (stacks ++ [pa]) va =
    if decide (KSTACK (length stacks) ≤ va < KSTACK (length stacks) + PGSIZE) then Some (mk_pte pa RW) else kmap stacks va.
Proof.
  intros Hi. pose proof ld_etext_lo. pose proof ld_end_lo. pose proof ld_end_hi. set (i := length stacks) in *.
  destruct (decide (KSTACK i ≤ va < KSTACK i + PGSIZE)) as [D|D].
  - pose proof (kstack_high i va Hi D) as Hv. apply kstack_range in D; [|done]. unfold kmap.
    rewrite D, !decide_False by (unfold PHYSTOP, KERNBASE, PLIC, UART0, VIRTIO0 in *; pg).
    rewrite decide_True by (rewrite Z.add_comm, Z.mul_comm, Z.mod_add; done).
    replace (Z.to_nat ((2 * i + 1) / 2)) with i by dlia. unfold i. by rewrite list_lookup_middle.
  - rewrite kstack_range in D by done. unfold kmap. repeat case_decide; try done.
    set (k := (TRAMPOLINE - va - 1) / PGSIZE) in *. f_equal. rewrite lookup_app.
    destruct (stacks !! Z.to_nat (k / 2)) eqn:E; [done|]. apply lookup_ge_None in E. fold i in E |- *.
    assert (0 ≤ k) by (unfold k; apply Z.div_pos; pg). assert (Z.to_nat (k / 2) ≠ i) by dlia. by destruct (Z.to_nat (k / 2) - i)%nat eqn:E2; [lia|].
Qed.

Lemma kmap_none stacks va : (length stacks < 64)%nat → KSTACK (length stacks) ≤ va < KSTACK (length stacks) + PGSIZE → kmap stacks va = None.
Proof.
  intros Hi D. pose proof ld_etext_lo. pose proof ld_end_lo. pose proof ld_end_hi. pose proof (kstack_high _ va Hi D) as Hv.
  apply kstack_range in D; [|done]. unfold kmap. rewrite D, !decide_False by (unfold PHYSTOP, KERNBASE, PLIC, UART0, VIRTIO0 in *; pg).
  case_decide; [|done]. by rewrite lookup_ge_None_2 by dlia.
Qed.

Lemma mapstacks_run root fl0 (n : nat) : ∀ s fl stacks,
  (length stacks + n = 64)%nat → kvm s fl root (kmap stacks) → (3 * n < length fl)%nat → sublist (stacks ++ fl) fl0 →
  (∀ pa, pa ∈ stacks → ¬ zone s fl root pa) →
  ∃ s' fl' stacks',
    forM_ (seq (length stacks) n) (λ i : nat, pa ← kalloc; if pa =? 0 then panic "kalloc" else kvmmap root (KSTACK i) pa PGSIZE RW) s = Ok tt s' ∧
    length stacks' = 64%nat ∧ kvm s' fl' root (kmap stacks') ∧ sublist (stacks' ++ fl') fl0 ∧ uses (3 * n) fl fl' ∧
    (∀ pa, pa ∈ stacks' → ¬ zone s' fl' root pa).
Proof.
  induction n as [|n IH]; intros s fl stacks Hn Hk Hfl Hsub Hz.
  { exists s, fl, stacks. split_and!; [done|lia|done|done|apply uses_refl|done]. }
  destruct fl as [|c fl]; [cbn in Hfl; lia|]. cbn [length] in Hfl.
  destruct (kvm_kalloc _ _ _ _ _ Hk) as (E1 & Hc & Hk1 & St1 & Hcz). pose proof (page_ok_pos c Hc) as Hcp. set (i := length stacks) in *.
  assert (Hi : (i < 64)%nat) by lia.
  destruct (kvmmap_run (allocated c s) fl root (kmap stacks) (KSTACK i) c PGSIZE RW 2) as (s2 & fl2 & E2 & St & U & Hk2);
    [done|unfold KSTACK, TRAMPOLINE; pg|unfold KSTACK, TRAMPOLINE; pgd|done|done|unfold KSTACK, TRAMPOLINE; pg|lia|unfold PHYSTOP, KERNBASE in *; pg|done|..].
  { intros va D. pose proof (kmap_none stacks va Hi D). done. }
  { unfold block_of, KSTACK, TRAMPOLINE, PGSIZE. change (2 ^ 21) with 2097152. rewrite MAXVA_eq. dlia. }
  destruct (vs_fl _ _ _ _ _ St) as [l ->]. unfold uses in U.
  destruct (IH s2 fl2 (stacks ++ [c])) as (s3 & fl3 & st3 & E3 & Hl3 & Hk3 & Hs3 & U3 & Hz3).
  - rewrite length_app. cbn. lia.
  - eapply kvm_ext; [|exact Hk2]. intros va _. cbn. rewrite kmap_snoc by done. fold i. case_decide as D; [|done].
    rewrite Z.div_small by pg. do 2 f_equal. lia.
  - lia.
  - etrans; [|exact Hsub]. rewrite <- app_assoc. apply sublist_app; [done|]. cbn. apply sublist_skip. by apply sublist_inserts_l.
  - intros pa [Hp| ->%list_elem_of_singleton]%elem_of_app Hzp; apply (vs_zone _ _ _ _ _ St) in Hzp; [|done]. apply (Hz pa Hp). by apply (vs_zone _ _ _ _ _ St1).
  - exists s3, fl3, st3. split_and!; [|done..|unfold uses in *; cbn [length]; lia|done].
    cbn [seq forM_]. rewrite (seq_ok _ _ s s2); [|rewrite (bind_ok _ _ _ _ _ E1); destruct (Z.eqb_spec c 0); [lia|exact E2]].
    rewrite length_app in E3. cbn in E3. by rewrite Nat.add_1_r in E3.
Qed.

(** ** The whole table *)

(** A region that is mapped to itself. *)
Lemma ident_eq a va perm : a mod PGSIZE = 0 → Some (mk_pte (a + PGSIZE * ((va - a) / PGSIZE)) perm) = ident va perm.
Proof. intros Ha. unfold ident. do 2 f_equal. pgd. Qed.

Ltac layout := unfold TRAMPOLINE, PHYSTOP, KERNBASE, PLIC, UART0, VIRTIO0, block_of in *; change (2 ^ 21) with 2097152 in *; pgd.

Lemma ident_run s fl root f a size perm n :
  kvm s fl root f → 0 ≤ a → a mod PGSIZE = 0 → 0 < size → size mod PGSIZE = 0 → a + size ≤ PHYSTOP → 0 ≤ perm < 1024 →
  (∀ va, a ≤ va < a + size → f va = None) →
  (2 * Z.to_nat (block_of (a + size - 1) - block_of a + 1) ≤ n < length fl)%nat →
  ∃ s' fl', kvmmap root a a size perm s = Ok tt s' ∧ (∃ l, fl = l ++ fl') ∧ uses n fl fl' ∧
    kvm s' fl' root (λ va, if decide (a ≤ va < a + size) then ident va perm else f va).
Proof.
  intros K Ha Hal Hs Hsl Hm Hp Hn Hc. unfold PHYSTOP, KERNBASE in Hm.
  destruct (kvmmap_run s fl root f a a size perm n) as (s' & fl' & E & St & U & K'); [done..|pg|done|pg|done|done|done|].
  exists s', fl'. split_and!; [done|apply St|done|]. eapply kvm_ext; [|exact K']. intros va _. cbn. by rewrite ident_eq.
Qed.

Ltac none := let D := fresh in intros ? D; cbn; repeat (rewrite decide_False by layout); done.

Lemma kvmmake_run s c fl : free_pages s (c :: fl) → (340 ≤ length fl)%nat →
  ∃ s' fl' stacks, kvmmake s = Ok c s' ∧ kvm s' fl' c (kmap stacks) ∧ length stacks = 64%nat ∧ sublist (stacks ++ fl') fl ∧ uses 340 fl fl' ∧
    (∀ pa, pa ∈ stacks → ¬ zone s' fl' c pa).
Proof.
  intros Hf Hn. pose proof ld_etext_lo. pose proof ld_end_lo. pose proof ld_end_hi. pose proof ld_tramp_lo. pose proof ld_tramp_hi.
  pose proof ld_etext_page. pose proof ld_tramp_page. pose proof Hf as (_ & _ & [Hc _]%list.Forall_cons). pose proof (page_ok_pos c Hc) as Hcp.
  destruct (uvmcreate_run s c fl Hf) as (s0 & E & Hu & Hl0 & _). unfold uvmcreate in E. rewrite (bind_ok _ _ _ _ _ (kalloc_run_cons s c fl Hf)) in E.
  destruct (Z.eqb_spec c 0) as [|_]; [lia|]. apply bind_inv in E as ([] & s0' & Ez & E). injection E as ->.
  assert (K0 : kvm s0 fl c (λ _, None)) by (split; [apply Hu|intros; apply Hl0]).
  unfold kvmmake. rewrite (bind_ok _ _ _ _ _ (kalloc_run_cons s c fl Hf)), (seq_ok _ _ _ _ Ez). clear Hu Hl0 Ez Hf.
  destruct (ident_run s0 fl c _ UART0 PGSIZE RW 2 K0) as (s1 & fl1 & E1 & [l1 L1] & U1 & K1); [layout..|done|none|layout|].
  rewrite (seq_ok _ _ _ _ E1). unfold uses in U1.
  destruct (ident_run s1 fl1 c _ VIRTIO0 PGSIZE RW 2 K1) as (s2 & fl2 & E2 & [l2 L2] & U2 & K2); [layout..|done|none|layout|].
  rewrite (seq_ok _ _ _ _ E2). unfold uses in U2.
  destruct (ident_run s2 fl2 c _ PLIC 0x400000 RW 4 K2) as (s3 & fl3 & E3 & [l3 L3] & U3 & K3); [layout..|done|none|layout|].
  rewrite (seq_ok _ _ _ _ E3). unfold uses in U3.
  set (n4 := (2 * Z.to_nat (block_of (ld_etext - 1) - block_of KERNBASE + 1))%nat).
  set (n5 := (2 * Z.to_nat (block_of (PHYSTOP - 1) - block_of ld_etext + 1))%nat).
  assert (Hn45 : (n4 + n5 ≤ 130)%nat) by (unfold n4, n5; layout).
  destruct (ident_run s3 fl3 c _ KERNBASE (ld_etext - KERNBASE) RX n4 K3) as (s4 & fl4 & E4 & [l4 L4] & U4 & K4); [layout..|done|none| |].
  { split; [|lia]. unfold n4. by replace (KERNBASE + (ld_etext - KERNBASE) - 1) with (ld_etext - 1) by lia. }
  rewrite (seq_ok _ _ _ _ E4). unfold uses in U4.
  destruct (ident_run s4 fl4 c _ ld_etext (PHYSTOP - ld_etext) RW n5 K4) as (s5 & fl5 & E5 & [l5 L5] & U5 & K5); [layout..|done|none| |].
  { split; [|lia]. unfold n5. by replace (ld_etext + (PHYSTOP - ld_etext) - 1) with (PHYSTOP - 1) by lia. }
  rewrite (seq_ok _ _ _ _ E5). unfold uses in U5. clearbody n4 n5.
  destruct (kvmmap_run s5 fl5 c _ TRAMPOLINE ld_trampoline PGSIZE RX 2 K5) as (s6 & fl6 & E6 & St6 & U6 & K6); [layout..|done|none|layout|].
  rewrite (seq_ok _ _ _ _ E6). unfold uses in U6. destruct (vs_fl _ _ _ _ _ St6) as [l6 L6].
  destruct (mapstacks_run c fl 64 s6 fl6 []) as (s' & fl' & stacks & E' & Hs & K' & Hsub & U' & Hz).
  - done.
  - eapply kvm_ext; [|exact K6]. intros va Hva. cbn. unfold kmap. rewrite lookup_nil.
    destruct (decide (TRAMPOLINE ≤ va)) as [D|D].
    + rewrite decide_True by (unfold TRAMPOLINE in *; lia). rewrite !decide_False by layout. rewrite Z.div_small by (unfold TRAMPOLINE in *; pg). do 2 f_equal. lia.
    + rewrite decide_False by lia. replace (ld_etext + (PHYSTOP - ld_etext)) with PHYSTOP by lia. replace (KERNBASE + (ld_etext - KERNBASE)) with ld_etext by lia.
      repeat case_decide; try done; exfalso; layout.
  - lia.
  - cbn. subst. by repeat apply sublist_inserts_l.
  - intros pa Hp. by apply not_elem_of_nil in Hp.
  - exists s', fl', stacks. split_and!; [|done..|unfold uses in *; lia|done].
    unfold proc_mapstacks. by rewrite (seq_ok _ _ _ _ E').
Qed.

Lemma kmap_perm stacks va e : Forall page_ok stacks → kmap stacks va = Some e → ∃ pa, 0 ≤ pa < 2 ^ 56 ∧ (e = mk_pte pa RW ∨ e = mk_pte pa RX).
Proof.
  pose proof ld_etext_lo. pose proof ld_end_lo. pose proof ld_end_hi. pose proof ld_tramp_lo. pose proof ld_tramp_hi.
  intros Hs. unfold kmap, ident. repeat case_decide; try done.
  1-4: intros [= <-]; eexists; (split; [|by (left + right)]); layout.
  - intros [= <-]. eexists. split; [|by right]. layout.
  - destruct (stacks !! _) as [pa|] eqn:E; [|done]. intros [= <-]. exists pa. split; [|by left].
    apply page_ok_hi. rewrite list.Forall_forall in Hs. eapply Hs, list_elem_of_lookup_2, E.
Qed.

(** The page table of the kernel: the map is [kmap], nothing in it is open to user
    code or both writable and executable, and every stack is a page of its own. *)
Record kernel_table (s : kstate) (fl : list Z) (root : Z) (stacks : list Z) : Prop := {
  kt_ok : vm_ok s fl root;
  kt_map va : 0 ≤ va < MAXVA → leaf (ent (k_mem s)) root va = kmap stacks va;
  kt_perm va e : 0 ≤ va < MAXVA → leaf (ent (k_mem s)) root va = Some e →
    has PTE_U e = false ∧ (has PTE_W e = false ∨ has PTE_X e = false);
  kt_stacks : length stacks = NPROC;
  kt_nodup : NoDup (stacks ++ fl);
  kt_own pa : pa ∈ stacks → page_ok pa ∧ ¬ is_table (ent (k_mem s)) root pa }.

Lemma has_mk_pte b pa perm : Z.land 0x3FF b = b → 0 ≤ pa < 2 ^ 56 → 0 ≤ perm < 1024 → has b (mk_pte pa perm) = has b (Z.lor perm PTE_V).
Proof.
  intros Hb Hpa Hp. destruct (mk_pte_ok pa perm Hpa Hp) as (_ & _ & _ & Hf). unfold has. rewrite <- Hf. unfold PTE_FLAGS.
  by rewrite <- Z.land_assoc, Hb.
Qed.

Lemma kvmmake_table s c fl : free_pages s (c :: fl) → (340 ≤ length fl)%nat →
  ∃ s' fl' stacks, kvmmake s = Ok c s' ∧ kernel_table s' fl' c stacks ∧ uses 340 fl fl'.
Proof.
  intros Hf Hn. destruct (kvmmake_run s c fl Hf Hn) as (s' & fl' & stacks & E & [V Hl] & Hlen & Hsub & U & Hz).
  pose proof Hf as (_ & [_ Hnd]%list.NoDup_cons & [_ Hok]%list.Forall_cons).
  assert (Hso : Forall page_ok stacks).
  { apply list.Forall_forall. intros pa Hp. rewrite list.Forall_forall in Hok. apply Hok. eapply elem_of_sublist; [|exact Hsub]. apply elem_of_app. by left. }
  exists s', fl', stacks. split_and!; [done| |done]. constructor; [done..| |done| |].
  - intros va e Hva. rewrite Hl by done. intros (pa & Hpa & He)%kmap_perm; [|done].
    destruct He as [-> | ->]; rewrite !has_mk_pte by done; split; done || by (left + right).
  - by eapply sublist_NoDup.
  - intros pa Hp. split; [rewrite list.Forall_forall in Hso; by apply Hso|]. intros Ht. apply (Hz pa Hp). by right.
Qed.

(** All the pages behind the kernel are on the free list. *)
Lemma many_pages (n : nat) l : (∀ pa, page_ok pa → pa ∈ l) → ld_end + (n + 1) * PGSIZE ≤ PHYSTOP → (n ≤ length l)%nat.
Proof.
  intros Hl Hn. pose proof ld_etext_lo. pose proof ld_end_lo.
  set (g := λ i : nat, PGSIZE * (ld_end / PGSIZE + 1 + i)). assert (Hg : NoDup (g <$> seq 0 n)).
  { apply NoDup_fmap_2; [|apply NoDup_seq]. intros i j. unfold g. pg. }
  assert (Hsub : g <$> seq 0 n ⊆+ l).
  { apply NoDup_submseteq; [done|]. intros x (i & -> & Hi)%list_elem_of_fmap. apply elem_of_seq in Hi. apply Hl.
    unfold page_ok, g. split; [rewrite Z.mul_comm; by apply Z.mod_mul|]. unfold KERNBASE in *. pgd. }
  apply submseteq_length in Hsub. by rewrite length_fmap, length_seq in Hsub.
Qed.

(** C12: Start-up of the memory: [kinit] and [kvminit] put every page behind the kernel
    under the allocator and build the page table of the kernel.  It maps the devices
    and RAM at their own addresses, the text without write permission and the rest
    without execute permission, the trampoline at the top and for every process a
    stack with an unmapped page below; nothing else is mapped.  341 pages are
    enough. *)
Theorem kvminit_correct s :
  k_kmem s = mkKmem None ∅ → ld_end + 342 * PGSIZE ≤ PHYSTOP →
  ∃ s' fl stacks, (kinit;; kvminit) s = Ok tt s' ∧ kernel_table s' fl (k_kpgtbl s') stacks ∧
    (PHYSTOP - ld_end) / PGSIZE - 342 ≤ length fl.
Proof.
  intros Hk Hroom. destruct (kinit_correct s Hk) as (s1 & l & E1 & Hf & Hl). rewrite (seq_ok _ _ _ _ E1).
  pose proof (λ n H, many_pages n l (λ pa, proj2 (Hl pa)) H) as Hm. destruct l as [|c l]; [specialize (Hm 341%nat ltac:(lia)); cbn in Hm; lia|].
  destruct (kvmmake_table s1 c l Hf) as (s2 & fl & stacks & E2 & [V Hmap Hp Hs Hn Ho] & U); [specialize (Hm 341%nat ltac:(lia)); cbn in Hm; lia|].
  unfold kvminit. rewrite (bind_ok _ _ _ _ _ E2). exists (set_kpgtbl c s2), fl, stacks. split_and!; [done| |].
  - destruct V. by constructor.
  - pose proof (Hm (Z.to_nat ((PHYSTOP - ld_end) / PGSIZE - 1)) ltac:(pgd)) as H. unfold uses in U. cbn in H. lia.
Qed.
End kernelvm.

(** A kernel image of 136 KB, with 36 KB of text. *)
#[local] Instance image_linker : Linker.
Proof.
  refine {| ld_end := KERNBASE + 0x22000; ld_etext := KERNBASE + 0x9000; ld_trampoline := KERNBASE + 0x8000 |}; done.
Defined.

Lemma kvminit_correct_witness : ∃ s' fl stacks, (kinit;; kvminit) kstate0 = Ok tt s' ∧ kernel_table s' fl (k_kpgtbl s') stacks ∧ 32000 ≤ length fl.
Proof.
  destruct (kvminit_correct kstate0 eq_refl) as (s' & fl & stacks & E & H & Hn); [done|].
  exists s', fl, stacks. split_and!; [done..|]. etrans; [|exact Hn]. by vm_compute.
Defined.
