(* ===== verification/VmaSpec.v ===== *)
(** Copy on write and demand paging: [cow_fault] gives the writer a private copy
    of a shared page, and a page fault in a region maps a page with the bytes of
    the file. *)

From S2P Require Import Prelude Machine Str Types Proc ProcSpec Rely Sleeplock Kalloc Vm PageTable VmSpec VmUser VmCopy VmRun Bio Bytes Log Fs Vma File ProcLife.

Section cow.
Context `{L : Linker}.

(** ** Mapping a page whose tables exist *)

Lemma mappages_present s fl root a t0 pa perm :
  vm_ok s fl root → 0 ≤ a → a + PGSIZE ≤ MAXVA → a mod PGSIZE = 0 → tbl0 (ent (k_mem s)) root a = Some t0 →
  leaf (ent (k_mem s)) root a = None →
  mappages root a PGSIZE pa perm s = Ok 0 (set_mem (st64 (k_mem s) (t0 + 8 * PX 0 a) (mk_pte pa perm)) s).
Proof.
  intros V Ha Hm Hal Ht Hn. unfold mappages. change (PGSIZE =? 0) with false. cbv iota.
  rewrite (PGROUNDDOWN_id a) by (done || lia). rewrite u64_small by pg.
  assert (PGROUNDDOWN (a + PGSIZE - 1) = a) as Er by (rewrite PGROUNDDOWN_eq by pg; pgd). rewrite Er.
  rewrite Z.leb_refl, Z.sub_diag. change (Z.to_nat (0 / PGSIZE)) with 0%nat. cbn [mappages_loop].
  destruct (walk_present s fl root a t0 true V ltac:(pg) Ht) as [E1 Hnz]. rewrite (bind_ok _ _ _ _ _ E1).
  rewrite (proj2 (Z.eqb_neq _ 0)) by done. rewrite (bind_ok _ _ _ _ _ (load64_run _ _)).
  pose proof (leaf_tbl0 _ _ _ _ Ht) as Hl. rewrite Hn in Hl. unfold ent in Hl at 1.
  destruct (has PTE_V (ld64 (k_mem s) (t0 + 8 * PX 0 a))); [done|].
  rewrite (bind_ok _ _ _ _ _ (store64_run _ _ _)), Z.eqb_refl. done.
Qed.

(** Clearing PTE_V keeps the other flags. *)
Lemma land_lnot_V e : 0 ≤ e < 2 ^ 64 → let e' := Z.land e (u64 (Z.lnot PTE_V)) in
  0 ≤ e' < 2 ^ 64 ∧ has PTE_V e' = false ∧ 0 ≤ PTE_FLAGS e' < 1024 ∧ Z.lor (PTE_FLAGS e') PTE_V = Z.lor (PTE_FLAGS e) PTE_V.
Proof.
  intros He e'. change (u64 (Z.lnot PTE_V)) with (Z.ones 64 - 1) in e'.
  assert (∀ n, Z.testbit (Z.ones 64 - 1) n = bool_decide (1 ≤ n < 64)) as Hbits.
  { intros n. change (Z.ones 64 - 1) with (Z.shiftl (Z.ones 63) 1). case_bool_decide as Hn.
    - rewrite Z.shiftl_spec, Z.ones_spec_low by lia. done.
    - destruct (decide (n < 0)); [by apply Z.testbit_neg_r|]. rewrite Z.shiftl_spec by lia.
      destruct (decide (n = 0)) as [->|]; [done|]. apply Z.ones_spec_high. lia. }
  split_and!.
  - unfold e'. apply Z.land_nonneg. lia.
  - assert (e' = e' mod 2 ^ 64) as ->; [|by apply Z.mod_pos_bound]. symmetry. rewrite <- Z.land_ones by lia. unfold e'.
    rewrite <- Z.land_assoc. f_equal.
  - unfold has. apply negb_false_iff, Z.eqb_eq, Z.bits_inj'. intros n Hn. unfold e'.
    rewrite !Z.land_spec, Hbits, Z.bits_0. change PTE_V with (2 ^ 0). rewrite Z.pow2_bits_eqb by lia.
    case_bool_decide; destruct (Z.eqb_spec 0 n); rewrite ?andb_false_r; (done || lia).
  - unfold PTE_FLAGS. apply Z.land_nonneg. lia.
  - unfold PTE_FLAGS. change 0x3FF with (Z.ones 10). rewrite Z.land_ones by lia. by apply Z.mod_pos_bound.
  - unfold PTE_FLAGS, e'. apply Z.bits_inj'. intros n Hn. rewrite !Z.lor_spec, !Z.land_spec, Hbits.
    change PTE_V with (2 ^ 0). rewrite Z.pow2_bits_eqb by lia. destruct (Z.eqb_spec 0 n); [by rewrite !orb_true_r|].
    rewrite !orb_false_r. change 0x3FF with (Z.ones 10). case_bool_decide; [by rewrite andb_true_r|].
    rewrite (Z.ones_spec_high 10 n) by lia. by rewrite !andb_false_r.
Qed.

Lemma mk_pte_V pa f f' : Z.lor f PTE_V = Z.lor f' PTE_V → mk_pte pa (Z.lor f PTE_W) = mk_pte pa (Z.lor f' PTE_W).
Proof.
  intros H. unfold mk_pte. rewrite <- !Z.lor_assoc. f_equal.
  by rewrite !(Z.lor_comm PTE_W), !Z.lor_assoc, H.
Qed.

(** Changing the count of a page that is neither free nor a table. *)
Definition with_ref (phy r : Z) (s : kstate) : kstate :=
  set_kmem (set_run (phy / PGSIZE) (mkRun (run_next (run_at (k_kmem s) (phy / PGSIZE))) r) (k_kmem s)) s.

Lemma ref_of_with_ref s phy r q : page_ok phy → page_ok q →
  ref_of (with_ref phy r s) q = if decide (q = phy) then r else ref_of s q.
Proof.
  intros Hp Hq. unfold with_ref, ref_of, run_at, set_run. simpl. rewrite lookup_insert.
  case_decide as D; [|rewrite decide_False by (intros ->; by apply D); done].
  apply page_index_inj in D as ->; [|done..]. by rewrite decide_True.
Qed.

Lemma with_ref_ok s fl root phy r :
  vm_ok s fl root → page_ok phy → phy ∉ fl → ¬ is_table (ent (k_mem s)) root phy → vm_ok (with_ref phy r s) fl root.
Proof.
  intros V Hp Hf Ht. refine (proj1 (vm_ok_agree s _ fl fl root V _ _ _ _)); [| done | |].
  - destruct (vo_free _ _ _ V) as (Hc & Hn & Hok). split_and!; [|done..]. simpl. apply chain_insert; [|done].
    apply index_notin; done.
  - intros q Hq. by apply (wf_page _ _ _ (vo_wf _ _ _ V)).
  - intros q Hq. rewrite ref_of_with_ref by (done || by eapply table_ok). rewrite decide_False; [done|]. by intros ->.
Qed.

Lemma decref_run s phy : page_ok phy → 0 < ref_of s phy < 2 ^ 32 →
  decref phy s = Ok tt (with_ref phy (ref_of s phy - 1) s).
Proof.
  intros Hp Hr. unfold decref. rewrite bad_page_ok by done. unfold modify, with_ref.
  change (run_ref (run_at (k_kmem s) (phy / PGSIZE))) with (ref_of s phy). by rewrite u32_small by lia.
Qed.

Lemma incref_run s phy : page_ok phy → 0 ≤ ref_of s phy < 2 ^ 32 - 1 →
  incref phy s = Ok tt (with_ref phy (ref_of s phy + 1) s).
Proof.
  intros Hp Hr. unfold incref. rewrite bad_page_ok by done. unfold modify, with_ref.
  change (run_ref (run_at (k_kmem s) (phy / PGSIZE))) with (ref_of s phy). by rewrite u32_small by lia.
Qed.

(** ** Copy on write *)

(** The page at [addr] became [new], a copy of [phy]. *)
Record cow_copied (root addr phy new e : Z) (fl : list Z) (s s' : kstate) : Prop := {
  cw_vm : vm_ok s' fl root;
  cw_leaf va : 0 ≤ va < MAXVA → leaf (ent (k_mem s')) root va =
    if decide (PGROUNDDOWN addr ≤ va < PGROUNDDOWN addr + PGSIZE) then Some (mk_pte new (Z.lor (PTE_FLAGS e) PTE_W))
    else leaf (ent (k_mem s)) root va;
  cw_bytes i : 0 ≤ i < PGSIZE → ld8 (k_mem s') (new + i) = ld8 (k_mem s) (phy + i);
  cw_mem a : ¬ in_page new a → (∀ q, is_table (ent (k_mem s)) root q → ¬ in_page q a) →
    ld8 (k_mem s') a = ld8 (k_mem s) a;
  cw_ref q : page_ok q → ref_of s' q =
    if decide (q = new) then 1 else if decide (q = phy) then ref_of s q - 1 else ref_of s q;
  cw_rest : same_rest s s' }.

Lemma store_tables s fl root va t0 v :
  vm_ok s fl root → tbl0 (ent (k_mem s)) root va = Some t0 → 0 ≤ v < 2 ^ 64 →
  let s' := set_mem (st64 (k_mem s) (t0 + 8 * PX 0 va) v) s in
  (∀ va', tbl0 (ent (k_mem s')) root va' = tbl0 (ent (k_mem s)) root va') ∧
  ∀ a, ¬ in_page t0 a → ld8 (k_mem s') a = ld8 (k_mem s) a.
Proof.
  intros V H0 Hv s'. assert (page_ok t0) as Hok by (eapply table_ok; [done|right; right; eauto]).
  assert (0 ≤ PX 0 va < 512) as Hi by by apply PX_range.
  assert (put_entry (ent (k_mem s)) (ent (k_mem s')) t0 (PX 0 va) v) as HE by (intros q j Hq Hj; by apply ent_st64).
  split; [by eapply put_tbl0; [apply V|..]|].
  intros a Ha. unfold s'. autorewrite with kst. apply ld8_st64_out. unfold in_page, PGSIZE in *. lia.
Qed.

(** The address and its page walk to the same entry. *)
Lemma walk_page root addr E : 0 ≤ addr < MAXVA →
  let a := PGROUNDDOWN addr in
  0 ≤ a ∧ a + PGSIZE ≤ MAXVA ∧ a mod PGSIZE = 0 ∧ tbl0 E root a = tbl0 E root addr ∧ PX 0 a = PX 0 addr ∧
  ∀ va, 0 ≤ va < MAXVA → same_entry va addr ↔ a ≤ va < a + PGSIZE.
Proof.
  intros H a. assert (a = addr / PGSIZE * PGSIZE) as Ea by (unfold a; rewrite PGROUNDDOWN_eq by lia; pg).
  assert (0 ≤ a ∧ a + PGSIZE ≤ MAXVA ∧ a mod PGSIZE = 0) as (H1 & H2 & H3) by (split_and!; pgd).
  assert (same_entry a addr) as (D2 & D1 & D0) by (apply same_entry_page; pgd).
  split_and!; [done..|by unfold tbl0, tbl1; rewrite D2, D1|done|].
  intros va Hva. rewrite same_entry_page by done. pgd.
Qed.

Lemma load_pte_run q s : q ≠ 0 → load_pte q s = Ok (ld64 (k_mem s) q) s.
Proof. intros H. unfold load_pte. by rewrite (proj2 (Z.eqb_neq _ _) H). Qed.

Lemma store_pte_run q v s : q ≠ 0 → store_pte q v s = Ok tt (set_mem (st64 (k_mem s) q v) s).
Proof. intros H. unfold store_pte. by rewrite (proj2 (Z.eqb_neq _ _) H). Qed.

(** The entry of [addr] is replaced by one for [new]: cleared, then mapped. *)
Lemma remap_run p s fl root addr new e (k : K unit) :
  vm_ok s fl root → 0 ≤ addr < MAXVA → leaf (ent (k_mem s)) root addr = Some e → page_ok new →
  ∃ s' t0, tbl0 (ent (k_mem s)) root addr = Some t0 ∧
    (pte ← walk root addr false; e ← load_pte pte;
     store_pte pte (Z.land e (u64 (Z.lnot PTE_V)));;
     e ← load_pte pte;
     r ← mappages root (PGROUNDDOWN addr) PGSIZE new (Z.lor (PTE_FLAGS e) PTE_W);
     when (r <? 0) (kfree new;; setkilled p);; k) s = k s' ∧
    vm_ok s' fl root ∧ vm_step root s fl s' fl ∧ k_kmem s' = k_kmem s ∧
    (∀ va, 0 ≤ va < MAXVA → leaf (ent (k_mem s')) root va =
       if decide (PGROUNDDOWN addr ≤ va < PGROUNDDOWN addr + PGSIZE)
       then Some (mk_pte new (Z.lor (PTE_FLAGS e) PTE_W)) else leaf (ent (k_mem s)) root va) ∧
    ∀ a, ¬ in_page t0 a → ld8 (k_mem s') a = ld8 (k_mem s) a.
Proof.
  intros V Ha Hl Hn. destruct (leaf_some _ _ _ _ Hl) as (t0 & H0 & He & _). unfold ent in He.
  pose proof (ld64_range (k_mem s) (t0 + 8 * PX 0 addr)) as Hr. rewrite He in Hr.
  destruct (land_lnot_V e Hr) as (Hr' & Hv' & Hf' & Hfe). set (e' := Z.land e _) in *.
  destruct (walk_present s fl root addr t0 false V Ha H0) as [E1 Hnz].
  destruct (store_leaf s fl root addr t0 e' V H0 Hr') as (V1 & St1 & Hl1).
  destruct (store_tables s fl root addr t0 e' V H0 Hr') as (Ht1 & Hm1).
  set (s1 := set_mem (st64 (k_mem s) (t0 + 8 * PX 0 addr) e') s) in *.
  destruct (walk_page root addr (ent (k_mem s1)) Ha) as (A1 & A2 & A3 & A4 & A5 & A6). set (a := PGROUNDDOWN addr) in *.
  assert (tbl0 (ent (k_mem s1)) root a = Some t0) as H0a by by rewrite A4, Ht1.
  set (perm := Z.lor (PTE_FLAGS e') PTE_W).
  assert (0 ≤ perm < 1024) as Hperm.
  { unfold perm. change PTE_W with 4. assert (0 ≤ PTE_FLAGS e' < 2 ^ 10) as Hq by exact Hf'.
    apply (lor_range 10 _ 4); [done|exact Hq|done]. }
  destruct (page_ok_hi new Hn) as (Hhi & _). destruct (mk_pte_ok new perm Hhi Hperm) as (Hpr & Hpv & _).
  destruct (store_leaf s1 fl root a t0 (mk_pte new perm) V1 H0a Hpr) as (V2 & St2 & Hl2).
  destruct (store_tables s1 fl root a t0 (mk_pte new perm) V1 H0a Hpr) as (_ & Hm2).
  eexists _, t0. split; [done|]. split; [|split_and!; [exact V2|by eapply vm_step_trans|done|..]].
  - rewrite (bind_ok _ _ _ _ _ E1), (bind_ok _ _ _ _ _ (load_pte_run _ _ Hnz)), He. fold e'.
    rewrite (bind_ok _ _ _ _ _ (store_pte_run _ _ _ Hnz)). fold s1.
    rewrite (bind_ok _ _ _ _ _ (load_pte_run _ _ Hnz)).
    assert (ld64 (k_mem s1) (t0 + 8 * PX 0 addr) = e') as -> by by apply ld64_st64_eq.
    rewrite (bind_ok _ _ _ _ _ (mappages_present s1 fl root a t0 new perm V1 A1 A2 A3 H0a
      ltac:(rewrite Hl1, decide_True, Hv' by (apply A6; pg); done))). done.
  - intros va Hva. rewrite Hl2, Hpv, Hl1. unfold perm. rewrite (mk_pte_V new _ _ Hfe).
    assert (same_entry va a ↔ same_entry va addr) as Hse.
    { rewrite A6, same_entry_range by (done || pg). done. }
    destruct (decide (a ≤ va < a + PGSIZE)) as [D|D]; [rewrite decide_True by (by apply Hse, A6); done|].
    rewrite !decide_False; [done|rewrite ?Hse, A6; done..].
  - intros b Hb. rewrite Hm2, Hm1 by done. done.
Qed.

(** The fresh page as a copy of [phy]. *)
Lemma copy_fresh s new fl root phy :
  vm_ok s (new :: fl) root → page_ok phy → phy ∉ new :: fl → ¬ is_table (ent (k_mem s)) root phy →
  let m := memmove (k_mem (allocated new s)) new phy PGSIZE in
  kmemmove new phy PGSIZE (allocated new s) = Ok tt (set_mem m (allocated new s)) ∧
  (∀ a, ¬ in_page new a → ld8 m a = ld8 (k_mem s) a) ∧
  ∀ i, 0 ≤ i < PGSIZE → ld8 m (new + i) = ld8 (k_mem s) (phy + i).
Proof.
  intros V Hp Hn Ht m. assert (page_ok new) as Hnew by (eapply zone_ok; [done|left; by apply elem_of_cons; left]).
  pose proof (page_ok_pos _ Hnew). pose proof (page_ok_pos _ Hp). apply not_elem_of_cons in Hn as [Hn _].
  split_and!; [apply kmemmove_run; lia|..].
  - intros a Ha. unfold m. rewrite ld8_memmove, decide_False by (done || pg). by apply allocated_mem.
  - intros i Hi. unfold m. rewrite ld8_memmove, decide_True by pg. replace (phy + (new + i - new)) with (phy + i) by lia.
    apply allocated_mem. intros D. apply Hn. apply (in_page_eq _ _ (phy + i)); [done..|unfold in_page; pg|done].
Qed.

(** A page with other references: the copying branch. *)
Lemma cow_copy_run p s new fl addr e :
  let root := p_pagetable (proc_at s p) in let phy := PTE2PA e in
  vm_ok s (new :: fl) root → 0 ≤ addr < MAXVA → leaf (ent (k_mem s)) root addr = Some e →
  page_ok phy → phy ∉ new :: fl → ¬ is_table (ent (k_mem s)) root phy → 1 < ref_of s phy < 2 ^ 31 →
  ∃ s', cow_fault p addr phy s = Ok tt s' ∧ cow_copied root addr phy new e fl s s'.
Proof.
  intros root phy V Ha Hl Hp Hn Ht Hr. unfold cow_fault.
  rewrite (bind_ok _ _ _ _ _ (eq_refl : getref phy s = Ok (ref_of s phy) s)). cbv zeta. rewrite s32_small by lia.
  rewrite (bind_ok _ _ _ _ _ (eq_refl : getp p s = Ok (proc_at s p) s)). fold root.
  rewrite (proj2 (Z.gtb_lt _ 1)), (proj2 (Z.eqb_neq _ 1)) by lia. cbn [when].
  assert (page_ok new) as Hnew by (eapply zone_ok; [done|left; by apply elem_of_cons; left]).
  pose proof (page_ok_pos _ Hnew) as Hn0. destruct (copy_fresh s new fl root phy V Hp Hn Ht) as (Em & Hm & Hb).
  set (m := memmove _ _ _ _) in *. set (s1 := set_mem m (allocated new s)) in *.
  destruct (fresh_vm s fl root new m V Hm) as (V1 & Hc1 & Hl1 & Ht1). fold s1 in V1, Hc1, Hl1, Ht1.
  destruct (remap_run p s1 fl root addr new e (decref phy) V1 Ha ltac:(by rewrite (proj2 (Hl1 addr))) Hnew)
    as (s2 & t0 & H0 & E2 & V2 & St2 & Hk2 & Hl2 & Hm2).
  assert (is_table (ent (k_mem s)) root t0) as Htt by (apply Ht1; right; right; eauto).
  assert (∀ q, page_ok q → ref_of s2 q = if decide (q = new) then 1 else ref_of s q) as Hr2.
  { intros q Hq. unfold ref_of at 1. rewrite Hk2. by apply (ref_of_allocated new s q). }
  apply not_elem_of_cons in Hn as [Hpn Hpf].
  assert (ref_of s2 phy = ref_of s phy) as Hrp by (by rewrite Hr2, decide_False).
  pose proof (decref_run s2 phy Hp ltac:(lia)) as E3. rewrite Hrp in E3.
  eexists. split.
  { erewrite bind_ok; [done|]. rewrite (bind_ok _ _ _ _ _ (kalloc_run_cons s new fl (vo_free _ _ _ V))).
    rewrite (proj2 (Z.eqb_neq new 0)) by lia. rewrite (bind_ok _ _ _ _ _ (eq_refl : when false _ _ = Ok tt _)).
    rewrite (bind_ok _ _ _ _ _ Em). fold s1. rewrite E2. exact E3. }
  split.
  - apply with_ref_ok; [done..|]. intros D.
    destruct (vs_zone _ _ _ _ _ St2 phy (or_intror D)) as [?|D']; [done|by apply Ht, Ht1].
  - intros va Hva. change (k_mem (with_ref phy _ s2)) with (k_mem s2). rewrite Hl2, (proj2 (Hl1 va)) by done. done.
  - intros i Hi. change (k_mem (with_ref phy _ s2)) with (k_mem s2). rewrite Hm2; [by apply Hb|]. intros D. apply Hc1, Ht1.
    rewrite (in_page_eq new t0 (new + i)); [done|done|by apply (table_ok s _ root t0 V)|unfold in_page; pg|done].
  - intros a Han Hat. change (k_mem (with_ref phy _ s2)) with (k_mem s2). rewrite Hm2 by (by apply Hat). by apply Hm.
  - intros q Hq. rewrite ref_of_with_ref, Hr2 by done.
    destruct (decide (q = phy)) as [->|]; [|done]. by rewrite decide_False by done.
  - apply (same_rest_trans _ s2); [|unfold with_ref; auto with xv6].
    exact (same_rest_trans _ s1 _ (vs_rest _ _ _ _ _ (fresh_step s fl root new m V Hm)) (vs_rest _ _ _ _ _ St2)).
Qed.

(** The last reference: the entry only becomes writable. *)
Record cow_owned (root addr e : Z) (fl : list Z) (s s' : kstate) : Prop := {
  co_vm : vm_ok s' fl root;
  co_leaf va : 0 ≤ va < MAXVA → leaf (ent (k_mem s')) root va =
    if decide (PGROUNDDOWN addr ≤ va < PGROUNDDOWN addr + PGSIZE) then Some (Z.lor e PTE_W)
    else leaf (ent (k_mem s)) root va;
  co_mem a : (∀ q, is_table (ent (k_mem s)) root q → ¬ in_page q a) → ld8 (k_mem s') a = ld8 (k_mem s) a;
  co_kmem : k_kmem s' = k_kmem s;
  co_rest : same_rest s s' }.

Lemma has_V_lor_W e : has PTE_V (Z.lor e PTE_W) = has PTE_V e.
Proof. unfold has. rewrite Z.land_lor_distr_l. change (Z.land PTE_W PTE_V) with 0. by rewrite Z.lor_0_r. Qed.

Lemma cow_own_run p s fl addr e :
  let root := p_pagetable (proc_at s p) in let phy := PTE2PA e in
  vm_ok s fl root → 0 ≤ addr < MAXVA → leaf (ent (k_mem s)) root addr = Some e → ref_of s phy = 1 →
  ∃ s', cow_fault p addr phy s = Ok tt s' ∧ cow_owned root addr e fl s s'.
Proof.
  intros root phy V Ha Hl Hr. unfold cow_fault.
  rewrite (bind_ok _ _ _ _ _ (eq_refl : getref phy s = Ok (ref_of s phy) s)). cbv zeta. rewrite Hr.
  rewrite (bind_ok _ _ _ _ _ (eq_refl : getp p s = Ok (proc_at s p) s)). fold root.
  rewrite (bind_ok _ _ _ _ _ (eq_refl : when false _ _ = Ok tt _)). cbn [when].
  destruct (leaf_some _ _ _ _ Hl) as (t0 & H0 & He & Hv). unfold ent in He.
  pose proof (ld64_range (k_mem s) (t0 + 8 * PX 0 addr)) as Hre. rewrite He in Hre.
  assert (0 ≤ Z.lor e PTE_W < 2 ^ 64) as Hrw by by apply (lor_range 64).
  destruct (walk_present s fl root addr t0 false V Ha H0) as [E1 Hnz].
  destruct (store_leaf s fl root addr t0 _ V H0 Hrw) as (V1 & St1 & Hl1).
  destruct (store_tables s fl root addr t0 _ V H0 Hrw) as (_ & Hm1).
  destruct (walk_page root addr (ent (k_mem s)) Ha) as (_ & _ & _ & _ & _ & A6).
  eexists. split.
  { change (s32 1 =? 1) with true. cbn [when].
    rewrite (bind_ok _ _ _ _ _ E1), (bind_ok _ _ _ _ _ (load_pte_run _ _ Hnz)), He. by apply store_pte_run. }
  split; [exact V1| | |done|apply St1].
  - intros va Hva. rewrite Hl1, has_V_lor_W, Hv. pose proof (A6 va Hva) as Hs. repeat case_decide; tauto.
  - intros a Hat. apply Hm1, Hat. right; right; eauto.
Qed.

(** C18: a write fault on a copy-on-write page.  With other references to the
    frame the faulting page gets a fresh frame holding the same bytes, writable
    and with the other flags unchanged, and one reference to the old frame is
    dropped; with the last reference the entry becomes writable in place.  No
    other page of the address space, no byte outside the tables and the fresh
    frame and no other count changes.  When no frame is free the code goes on
    after marking the process killed and writes through a null pointer. *)
Theorem cow_fault_correct p s fl addr e :
  let root := p_pagetable (proc_at s p) in let phy := PTE2PA e in
  vm_ok s fl root → 0 ≤ addr < MAXVA → leaf (ent (k_mem s)) root addr = Some e →
  page_ok phy → phy ∉ fl → ¬ is_table (ent (k_mem s)) root phy → 0 < ref_of s phy < 2 ^ 31 →
  if decide (ref_of s phy = 1) then ∃ s', cow_fault p addr phy s = Ok tt s' ∧ cow_owned root addr e fl s s'
  else match fl with
       | new :: fl' => ∃ s', cow_fault p addr phy s = Ok tt s' ∧ cow_copied root addr phy new e fl' s s'
       | [] => ∃ s', cow_fault p addr phy s = Stop Faults s'
       end.
Proof.
  intros root phy V Ha Hl Hp Hn Ht Hr. case_decide as D; [by apply cow_own_run|].
  destruct fl as [|new fl]; [|apply cow_copy_run; [done..|unfold phy in *; lia]].
  unfold cow_fault. rewrite (bind_ok _ _ _ _ _ (eq_refl : getref phy s = Ok (ref_of s phy) s)). cbv zeta. rewrite s32_small by lia.
  rewrite (bind_ok _ _ _ _ _ (eq_refl : getp p s = Ok (proc_at s p) s)). fold root.
  rewrite (proj2 (Z.gtb_lt _ 1)) by lia. cbn [when]. eexists. apply bind_stop.
  rewrite (bind_ok _ _ _ _ _ (kalloc_run_nil s (vo_free _ _ _ V))). done.
Qed.

(** ** Sharing a page at [fork] *)

(** The state with process [np] killed unless [ok]. *)
Definition killed_unless (ok : bool) (np : nat) (s : kstate) : kstate :=
  if ok then s else set_procs (alter (set_killed 1) np (k_procs s)) s.

Lemma killed_unless_vm ok np s fl root : vm_ok s fl root → vm_ok (killed_unless ok np s) fl root.
Proof. intros [? ? ?]. destruct ok; by split. Qed.

Lemma killed_unless_mem ok np s : k_mem (killed_unless ok np s) = k_mem s.
Proof. by destruct ok. Qed.

Lemma killed_unless_rest ok np s s' : same_rest s s' → same_rest (killed_unless ok np s) (killed_unless ok np s').
Proof. destruct ok; [done|]. unfold same_rest. intros ->. done. Qed.

(** The page [va] of [root], in frame [phy], is also the page [ca] of [child]
    (unless memory ran out); both entries have the permissions [prot]. *)
Record page_shared (priv ok : bool) (np : nat) (root child va ca phy prot : Z) (s : kstate) (fl : list Z) (s' : kstate)
    (fl' : list Z) : Prop := {
  ps_parent : vm_ok s' fl' root;
  ps_child : vm_ok s' fl' child;
  ps_apart : apart s' fl' root child;
  ps_pleaf x : 0 ≤ x < MAXVA → leaf (ent (k_mem s')) root x =
    if decide (priv = true ∧ va ≤ x < va + PGSIZE) then Some (mk_pte phy (Z.lor prot PTE_U)) else leaf (ent (k_mem s)) root x;
  ps_cleaf x : 0 ≤ x < MAXVA → leaf (ent (k_mem s')) child x =
    if decide (ok = true ∧ ca ≤ x < ca + PGSIZE) then Some (mk_pte phy (Z.lor prot PTE_U)) else leaf (ent (k_mem s)) child x;
  ps_mem a : (∀ q, zone s fl child q → ¬ in_page q a) → (∀ q, is_table (ent (k_mem s)) root q → ¬ in_page q a) →
    ld8 (k_mem s') a = ld8 (k_mem s) a;
  ps_ref q : page_ok q → q ∉ fl → ref_of s' q = if decide (q = phy) then ref_of s q + 1 else ref_of s q;
  ps_rest : same_rest (killed_unless ok np s) s';
  ps_ok : ok = false → fl' = [] }.

(** The tables of two address spaces are apart both ways. *)
Lemma apart_sym s fl root child : vm_ok s fl child → apart s fl root child → apart s fl child root.
Proof.
  intros V H q Hq [Hz|Hz]; [by apply (wf_page _ _ _ (vo_wf _ _ _ V)) in Hz|]. apply (H q Hz). by right.
Qed.

(** [mappages] of one page with memory possibly running out. *)
Lemma map_page_run s fl root a pa perm :
  vm_ok s fl root → 0 ≤ a → a + PGSIZE ≤ MAXVA → a mod PGSIZE = 0 → page_ok pa → 0 ≤ perm < 1024 →
  leaf (ent (k_mem s)) root a = None →
  ∃ (ok : bool) s' fl', mappages root a PGSIZE pa perm s = Ok (if ok then 0 else -1) s' ∧ vm_ok s' fl' root ∧
    vm_step root s fl s' fl' ∧ (ok = false → fl' = []) ∧
    ∀ x, 0 ≤ x < MAXVA → leaf (ent (k_mem s')) root x =
      if decide (ok = true ∧ a ≤ x < a + PGSIZE) then Some (mk_pte pa perm) else leaf (ent (k_mem s)) root x.
Proof.
  intros V Ha Hm Hal Hp Hperm Hn. destruct (page_ok_hi pa Hp) as (Hhi & _). pose proof (page_ok_pos pa Hp) as Hpos.
  pose proof (PGROUNDDOWN_id a Ha Hal) as Hd.
  assert (PGROUNDDOWN (a + PGSIZE - 1) = a) as Hd' by (rewrite PGROUNDDOWN_eq by pg; pgd).
  destruct (mappages_run s fl root a PGSIZE pa perm) as (r & s' & fl' & k & E & V' & St & Hmp & Hr);
    [done|done|done|done|lia|unfold PHYSTOP, KERNBASE in Hpos; pg|done| |].
  { rewrite Hd, Hd'. intros x Hx. rewrite (leaf_same_entry _ _ x a); [done|]. apply same_entry_range; pg || done. }
  assert (pages_of a PGSIZE = 1) as Hpo by (unfold pages_of; pgd). rewrite Hpo, Hd in *.
  destruct Hr as [[-> ->]|(-> & -> & Hk)]; [exists true|exists false]; eexists _, _; (split_and!; [done..|]); intros x Hx.
  - rewrite Hmp, Z.mul_1_l by done. repeat case_decide; try tauto. rewrite Z.div_small by pg. do 2 f_equal. lia.
  - rewrite Hmp, !decide_False by (done || naive_solver || pg). done.
Qed.

(** Overwriting the entry of a mapped page. *)
Lemma protect_run (b : bool) s fl root va e v :
  vm_ok s fl root → 0 ≤ va → va + PGSIZE ≤ MAXVA → va mod PGSIZE = 0 → leaf (ent (k_mem s)) root va = Some e →
  0 ≤ v < 2 ^ 64 → has PTE_V v = true →
  ∃ s', when b (entry ← walk root va false; store_pte entry v) s = Ok tt s' ∧ vm_ok s' fl root ∧
    vm_step root s fl s' fl ∧ k_kmem s' = k_kmem s ∧
    (∀ x, 0 ≤ x < MAXVA → leaf (ent (k_mem s')) root x =
       if decide (b = true ∧ va ≤ x < va + PGSIZE) then Some v else leaf (ent (k_mem s)) root x) ∧
    ∀ a, (∀ q, is_table (ent (k_mem s)) root q → ¬ in_page q a) → ld8 (k_mem s') a = ld8 (k_mem s) a.
Proof.
  intros V Ha Hm Hal Hl Hv Hvv. destruct b; cbn [when].
  2:{ exists s. split_and!; [done|done|apply vm_step_refl|done| |done]. intros x _. by rewrite decide_False by naive_solver. }
  destruct (leaf_some _ _ _ _ Hl) as (t0 & H0 & _ & _).
  destruct (walk_present s fl root va t0 false V ltac:(pg) H0) as [E1 Hnz].
  destruct (store_leaf s fl root va t0 v V H0 Hv) as (V1 & St1 & Hl1).
  destruct (store_tables s fl root va t0 v V H0 Hv) as (_ & Hm1).
  eexists. rewrite (bind_ok _ _ _ _ _ E1), (store_pte_run _ _ _ Hnz). split_and!; [done|exact V1|exact St1|done|..].
  - intros x Hx. rewrite Hl1, Hvv. pose proof (same_entry_range x va Hx ltac:(pg) Hal). repeat case_decide; tauto.
  - intros a Hat. apply Hm1, Hat. right; right; eauto.
Qed.

Lemma pte_or phy prot : Z.lor (Z.lor (Z.lor (PA2PTE phy) prot) PTE_V) PTE_U = mk_pte phy (Z.lor prot PTE_U).
Proof. unfold mk_pte. rewrite <- !Z.lor_assoc. by do 2 f_equal. Qed.

(** The parent's entry of a private page, and the count. *)
Lemma share_tail (priv ok : bool) np s fl root child va phy prot e :
  vm_ok s fl root → vm_ok s fl child → apart s fl root child →
  0 ≤ va → va + PGSIZE ≤ MAXVA → va mod PGSIZE = 0 → leaf (ent (k_mem s)) root va = Some e →
  0 ≤ Z.lor prot PTE_U < 1024 → page_ok phy → ¬ zone s fl child phy → ¬ is_table (ent (k_mem s)) root phy →
  0 ≤ ref_of s phy < 2 ^ 32 - 1 →
  ∃ s', (when priv (entry ← walk root va false;
           store_pte entry (Z.lor (Z.lor (Z.lor (PA2PTE phy) prot) PTE_V) PTE_U));; incref phy) (killed_unless ok np s) = Ok tt s' ∧
    vm_ok s' fl root ∧ vm_ok s' fl child ∧ apart s' fl root child ∧
    (∀ x, 0 ≤ x < MAXVA → leaf (ent (k_mem s')) root x =
       if decide (priv = true ∧ va ≤ x < va + PGSIZE) then Some (mk_pte phy (Z.lor prot PTE_U)) else leaf (ent (k_mem s)) root x) ∧
    (∀ x, leaf (ent (k_mem s')) child x = leaf (ent (k_mem s)) child x) ∧
    (∀ a, (∀ q, is_table (ent (k_mem s)) root q → ¬ in_page q a) → ld8 (k_mem s') a = ld8 (k_mem s) a) ∧
    (∀ q, page_ok q → ref_of s' q = if decide (q = phy) then ref_of s q + 1 else ref_of s q) ∧
    same_rest (killed_unless ok np s) s'.
Proof.
  intros V Vc Hap H1 H2 H3 Hl Hpu Hp Hz Ht Hr. rewrite pte_or.
  destruct (page_ok_hi phy Hp) as (Hhi & _). destruct (mk_pte_ok phy _ Hhi Hpu) as (Hvr & Hvv & _).
  pose proof (killed_unless_vm ok np s fl root V) as V2. pose proof (killed_unless_vm ok np s fl child Vc) as Vc2.
  assert (k_kmem (killed_unless ok np s) = k_kmem s) as Ek by by destruct ok.
  pose proof (killed_unless_mem ok np s) as Em. set (s2 := killed_unless ok np s) in *. clearbody s2.
  assert (apart s2 fl child root) as Hap2.
  { apply apart_sym; [done|]. unfold apart, zone. rewrite Em. exact Hap. }
  destruct (protect_run priv s2 fl root va e _ V2 H1 H2 H3 ltac:(by rewrite Em) Hvr Hvv) as (s3 & E3 & V3 & St3 & Hk3 & Hl3 & Hm3).
  destruct (other_table s2 fl s3 fl child root Vc2 V2 Hap2 V3 St3) as (Vc3 & Hap3 & Hlc3 & Htc).
  assert (∀ q, ref_of s3 q = ref_of s q) as Hr3 by (intros q; unfold ref_of; by rewrite Hk3, Ek).
  pose proof (incref_run s3 phy Hp ltac:(by rewrite Hr3)) as E4. rewrite Hr3 in E4.
  eexists. split; [rewrite (bind_ok _ _ _ _ _ E3); exact E4|].
  assert (phy ∉ fl) as Hpf by (intros ?; apply Hz; by left).
  assert (¬ is_table (ent (k_mem s3)) root phy) as Ht3.
  { intros D. destruct (vs_zone _ _ _ _ _ St3 phy (or_intror D)) as [?|D']; [done|]. rewrite Em in D'. done. }
  assert (¬ is_table (ent (k_mem s3)) child phy) as Htc3.
  { intros D%Htc. apply Hz. right. by rewrite <- Em. }
  change (k_mem (with_ref phy _ s3)) with (k_mem s3). rewrite Em in *. split_and!.
  - by apply with_ref_ok.
  - by apply with_ref_ok.
  - by apply (apart_sym s3).
  - exact Hl3.
  - intros x. apply Hlc3.
  - exact Hm3.
  - intros q Hq. rewrite ref_of_with_ref, Hr3 by done. by destruct (decide (q = phy)) as [->|].
  - apply (same_rest_trans _ s3); [apply (vs_rest _ _ _ _ _ St3)|unfold with_ref; auto with xv6].
Qed.

(** C17: [fork] shares a resident page of a mapped region: the frame of the
    parent's page is also mapped in the child, with the same permissions, and
    counted once more; for a private region neither entry is writable any
    more.  No byte outside the page tables and the free pages changes, and no
    other page of the two address spaces.  If memory for the child's tables
    runs out, the child is killed, but the frame is counted all the same. *)
Theorem fork_page_correct p np j0 j k s fl e :
  let root := p_pagetable (proc_at s p) in let child := p_pagetable (proc_at s np) in
  let v0 := vma_at s (VTable j0) in let v := vma_at s (VTable j) in
  let va := v_addr v0 + k in let ca := v_addr v + k in let phy := PTE2PA e in
  let prot := fork_prot (v_prot v0) (v_flags v0) in
  vm_ok s fl root → vm_ok s fl child → apart s fl root child →
  0 ≤ va → va + PGSIZE ≤ MAXVA → va mod PGSIZE = 0 → 0 ≤ ca → ca + PGSIZE ≤ MAXVA → ca mod PGSIZE = 0 →
  leaf (ent (k_mem s)) root va = Some e → has PTE_U e = true → leaf (ent (k_mem s)) child ca = None →
  page_ok phy → ¬ zone s fl child phy → ¬ is_table (ent (k_mem s)) root phy → 0 ≤ ref_of s phy < 2 ^ 32 - 1 →
  (v_flags v0 = MAP_PRIVATE → has PTE_W prot = false) ∧
  ∃ ok s' fl', fork_page p np j0 j k s = Ok tt s' ∧
    page_shared (v_flags v0 =? MAP_PRIVATE) ok np root child va ca phy prot s fl s' fl'.
Proof.
  intros root child v0 v va ca phy prot V Vc Hap H1 H2 H3 H4 H5 H6 Hl HU Hn Hp Hz Ht Hr.
  assert (0 ≤ prot < 8 ∧ (v_flags v0 = MAP_PRIVATE → has PTE_W prot = false)) as [Hprot Hw].
  { unfold prot, fork_prot. destruct (Z.eqb_spec (v_flags v0) MAP_PRIVATE); repeat case_match; split; intros; try done; by vm_compute. }
  split; [exact Hw|]. clear Hw. unfold fork_page.
  rewrite (bind_ok _ _ _ _ _ (eq_refl : getp p s = Ok (proc_at s p) s)). fold root.
  rewrite (bind_ok _ _ _ _ _ (eq_refl : getv (VTable j0) s = Ok v0 s)). fold va. rewrite (u64_small va) by pg.
  rewrite (bind_ok _ _ _ _ _ (walkaddr_run s fl root va V H1)), (proj2 (Z.ltb_lt va MAXVA)), Hl, HU by pg. fold phy prot.
  pose proof (page_ok_pos phy Hp) as Hpos. rewrite (proj2 (Z.eqb_neq phy 0)) by lia. cbn [negb when].
  rewrite (bind_ok _ _ _ _ _ (eq_refl : getp np s = Ok (proc_at s np) s)). fold child.
  rewrite (bind_ok _ _ _ _ _ (eq_refl : getv (VTable j) s = Ok v s)). fold ca.
  rewrite (u64_small ca), (PGROUNDDOWN_id ca) by (done || pg). clearbody root child v0 v va ca prot.
  assert (0 ≤ Z.lor prot PTE_U < 1024) as Hpu by (apply (lor_range 10); [done|lia|done]).
  destruct (page_ok_hi phy Hp) as (Hhi & _). destruct (mk_pte_ok phy _ Hhi Hpu) as (Hvr & Hvv & _).
  destruct (map_page_run s fl child ca phy _ Vc H4 H5 H6 Hp Hpu Hn) as (ok & s1 & fl1 & E1 & V1 & St1 & Hok & Hl1).
  destruct (other_table s fl s1 fl1 root child V Vc Hap V1 St1) as (Vr1 & Hap1 & Hlr1 & Htr1).
  rewrite (bind_ok _ _ _ _ _ E1).
  rewrite (bind_ok _ _ s1 tt (killed_unless ok np s1)) by (by destruct ok).
  destruct (share_tail (v_flags v0 =? MAP_PRIVATE) ok np s1 fl1 root child va phy prot e)
    as (s' & E' & Vr' & Vc' & Ha' & Hlr' & Hlc' & Hm' & Hr' & Hs'); [done|done|done|done|done|done|by rewrite (proj2 (Hlr1 va))|done|done|..].
  { intros D. by apply Hz, (vs_zone _ _ _ _ _ St1). }
  { by rewrite Htr1. }
  { rewrite (vs_ref _ _ _ _ _ St1); [done|done|]. intros D. apply Hz. by left. }
  exists ok, s', fl1. split; [exact E'|]. split; [done..| | | | | |done].
  - intros x Hx. by rewrite Hlr', (proj2 (Hlr1 x)).
  - intros x Hx. by rewrite Hlc', Hl1.
  - intros a Ha1 Ha2. rewrite Hm', (vs_mem _ _ _ _ _ St1 a Ha1); [done|]. intros q Hq. by apply Ha2, Htr1.
  - intros q Hq Hqf. by rewrite Hr', (vs_ref _ _ _ _ _ St1).
  - eapply same_rest_trans; [apply killed_unless_rest, (vs_rest _ _ _ _ _ St1)|done].
Qed.
End cow.

(** ** The theorems at work *)

#[local] Existing Instance small_linker.

(** Processes 0 and 1, each with a private region of one page at address 0. *)
Definition family (s : kstate) : kstate :=
  let v := mkVma true None 0 None 0 PROT_RW MAP_PRIVATE PGSIZE 0 0 in
  set_kvmas [v; v] (set_procs [set_pagetable ex_root proc0; set_pagetable ex_child proc0] s).

Lemma family_vm s fl root : vm_ok s fl root → vm_ok (family s) fl root.
Proof. intros [? ? ?]. by split. Qed.

Lemma ex_family_ok : ∃ fl e, let s := family ex_forking in
  vm_ok s fl ex_root ∧ vm_ok s fl ex_child ∧ apart s fl ex_root ex_child ∧
  (∀ va, leaf (ent (k_mem s)) ex_child va = None) ∧
  leaf (ent (k_mem s)) ex_root 0 = Some e ∧ has PTE_U e = true ∧ page_ok (PTE2PA e) ∧ (PTE2PA e ∉ fl) ∧
  ¬ zone s fl ex_child (PTE2PA e) ∧ ¬ is_table (ent (k_mem s)) ex_root (PTE2PA e) ∧
  ref_of s (PTE2PA e) = 1.
Proof.
  destruct ex_forking_ok as (fl & V & [W _ _ _] & Hap & Hsrc & Hn & e & Hl & (F1 & F2 & F3 & F4 & _) & HU).
  assert (0 ≤ 0 < PGSIZE) as H0 by pg.
  destruct (Hsrc 0 e H0 Hl) as (_ & Hz & _). exists fl, e. revert V W Hap Hn Hl Hz F3 F4. generalize ex_forking as s.
  intros s V W Hap Hn Hl Hz F3 F4. split_and!; [by apply family_vm|by apply family_vm|done..].
Qed.

Lemma fork_page_correct_witness : ∃ fl e, let s := family ex_forking in
  leaf (ent (k_mem s)) ex_root 0 = Some e ∧
  ∃ ok s' fl', fork_page 0 1 0 1 0 s = Ok tt s' ∧
    page_shared true ok 1 ex_root ex_child 0 0 (PTE2PA e) PTE_R s fl s' fl'.
Proof.
  destruct ex_family_ok as (fl & e & H). exists fl, e. revert H. generalize ex_forking as s0.
  intros s0 (V & Vc & Hap & Hn & Hl & HU & Hp & Hf & Hz & Ht & Hr). split; [exact Hl|].
  refine (proj2 (fork_page_correct 0 1 0 1 0 (family s0) fl e V Vc Hap _ _ _ _ _ _ Hl HU (Hn 0) Hp Hz Ht _));
    [done|change (0 + PGSIZE ≤ MAXVA); pg|done|done|change (0 + PGSIZE ≤ MAXVA); pg|done|rewrite Hr; lia].
Defined.

Lemma cow_fault_correct_witness : ∃ fl e,
  let s := with_ref (PTE2PA e) 2 (family ex_forking) in
  leaf (ent (k_mem s)) ex_root 0 = Some e ∧
  match fl with
  | new :: fl' => ∃ s', cow_fault 0 0 (PTE2PA e) s = Ok tt s' ∧ cow_copied ex_root 0 (PTE2PA e) new e fl' s s'
  | [] => ∃ s', cow_fault 0 0 (PTE2PA e) s = Stop Faults s'
  end.
Proof.
  destruct ex_family_ok as (fl & e & H). exists fl, e. revert H. generalize ex_forking as s0.
  intros s0 (V & Vc & Hap & Hn & Hl & HU & Hp & Hf & Hz & Ht & Hr) s. split; [exact Hl|].
  assert (ref_of s (PTE2PA e) = 2) as H2 by (unfold s; rewrite ref_of_with_ref by exact Hp; by rewrite decide_True).
  pose proof (cow_fault_correct 0 s fl 0 e (with_ref_ok _ _ _ _ 2 V Hp Hf Ht) ltac:(pg) Hl Hp Hf Ht ltac:(rewrite H2; lia)) as H.
  rewrite H2 in H. exact H.
Defined.
