(* ===== verification/Exec.v ===== *)
(** Replacing a process's program: src/kernel/exec.c.  The segments of the ELF
    file are not read here: they become the text and data regions of the process
    and are paged in on demand ([Vma]). *)

From S2P Require Import Prelude Machine Str Types Proc ProcSpec Rely Sleeplock Kalloc Vm Bio Bytes Log Fs Dir Vma Pipe File ProcLife.

(** ** elf.h *)

Definition ELF_MAGIC : Z := 0x464C457F.
Definition ELF_PROG_LOAD : Z := 1.
Definition ELFHDR_SIZE : Z := 64.
Definition PROGHDR_SIZE : Z := 56.

Definition elf_magic (b : list Z) : Z := get32 0 b.
Definition elf_entry (b : list Z) : Z := get_le 8 24 b.
Definition elf_phoff (b : list Z) : Z := get_le 8 32 b.
Definition elf_phnum (b : list Z) : Z := get16 56 b.

Record proghdr : Type := mkPh {
  ph_type : Z; ph_flags : Z; ph_off : Z; ph_vaddr : Z; ph_filesz : Z; ph_memsz : Z }.
Definition get_proghdr (b : list Z) : proghdr :=
  mkPh (get32 0 b) (get32 4 b) (get_le 8 8 b) (get_le 8 16 b) (get_le 8 32 b) (get_le 8 40 b).

Definition flags2perm (flags : Z) : Z :=
  let perm := if negb (Z.land flags 1 =? 0) then PTE_X else 0 in
  if negb (Z.land flags 2 =? 0) then Z.lor perm PTE_W else perm.

(** What the loop over the program headers collects. *)
Record segments : Type := mkSegs {
  textsz : Z; textfilesz : Z; datasz : Z; datafilesz : Z; textinit : Z; textoff : Z; dataoff : Z }.
Definition segs0 : segments := mkSegs 0 0 0 0 0 (-1) (-1).

(** A loadable segment; [None] is [goto bad]. *)
Definition add_segment (g : segments) (ph : proghdr) : option segments :=
  if ph_memsz ph <? ph_filesz ph then None
  else if u64 (ph_vaddr ph + ph_memsz ph) <? ph_vaddr ph then None
  else if negb (ph_vaddr ph mod PGSIZE =? 0) then None
  else if flags2perm (ph_flags ph) =? PTE_X then
    let fresh := textoff g =? -1 in
    Some (mkSegs (u64 (textsz g + ph_memsz ph)) (u64 (textfilesz g + ph_filesz ph)) (datasz g) (datafilesz g)
      (if fresh then s32 (ph_vaddr ph) else textinit g) (if fresh then s32 (ph_off ph) else textoff g) (dataoff g))
  else if flags2perm (ph_flags ph) =? PTE_W then
    Some (mkSegs (textsz g) (textfilesz g) (u64 (datasz g + ph_memsz ph)) (u64 (datafilesz g + ph_filesz ph))
      (textinit g) (textoff g) (if dataoff g =? -1 then s32 (ph_off ph) else dataoff g))
  else Some g.

(** [for(last=s=path; *s; s++) if( *s == '/') last = s+1;] *)
Fixpoint last_elem (path last : list Z) : list Z :=
  match path with
  | [] => last
  | c :: s => last_elem s (if c =? SLASH then s else last)
  end.

Section exec.
Context `{L : Linker} `{D : Disk} `{W : Waits}.

(** [strlen] of a string in a page. *)
Definition kstrlen (a : Z) : K Z :=
  n ← gets (λ s, strlen (Z.to_nat PGSIZE) (k_mem s) a);
  match n with None => halt NoFuel | Some n => mret n end.

Fixpoint exec_headers (n : nat) (ip : nat) (off : Z) (g : segments) : K (option segments) :=
  match n with
  | O => mret (Some g)
  | S n' =>
      r ← readi_obj ip (u32 off) PROGHDR_SIZE;
      if negb (r.1 =? PROGHDR_SIZE) then mret None
      else
        let ph := get_proghdr r.2 in
        if negb (ph_type ph =? ELF_PROG_LOAD) then exec_headers n' ip (s32 (off + PROGHDR_SIZE)) g
        else
          match add_segment g ph with
          | None => mret None
          | Some g' => exec_headers n' ip (s32 (off + PROGHDR_SIZE)) g'
          end
  end.

(** The argument strings; the stack pointer and the pointers to the strings, or
    [None] for [goto bad]. *)
Fixpoint exec_args (argv : list Z) (argc pagetable sp stackbase : Z) (ustack : list Z)
    : K (option (Z * list Z)) :=
  match argv with
  | [] => mret (Some (sp, ustack))
  | a :: argv' =>
      if argc >=? MAXARG then mret None
      else
        len ← kstrlen a;
        let sp := u64 (sp - (len + 1)) in
        let sp := u64 (sp - sp mod 16) in
        if sp <? stackbase then mret None
        else
          r ← copyout check_vmas pagetable sp a (len + 1);
          if r <? 0 then mret None
          else exec_args argv' (argc + 1) pagetable sp stackbase (ustack ++ [sp])
  end.

(** [bad:] while the inode is still held. *)
Definition exec_bad_ip (ip : nat) (pagetable sz : Z) : K Z :=
  when (negb (pagetable =? 0)) (proc_freepagetable pagetable sz);;
  iunlockput (Some ip);;
  end_op;;
  mret (-1).
(** [bad:] afterwards. *)
Definition exec_bad (pagetable sz : Z) : K Z :=
  when (negb (pagetable =? 0)) (proc_freepagetable pagetable sz);;
  mret (-1).

(** The second half of [exec]: the stack and the switch to the new image. *)
Definition exec_image (p : nat) (path argv elf : list Z) (pagetable : Z) (g : segments) : K Z :=
  setp p (set_pticks 0);;
  let sz := u64 (PGROUNDUP (textsz g) + PGROUNDUP (datasz g)) in
  x ← getp p;
  let oldsz := p_sz x in
  let sz := PGROUNDUP sz in
  sz1 ← uvmalloc pagetable sz (u64 (sz + 2 * PGSIZE)) PTE_W;
  if sz1 =? 0 then exec_bad pagetable sz
  else
    let sz := sz1 in
    uvmclear pagetable (u64 (sz - 2 * PGSIZE));;
    let stackbase := u64 (sz - PGSIZE) in
    r ← exec_args argv 0 pagetable sz stackbase [];
    match r with
    | None => exec_bad pagetable sz
    | Some (sp, ustack) =>
        let argc := Z.of_nat (length ustack) in
        if argc >=? MAXARG then fault
        else
          let sp := u64 (sp - (argc + 1) * 8) in
          let sp := u64 (sp - sp mod 16) in
          if sp <? stackbase then exec_bad pagetable sz
          else
            r ← copyout_obj check_vmas pagetable sp (mjoin (le_split 8 <$> (ustack ++ [0])));
            if r <? 0 then exec_bad pagetable sz
            else
              tf_set p (TF_a 1) sp;;
              setp p (λ x, set_name (safestrcpy_bytes 16 (last_elem path path) (p_name x)) x);;
              x ← getp p;
              let oldpagetable := p_pagetable x in
              setp p (set_pagetable pagetable);;
              setp p (set_sz sz);;
              tf_set p TF_epc (elf_entry elf);;
              tf_set p TF_sp sp;;
              proc_freepagetable oldpagetable oldsz;;
              mret argc
    end.

(** [path] is the string, [argv] the addresses of the pages with the argument
    strings. *)
Definition exec (path argv : list Z) : K Z :=
  p ← curproc;
  begin_op;;
  o ← namei path;
  match o with
  | None => end_op;; mret (-1)
  | Some ip =>
      ilock (Some ip);;
      r ← readi_obj ip 0 ELFHDR_SIZE;
      let elf := r.2 in
      if negb (r.1 =? ELFHDR_SIZE) then exec_bad_ip ip 0 0
      else if negb (elf_magic elf =? ELF_MAGIC) then exec_bad_ip ip 0 0
      else
        pagetable ← proc_pagetable p;
        if pagetable =? 0 then exec_bad_ip ip 0 0
        else
          segs ← exec_headers (Z.to_nat (elf_phnum elf)) ip (s32 (elf_phoff elf)) segs0;
          match segs with
          | None => exec_bad_ip ip pagetable 0
          | Some g =>
              allocvmaelf p (s32 (textsz g)) (s32 (textfilesz g)) (Some ip) (textoff g) (u64 (textinit g)) true;;
              allocvmaelf p (s32 (datasz g)) (s32 (datafilesz g)) (Some ip) (dataoff g)
                (PGROUNDUP (u64 (textinit g + textsz g))) false;;
              _ ← idup ip;
              iunlockput (Some ip);;
              end_op;;
              exec_image p path argv elf pagetable g
          end
  end.
End exec.
