(* ===== verification/Sysargs.v ===== *)
(** System call arguments: the first part of src/kernel/syscall.c, and [argfd]
    and [fdalloc] of src/kernel/sysfile.c. *)

From S2P Require Import Prelude Machine Str Types Proc ProcSpec Rely Sleeplock Kalloc Vm Bio Bytes Log Fs Dir Vma Pipe File ProcLife.

Section args.
Context `{L : Linker} `{D : Disk} `{W : Waits}.

(** The value, or [None] for the result -1. *)
Definition fetchaddr (addr : Z) : K (option Z) :=
  p ← curproc;
  x ← getp p;
  if (addr >=? p_sz x) || (u64 (addr + 8) >? p_sz x) then mret None
  else
    r ← copyin_obj check_vmas (p_pagetable x) addr 8;
    if negb (r.1 =? 0) then mret None else mret (Some (le_combine r.2)).

(** [fetchstr] into an array of [max] bytes that is a local variable: the
    string, or [None] for -1. *)
Definition fetchstr (addr max : Z) : K (option (list Z)) :=
  pt ← my_pagetable;
  copyinstr_obj check_vmas pt addr max.

(** [fetchstr] into a page. *)
Definition fetchstr_page (addr buf max : Z) : K Z :=
  pt ← my_pagetable;
  r ← copyinstr check_vmas pt buf addr max;
  if r <? 0 then mret (-1)
  else
    n ← gets (λ s, strlen (Z.to_nat max) (k_mem s) buf);
    match n with None => halt NoFuel | Some n => mret n end.

Definition argraw (n : Z) : K Z :=
  p ← curproc;
  if (0 <=? n) && (n <=? 5) then tf_get p (TF_a n) else panic "argraw".

Definition argint (n : Z) : K Z := v ← argraw n; mret (s32 v).
Definition argaddr (n : Z) : K Z := argraw n.
Definition argstr (n max : Z) : K (option (list Z)) := addr ← argaddr n; fetchstr addr max.

(** The descriptor and the file, or [None] for -1. *)
Definition argfd (n : Z) : K (option (Z * nat)) :=
  fd ← argint n;
  if (fd <? 0) || (fd >=? NOFILE) then mret None
  else
    p ← curproc;
    x ← getp p;
    match p_ofile x !! Z.to_nat fd with
    | Some (Some f) => mret (Some (fd, f))
    | _ => mret None
    end.

Definition fdalloc (f : nat) : K Z :=
  p ← curproc;
  x ← getp p;
  match list_find (λ o, o = None) (p_ofile x) with
  | Some (fd, _) => setp p (λ x, set_ofile (<[fd := Some f]> (p_ofile x)) x);; mret (Z.of_nat fd)
  | None => mret (-1)
  end.

(** [p->ofile[fd] = 0] *)
Definition fdclear (fd : Z) : K unit :=
  p ← curproc;
  setp p (λ x, set_ofile (<[Z.to_nat fd := None]> (p_ofile x)) x).
End args.
