(* ===== verification/Console.v ===== *)
(** The console: src/kernel/uart.c, src/kernel/console.c, src/kernel/printf.c and
    [procdump] of src/kernel/proc.c.

    The registers of the UART are parameters, class [Uart]: the values LSR and
    RHR have when they are read for the n-th time.  [panicked] is 0 in every
    state of the model, which stops when the kernel panics. *)

From S2P Require Import Prelude Machine Str Types Proc ProcSpec Rely Sleeplock Kalloc Vm Bio Bytes Log Fs Vma Pipe File.

Class Uart := {
  lsr : nat → Z;
  rhr : nat → Z;
  (** Bound for loops that wait for the device. *)
  max_spins : nat }.

Definition UART_TX_BUF_SIZE : Z := 32.
Definition LSR_RX_READY : Z := Z.shiftl 1 0.
Definition LSR_TX_IDLE : Z := Z.shiftl 1 5.

Section uart.
Context `{U : Uart} `{W : Waits}.

Definition getu : K uart_t := gets k_uart.
Definition setu (f : uart_t → uart_t) : K unit := modify (λ s, set_uart (f (k_uart s)) s).

(** [ReadReg(LSR)], [ReadReg(RHR)], [WriteReg(THR, c)] *)
Definition read_lsr : K Z :=
  u ← getu; setu (set_u_lsr (S (u_lsr u)));; mret (u8 (lsr (u_lsr u))).
Definition read_rhr : K Z :=
  u ← getu; setu (set_u_rhr (S (u_rhr u)));; mret (u8 (rhr (u_rhr u))).
Definition write_thr (c : Z) : K unit := setu (λ u, set_u_out (u_out u ++ [u8 c]) u).

(** [uart_tx_buf[uart_tx_w % UART_TX_BUF_SIZE] = c; uart_tx_w += 1] *)
Definition tx_put (c : Z) (u : uart_t) : uart_t :=
  set_u_w (u64 (u_w u + 1)) (set_u_buf (<[Z.to_nat (u_w u mod UART_TX_BUF_SIZE) := u8 c]> (u_buf u)) u).

(** At most UART_TX_BUF_SIZE bytes are in the buffer. *)
Fixpoint uartstart_loop (fuel : nat) : K unit :=
  u ← getu;
  if u_w u =? u_r u then mret tt
  else
    v ← read_lsr;
    if Z.land v LSR_TX_IDLE =? 0 then mret tt
    else
      match fuel with
      | O => halt NoFuel
      | S fuel' =>
          u ← getu;
          let c := default 0 (u_buf u !! Z.to_nat (u_r u mod UART_TX_BUF_SIZE)) in
          setu (set_u_r (u64 (u_r u + 1)));;
          wakeup ChUart;;
          write_thr c;;
          uartstart_loop fuel'
      end.
Definition uartstart : K unit := uartstart_loop (Z.to_nat UART_TX_BUF_SIZE).

Fixpoint uartputc_wait (fuel : nat) : K unit :=
  u ← getu;
  if u_w u =? u64 (u_r u + UART_TX_BUF_SIZE) then
    match fuel with O => halt NoFuel | S fuel' => sleep ChUart;; uartputc_wait fuel' end
  else mret tt.
Definition uartputc (c : Z) : K unit :=
  uartputc_wait max_waits;;
  setu (tx_put c);;
  uartstart.

(** [while((ReadReg(LSR) & LSR_TX_IDLE) == 0) ;] *)
Fixpoint spin_idle (fuel : nat) : K unit :=
  v ← read_lsr;
  if Z.land v LSR_TX_IDLE =? 0 then match fuel with O => halt NoFuel | S fuel' => spin_idle fuel' end
  else mret tt.
Definition uartputc_sync (c : Z) : K unit := spin_idle max_spins;; write_thr c.

Definition uartgetc : K Z :=
  v ← read_lsr;
  if Z.land v LSR_RX_READY =? 0 then mret (-1) else read_rhr.

(** ** console.c *)

Definition CONSOLE : Z := 1.
Definition BACKSPACE : Z := 0x100.
Definition INPUT_BUF_SIZE : Z := 128.
(** [C(x)], control-x *)
Definition Ctrl (x : Z) : Z := x - 64.
Definition NEWLINE : Z := 10.
Definition RETURN : Z := 13.
Definition DELETE : Z := 127.

Definition consputc (c : Z) : K unit :=
  if c =? BACKSPACE then uartputc_sync 8;; uartputc_sync 32;; uartputc_sync 8
  else uartputc_sync c.

(** ** printf.c *)

Definition HEX : list Z := [48; 49; 50; 51; 52; 53; 54; 55; 56; 57; 97; 98; 99; 100; 101; 102].
Definition digit (d : Z) : Z := default 0 (HEX !! Z.to_nat d).

(** [do { buf[i++] = digits[x % base]; } while((x /= base) != 0)]: the digits,
    the last one first.  A [uint] has at most 32. *)
Fixpoint digits_of (fuel : nat) (x base : Z) : list Z :=
  match fuel with
  | O => []
  | S fuel' => digit (x mod base) :: (if x / base =? 0 then [] else digits_of fuel' (x / base) base)
  end.

Definition int_chars (xx base : Z) (sign : bool) : list Z :=
  let neg := sign && (xx <? 0) in
  let x := if neg then u32 (- xx) else u32 xx in
  reverse (digits_of 32 x base ++ (if neg then [45] else [])).
Definition printint (xx base : Z) (sign : bool) : K unit := forM_ (int_chars xx base sign) consputc.

(** [for (i = 0; i < 16; i++, x <<= 4) consputc(digits[x >> 60])] *)
Fixpoint ptr_chars (n : nat) (x : Z) : list Z :=
  match n with O => [] | S n' => digit (Z.shiftr x 60) :: ptr_chars n' (u64 (Z.shiftl x 4)) end.
Definition printptr (x : Z) : K unit := consputc 48;; consputc 120;; forM_ (ptr_chars 16 x) consputc.

(** The arguments of [printf]; a null string is [None]. *)
Inductive parg : Type := PInt (z : Z) | PPtr (z : Z) | PStr (s : option (list Z)).
Definition NULLSTR : list Z := [40; 110; 117; 108; 108; 41].

(** An argument that is missing or of another type is undefined behaviour. *)
Fixpoint printf (fmt : list Z) (args : list parg) : K unit :=
  match fmt with
  | [] => mret tt
  | c :: fmt' =>
      if negb (c =? 37) then consputc c;; printf fmt' args
      else
        match fmt' with
        | [] => mret tt
        | c :: fmt' =>
            if c =? 100 then match args with PInt z :: args => printint z 10 true;; printf fmt' args | _ => fault end
            else if c =? 120 then match args with PInt z :: args => printint z 16 true;; printf fmt' args | _ => fault end
            else if c =? 112 then match args with PPtr z :: args => printptr z;; printf fmt' args | _ => fault end
            else if c =? 115 then
              match args with PStr s :: args => forM_ (default NULLSTR s) consputc;; printf fmt' args | _ => fault end
            else if c =? 37 then consputc 37;; printf fmt' args
            else consputc 37;; consputc c;; printf fmt' args
        end
  end.

(** ** [procdump] *)

Definition state_name (st : procstate) : list Z :=
  match st with
  | UNUSED => [117; 110; 117; 115; 101; 100]
  | USED => [117; 115; 101; 100]
  | SLEEPING => [115; 108; 101; 101; 112; 32]
  | RUNNABLE => [114; 117; 110; 98; 108; 101]
  | RUNNING => [114; 117; 110; 32; 32; 32]
  | ZOMBIE => [122; 111; 109; 98; 105; 101]
  end.

Definition procdump : K unit :=
  printf [NEWLINE] [];;
  forM_ all_procs (λ i,
    p ← getp i;
    if decide (p_state p = UNUSED) then mret tt
    else
      printf [37; 100; 32; 37; 115; 32; 37; 115] [PInt (p_pid p); PStr (Some (state_name (p_state p))); PStr (Some (cstr_of (p_name p)))];;
      printf [NEWLINE] []).

(** ** Console input *)

Definition getc : K cons_t := gets k_cons.
Definition setc (f : cons_t → cons_t) : K unit := modify (λ s, set_cons (f (k_cons s)) s).

Definition cons_at (c : cons_t) (i : Z) : Z := default 0 (c_buf c !! Z.to_nat (i mod INPUT_BUF_SIZE)).

(** [while(cons.e != cons.w && cons.buf[(cons.e-1) % INPUT_BUF_SIZE] != '\n')] *)
Fixpoint kill_line (fuel : nat) : K unit :=
  c ← getc;
  if negb (c_e c =? c_w c) && negb (cons_at c (u32 (c_e c - 1)) =? NEWLINE) then
    match fuel with
    | O => halt NoFuel
    | S fuel' => setc (set_c_e (u32 (c_e c - 1)));; consputc BACKSPACE;; kill_line fuel'
    end
  else mret tt.

Definition consoleintr (ch : Z) : K unit :=
  if ch =? Ctrl 80 then procdump
  else if ch =? Ctrl 85 then kill_line (Z.to_nat INPUT_BUF_SIZE)
  else if (ch =? Ctrl 72) || (ch =? DELETE) then
    c ← getc;
    if negb (c_e c =? c_w c) then setc (set_c_e (u32 (c_e c - 1)));; consputc BACKSPACE else mret tt
  else
    c ← getc;
    if negb (ch =? 0) && (u32 (c_e c - c_r c) <? INPUT_BUF_SIZE) then
      let ch := if ch =? RETURN then NEWLINE else ch in
      consputc ch;;
      setc (λ c, set_c_e (u32 (c_e c + 1)) (set_c_buf (<[Z.to_nat (c_e c mod INPUT_BUF_SIZE) := u8 ch]> (c_buf c)) c));;
      c ← getc;
      if (ch =? NEWLINE) || (ch =? Ctrl 68) || (u32 (c_e c - c_r c) =? INPUT_BUF_SIZE) then
        setc (λ c, set_c_w (c_e c) c);;
        wakeup ChCons
      else mret tt
    else mret tt.

(** The loop of [uartintr]. *)
Fixpoint uartintr_loop (fuel : nat) : K unit :=
  c ← uartgetc;
  if c =? -1 then mret tt
  else match fuel with O => halt NoFuel | S fuel' => consoleintr c;; uartintr_loop fuel' end.
Definition uartintr : K unit := uartintr_loop max_spins;; uartstart.

(** Waits for input; [false] is [return -1]. *)
Fixpoint consoleread_wait (fuel : nat) : K bool :=
  c ← getc;
  if c_r c =? c_w c then
    p ← curproc;
    k ← killed p;
    if (k : bool) then mret false
    else match fuel with O => halt NoFuel | S fuel' => sleep ChCons;; consoleread_wait fuel' end
  else mret true.

Section copies.
Context `{L : Linker} `{D : Disk}.

(** [todo] is the [n] of the loop, [target] the one of the call; the result is
    the final [n], [None] when the process was killed. *)
Fixpoint consoleread_loop (todo : nat) (user_dst : bool) (dst target : Z) : K (option Z) :=
  match todo with
  | O => mret (Some 0)
  | S todo' =>
      ok ← consoleread_wait max_waits;
      if (ok : bool) then
        c ← getc;
        let ch := cons_at c (c_r c) in
        setc (set_c_r (u32 (c_r c + 1)));;
        if ch =? Ctrl 68 then
          (if Z.of_nat todo <? target then setc (λ c, set_c_r (u32 (c_r c - 1)) c) else mret tt);;
          mret (Some (Z.of_nat todo))
        else
          r ← either_copyout user_dst dst [ch] tt;
          if r.1 =? -1 then mret (Some (Z.of_nat todo))
          else if ch =? NEWLINE then mret (Some (Z.of_nat todo'))
          else consoleread_loop todo' user_dst (u64 (dst + 1)) target
      else mret None
  end.
Definition consoleread (user_dst : bool) (dst n : Z) : K Z :=
  r ← consoleread_loop (Z.to_nat n) user_dst dst (u32 n);
  match r with
  | None => mret (-1)
  | Some n' => mret (s32 (u32 n - (if n >? 0 then n' else n)))
  end.

Fixpoint consolewrite_loop (todo : nat) (user_src : bool) (src i : Z) : K Z :=
  match todo with
  | O => mret i
  | S todo' =>
      r ← either_copyin user_src (u64 (src + i)) 1;
      if r.1 =? -1 then mret i
      else uartputc (default 0 (head r.2));; consolewrite_loop todo' user_src src (i + 1)
  end.
Definition consolewrite (user_src : bool) (src n : Z) : K Z := consolewrite_loop (Z.to_nat n) user_src src 0.

(** [consoleinit] sets the entries of the device switch for major number 1. *)
Definition consoleinit (sw : devsw_t) : devsw_t :=
  mkDevsw (λ m, if m =? CONSOLE then Some consoleread else dev_read sw m)
    (λ m, if m =? CONSOLE then Some consolewrite else dev_write sw m).
End copies.
End uart.
