(* ===== verification/ConsoleSpec.v ===== *)
(** What the console does: [printf] writes the characters its format stands for,
    the line discipline of [consoleintr] is that of an abstract line editor, and
    the transmit buffer is a queue. *)

From S2P Require Import Prelude Machine Ring Str Types Proc ProcSpec Rely Sleeplock Kalloc Vm Bio Bytes Log Fs Vma Pipe File Console.

Section output.
Context `{U : Uart}.

(** The transmitter is idle now and then. *)
Definition uart_ready : Prop := ∀ t, ∃ k, (k ≤ max_spins)%nat ∧ Z.land (u8 (lsr (t + k))) LSR_TX_IDLE ≠ 0.

(** [s'] is [s] after the bytes [cs] were sent. *)
Definition sent (cs : list Z) (s s' : kstate) : Prop :=
  ∃ n, s' = set_uart (set_u_lsr n (set_u_out (u_out (k_uart s) ++ cs) (k_uart s))) s.

Lemma sent_nil s : sent [] s s.
Proof. exists (u_lsr (k_uart s)). rewrite app_nil_r. destruct s as [? ? ? ? ? ? ? ? ? ? ? ? ? ? ? ? ? ? []]. done. Qed.
Lemma sent_app cs ds s1 s2 s3 : sent cs s1 s2 → sent ds s2 s3 → sent (cs ++ ds) s1 s3.
Proof. intros [n ->] [m ->]. exists m. cbn. by rewrite app_assoc. Qed.

(** [m] sends [cs] and returns. *)
Definition sends (cs : list Z) (m : K unit) (s : kstate) : Prop := ∃ s', m s = Ok tt s' ∧ sent cs s s'.

Lemma sends_seq cs ds m (k : K unit) s : sends cs m s → (∀ s', sent cs s s' → sends ds k s') → sends (cs ++ ds) (m;; k) s.
Proof.
  intros (s1 & E1 & H1) Hk. destruct (Hk s1 H1) as (s2 & E2 & H2). exists s2. split; [|by eapply sent_app].
  by rewrite (bind_ok _ _ _ _ _ E1).
Qed.

Lemma sends_forM {A} (l : list A) (f : A → K unit) (g : A → list Z) s :
  (∀ x s, sends (g x) (f x) s) → sends (concat (g <$> l)) (forM_ l f) s.
Proof.
  intros H. revert s. induction l as [|x l IH]; intros s; cbn; [exists s; split; [done|apply sent_nil]|].
  apply sends_seq; [apply H|intros s' _; apply IH].
Qed.

Hypothesis ready : uart_ready.

Lemma read_lsr_run s :
  read_lsr s = Ok (u8 (lsr (u_lsr (k_uart s)))) (set_uart (set_u_lsr (S (u_lsr (k_uart s))) (k_uart s)) s).
Proof. done. Qed.

Lemma spin_idle_run s : ∃ n, spin_idle max_spins s = Ok tt (set_uart (set_u_lsr n (k_uart s)) s).
Proof.
  destruct (ready (u_lsr (k_uart s))) as (k & Hk & Hl). revert s Hl. revert Hk. generalize max_spins as f. intros f.
  revert f. induction k as [|k IH]; intros f Hf s Hl.
  - exists (S (u_lsr (k_uart s))). rewrite Nat.add_0_r in Hl.
    destruct f; cbn [spin_idle]; rewrite (bind_ok _ _ _ _ _ (read_lsr_run s)), (proj2 (Z.eqb_neq _ 0)) by done; done.
  - destruct f as [|f]; [lia|]. cbn [spin_idle]. rewrite (bind_ok _ _ _ _ _ (read_lsr_run s)).
    destruct (Z.eqb_spec (Z.land (u8 (lsr (u_lsr (k_uart s)))) LSR_TX_IDLE) 0); [|by eexists].
    destruct (IH f ltac:(lia) (set_uart (set_u_lsr (S (u_lsr (k_uart s))) (k_uart s)) s)) as [n Hn].
    { cbn [k_uart set_uart u_lsr set_u_lsr]. by rewrite Nat.add_succ_comm. }
    exists n. by rewrite Hn.
Qed.

Lemma sends_sync c s : sends [u8 c] (uartputc_sync c) s.
Proof.
  unfold uartputc_sync. destruct (spin_idle_run s) as [n Hn]. eexists. split; [by rewrite (bind_ok _ _ _ _ _ Hn)|]. by exists n.
Qed.

(** What is sent for a character. *)
Definition echo (c : Z) : list Z := if c =? BACKSPACE then [8; 32; 8] else [u8 c].

Lemma sends_consputc c s : sends (echo c) (consputc c) s.
Proof.
  unfold consputc, echo. destruct (c =? BACKSPACE); [|apply sends_sync].
  apply (sends_seq [8]); [apply (sends_sync 8)|]. intros s1 _. apply (sends_seq [32]); [apply (sends_sync 32)|].
  intros s2 _. apply (sends_sync 8).
Qed.

Lemma sends_chars cs s : Forall (λ c, 0 ≤ c < 256) cs → sends cs (forM_ cs consputc) s.
Proof.
  intros Hc. assert (concat (echo <$> cs) = cs) as E.
  { induction Hc as [|c cs Hc _ IH]; [done|]. cbn. rewrite IH. unfold echo, BACKSPACE.
    rewrite (proj2 (Z.eqb_neq c _)), u8_small by lia. done. }
  rewrite <- E at 1. apply sends_forM. apply sends_consputc.
Qed.

Lemma sends_char c s : 0 ≤ c < 256 → sends [c] (consputc c) s.
Proof.
  intros Hc. pose proof (sends_consputc c s) as H. unfold echo, BACKSPACE in H.
  by rewrite (proj2 (Z.eqb_neq c _)), u8_small in H by lia.
Qed.

(** ** [printf] *)

Definition printable : list Z → Prop := Forall (λ c, 0 ≤ c < 256).

(** The characters that a format stands for. *)
Fixpoint formatted (fmt : list Z) (args : list parg) : option (list Z) :=
  match fmt with
  | [] => Some []
  | c :: fmt' =>
      if negb (c =? 37) then (c ::.) <$> formatted fmt' args
      else
        match fmt' with
        | [] => Some []
        | c :: fmt' =>
            if c =? 100 then match args with PInt z :: args => (int_chars z 10 true ++.) <$> formatted fmt' args | _ => None end
            else if c =? 120 then match args with PInt z :: args => (int_chars z 16 true ++.) <$> formatted fmt' args | _ => None end
            else if c =? 112 then match args with PPtr z :: args => ([48; 120] ++ ptr_chars 16 z ++.) <$> formatted fmt' args | _ => None end
            else if c =? 115 then match args with PStr s :: args => (default NULLSTR s ++.) <$> formatted fmt' args | _ => None end
            else if c =? 37 then (37 ::.) <$> formatted fmt' args
            else ([37; c] ++.) <$> formatted fmt' args
        end
  end.

Lemma digit_range d : 0 ≤ digit d < 256.
Proof.
  unfold digit. destruct (HEX !! Z.to_nat d) as [x|] eqn:E; cbn; [|lia].
  assert (Forall (λ x, 0 ≤ x < 256) HEX) as H by (repeat constructor; lia). rewrite list.Forall_lookup in H. by apply (H _ x E).
Qed.

Lemma int_chars_printable z base sign : printable (int_chars z base sign).
Proof.
  assert (∀ fuel x, printable (digits_of fuel x base)) as Hd.
  { intros fuel. induction fuel as [|fuel IH]; intros x; cbn; constructor; [apply digit_range|]. case_match; [constructor|apply IH]. }
  apply Forall_reverse, Forall_app. split; [apply Hd|]. case_match; repeat constructor; lia.
Qed.

Lemma ptr_chars_printable n x : printable (ptr_chars n x).
Proof. revert x. induction n as [|n IH]; intros x; cbn; constructor; [apply digit_range|apply IH]. Qed.

(** The strings that a call of [printf] points to. *)
Definition arg_ok (a : parg) : Prop := match a with PStr (Some s) => printable s | _ => True end.

(** [printf] sends exactly the characters its format stands for: %d and %x with
    the digits of the number, %p with 16 hexadecimal digits, %s with the string,
    %% with one %, an unknown % sequence with itself, and the rest as it is. *)
Theorem printf_correct fmt args cs s :
  printable fmt → Forall arg_ok args → formatted fmt args = Some cs → sends cs (printf fmt args) s.
Proof.
  remember (length fmt) as n eqn:Hn. assert (length fmt ≤ n)%nat as Hle by lia. clear Hn. revert fmt Hle args cs s.
  induction n as [|n IH]; intros fmt Hle args cs s Hf Ha E.
  { destruct fmt; [|cbn in Hle; lia]. injection E as <-. exists s. split; [done|apply sent_nil]. }
  destruct fmt as [|c fmt]; [injection E as <-; exists s; split; [done|apply sent_nil]|].
  cbn [length] in Hle. inversion Hf as [|? ? Hc Hf']; subst. cbn [formatted printf] in *.
  assert (∀ ds m args' fmt', (length fmt' ≤ n)%nat → printable fmt' → Forall arg_ok args' → (∀ s, sends ds m s) →
    (ds ++.) <$> formatted fmt' args' = Some cs → sends cs (m;; printf fmt' args') s) as Hnext.
  { intros ds m args' fmt' Hl Hp Ha' Hm (cs' & E' & ->)%fmap_Some. apply sends_seq; [done|]. intros s1 _. by apply IH. }
  destruct (negb (c =? 37)); [apply (Hnext [c]); [lia|done|done|intros s1; by apply sends_char|done]|].
  destruct fmt as [|d fmt]; [injection E as <-; exists s; split; [done|apply sent_nil]|].
  cbn [length] in Hle. inversion Hf' as [|? ? Hd Hf'']; subst.
  assert (∀ z base, ∀ s, sends (int_chars z base true) (printint z base true) s) as Hint.
  { intros z base s1. apply sends_chars, int_chars_printable. }
  destruct (d =? 100); [destruct args as [|[z| |] args]; try done; inversion Ha; subst; apply (Hnext (int_chars z 10 true)); [lia|done..]|].
  destruct (d =? 120); [destruct args as [|[z| |] args]; try done; inversion Ha; subst; apply (Hnext (int_chars z 16 true)); [lia|done..]|].
  destruct (d =? 112).
  { destruct args as [|[|z|] args]; try done. inversion Ha; subst. apply (Hnext ([48; 120] ++ ptr_chars 16 z)); [lia|done|done| |done].
    intros s1. unfold printptr. apply (sends_seq [48]); [by apply sends_char|]. intros s2 _. apply (sends_seq [120]); [by apply sends_char|].
    intros s3 _. apply sends_chars, ptr_chars_printable. }
  destruct (d =? 115).
  { destruct args as [|[| |o] args]; try done. inversion Ha; subst. apply (Hnext (default NULLSTR o)); [lia|done|done| |done].
    intros s1. apply sends_chars. destruct o; [done|]. repeat constructor; lia. }
  destruct (d =? 37); [apply (Hnext [37]); [lia|done|done|intros s1; by apply sends_char|done]|].
  apply (fmap_Some (_ ++.)) in E as (cs' & E & ->). apply (sends_seq [37]); [by apply sends_char|]. intros s1 _.
  apply (sends_seq [d]); [by apply sends_char|]. intros s2 _. apply IH; [lia|done..].
Qed.
End output.

(** ** Numbers *)

Definition undigit (c : Z) : Z := if c <? 58 then c - 48 else c - 87.
(** The number that digits stand for, and a numeral with an optional sign. *)
Definition value (base : Z) (cs : list Z) : Z := foldl (λ a c, a * base + undigit c) 0 cs.
Definition numeral (base : Z) (cs : list Z) : Z :=
  match cs with c :: cs' => if c =? 45 then - value base cs' else value base cs | [] => 0 end.

Lemma undigit_digit d : 0 ≤ d < 16 → undigit (digit d) = d ∧ digit d ≠ 45.
Proof.
  intros Hd. assert (∀ k : nat, (k < 16)%nat → undigit (digit k) = k ∧ digit k ≠ 45) as H.
  { intros k Hk. do 16 (destruct k as [|k]; [by vm_compute|]). lia. }
  specialize (H (Z.to_nat d) ltac:(lia)). by rewrite Z2Nat.id in H by lia.
Qed.

Lemma value_snoc base cs c : value base (cs ++ [c]) = value base cs * base + undigit c.
Proof. unfold value. by rewrite foldl_app. Qed.

Lemma value_digits base : 2 ≤ base ≤ 16 → ∀ (fuel : nat) x, 0 ≤ x < base ^ Z.of_nat fuel → (0 < fuel)%nat →
  value base (reverse (digits_of fuel x base)) = x ∧ digits_of fuel x base ≠ [] ∧ Forall (λ c, c ≠ 45) (digits_of fuel x base).
Proof.
  intros Hb fuel. induction fuel as [|fuel IH]; intros x Hx Hf; [lia|]. cbn [digits_of].
  pose proof (Z.mod_pos_bound x base ltac:(lia)) as Hm. destruct (undigit_digit (x mod base)) as [Hu H45]; [lia|].
  rewrite Nat2Z.inj_succ, Z.pow_succ_r in Hx by lia. pose proof (Z.div_mod x base ltac:(lia)) as Hdm.
  destruct (Z.eqb_spec (x / base) 0) as [Hz|Hz].
  - split_and!; [|done|by repeat constructor]. cbn. unfold value. cbn. rewrite Hu. lia.
  - assert (0 < x / base) by (pose proof (Z.div_pos x base); lia).
    assert (x / base < base ^ fuel) by (apply Z.div_lt_upper_bound; lia).
    destruct fuel as [|fuel]; [cbn in *; lia|]. destruct (IH (x / base)) as (Hv & _ & Hn); [lia|lia|].
    split_and!; [|done|by constructor]. rewrite reverse_cons, value_snoc, Hv, Hu. lia.
Qed.

(** [printint] writes a numeral for every [int]: read in the same base it gives
    the number, INT_MIN included. *)
Theorem printint_roundtrip xx base :
  2 ≤ base ≤ 16 → - 2 ^ 31 ≤ xx < 2 ^ 31 → numeral base (int_chars xx base true) = xx.
Proof.
  intros Hb Hx. unfold int_chars. assert (2 ^ 32 ≤ base ^ 32) as Hp by (apply (Z.pow_le_mono_l 2 base 32); lia).
  cbn [andb]. destruct (Z.ltb_spec xx 0) as [Hn|Hn].
  - rewrite u32_small by lia. destruct (value_digits base Hb 32 (- xx)) as (Hv & _ & _); [change (Z.of_nat 32) with 32; lia|lia|].
    rewrite reverse_app. change (reverse [45]) with [45]. unfold numeral. cbn [app]. change (45 =? 45) with true. cbv iota. rewrite Hv. lia.
  - rewrite u32_small, app_nil_r by lia. destruct (value_digits base Hb 32 xx) as (Hv & Hne & H45); [change (Z.of_nat 32) with 32; lia|lia|].
    unfold numeral. destruct (reverse (digits_of 32 xx base)) as [|c cs] eqn:E.
    + apply (f_equal reverse) in E. rewrite reverse_involutive in E. done.
    + apply Forall_reverse in H45. rewrite E in H45. inversion H45; subst. by rewrite (proj2 (Z.eqb_neq c 45)).
Qed.

Lemma printint_roundtrip_witness : numeral 10 (int_chars (-2147483648) 10 true) = -2147483648.
Proof. apply (printint_roundtrip (-2147483648) 10); lia. Defined.

(** ** The input line *)

(** The complete lines waiting for a reader, and the line that is being edited. *)
Definition committed (c : cons_t) : list Z := ring INPUT_BUF_SIZE (c_buf c) (c_r c) (Z.to_nat (u32 (c_w c - c_r c))).
Definition editing (c : cons_t) : list Z := ring INPUT_BUF_SIZE (c_buf c) (c_w c) (Z.to_nat (u32 (c_e c - c_w c))).

Record cons_ok (c : cons_t) : Prop := {
  co_buf : length (c_buf c) = 128%nat;
  co_r : 0 ≤ c_r c < 2 ^ 32;
  co_w : 0 ≤ c_w c < 2 ^ 32;
  co_e : 0 ≤ c_e c < 2 ^ 32;
  co_len : u32 (c_w c - c_r c) + u32 (c_e c - c_w c) ≤ 128;
  co_line : NEWLINE ∉ editing c }.

(** The line editor: what an input character does to the complete lines [q] and
    the line [l]. *)
Definition line_step (ch : Z) (ql : list Z * list Z) : list Z * list Z :=
  let '(q, l) := ql in
  if ch =? Ctrl 80 then (q, l)
  else if ch =? Ctrl 85 then (q, [])
  else if (ch =? Ctrl 72) || (ch =? DELETE) then (q, removelast l)
  else if negb (ch =? 0) && bool_decide (length q + length l < 128)%nat then
    let ch := if ch =? RETURN then NEWLINE else ch in
    if (ch =? NEWLINE) || (ch =? Ctrl 68) || bool_decide (length q + length l = 127)%nat
    then (q ++ l ++ [ch], []) else (q, l ++ [ch])
  else (q, l).

(** The character goes to the end of the line. *)
Definition cons_put (ch : Z) (c : cons_t) : cons_t :=
  set_c_e (u32 (c_e c + 1)) (set_c_buf (<[Z.to_nat (c_e c mod INPUT_BUF_SIZE) := u8 ch]> (c_buf c)) c).

Lemma cons_len c : cons_ok c → length (committed c) = Z.to_nat (u32 (c_w c - c_r c)) ∧ length (editing c) = Z.to_nat (u32 (c_e c - c_w c)) ∧
  u32 (c_e c - c_r c) = (length (committed c) + length (editing c))%nat.
Proof.
  intros [_ ? ? ? Hl _]. unfold committed, editing. rewrite !length_ring. split_and!; [done|done|].
  pose proof (u32_range (c_w c - c_r c)). pose proof (u32_range (c_e c - c_w c)). unfold u32 in *. dlia.
Qed.

Lemma cons_put_lines ch c : cons_ok c → u32 (c_e c - c_r c) < 128 →
  committed (cons_put ch c) = committed c ∧ editing (cons_put ch c) = editing c ++ [u8 ch] ∧
  length (c_buf (cons_put ch c)) = 128%nat ∧ u32 (c_e (cons_put ch c) - c_r (cons_put ch c)) = u32 (c_e c - c_r c) + 1 ∧
  u32 (c_e (cons_put ch c) - c_w (cons_put ch c)) = u32 (c_e c - c_w c) + 1.
Proof.
  intros Hc Hlt. destruct (cons_len c Hc) as (Hlc & Hle & Ht). rewrite Hlc, Hle in Ht. destruct Hc as [Hb Hr Hw He Hl _].
  pose proof (u32_range (c_w c - c_r c)) as Ha. pose proof (u32_range (c_e c - c_w c)) as Hbb.
  assert (u32 (u32 (c_e c + 1) - c_w c) = u32 (c_e c - c_w c) + 1) as E1 by (unfold u32 in *; dlia).
  assert (u32 (u32 (c_e c + 1) - c_r c) = u32 (c_e c - c_r c) + 1) as E2 by (unfold u32 in *; dlia).
  split_and!; [| |by cbn; rewrite length_insert|exact E2|exact E1].
  - unfold committed, cons_put. cbn. apply ring_insert_out; [done|]. unfold INPUT_BUF_SIZE, u32 in *. intros k Hk. dlia.
  - unfold editing, cons_put. cbn. rewrite E1. replace (Z.to_nat (u32 (c_e c - c_w c) + 1)) with (Z.to_nat (u32 (c_e c - c_w c)) + 1)%nat by lia.
    rewrite ring_app. f_equal.
    + apply ring_insert_out; [done|]. unfold INPUT_BUF_SIZE, u32 in *. intros k Hk. dlia.
    + apply ring_last; [done|by rewrite Hb|]. unfold INPUT_BUF_SIZE, u32 in *. dlia.
Qed.

Lemma cons_commit c : length (c_buf c) = 128%nat → 0 ≤ c_r c < 2 ^ 32 → 0 ≤ c_w c < 2 ^ 32 → 0 ≤ c_e c < 2 ^ 32 →
  u32 (c_w c - c_r c) + u32 (c_e c - c_w c) ≤ 128 →
  let c' := set_c_w (c_e c) c in
  committed c' = committed c ++ editing c ∧ editing c' = [] ∧ cons_ok c'.
Proof.
  intros Hb Hr Hw He Hl c'.
  assert (u32 (c_e c - c_r c) = u32 (c_w c - c_r c) + u32 (c_e c - c_w c)) as E.
  { pose proof (u32_range (c_w c - c_r c)). pose proof (u32_range (c_e c - c_w c)). unfold u32 in *. dlia. }
  assert (editing c' = []) as Hed by (unfold editing, c'; cbn; by rewrite Z.sub_diag).
  split_and!; [|done|split; try done].
  - unfold committed, editing, c'. cbn. rewrite E.
    pose proof (u32_range (c_w c - c_r c)). pose proof (u32_range (c_e c - c_w c)).
    rewrite Z2Nat.inj_add, ring_app by lia. f_equal. apply ring_mod. unfold INPUT_BUF_SIZE, u32 in *. dlia.
  - unfold c'. cbn. rewrite E, Z.sub_diag. change (u32 0) with 0. lia.
  - rewrite Hed. apply not_elem_of_nil.
Qed.

(** The last character of the line is taken back. *)
Lemma cons_back c : cons_ok c → c_e c ≠ c_w c →
  let c' := set_c_e (u32 (c_e c - 1)) c in
  committed c' = committed c ∧ cons_ok c' ∧ editing c = editing c' ++ [cons_at c (u32 (c_e c - 1))] ∧
  u32 (c_e c' - c_w c') = u32 (c_e c - c_w c) - 1.
Proof.
  intros [Hb Hr Hw He Hl Hn] Hne c'.
  assert (u32 (u32 (c_e c - 1) - c_w c) = u32 (c_e c - c_w c) - 1 ∧ 1 ≤ u32 (c_e c - c_w c)) as [E Hpos] by (unfold u32 in *; dlia).
  assert (editing c = editing c' ++ [cons_at c (u32 (c_e c - 1))]) as Hed.
  { unfold editing, c'. cbn. rewrite E. replace (Z.to_nat (u32 (c_e c - c_w c))) with (Z.to_nat (u32 (c_e c - c_w c) - 1) + 1)%nat at 1 by lia.
    rewrite ring_app. f_equal. unfold ring, cons_at. cbn [seq fmap list_fmap]. do 4 f_equal.
    unfold INPUT_BUF_SIZE, u32 in *. dlia. }
  split_and!; [done| |done|exact E]. split; try done; [apply u32_range|unfold c'; cbn; rewrite E; lia|].
  intros Hin. apply Hn. rewrite Hed. apply elem_of_app. by left.
Qed.

Section input.
Context `{U : Uart}.
Hypothesis ready : uart_ready.

Lemma sent_idle cs s s' : sent cs s s' → idle s s' ∧ k_cons s' = k_cons s ∧ k_procs s' = k_procs s.
Proof. intros [n ->]. split; [|done]. split; [done|]. by destruct s. Qed.

Lemma sends_forM_any {A} (l : list A) (f : A → K unit) s :
  (∀ x s, ∃ cs, sends cs (f x) s) → ∃ cs, sends cs (forM_ l f) s.
Proof.
  intros H. revert s. induction l as [|x l IH]; intros s; cbn; [exists [], s; split; [done|apply sent_nil]|].
  destruct (H x s) as (cs & s1 & E1 & H1), (IH s1) as (ds & s2 & E2 & H2). exists (cs ++ ds), s2.
  split; [by rewrite (bind_ok _ _ _ _ _ E1)|by eapply sent_app].
Qed.

Lemma sends_any_seq (m k : K unit) s : (∀ s, ∃ cs, sends cs m s) → (∀ s, ∃ cs, sends cs k s) → ∃ cs, sends cs (m;; k) s.
Proof.
  intros H1 H2. destruct (H1 s) as (cs & s1 & E1 & S1), (H2 s1) as (ds & s2 & E2 & S2). exists (cs ++ ds), s2.
  split; [by rewrite (bind_ok _ _ _ _ _ E1)|by eapply sent_app].
Qed.

Lemma procdump_sends s : ∃ cs, sends cs procdump s.
Proof.
  assert (∀ c s, ∃ cs, sends cs (consputc c) s) as Hc by (intros c s1; eexists; by apply sends_consputc).
  assert (∀ l s, ∃ cs, sends cs (forM_ l consputc) s) as Hs by (intros l s1; by apply sends_forM_any).
  assert (∀ s, ∃ cs, sends cs (mret tt) s) as Hr by (intros s1; exists [], s1; split; [done|apply sent_nil]).
  assert (∀ s, ∃ cs, sends cs (printf [NEWLINE] []) s) as Hnl.
  { intros s1. change (printf [NEWLINE] []) with (consputc NEWLINE;; mret tt). apply sends_any_seq; [apply Hc|apply Hr]. }
  unfold procdump. apply sends_any_seq; [done|]. intros s1. apply sends_forM_any.
  intros i s2. set (p := proc_at s2 i). assert (∃ cs, sends cs (if decide (p_state p = UNUSED) then mret tt else
      printf [37; 100; 32; 37; 115; 32; 37; 115] [PInt (p_pid p); PStr (Some (state_name (p_state p))); PStr (Some (cstr_of (p_name p)))];;
      printf [NEWLINE] []) s2) as (cs & s3 & E3 & S3); [|by exists cs, s3].
  case_decide; [by apply Hr|]. apply sends_any_seq; [|done]. intros s4.
  change (∃ cs, sends cs (forM_ (int_chars (p_pid p) 10 true) consputc;; consputc 32;; forM_ (state_name (p_state p)) consputc;;
    consputc 32;; forM_ (cstr_of (p_name p)) consputc;; mret tt) s4).
  apply sends_any_seq; [done|intros s5]. apply sends_any_seq; [done|intros s6]. apply sends_any_seq; [done|intros s7].
  apply sends_any_seq; [done|intros s8]. by apply sends_any_seq.
Qed.

Lemma idle_set_cons c s : idle s (set_cons c s).
Proof. split; [done|]. by destruct s. Qed.

(** The state after an input character that is not the end of a line. *)
Definition line_done (s s' : kstate) (q l : list Z) : Prop :=
  idle s s' ∧ cons_ok (k_cons s') ∧ committed (k_cons s') = q ∧ editing (k_cons s') = l.

Lemma backspace_run s : cons_ok (k_cons s) → c_e (k_cons s) ≠ c_w (k_cons s) →
  ∃ s', (setc (set_c_e (u32 (c_e (k_cons s) - 1)));; consputc BACKSPACE) s = Ok tt s' ∧ k_procs s' = k_procs s ∧
    line_done s s' (committed (k_cons s)) (removelast (editing (k_cons s))) ∧
    u32 (c_e (k_cons s') - c_w (k_cons s')) = u32 (c_e (k_cons s) - c_w (k_cons s)) - 1.
Proof.
  intros Hc Hne. destruct (cons_back _ Hc Hne) as (Hq & Hok & Hl & Hn).
  set (s1 := set_cons (set_c_e (u32 (c_e (k_cons s) - 1)) (k_cons s)) s).
  destruct (sends_consputc ready BACKSPACE s1) as (s2 & E2 & S2). destruct (sent_idle _ _ _ S2) as (Hi & Ec & Ep).
  exists s2. split; [exact E2|]. split; [exact Ep|]. unfold line_done. rewrite Ec. cbn [s1 k_cons set_cons].
  split_and!; [etrans; [apply idle_set_cons|exact Hi]|done|done| |exact Hn]. rewrite Hl. by rewrite removelast_last.
Qed.

Lemma kill_line_run : ∀ (fuel : nat) s, cons_ok (k_cons s) → u32 (c_e (k_cons s) - c_w (k_cons s)) ≤ fuel →
  ∃ s', kill_line fuel s = Ok tt s' ∧ line_done s s' (committed (k_cons s)) [].
Proof.
  assert (∀ s, cons_ok (k_cons s) → c_e (k_cons s) = c_w (k_cons s) → line_done s s (committed (k_cons s)) []) as Hnil.
  { intros s Hc E. split_and!; [done|done|done|]. unfold editing. by rewrite E, Z.sub_diag. }
  intros fuel. induction fuel as [|fuel IH]; intros s Hc Hf; cbn [kill_line]; rewrite (bind_ok _ _ _ _ _ (eq_refl : getc s = Ok (k_cons s) s)).
  - assert (c_e (k_cons s) = c_w (k_cons s)) as E.
    { destruct Hc as [_ _ ? ? _ _]. pose proof (u32_range (c_e (k_cons s) - c_w (k_cons s))). unfold u32 in *. dlia. }
    rewrite (proj2 (Z.eqb_eq _ _) E). exists s. by auto.
  - destruct (Z.eqb_spec (c_e (k_cons s)) (c_w (k_cons s))) as [E|Hne]; cbn [negb andb]; [exists s; by auto|].
    destruct (cons_back _ Hc Hne) as (_ & _ & Hl & _).
    destruct (Z.eqb_spec (cons_at (k_cons s) (u32 (c_e (k_cons s) - 1))) NEWLINE) as [En|_]; cbn [negb].
    { destruct (co_line _ Hc). rewrite Hl, En. apply elem_of_app. right. by left. }
    destruct (backspace_run s Hc Hne) as (s1 & E1 & _ & (Hi & Hok & Hq & _) & Hn).
    destruct (IH s1 Hok) as (s2 & E2 & Hi2 & Hok2 & Hq2 & Hl2); [lia|]. exists s2. split.
    + destruct (bind_inv _ _ _ _ _ E1) as ([] & s0 & E0 & E1'). rewrite (bind_ok _ _ _ _ _ E0), (bind_ok _ _ _ _ _ E1'). exact E2.
    + split_and!; [by etrans|done|congruence|done].
Qed.

(** The rest of [consoleintr], for a character that is stored. *)
Lemma input_char_run s ch :
  cons_ok (k_cons s) → length (k_procs s) = NPROC → 0 ≤ ch < 256 →
  (length (committed (k_cons s)) + length (editing (k_cons s)) < 128)%nat →
  let q := committed (k_cons s) in let l := editing (k_cons s) in
  ∃ s', (consputc ch;; setc (cons_put ch);; c ← getc;
         if (ch =? NEWLINE) || (ch =? Ctrl 68) || (u32 (c_e c - c_r c) =? INPUT_BUF_SIZE) then
           setc (λ c, set_c_w (c_e c) c);; wakeup ChCons else mret tt) s = Ok tt s' ∧ idle s s' ∧ cons_ok (k_cons s') ∧
    (committed (k_cons s'), editing (k_cons s')) =
      (if (ch =? NEWLINE) || (ch =? Ctrl 68) || bool_decide (length q + length l = 127)%nat then (q ++ l ++ [ch], []) else (q, l ++ [ch])) ∧
    (committed (k_cons s') ≠ committed (k_cons s) → ∀ i p, k_cur s ≠ Some i → k_procs s !! i = Some p →
       p_state p = SLEEPING → p_chan p = Some ChCons → ∃ p', k_procs s' !! i = Some p' ∧ p_state p' = RUNNABLE).
Proof.
  intros Hc Hp Hch Hlt q l. destruct (sends_consputc ready ch s) as (s1 & E1 & S1). destruct (sent_idle _ _ _ S1) as (Hi1 & Ec1 & Ep1).
  rewrite (bind_ok _ _ _ _ _ E1), (bind_ok _ _ _ _ _ (eq_refl : setc (cons_put ch) s1 = Ok tt (set_cons (cons_put ch (k_cons s1)) s1))).
  rewrite Ec1. set (c2 := cons_put ch (k_cons s)). set (s2 := set_cons c2 s1).
  rewrite (bind_ok _ _ _ _ _ (eq_refl : getc s2 = Ok c2 s2)). destruct (cons_len _ Hc) as (_ & _ & Ht).
  destruct (cons_put_lines ch (k_cons s) Hc) as (Hq & Hl & Hb & Er & Ew); [lia|]. fold c2 in Hq, Hl, Hb, Er, Ew. rewrite u8_small in Hl by lia.
  assert (idle s s2) as Hi2 by (etrans; [exact Hi1|apply idle_set_cons]).
  assert ((u32 (c_e c2 - c_r c2) =? INPUT_BUF_SIZE) = bool_decide (length q + length l = 127)%nat) as ->.
  { rewrite Er, Ht. unfold INPUT_BUF_SIZE, q, l. case_bool_decide; [apply Z.eqb_eq|apply Z.eqb_neq]; lia. }
  pose proof (u32_range (c_e (k_cons s) + 1)). pose proof (co_len _ Hc).
  assert (u32 (c_w c2 - c_r c2) + u32 (c_e c2 - c_w c2) ≤ 128) as Hlen.
  { rewrite Ew. change (c_w c2) with (c_w (k_cons s)). change (c_r c2) with (c_r (k_cons s)).
    destruct (cons_len _ Hc) as (L1 & L2 & _). fold q l in Hlt. unfold q, l in Hlt. rewrite L1, L2 in Hlt. lia. }
  destruct ((ch =? NEWLINE) || (ch =? Ctrl 68) || bool_decide (length q + length l = 127)%nat) eqn:Hend.
  - destruct (cons_commit c2) as (Hq3 & Hl3 & Hok3); [done|apply Hc|apply Hc|done|done|].
    set (s3 := set_cons (set_c_w (c_e c2) c2) s2).
    rewrite (bind_ok _ _ _ _ _ (eq_refl : setc (λ c, set_c_w (c_e c) c) s2 = Ok tt s3)).
    destruct (wakeup_run ChCons s3) as (ps & Ew4 & Hlp & Hps); [cbn; by rewrite Ep1|]. rewrite Ew4.
    exists (set_procs ps s3). split_and!; [done| |exact Hok3| |].
    + etrans; [exact Hi2|]. etrans; [apply (idle_set_cons (set_c_w (c_e c2) c2))|]. fold s3.
      destruct (wakeup_idle ChCons s3) as (s4 & E4 & Hi4 & _); [cbn; by rewrite Ep1|]. rewrite Ew4 in E4. by injection E4 as <-.
    + cbn [k_cons set_procs s3 set_cons]. rewrite Hq3, Hl3, Hq, Hl. done.
    + intros _ i p Hcur Hi Hst Hcn. cbn. rewrite Hps. cbn. rewrite Ep1, Hi. eexists. split; [done|].
      assert (k_cur s1 = k_cur s) as -> by (by destruct S1 as [n ->]).
      unfold woken. by rewrite decide_True by by split_and!.
  - exists s2. split_and!; [done|exact Hi2| | |].
    + destruct Hc. split; try done. cbn [k_cons set_cons s2]. rewrite Hl. intros [Hin|Hin%list_elem_of_singleton]%elem_of_app; [done|].
      rewrite <- Hin, Z.eqb_refl in Hend. done.
    + cbn [k_cons set_cons s2]. by rewrite Hq, Hl.
    + intros Hneq. destruct Hneq. exact Hq.
Qed.

(** C25: [consoleintr] implements the line editor: for every input character the
    complete lines and the line that is edited are those of [line_step], the
    counters wrapping around at 32 bits, and a reader that sleeps on the console
    is woken when a line is complete.  Nothing else in the kernel changes but
    scheduling states and what was sent to the UART. *)
Theorem consoleintr_refines s ch :
  cons_ok (k_cons s) → length (k_procs s) = NPROC → 0 ≤ ch < 256 →
  ∃ s', consoleintr ch s = Ok tt s' ∧ idle s s' ∧ cons_ok (k_cons s') ∧
    (committed (k_cons s'), editing (k_cons s')) = line_step ch (committed (k_cons s), editing (k_cons s)) ∧
    (committed (k_cons s') ≠ committed (k_cons s) → ∀ i p, k_cur s ≠ Some i → k_procs s !! i = Some p →
       p_state p = SLEEPING → p_chan p = Some ChCons → ∃ p', k_procs s' !! i = Some p' ∧ p_state p' = RUNNABLE).
Proof.
  intros Hc Hp Hch. unfold consoleintr, line_step. destruct (ch =? Ctrl 80).
  { destruct (procdump_sends s) as (cs & s' & E' & S'). destruct (sent_idle _ _ _ S') as (Hi & Ec & _). exists s'. by rewrite Ec. }
  destruct (ch =? Ctrl 85).
  { destruct (kill_line_run (Z.to_nat INPUT_BUF_SIZE) s Hc) as (s' & E' & Hi & Hok & Hq & Hl).
    { pose proof (co_len _ Hc). pose proof (u32_range (c_w (k_cons s) - c_r (k_cons s))). change (Z.to_nat INPUT_BUF_SIZE) with 128%nat. lia. }
    exists s'. rewrite Hq, Hl. by split_and!. }
  destruct ((ch =? Ctrl 72) || (ch =? DELETE)).
  { rewrite (bind_ok _ _ _ _ _ (eq_refl : getc s = Ok (k_cons s) s)).
    destruct (Z.eqb_spec (c_e (k_cons s)) (c_w (k_cons s))) as [E|Hne]; cbn [negb].
    - exists s. split_and!; try done. unfold editing. by rewrite E, Z.sub_diag.
    - destruct (backspace_run s Hc Hne) as (s' & E' & _ & (Hi & Hok & Hq & Hl) & _). exists s'. rewrite Hq, Hl. by split_and!. }
  rewrite (bind_ok _ _ _ _ _ (eq_refl : getc s = Ok (k_cons s) s)). destruct (cons_len _ Hc) as (_ & _ & Ht). rewrite Ht.
  set (nq := length (committed (k_cons s))) in *. set (nl := length (editing (k_cons s))) in *.
  assert (((nq + nl)%nat <? INPUT_BUF_SIZE) = bool_decide (nq + nl < 128)%nat) as ->.
  { unfold INPUT_BUF_SIZE. case_bool_decide; [apply Z.ltb_lt|apply Z.ltb_ge]; lia. }
  destruct (negb (ch =? 0) && bool_decide (nq + nl < 128)%nat) eqn:Hcond; [|exists s; by split_and!].
  apply andb_true_iff in Hcond as [_ Hlt%bool_decide_eq_true].
  apply (input_char_run s (if ch =? RETURN then NEWLINE else ch) Hc Hp); [case_match; unfold NEWLINE; lia|lia].
Qed.
End input.

(** ** The transmit buffer *)

(** The bytes that wait to be sent. *)
Definition txq (u : uart_t) : list Z := ring UART_TX_BUF_SIZE (u_buf u) (u_r u) (Z.to_nat (u64 (u_w u - u_r u))).

Record tx_ok (u : uart_t) : Prop := {
  tx_buf : length (u_buf u) = 32%nat;
  tx_w : 0 ≤ u_w u < 2 ^ 64;
  tx_r : 0 ≤ u_r u < 2 ^ 64;
  tx_len : u64 (u_w u - u_r u) ≤ 32 }.

(** All bytes ever given to the UART, sent or waiting. *)
Definition stream (u : uart_t) : list Z := u_out u ++ txq u.

Lemma tx_put_ok c u : tx_ok u → u_w u ≠ u64 (u_r u + UART_TX_BUF_SIZE) →
  tx_ok (tx_put c u) ∧ txq (tx_put c u) = txq u ++ [u8 c] ∧ (length (txq u) < 32)%nat.
Proof.
  intros [Hb Hw Hr Hl] Hne. unfold UART_TX_BUF_SIZE in *. pose proof (u64_range (u_w u - u_r u)) as Hrg.
  assert (u64 (u_w u - u_r u) < 32) as Hlt by (unfold u64 in *; dlia).
  assert (u64 (u64 (u_w u + 1) - u_r u) = u64 (u_w u - u_r u) + 1) as E by (unfold u64 in *; dlia).
  split_and!.
  - split; cbn; [by rewrite length_insert|apply u64_range|done|lia].
  - unfold txq, tx_put. cbn. rewrite E. replace (Z.to_nat (u64 (u_w u - u_r u) + 1)) with (Z.to_nat (u64 (u_w u - u_r u)) + 1)%nat by lia.
    rewrite ring_app. f_equal.
    + apply ring_insert_out; [done|]. unfold UART_TX_BUF_SIZE, u64 in *. intros k Hk. dlia.
    + apply ring_last; [done|by rewrite Hb|]. unfold UART_TX_BUF_SIZE, u64 in *. dlia.
  - unfold txq. rewrite length_ring. lia.
Qed.

Lemma tx_get_ok u : tx_ok u → u_w u ≠ u_r u →
  let u' := set_u_r (u64 (u_r u + 1)) u in
  tx_ok u' ∧ txq u = default 0 (u_buf u !! Z.to_nat (u_r u mod UART_TX_BUF_SIZE)) :: txq u'.
Proof.
  intros [Hb Hw Hr Hl] Hne u'. pose proof (u64_range (u_w u - u_r u)) as Hrg.
  assert (u64 (u_w u - u64 (u_r u + 1)) = u64 (u_w u - u_r u) - 1 ∧ 1 ≤ u64 (u_w u - u_r u)) as [E Hpos] by (unfold u64 in *; dlia).
  split; [split; cbn; [done|done|apply u64_range|lia]|]. unfold txq, u'. cbn. rewrite E.
  replace (Z.to_nat (u64 (u_w u - u_r u))) with (1 + Z.to_nat (u64 (u_w u - u_r u) - 1))%nat by lia. rewrite ring_app. cbn [app].
  unfold ring at 1. cbn. rewrite Z.add_0_r. f_equal. apply ring_mod. unfold UART_TX_BUF_SIZE, u64 in *. dlia.
Qed.

Section tx.
Context `{U : Uart} `{W : Waits}.

Lemma idle_set_uart u s : idle s (set_uart u s).
Proof. split; [done|]. by destruct s. Qed.

Lemma uartstart_run : ∀ (fuel : nat) s, tx_ok (k_uart s) → Forall (λ c, 0 ≤ c < 256) (txq (k_uart s)) → length (k_procs s) = NPROC →
  (length (txq (k_uart s)) ≤ fuel)%nat →
  ∃ s', uartstart_loop fuel s = Ok tt s' ∧ idle s s' ∧ tx_ok (k_uart s') ∧ stream (k_uart s') = stream (k_uart s) ∧
    ∃ k, txq (k_uart s') = drop k (txq (k_uart s)).
Proof.
  intros fuel. induction fuel as [|fuel IH]; intros s Hok Hc Hp Hf; cbn [uartstart_loop];
    rewrite (bind_ok _ _ _ _ _ (eq_refl : getu s = Ok (k_uart s) s)); destruct (Z.eqb_spec (u_w (k_uart s)) (u_r (k_uart s))) as [E|Hne].
  1,3: exists s; split_and!; try done; by exists 0%nat.
  { destruct (tx_get_ok _ Hok Hne) as [_ E]. rewrite E in Hf. cbn in Hf. lia. }
  destruct (tx_get_ok _ Hok Hne) as [Hok' Eq]. rewrite (bind_ok _ _ _ _ _ (read_lsr_run s)).
  set (s1 := set_uart (set_u_lsr (S (u_lsr (k_uart s))) (k_uart s)) s).
  assert (idle s s1) as Hi1 by apply idle_set_uart.
  destruct (Z.land _ LSR_TX_IDLE =? 0).
  { exists s1. split_and!; [done|done|by destruct Hok|done|by exists 0%nat]. }
  set (c := default 0 (u_buf (k_uart s) !! Z.to_nat (u_r (k_uart s) mod UART_TX_BUF_SIZE))) in *.
  rewrite (bind_ok _ _ _ _ _ (eq_refl : getu s1 = Ok (k_uart s1) s1)).
  set (s2 := set_uart (set_u_r (u64 (u_r (k_uart s) + 1)) (k_uart s1)) s1).
  rewrite (bind_ok _ _ _ _ _ (eq_refl : setu (set_u_r (u64 (u_r (k_uart s1) + 1))) s1 = Ok tt s2)).
  destruct (wakeup_idle ChUart s2 Hp) as (s3 & E3 & Hi3 & Es3). rewrite (bind_ok _ _ _ _ _ E3).
  assert (k_uart s3 = k_uart s2) as Eu3 by by rewrite Es3.
  set (s4 := set_uart (set_u_out (u_out (k_uart s3) ++ [u8 c]) (k_uart s3)) s3).
  rewrite (bind_ok _ _ _ _ _ (eq_refl : write_thr c s3 = Ok tt s4)). rewrite Eq in Hc. inversion Hc as [|? ? Hc0 Hc']; subst x l.
  assert (txq (k_uart s4) = txq (set_u_r (u64 (u_r (k_uart s) + 1)) (k_uart s))) as Eq4 by (unfold s4; cbn; by rewrite Eu3).
  assert (idle s s4) as Hi4.
  { etrans; [exact Hi1|]. etrans; [apply idle_set_uart|]. etrans; [exact Hi3|]. apply idle_set_uart. }
  destruct (IH s4) as (s' & E' & Hi' & Hok5 & Hst & k & Hk).
  - unfold s4. cbn. rewrite Eu3. by destruct Hok'.
  - by rewrite Eq4.
  - cbn. by rewrite <- (list.Forall2_length _ _ _ (idle_procs _ _ Hi3)).
  - rewrite Eq4. rewrite Eq in Hf. cbn in Hf. lia.
  - exists s'. split_and!; [done|by etrans|done| |].
    + rewrite Hst. unfold stream. rewrite Eq4, Eq. cbn. rewrite Eu3, u8_small by lia. cbn. by rewrite <- app_assoc.
    + exists (S k). by rewrite Hk, Eq4, Eq.
Qed.

(** What other threads and interrupts may do while [uartputc] waits. *)
Definition tx_env (i : nat) (s s' : kstate) : Prop :=
  (runs_on i s → runs_on i s') ∧ (tx_ok (k_uart s) → tx_ok (k_uart s')) ∧
  (Forall (λ c, 0 ≤ c < 256) (txq (k_uart s)) → Forall (λ c, 0 ≤ c < 256) (txq (k_uart s'))).

(** [uartputc] for any interleaving: in the state in which it goes on, the
    buffer has room, and the character becomes the last one of the stream of bytes
    given to the UART; the bytes before it stay in their order. *)
Theorem uartputc_appends i c s :
  runs_on i s → tx_ok (k_uart s) → Forall (λ c, 0 ≤ c < 256) (txq (k_uart s)) →
  wp (λ w, w = NoFuel) (λ _, True) (tx_env i) (λ _ s', ∃ s1,
      tx_ok (k_uart s1) ∧ (length (txq (k_uart s1)) < 32)%nat ∧ tx_ok (k_uart s') ∧
      stream (k_uart s') = stream (k_uart s1) ++ [u8 c] ∧ idle s1 s')
    (uartputc c s).
Proof.
  intros Hr Hok Hq. unfold uartputc.
  assert (∀ s, runs_on i s → tx_ok (k_uart s) → Forall (λ c, 0 ≤ c < 256) (txq (k_uart s)) →
    u_w (k_uart s) ≠ u64 (u_r (k_uart s) + UART_TX_BUF_SIZE) →
    ∃ s', (setu (tx_put c);; uartstart) s = Ok tt s' ∧ (length (txq (k_uart s)) < 32)%nat ∧ tx_ok (k_uart s') ∧
      stream (k_uart s') = stream (k_uart s) ++ [u8 c] ∧ idle s s') as Hput.
  { clear s Hr Hok Hq. intros s Hr Hok Hq Hne. destruct (tx_put_ok c _ Hok Hne) as (Hok1 & Hq1 & Hl).
    set (s1 := set_uart (tx_put c (k_uart s)) s). rewrite (bind_ok _ _ _ _ _ (eq_refl : setu (tx_put c) s = Ok tt s1)).
    destruct (uartstart_run (Z.to_nat UART_TX_BUF_SIZE) s1) as (s' & E' & Hi & Hok' & Hst & _); [done| |apply Hr| |].
    - change (k_uart s1) with (tx_put c (k_uart s)). rewrite Hq1. apply Forall_app. split; [done|]. constructor; [apply u8_range|done].
    - change (k_uart s1) with (tx_put c (k_uart s)). rewrite Hq1, length_app. change (Z.to_nat UART_TX_BUF_SIZE) with 32%nat. cbn. lia.
    - exists s'. split_and!; [exact E'|done|done| |etrans; [apply idle_set_uart|exact Hi]].
      rewrite Hst. unfold stream. change (k_uart s1) with (tx_put c (k_uart s)). rewrite Hq1. cbn. by rewrite app_assoc. }
  apply wp_bind. generalize max_waits as fuel. intros fuel. revert s Hr Hok Hq.
  induction fuel as [|fuel IH]; intros s Hr Hok Hq; cbn [uartputc_wait]; eapply wp_ok; try reflexivity; cbv beta;
    destruct (Z.eqb_spec (u_w (k_uart s)) (u64 (u_r (k_uart s) + UART_TX_BUF_SIZE))) as [E|Hne].
  1: done.
  1,3: destruct (Hput s Hr Hok Hq Hne) as (s' & E' & ? & ? & ? & ?); cbn [wp mret M_ret]; rewrite E'; by exists s.
  destruct (Hr). destruct (lookup_lt_is_Some_2 (k_procs s) i) as [p Hp]; [lia|]. apply wp_bind. rewrite (sleep_run ChUart i s p) by done.
  cbn [wp]. split; [done|]. intros s' (H1 & H2 & H3). apply IH.
  - destruct H1; [by split; cbn; rewrite ?length_alter|]. split; cbn; rewrite ?length_alter; done.
  - by apply H2.
  - by apply H3.
Qed.
End tx.

(** ** Instances of the theorems *)

(** A transmitter that is always idle. *)
Definition ex_uart : Uart := {| lsr := λ _, 32; rhr := λ _, 65; max_spins := 0 |}.

Lemma ex_uart_ready : @uart_ready ex_uart.
Proof. intros t. exists 0%nat. split; [done|]. by vm_compute. Qed.

Lemma printf_correct_witness :
  formatted [97; 37; 100; 37; 37] [PInt (-12)] = Some [97; 45; 49; 50; 37] ∧
  sends [97; 45; 49; 50; 37] (@printf ex_uart [97; 37; 100; 37; 37] [PInt (-12)]) kstate0.
Proof.
  assert (formatted [97; 37; 100; 37; 37] [PInt (-12)] = Some [97; 45; 49; 50; 37]) as E by by vm_compute.
  split; [exact E|]. apply (@printf_correct ex_uart ex_uart_ready); [repeat constructor; lia|by repeat constructor|exact E].
Defined.

(** A newline while process 0 runs completes the line. *)
Definition ex_typed : cons_t := mkCons (<[0%nat := 97]> (replicate 128 0)) 0 0 1.

Lemma ex_typed_ok : cons_ok ex_typed.
Proof. split; try done. change (editing ex_typed) with [97]. by intros ?%list_elem_of_singleton. Qed.

Lemma consoleintr_refines_witness :
  ∃ s', @consoleintr ex_uart 13 (set_cons ex_typed kstate0) = Ok tt s' ∧ committed (k_cons s') = [97; 10].
Proof.
  destruct (@consoleintr_refines ex_uart ex_uart_ready (set_cons ex_typed kstate0) 13 ex_typed_ok eq_refl ltac:(lia))
    as (s' & E & _ & _ & H & _).
  exists s'. split; [exact E|]. change (line_step _ _) with ([97; 10], @nil Z) in H. congruence.
Defined.

Lemma uartputc_appends_witness :
  wp (λ w, w = NoFuel) (λ _, True) (tx_env 0) (λ _ s', tx_ok (k_uart s')) (@uartputc ex_uart 3%nat 65 (set_cur (Some 0%nat) kstate0)).
Proof.
  eapply wp_mono; [|apply (@uartputc_appends ex_uart 3%nat 0 65)].
  - by intros _ s' (s1 & _ & _ & H & _).
  - split; [done|unfold NPROC; lia|apply length_replicate].
  - by split.
  - constructor.
Defined.
