(* ===== verification/Sysfile.v ===== *)
(** The file system calls: src/kernel/sysfile.c.  Each handler is the whole
    transaction, from [begin_op] to [end_op], with the exits of its error
    labels. *)

From S2P Require Import Prelude Machine Str Types Proc ProcSpec Rely Sleeplock Kalloc Vm Bio Bytes Log Fs Dir Vma Pipe File ProcLife Exec Sysargs.

Section sysfile.
Context `{L : Linker} `{D : Disk} `{W : Waits}.
Variable devsw : devsw_t.
Variable stat_pad : list Z.

Definition sys_dup : K Z :=
  a ← argfd 0;
  match a with
  | None => mret (-1)
  | Some (_, f) =>
      fd ← fdalloc f;
      if fd <? 0 then mret (-1) else _ ← filedup f; mret fd
  end.

Definition sys_read : K Z :=
  p ← argaddr 1;
  n ← argint 2;
  a ← argfd 0;
  match a with None => mret (-1) | Some (_, f) => fileread devsw f p n end.

Definition sys_write : K Z :=
  p ← argaddr 1;
  n ← argint 2;
  a ← argfd 0;
  match a with None => mret (-1) | Some (_, f) => filewrite devsw f p n end.

Definition sys_close : K Z :=
  a ← argfd 0;
  match a with
  | None => mret (-1)
  | Some (fd, f) => fdclear fd;; fileclose f;; mret 0
  end.

Definition sys_fstat : K Z :=
  st ← argaddr 1;
  a ← argfd 0;
  match a with None => mret (-1) | Some (_, f) => filestat stat_pad f st end.

(** [bad:] of [sys_link]. *)
Definition link_bad (ip : nat) : K Z :=
  ilock (Some ip);;
  seti ip (λ x, set_i_nlink (s16 (i_nlink x - 1)) x);;
  iupdate ip;;
  iunlockput (Some ip);;
  end_op;;
  mret (-1).

(** The part of [sys_link] after the inode of [old] has its new link count. *)
Definition link_new (ip : nat) (new : list Z) : K Z :=
  r ← nameiparent new;
  match r.1 with
  | None => link_bad ip
  | Some dp =>
      ilock (Some dp);;
      d ← geti dp;
      x ← geti ip;
      ok ← (if negb (i_dev d =? i_dev x) then mret false
            else n ← dirlink dp r.2 (i_inum x); mret (negb (n <? 0)));
      if (ok : bool) then iunlockput (Some dp);; iput (Some ip);; end_op;; mret 0
      else iunlockput (Some dp);; link_bad ip
  end.

Definition sys_link : K Z :=
  old ← argstr 0 MAXPATH;
  match old with
  | None => mret (-1)
  | Some old =>
      new ← argstr 1 MAXPATH;
      match new with
      | None => mret (-1)
      | Some new =>
          begin_op;;
          o ← namei old;
          match o with
          | None => end_op;; mret (-1)
          | Some ip =>
              ilock (Some ip);;
              x ← geti ip;
              if i_type x =? T_DIR then iunlockput (Some ip);; end_op;; mret (-1)
              else
                seti ip (λ x, set_i_nlink (s16 (i_nlink x + 1)) x);;
                iupdate ip;;
                iunlock (Some ip);;
                link_new ip new
          end
      end
  end.

(** [for(off=2*sizeof(de); off<dp->size; off+=sizeof(de))] *)
Fixpoint isdirempty_loop (fuel : nat) (dp : nat) (off : Z) : K bool :=
  x ← geti dp;
  if off <? i_size x then
    match fuel with
    | O => halt NoFuel
    | S fuel' =>
        r ← readi_obj dp off 16;
        if negb (r.1 =? 16) then panic "isdirempty: readi"
        else if negb (de_inum r.2 =? 0) then mret false
        else isdirempty_loop fuel' dp (off + 16)
    end
  else mret true.
Definition isdirempty (dp : nat) : K bool :=
  x ← geti dp; isdirempty_loop (Z.to_nat (i_size x / 16 + 1)) dp 32.

Definition DOT : list Z := [46].
Definition DOTDOT : list Z := [46; 46].

(** [bad:] of [sys_unlink]. *)
Definition unlink_bad (dp : nat) : K Z := iunlockput (Some dp);; end_op;; mret (-1).

(** [sys_unlink] once the entry at [off] of [dp] is found. *)
Definition unlink_entry (dp ip : nat) (off : Z) : K Z :=
  ilock (Some ip);;
  x ← geti ip;
  if i_nlink x <? 1 then panic "unlink: nlink < 1"
  else
    busy ← (if i_type x =? T_DIR then e ← isdirempty ip; mret (negb e) else mret false);
    if (busy : bool) then iunlockput (Some ip);; unlink_bad dp
    else
      n ← writei_obj dp (replicate 16 0) off;
      if negb (n =? 16) then panic "unlink: writei"
      else
        x ← geti ip;
        when (i_type x =? T_DIR)
          (seti dp (λ d, set_i_nlink (s16 (i_nlink d - 1)) d);; iupdate dp);;
        iunlockput (Some dp);;
        seti ip (λ x, set_i_nlink (s16 (i_nlink x - 1)) x);;
        iupdate ip;;
        iunlockput (Some ip);;
        end_op;;
        mret 0.

Definition sys_unlink : K Z :=
  path ← argstr 0 MAXPATH;
  match path with
  | None => mret (-1)
  | Some path =>
      begin_op;;
      r ← nameiparent path;
      match r.1 with
      | None => end_op;; mret (-1)
      | Some dp =>
          ilock (Some dp);;
          if (namecmp r.2 DOT =? 0) || (namecmp r.2 DOTDOT =? 0) then unlink_bad dp
          else
            e ← dirlookup dp r.2;
            match e with
            | None => unlink_bad dp
            | Some (ip, off) => unlink_entry dp ip off
            end
      end
  end.

(** [fail:] of [create]. *)
Definition create_fail (dp ip : nat) : K (option nat) :=
  seti ip (set_i_nlink 0);;
  iupdate ip;;
  iunlockput (Some ip);;
  iunlockput (Some dp);;
  mret None.

(** [create] once the new inode is allocated. *)
Definition create_new (dp ip : nat) (name : list Z) (type major minor : Z) : K (option nat) :=
  ilock (Some ip);;
  seti ip (set_i_major major);;
  seti ip (set_i_minor minor);;
  seti ip (set_i_nlink 1);;
  iupdate ip;;
  ok ← (if type =? T_DIR then
          x ← geti ip;
          n ← dirlink ip DOT (i_inum x);
          if n <? 0 then mret false
          else d ← geti dp; n ← dirlink ip DOTDOT (i_inum d); mret (negb (n <? 0))
        else mret true);
  if negb ok then create_fail dp ip
  else
    x ← geti ip;
    n ← dirlink dp name (i_inum x);
    if n <? 0 then create_fail dp ip
    else
      when (type =? T_DIR) (seti dp (λ d, set_i_nlink (s16 (i_nlink d + 1)) d);; iupdate dp);;
      iunlockput (Some dp);;
      mret (Some ip).

(** The inode, locked, or [None]. *)
Definition create (path : list Z) (type major minor : Z) : K (option nat) :=
  r ← nameiparent path;
  match r.1 with
  | None => mret None
  | Some dp =>
      ilock (Some dp);;
      e ← dirlookup dp r.2;
      match e with
      | Some (ip, _) =>
          iunlockput (Some dp);;
          ilock (Some ip);;
          x ← geti ip;
          if (type =? T_FILE) && ((i_type x =? T_FILE) || (i_type x =? T_DEVICE)) then mret (Some ip)
          else iunlockput (Some ip);; mret None
      | None =>
          d ← geti dp;
          o ← ialloc (i_dev d) type;
          match o with
          | None => iunlockput (Some dp);; mret None
          | Some ip => create_new dp ip r.2 type major minor
          end
      end
  end.

(** The inode [sys_open] opens, locked, or [None]. *)
Definition open_inode (path : list Z) (omode : Z) : K (option nat) :=
  if negb (Z.land omode O_CREATE =? 0) then create path T_FILE 0 0
  else
    o ← namei path;
    match o with
    | None => mret None
    | Some ip =>
        ilock (Some ip);;
        x ← geti ip;
        if (i_type x =? T_DIR) && negb (omode =? O_RDONLY) then iunlockput (Some ip);; mret None
        else mret (Some ip)
    end.

(** [sys_open] with the locked inode. *)
Definition open_file (ip : nat) (omode : Z) : K Z :=
  x ← geti ip;
  if (i_type x =? T_DEVICE) && ((i_major x <? 0) || (i_major x >=? NDEV)) then
    iunlockput (Some ip);; end_op;; mret (-1)
  else
    o ← filealloc;
    match o with
    | None => iunlockput (Some ip);; end_op;; mret (-1)
    | Some f =>
        fd ← fdalloc f;
        if fd <? 0 then fileclose f;; iunlockput (Some ip);; end_op;; mret (-1)
        else
          x ← geti ip;
          (if i_type x =? T_DEVICE then setf f (set_f_type FD_DEVICE);; setf f (set_f_major (i_major x))
           else setf f (set_f_type FD_INODE);; setf f (set_f_off 0));;
          setf f (set_f_ip (Some ip));;
          setf f (set_f_readable (Z.land omode O_WRONLY =? 0));;
          setf f (set_f_writable (negb (Z.land omode O_WRONLY =? 0) || negb (Z.land omode O_RDWR =? 0)));;
          x ← geti ip;
          when (negb (Z.land omode O_TRUNC =? 0) && (i_type x =? T_FILE)) (itrunc ip);;
          iunlock (Some ip);;
          end_op;;
          mret fd
    end.

Definition sys_open : K Z :=
  omode ← argint 1;
  path ← argstr 0 MAXPATH;
  match path with
  | None => mret (-1)
  | Some path =>
      begin_op;;
      o ← open_inode path omode;
      match o with
      | None => end_op;; mret (-1)
      | Some ip => open_file ip omode
      end
  end.

(** [sys_mkdir] and [sys_mknod] after their arguments. *)
Definition make_node (path : option (list Z)) (type major minor : Z) : K Z :=
  o ← match path with None => mret None | Some path => create path type major minor end;
  match o with
  | None => end_op;; mret (-1)
  | Some ip => iunlockput (Some ip);; end_op;; mret 0
  end.

Definition sys_mkdir : K Z :=
  begin_op;;
  path ← argstr 0 MAXPATH;
  make_node path T_DIR 0 0.

(** [create] takes [short]s. *)
Definition sys_mknod : K Z :=
  begin_op;;
  major ← argint 1;
  minor ← argint 2;
  path ← argstr 0 MAXPATH;
  make_node path T_DEVICE (s16 major) (s16 minor).

Definition sys_chdir : K Z :=
  p ← curproc;
  begin_op;;
  path ← argstr 0 MAXPATH;
  o ← match path with None => mret None | Some path => namei path end;
  match o with
  | None => end_op;; mret (-1)
  | Some ip =>
      ilock (Some ip);;
      x ← geti ip;
      if negb (i_type x =? T_DIR) then iunlockput (Some ip);; end_op;; mret (-1)
      else
        iunlock (Some ip);;
        x ← getp p;
        iput (p_cwd x);;
        end_op;;
        setp p (set_cwd (Some ip));;
        mret 0
  end.

(** The loop of [sys_exec]: the pages with the arguments, and whether all were
    fetched. *)
Fixpoint exec_fetch (fuel : nat) (uargv i : Z) (argv : list Z) : K (bool * list Z) :=
  match fuel with
  | O => mret (false, argv)
  | S fuel' =>
      r ← fetchaddr (u64 (uargv + 8 * i));
      match r with
      | None => mret (false, argv)
      | Some uarg =>
          if uarg =? 0 then mret (true, argv)
          else
            page ← kalloc;
            if page =? 0 then mret (false, argv)
            else
              n ← fetchstr_page uarg page PGSIZE;
              if n <? 0 then mret (false, argv ++ [page])
              else exec_fetch fuel' uargv (i + 1) (argv ++ [page])
      end
  end.

Definition sys_exec : K Z :=
  uargv ← argaddr 1;
  path ← argstr 0 MAXPATH;
  match path with
  | None => mret (-1)
  | Some path =>
      r ← exec_fetch MAXARG uargv 0 [];
      if (r.1 : bool) then
        ret ← exec path r.2;
        forM_ r.2 kfree;;
        mret ret
      else
        forM_ r.2 kfree;;
        mret (-1)
  end.

(** Both descriptors are given back. *)
Definition pipe_undo (rf wf : nat) : K Z := fileclose rf;; fileclose wf;; mret (-1).

Definition sys_pipe : K Z :=
  fdarray ← argaddr 0;
  o ← pipealloc;
  match o with
  | None => mret (-1)
  | Some (rf, wf) =>
      fd0 ← fdalloc rf;
      if fd0 <? 0 then pipe_undo rf wf
      else
        fd1 ← fdalloc wf;
        if fd1 <? 0 then fdclear fd0;; pipe_undo rf wf
        else
          pt ← my_pagetable;
          r ← copyout_obj check_vmas pt fdarray (le_split 4 fd0);
          ok ← (if r <? 0 then mret false
                else r ← copyout_obj check_vmas pt (u64 (fdarray + 4)) (le_split 4 fd1); mret (negb (r <? 0)));
          if (ok : bool) then mret 0
          else fdclear fd0;; fdclear fd1;; pipe_undo rf wf
  end.
End sysfile.
