(* ===== verification/Sysproc.v ===== *)
(** The process system calls: src/kernel/sysproc.c.  Results are the C values;
    [syscall] stores them as 64-bit registers. *)

From S2P Require Import Prelude Machine Str Types Proc ProcSpec Rely Sleeplock Kalloc Vm Bio Bytes Log Fs Dir Vma Pipe File ProcLife Sysargs.

Section sysproc.
Context `{L : Linker} `{D : Disk} `{W : Waits}.

Definition sys_exit : K Z := n ← argint 0; halt (Exits n).

Definition sys_getpid : K Z := p ← curproc; x ← getp p; mret (p_pid x).

Definition sys_fork : K Z := fork.

Definition sys_wait : K Z := p ← argaddr 0; wait p.

Definition sys_sbrk : K Z :=
  n ← argint 0;
  p ← curproc;
  x ← getp p;
  r ← growproc n;
  if r <? 0 then mret (-1) else mret (p_sz x).

(** [while(ticks - ticks0 < n)]: the comparison is unsigned. *)
Fixpoint sleep_ticks (fuel : nat) (p : nat) (ticks0 n : Z) : K Z :=
  t ← gets k_ticks;
  if u32 (t - ticks0) <? u32 n then
    k ← killed p;
    if (k : bool) then mret (-1)
    else
      match fuel with
      | O => halt NoFuel
      | S fuel' => sleep ChTicks;; sleep_ticks fuel' p ticks0 n
      end
  else mret 0.
Definition sys_sleep : K Z :=
  n ← argint 0;
  ticks0 ← gets k_ticks;
  p ← curproc;
  sleep_ticks max_waits p ticks0 n.

Definition sys_kill : K Z := pid ← argint 0; kill pid.

Definition sys_uptime : K Z := gets k_ticks.

Definition sys_settickets : K Z :=
  tickets ← argint 0;
  if tickets <? 1 then mret (-1)
  else p ← curproc; setp p (set_tickets tickets);; mret 0.

Definition sys_getpinfo : K Z := pstat ← argaddr 0; pinfo pstat.

Definition sys_mmap : K Z :=
  addr ← argaddr 0;
  length ← argint 1;
  prot ← argint 2;
  flags ← argint 3;
  offset ← argint 5;
  a ← argfd 4;
  match a with
  | None => mret MAP_FAILED
  | Some (fd, f) =>
      ff ← getf f;
      if negb (prot =? PROT_READ) && negb (prot =? PROT_WRITE) && negb (prot =? PROT_RW) then mret MAP_FAILED
      else if prot =? PROT_EXEC then mret MAP_FAILED
      else if negb (flags =? MAP_SHARED) && negb (flags =? MAP_PRIVATE) then mret MAP_FAILED
      else if negb (f_readable ff) then mret MAP_FAILED
      else if (flags =? MAP_SHARED) && ((prot =? PROT_WRITE) || (prot =? PROT_RW)) && negb (f_writable ff)
      then mret MAP_FAILED
      else if length <? 0 then mret MAP_FAILED
      else allocvma length prot flags f fd offset
  end.

Definition sys_munmap : K Z :=
  addr ← argaddr 0;
  size ← argint 1;
  if (addr <=? 0) || negb (addr mod PGSIZE =? 0) then mret (-1)
  else if (size <? 0) || negb (size mod PGSIZE =? 0) then mret (-1)
  else if size =? 0 then mret 0
  else deallocvma addr size.

Definition sys_getpagefaults : K Z := p ← curproc; x ← getp p; mret (p_page_faults x).
End sysproc.
