(* ===== verification/Trap.v ===== *)
(** Traps and the system call dispatcher: src/kernel/trap.c and the last part of
    src/kernel/syscall.c.

    The values of the control registers at the trap are arguments; the handlers
    of the devices and the interrupt controller are parameters.  A trap from
    user space ends with [exit] or returns to user space with the registers that
    [usertrapret] sets up. *)

From S2P Require Import Prelude Machine Str Types Proc ProcSpec Rely Sleeplock Kalloc Vm Bio Bytes Log Fs Dir Vma Pipe File ProcLife Exec Sysargs Sysfile Sysproc.

Section trap.
Context `{L : Linker} `{D : Disk} `{W : Waits}.
Variable devsw : devsw_t.
Variable stat_pad : list Z.

(** ** syscall.c *)

Definition syscalls (num : Z) : option (K Z) :=
  match num with
  | 1 => Some sys_fork
  | 2 => Some sys_exit
  | 3 => Some sys_wait
  | 4 => Some sys_pipe
  | 5 => Some (sys_read devsw)
  | 6 => Some sys_kill
  | 7 => Some sys_exec
  | 8 => Some (sys_fstat stat_pad)
  | 9 => Some sys_chdir
  | 10 => Some sys_dup
  | 11 => Some sys_getpid
  | 12 => Some sys_sbrk
  | 13 => Some sys_sleep
  | 14 => Some sys_uptime
  | 15 => Some sys_open
  | 16 => Some (sys_write devsw)
  | 17 => Some sys_mknod
  | 18 => Some sys_unlink
  | 19 => Some sys_link
  | 20 => Some sys_mkdir
  | 21 => Some sys_close
  | 22 => Some sys_settickets
  | 23 => Some sys_getpinfo
  | 24 => Some sys_mmap
  | 25 => Some sys_munmap
  | 26 => Some sys_getpagefaults
  | _ => None
  end.

Definition syscall : K unit :=
  p ← curproc;
  a7 ← tf_get p (TF_a 7);
  match syscalls (s32 a7) with
  | Some f => r ← f; tf_set p (TF_a 0) r
  | None => tf_set p (TF_a 0) (-1)
  end.

(** ** trap.c *)

Definition SSTATUS_SPP : Z := Z.shiftl 1 8.
Definition SSTATUS_SPIE : Z := Z.shiftl 1 5.
Definition SATP_SV39 : Z := Z.shiftl 8 60.
Definition MAKE_SATP (pagetable : Z) : Z := Z.lor SATP_SV39 (Z.shiftr pagetable 12).

(** The branches of [usertrap] and [kerneltrap] for [scause] 13 and 15, a load or
    a store that faulted at [addr]; whether the fault is solved. *)
Definition page_fault (p : nat) (scause addr : Z) : K bool :=
  x ← getp p;
  phy ← walkaddr (p_pagetable x) addr;
  if negb (phy =? 0) && (scause =? 15) then
    r ← find_vma p addr;
    match r with
    | Some _ => cow_fault p addr phy;; mret true
    | None => mret false
    end
  else if in_vma addr (p_text x) then
    allocPhysicalVMA (VText p) p addr (Z.lor (Z.lor PTE_R PTE_X) PTE_U);; mret true
  else if in_vma addr (p_data x) then
    allocPhysicalVMA (VData p) p addr (Z.lor (Z.lor PTE_R PTE_W) PTE_U);; mret true
  else map_fault p addr.

(** [scause] 12: an instruction that is not mapped. *)
Definition text_fault (p : nat) (addr : Z) : K unit :=
  x ← getp p;
  when (in_vma addr (p_text x))
    (allocPhysicalVMA (VText p) p addr (Z.lor (Z.lor PTE_R PTE_X) PTE_U)).

Definition clockintr : K unit :=
  modify (λ s, set_kticks (u32 (k_ticks s + 1)) s);;
  wakeup ChTicks.

(** The devices and this CPU. *)
Variables (plic_claim : K Z) (plic_complete : Z → K unit) (uartintr virtio_disk_intr : K unit).
Variable cpuid : Z.

Definition UART0_IRQ : Z := 10.
Definition VIRTIO0_IRQ : Z := 1.

Definition devintr (scause : Z) : K Z :=
  if negb (Z.land scause 0x8000000000000000 =? 0) && (Z.land scause 0xff =? 9) then
    irq ← plic_claim;
    (if irq =? UART0_IRQ then uartintr
     else if irq =? VIRTIO0_IRQ then virtio_disk_intr
     else mret tt);;
    (if irq =? 0 then mret tt else plic_complete irq);;
    mret 1
  else if scause =? 0x8000000000000001 then
    (if cpuid =? 0 then clockintr else mret tt);;
    mret 2
  else mret 0.

(** What [usertrapret] leaves for the return to user space: [sstatus], [sepc] and
    the page table register for the trampoline. *)
Record uregs : Type := mkUregs { u_sstatus : Z; u_sepc : Z; u_satp : Z }.

Definition usertrapret (sstatus satp tp usertrap_addr : Z) : K uregs :=
  p ← curproc;
  x ← getp p;
  tf_set p TF_kernel_satp satp;;
  tf_set p TF_kernel_sp (p_kstack x + PGSIZE);;
  tf_set p TF_kernel_trap usertrap_addr;;
  tf_set p TF_kernel_hartid tp;;
  epc ← tf_get p TF_epc;
  mret (mkUregs (Z.lor (Z.land sstatus (u64 (Z.lnot SSTATUS_SPP))) SSTATUS_SPIE) epc
          (MAKE_SATP (p_pagetable x))).

(** [usertrap] up to the call of [usertrapret]; the calls of [exit] in it are
    [Exits] outcomes. *)
Definition usertrap_body (sstatus scause stval sepc : Z) : K unit :=
  if negb (Z.land sstatus SSTATUS_SPP =? 0) then panic "usertrap: not from user mode"
  else
    p ← curproc;
    tf_set p TF_epc sepc;;
    which_dev ← (
      if scause =? 8 then
        k ← killed p;
        (if (k : bool) then halt (Exits (-1)) else mret tt);;
        epc ← tf_get p TF_epc;
        tf_set p TF_epc (epc + 4);;
        syscall;;
        mret 0
      else if scause =? 12 then text_fault p stval;; mret 0
      else if (scause =? 13) || (scause =? 15) then
        solved ← page_fault p scause stval;
        (if (solved : bool) then mret tt else setkilled p);;
        mret 0
      else
        d ← devintr scause;
        (if d =? 0 then setkilled p else mret tt);;
        mret d);
    k ← killed p;
    (if (k : bool) then halt (Exits (-1)) else mret tt);;
    when (which_dev =? 2) yield.

Definition usertrap (sstatus scause stval sepc satp tp usertrap_addr : Z) : K uregs :=
  handle_exit (usertrap_body sstatus scause stval sepc);;
  usertrapret sstatus satp tp usertrap_addr.

Definition kerneltrap (sstatus scause stval : Z) : K unit :=
  if Z.land sstatus SSTATUS_SPP =? 0 then panic "kerneltrap: not from supervisor mode"
  else
    (if scause =? 12 then p ← curproc; text_fault p stval
     else if (scause =? 13) || (scause =? 15) then
       p ← curproc;
       solved ← page_fault p scause stval;
       if (solved : bool) then mret tt else setkilled p
     else mret tt);;
    which_dev ← devintr scause;
    if which_dev =? 0 then panic "kerneltrap"
    else
      me ← myproc;
      match me with
      | Some i =>
          x ← getp i;
          when ((which_dev =? 2) && bool_decide (p_state x = RUNNING)) yield
      | None => mret tt
      end.
End trap.
