(* ===== verification/Virtio.v ===== *)
(** The disk driver: src/kernel/virtio_disk.c and src/kernel/virtio.h.

    The state is the driver's [struct disk] with the queue it shares with the
    device: descriptors, available ring and used ring.  An address in a descriptor
    says what it points to.  [vdisk_lock] is held by every function except while
    it sleeps, so the code between two sleeps is one step; [VirtioSpec] has the
    interleaving of these steps with the device and its interrupts. *)

From S2P Require Import Prelude Machine Str Types.

Module Virtio.

(** ** virtio.h *)

Definition NUM : nat := 8.
Definition VRING_DESC_F_NEXT : Z := 1.
Definition VRING_DESC_F_WRITE : Z := 2.
Definition VIRTIO_BLK_T_IN : Z := 0.
Definition VIRTIO_BLK_T_OUT : Z := 1.
Definition BLOCK : Z := 1024.

(** What the driver gives the device the address of: a request header
    [disk.ops[i]], the data of a buffer, and a status byte [disk.info[i].status]. *)
Inductive dptr : Type := NullPtr | OpPtr (i : nat) | DataPtr (b : nat) | StatusPtr (i : nat).

#[global] Instance dptr_eq_dec : EqDecision dptr.
Proof. solve_decision. Defined.

Record virtq_desc : Type := mkDesc { d_addr : dptr; d_len : Z; d_flags : Z; d_next : Z }.
Record virtio_blk_req : Type := mkReq { r_type : Z; r_reserved : Z; r_sector : Z }.
(** [disk.info[i]] *)
Record dinfo : Type := mkInfo { in_b : option nat; in_status : Z }.
(** The fields of a [struct buf] that the driver uses. *)
Record dbuf : Type := mkDbuf { db_blockno : Z; db_data : list Z; db_disk : bool }.

Definition desc0 : virtq_desc := mkDesc NullPtr 0 0 0.
Definition req0 : virtio_blk_req := mkReq 0 0 0.
Definition info0 : dinfo := mkInfo None 0.
Definition dbuf0 : dbuf := mkDbuf 0 [] false.

(** What the rest of the system sees: a call of [wakeup], and the writes of the
    registers QUEUE_NOTIFY and INTERRUPT_ACK. *)
Inductive event : Type := Woke (ch : chan) | Notify | Ack.

(** [struct disk], the buffers, and the events so far. *)
Record disk : Type := mkDisk {
  v_desc : list virtq_desc;
  v_avail_idx : Z;
  v_avail : list Z;
  v_used_ring_idx : Z;
  v_used : list Z;
  v_free : list bool;
  v_used_idx : Z;
  v_info : list dinfo;
  v_ops : list virtio_blk_req;
  v_bufs : list dbuf;
  v_out : list event }.

Definition set_desc (f : list virtq_desc → list virtq_desc) (v : disk) : disk :=
  mkDisk (f (v_desc v)) (v_avail_idx v) (v_avail v) (v_used_ring_idx v) (v_used v) (v_free v) (v_used_idx v) (v_info v) (v_ops v) (v_bufs v) (v_out v).
Definition set_avail_idx (i : Z) (v : disk) : disk :=
  mkDisk (v_desc v) i (v_avail v) (v_used_ring_idx v) (v_used v) (v_free v) (v_used_idx v) (v_info v) (v_ops v) (v_bufs v) (v_out v).
Definition set_avail (f : list Z → list Z) (v : disk) : disk :=
  mkDisk (v_desc v) (v_avail_idx v) (f (v_avail v)) (v_used_ring_idx v) (v_used v) (v_free v) (v_used_idx v) (v_info v) (v_ops v) (v_bufs v) (v_out v).
Definition set_used (i : Z) (f : list Z → list Z) (v : disk) : disk :=
  mkDisk (v_desc v) (v_avail_idx v) (v_avail v) i (f (v_used v)) (v_free v) (v_used_idx v) (v_info v) (v_ops v) (v_bufs v) (v_out v).
Definition set_free (f : list bool → list bool) (v : disk) : disk :=
  mkDisk (v_desc v) (v_avail_idx v) (v_avail v) (v_used_ring_idx v) (v_used v) (f (v_free v)) (v_used_idx v) (v_info v) (v_ops v) (v_bufs v) (v_out v).
Definition set_used_idx (i : Z) (v : disk) : disk :=
  mkDisk (v_desc v) (v_avail_idx v) (v_avail v) (v_used_ring_idx v) (v_used v) (v_free v) i (v_info v) (v_ops v) (v_bufs v) (v_out v).
Definition set_info (f : list dinfo → list dinfo) (v : disk) : disk :=
  mkDisk (v_desc v) (v_avail_idx v) (v_avail v) (v_used_ring_idx v) (v_used v) (v_free v) (v_used_idx v) (f (v_info v)) (v_ops v) (v_bufs v) (v_out v).
Definition set_ops (f : list virtio_blk_req → list virtio_blk_req) (v : disk) : disk :=
  mkDisk (v_desc v) (v_avail_idx v) (v_avail v) (v_used_ring_idx v) (v_used v) (v_free v) (v_used_idx v) (v_info v) (f (v_ops v)) (v_bufs v) (v_out v).
Definition set_dbufs (f : list dbuf → list dbuf) (v : disk) : disk :=
  mkDisk (v_desc v) (v_avail_idx v) (v_avail v) (v_used_ring_idx v) (v_used v) (v_free v) (v_used_idx v) (v_info v) (v_ops v) (f (v_bufs v)) (v_out v).
Definition set_out (f : list event → list event) (v : disk) : disk :=
  mkDisk (v_desc v) (v_avail_idx v) (v_avail v) (v_used_ring_idx v) (v_used v) (v_free v) (v_used_idx v) (v_info v) (v_ops v) (v_bufs v) (f (v_out v)).

Definition D (A : Type) : Type := M disk A.

(** [disk.desc[i].field = v] and the like. *)
Definition put_desc (i : nat) (d : virtq_desc) : D unit := modify (set_desc <[i := d]>).
Definition desc_at (v : disk) (i : nat) : virtq_desc := default desc0 (v_desc v !! i).
Definition info_at (v : disk) (i : nat) : dinfo := default info0 (v_info v !! i).
Definition op_at (v : disk) (i : nat) : virtio_blk_req := default req0 (v_ops v !! i).
Definition dbuf_at (v : disk) (b : nat) : dbuf := default dbuf0 (v_bufs v !! b).
Definition set_db_disk (x : bool) (d : dbuf) : dbuf := mkDbuf (db_blockno d) (db_data d) x.
Definition set_in_b (x : option nat) (i : dinfo) : dinfo := mkInfo x (in_status i).
Definition set_in_status (x : Z) (i : dinfo) : dinfo := mkInfo (in_b i) x.

Definition emit (e : event) : D unit := modify (set_out (λ l, l ++ [e])).
(** [wakeup(ch)] *)
Definition wake (ch : chan) : D unit := emit (Woke ch).

(** ** Descriptors *)

Definition alloc_desc : D (option nat) :=
  for_ret (seq 0 NUM) (λ i,
    f ← gets (λ v, default false (v_free v !! i));
    if (f : bool) then modify (set_free <[i := false]>);; mret (Some i) else mret None).

Definition free_desc (i : nat) : D unit :=
  if (NUM <=? i)%nat then panic "free_desc 1"
  else
    f ← gets (λ v, default false (v_free v !! i));
    if (f : bool) then panic "free_desc 2"
    else
      put_desc i desc0;;
      modify (set_free <[i := true]>);;
      wake ChDiskFree.

(** A chain without a cycle has at most NUM descriptors. *)
Fixpoint free_chain (fuel i : nat) : D unit :=
  d ← gets (λ v, desc_at v i);
  free_desc i;;
  if negb (Z.land (d_flags d) VRING_DESC_F_NEXT =? 0) then
    match fuel with O => halt NoFuel | S fuel' => free_chain fuel' (Z.to_nat (d_next d)) end
  else mret tt.

(** The three descriptors, or [None] for -1. *)
Fixpoint alloc3_loop (n : nat) (idx : list nat) : D (option (list nat)) :=
  match n with
  | O => mret (Some idx)
  | S n' =>
      r ← alloc_desc;
      match r with
      | Some i => alloc3_loop n' (idx ++ [i])
      | None => forM_ idx free_desc;; mret None
      end
  end.
Definition alloc3_desc : D (option (list nat)) := alloc3_loop 3 [].

(** ** A request *)

(** From the formatting of the descriptors to the notification of the device. *)
Definition submit (b : nat) (write : bool) (sector : Z) (i0 i1 i2 : nat) : D unit :=
  modify (set_ops <[i0 := mkReq (if write then VIRTIO_BLK_T_OUT else VIRTIO_BLK_T_IN) 0 sector]>);;
  put_desc i0 (mkDesc (OpPtr i0) 16 VRING_DESC_F_NEXT i1);;
  put_desc i1 (mkDesc (DataPtr b) BLOCK (Z.lor (if write then 0 else VRING_DESC_F_WRITE) VRING_DESC_F_NEXT) i2);;
  modify (set_info (alter (set_in_status 0xff) i0));;
  put_desc i2 (mkDesc (StatusPtr i0) 1 VRING_DESC_F_WRITE 0);;
  modify (set_dbufs (alter (set_db_disk true) b));;
  modify (set_info (alter (set_in_b (Some b)) i0));;
  modify (λ v, set_avail <[Z.to_nat (v_avail_idx v mod Z.of_nat NUM) := Z.of_nat i0]> v);;
  modify (λ v, set_avail_idx (u16 (v_avail_idx v + 1)) v);;
  emit Notify.

Definition finish (i0 : nat) : D unit :=
  modify (set_info (alter (set_in_b None) i0));;
  free_chain NUM i0.

(** [sleep(chan, &disk.vdisk_lock)] *)
Definition dsleep : D unit := switch.

(** [while(1) { if(alloc3_desc(idx) == 0) break; sleep(&disk.free[0], ...); }] *)
Fixpoint rw_alloc (fuel : nat) : D (list nat) :=
  r ← alloc3_desc;
  match r with
  | Some idx => mret idx
  | None => match fuel with O => halt NoFuel | S fuel' => dsleep;; rw_alloc fuel' end
  end.

(** [while(b->disk == 1) sleep(b, ...)] *)
Fixpoint rw_wait (fuel : nat) (b : nat) : D unit :=
  x ← gets (λ v, dbuf_at v b);
  if db_disk x then match fuel with O => halt NoFuel | S fuel' => dsleep;; rw_wait fuel' b end
  else mret tt.

(** [b->blockno * (BSIZE / 512)] is a 32-bit product. *)
Definition sector_of (blockno : Z) : Z := u32 (blockno * (BLOCK / 512)).

Definition virtio_disk_rw (fuel b : nat) (write : bool) : D unit :=
  sector ← gets (λ v, sector_of (db_blockno (dbuf_at v b)));
  idx ← rw_alloc fuel;
  match idx with
  | [i0; i1; i2] => submit b write sector i0 i1 i2;; rw_wait fuel b;; finish i0
  | _ => halt NoFuel
  end.

(** ** The interrupt *)

(** [while(disk.used_idx != disk.used->idx)]: at most NUM entries are in the
    ring. *)
Fixpoint intr_loop (fuel : nat) : D unit :=
  v ← gets id;
  if negb (v_used_idx v =? v_used_ring_idx v) then
    match fuel with
    | O => halt NoFuel
    | S fuel' =>
        let id := Z.to_nat (default 0 (v_used v !! Z.to_nat (v_used_idx v mod Z.of_nat NUM))) in
        if negb (in_status (info_at v id) =? 0) then panic "virtio_disk_intr status"
        else
          match in_b (info_at v id) with
          | None => fault
          | Some b =>
              modify (set_dbufs (alter (set_db_disk false) b));;
              wake (ChDiskBuf b);;
              modify (λ v, set_used_idx (u16 (v_used_idx v + 1)) v);;
              intr_loop fuel'
          end
    end
  else mret tt.
(** The handler acknowledges the interrupt first. *)
Definition virtio_disk_intr : D unit := emit Ack;; intr_loop NUM.

(** ** Start-up *)
Definition VIRTIO_MMIO_MAGIC_VALUE : Z := 0x000.
Definition VIRTIO_MMIO_VERSION : Z := 0x004.
Definition VIRTIO_MMIO_DEVICE_ID : Z := 0x008.
Definition VIRTIO_MMIO_VENDOR_ID : Z := 0x00c.
Definition VIRTIO_MMIO_DEVICE_FEATURES : Z := 0x010.
Definition VIRTIO_MMIO_DRIVER_FEATURES : Z := 0x020.
Definition VIRTIO_MMIO_QUEUE_SEL : Z := 0x030.
Definition VIRTIO_MMIO_QUEUE_NUM_MAX : Z := 0x034.
Definition VIRTIO_MMIO_QUEUE_NUM : Z := 0x038.
Definition VIRTIO_MMIO_QUEUE_READY : Z := 0x044.
Definition VIRTIO_MMIO_STATUS : Z := 0x070.
Definition VIRTIO_MMIO_QUEUE_DESC_LOW : Z := 0x080.
Definition VIRTIO_MMIO_QUEUE_DESC_HIGH : Z := 0x084.
Definition VIRTIO_MMIO_DRIVER_DESC_LOW : Z := 0x090.
Definition VIRTIO_MMIO_DRIVER_DESC_HIGH : Z := 0x094.
Definition VIRTIO_MMIO_DEVICE_DESC_LOW : Z := 0x0a0.
Definition VIRTIO_MMIO_DEVICE_DESC_HIGH : Z := 0x0a4.
Definition VIRTIO_CONFIG_S_ACKNOWLEDGE : Z := 1.
Definition VIRTIO_CONFIG_S_DRIVER : Z := 2.
Definition VIRTIO_CONFIG_S_DRIVER_OK : Z := 4.
Definition VIRTIO_CONFIG_S_FEATURES_OK : Z := 8.

(** The feature bits that the driver turns off: RO, SCSI, CONFIG_WCE, MQ,
    ANY_LAYOUT, EVENT_IDX and INDIRECT_DESC. *)
Definition REFUSED : list Z := [5; 7; 11; 12; 27; 29; 28].

Section init.
(** The device: the value of a register after the writes so far. *)
Variable R : list (Z * Z) → Z → Z.
(** What [kalloc] gives for the descriptors and the rings. *)
Variable pages : option Z * option Z * option Z.

(** The driver and the registers written, in order. *)
Record vboot : Type := mkBoot { vb_disk : disk; vb_out : list (Z * Z) }.
Definition reg_read (r : Z) : M vboot Z := gets (λ s, u32 (R (vb_out s) r)).
Definition reg_write (r x : Z) : M vboot unit := modify (λ s, mkBoot (vb_disk s) (vb_out s ++ [(r, u32 x)])).

Definition clear_features (features : Z) : Z := foldl (λ f i, Z.land f (Z.lnot (Z.shiftl 1 i))) features REFUSED.

Definition virtio_disk_init : M vboot unit :=
  magic ← reg_read VIRTIO_MMIO_MAGIC_VALUE;
  version ← reg_read VIRTIO_MMIO_VERSION;
  device ← reg_read VIRTIO_MMIO_DEVICE_ID;
  vendor ← reg_read VIRTIO_MMIO_VENDOR_ID;
  if negb (magic =? 0x74726976) || negb (version =? 2) || negb (device =? 2) || negb (vendor =? 0x554d4551) then
    panic "could not find virtio disk"
  else
    reg_write VIRTIO_MMIO_STATUS 0;;
    let status := VIRTIO_CONFIG_S_ACKNOWLEDGE in
    reg_write VIRTIO_MMIO_STATUS status;;
    let status := Z.lor status VIRTIO_CONFIG_S_DRIVER in
    reg_write VIRTIO_MMIO_STATUS status;;
    features ← reg_read VIRTIO_MMIO_DEVICE_FEATURES;
    reg_write VIRTIO_MMIO_DRIVER_FEATURES (clear_features features);;
    reg_write VIRTIO_MMIO_STATUS (Z.lor status VIRTIO_CONFIG_S_FEATURES_OK);;
    status ← reg_read VIRTIO_MMIO_STATUS;
    if Z.land status VIRTIO_CONFIG_S_FEATURES_OK =? 0 then panic "virtio disk FEATURES_OK unset"
    else
      reg_write VIRTIO_MMIO_QUEUE_SEL 0;;
      ready ← reg_read VIRTIO_MMIO_QUEUE_READY;
      if negb (ready =? 0) then panic "virtio disk should not be ready"
      else
        max ← reg_read VIRTIO_MMIO_QUEUE_NUM_MAX;
        if max =? 0 then panic "virtio disk has no queue 0"
        else if max <? Z.of_nat NUM then panic "virtio disk max queue too short"
        else
          match pages with
          | (Some desc, Some avail, Some used) =>
              modify (λ s, mkBoot (set_desc (λ _, replicate NUM desc0) (set_avail_idx 0 (set_avail (λ _, replicate NUM 0)
                (set_used 0 (λ _, replicate NUM 0) (vb_disk s))))) (vb_out s));;
              reg_write VIRTIO_MMIO_QUEUE_NUM (Z.of_nat NUM);;
              reg_write VIRTIO_MMIO_QUEUE_DESC_LOW desc;;
              reg_write VIRTIO_MMIO_QUEUE_DESC_HIGH (Z.shiftr desc 32);;
              reg_write VIRTIO_MMIO_DRIVER_DESC_LOW avail;;
              reg_write VIRTIO_MMIO_DRIVER_DESC_HIGH (Z.shiftr avail 32);;
              reg_write VIRTIO_MMIO_DEVICE_DESC_LOW used;;
              reg_write VIRTIO_MMIO_DEVICE_DESC_HIGH (Z.shiftr used 32);;
              reg_write VIRTIO_MMIO_QUEUE_READY 1;;
              forM_ (seq 0 NUM) (λ i, modify (λ s, mkBoot (set_free <[i := true]> (vb_disk s)) (vb_out s)));;
              reg_write VIRTIO_MMIO_STATUS (Z.lor status VIRTIO_CONFIG_S_DRIVER_OK)
          | _ => panic "virtio disk kalloc"
          end.
End init.
End Virtio.
