(* ===== verification/VirtioSpec.v ===== *)
(** Correctness of the disk driver: any number of threads in [virtio_disk_rw], the
    device and its interrupts, interleaved in any order.

    The steps are the code between two points where the driver gives up
    [vdisk_lock].  The device is that of the virtio specification: it accepts the
    chains of the available ring, performs accepted requests in any order, and puts
    each performed one in the used ring. *)

From S2P Require Import Prelude Machine Ring Str Types Virtio.
Import Virtio.

(** ** What the functions of the driver do *)

Definition woken (chs : list event) (v : disk) : disk := set_out (λ l, l ++ chs) v.
Definition freed (i : nat) (v : disk) : disk :=
  woken [Woke ChDiskFree] (set_free <[i := true]> (set_desc <[i := desc0]> v)).

Lemma free_desc_run i v : (i < NUM)%nat → v_free v !! i = Some false → free_desc i v = Ok tt (freed i v).
Proof.
  intros Hi Hf. unfold free_desc. rewrite (proj2 (Nat.leb_gt _ _) Hi). unfold mbind, M_bind, gets. cbn [obind].
  by rewrite Hf.
Qed.

(** The first free descriptor. *)
Definition first_free (v : disk) : option nat := fst <$> list_find (λ f, f = true) (v_free v).

Lemma alloc_from n k v : length (v_free v) = (k + n)%nat → (∀ i, (i < k)%nat → v_free v !! i = Some false) →
  for_ret (seq k n) (λ i, f ← gets (λ v, default false (v_free v !! i));
    if (f : bool) then modify (set_free <[i := false]>);; mret (Some i) else mret None) v =
  match first_free v with
  | Some i => Ok (Some i) (set_free <[i := false]> v)
  | None => Ok None v
  end.
Proof.
  revert k. induction n as [|n IH]; intros k Hl Hk; cbn [seq for_ret].
  - destruct (first_free v) as [i|] eqn:E; [|done]. unfold first_free in E.
    destruct (list_find _ _) as [[j x]|] eqn:F; [|done]. apply list_find_Some in F as (F & -> & _).
    pose proof (lookup_lt_Some _ _ _ F). rewrite Hk in F by lia. done.
  - destruct (lookup_lt_is_Some_2 (v_free v) k) as [f Hf]; [lia|].
    unfold mbind, M_bind, gets, modify, mret, M_ret. cbn [obind]. rewrite Hf. cbn [default from_option id]. destruct f; cbn [obind].
    + assert (F : list_find (λ f, f = true) (v_free v) = Some (k, true)).
      { apply list_find_Some. split_and!; [done|done|]. intros j y Hj Hlt. rewrite Hk in Hj by done. by simplify_eq. }
      unfold first_free. by rewrite F.
    + specialize (IH (S k)). apply IH; [lia|]. intros i Hi. destruct (decide (i = k)) as [->|]; [done|]. apply Hk. lia.
Qed.

Lemma alloc_desc_run v : length (v_free v) = NUM →
  alloc_desc v = match first_free v with
                 | Some i => Ok (Some i) (set_free <[i := false]> v)
                 | None => Ok None v
                 end.
Proof. intros Hl. apply (alloc_from NUM 0); [done|lia]. Qed.

Lemma first_free_Some v i : first_free v = Some i → v_free v !! i = Some true.
Proof.
  unfold first_free. destruct (list_find _ _) as [[j x]|] eqn:F; [|done]. intros [= <-].
  by apply list_find_Some in F as (F & -> & _).
Qed.

Definition took (idx : list nat) (v : disk) : disk := foldl (λ v i, set_free <[i := false]> v) v idx.

Lemma took_snoc idx i v : took (idx ++ [i]) v = set_free <[i := false]> (took idx v).
Proof. unfold took. by rewrite foldl_app. Qed.

Lemma took_rest idx v : ∃ f, took idx v = set_free (λ _, f) v.
Proof.
  induction idx as [|i idx [f IH]] using rev_ind; [by exists (v_free v); destruct v|].
  rewrite took_snoc, IH. by exists (<[i := false]> f).
Qed.

Lemma took_length idx v : length (v_free (took idx v)) = length (v_free v).
Proof. induction idx as [|i idx IH] using rev_ind; [done|]. rewrite took_snoc. cbn. by rewrite length_insert. Qed.

Lemma took_free idx v j : v_free (took idx v) !! j = if decide (j ∈ idx ∧ (j < length (v_free v))%nat) then Some false else v_free v !! j.
Proof.
  induction idx as [|i idx IH] using rev_ind; [destruct (decide _) as [[?%elem_of_nil ?]|]; done|].
  pose proof (took_length idx v).
  rewrite took_snoc. cbn. destruct (decide (i = j)) as [->|Hne].
  - destruct (decide (j < length (v_free v))%nat).
    + rewrite list_lookup_insert_eq by lia. rewrite decide_True; [done|]. split; [set_solver|done].
    + rewrite list_insert_ge by lia. rewrite IH. rewrite !decide_False by tauto. done.
  - rewrite list_lookup_insert_ne by done. rewrite IH. apply decide_ext. set_solver.
Qed.

(** A free descriptor is zero. *)
Definition zeroed (v : disk) : Prop :=
  length (v_desc v) = NUM ∧ length (v_free v) = NUM ∧ ∀ i, v_free v !! i = Some true → v_desc v !! i = Some desc0.
Definition all_free (v : disk) (idx : list nat) : Prop := NoDup idx ∧ Forall (λ i, v_free v !! i = Some true) idx.

Lemma undo_one i idx v : zeroed v → i ∉ idx → v_free v !! i = Some true →
  freed i (took (i :: idx) v) = took idx (woken [Woke ChDiskFree] v).
Proof.
  intros (Hd & Hf & Hz) Hi Ht. destruct (took_rest (i :: idx) v) as [f Ef]. destruct (took_rest idx (woken [Woke ChDiskFree] v)) as [g Eg].
  rewrite Ef, Eg. unfold freed, woken, set_free, set_desc, set_out. cbn. rewrite (list_insert_id _ _ _ (Hz i Ht)). f_equal.
  apply list_eq. intros j. pose proof (took_free (i :: idx) v j) as Hj. pose proof (took_free idx (woken [Woke ChDiskFree] v) j) as Hj'.
  rewrite Ef in Hj. rewrite Eg in Hj'. cbn in Hj, Hj'. rewrite Hj'. pose proof (lookup_lt_Some _ _ _ Ht).
  assert (Hlf : length f = length (v_free v)).
  { pose proof (took_length (i :: idx) v) as E. rewrite Ef in E. done. }
  destruct (decide (i = j)) as [->|Hne].
  - rewrite list_lookup_insert_eq by lia. rewrite decide_False by tauto. done.
  - rewrite list_lookup_insert_ne by done. rewrite Hj. apply decide_ext. set_solver.
Qed.

Lemma undo_run idx v : zeroed v → all_free v idx →
  forM_ idx free_desc (took idx v) = Ok tt (woken (replicate (length idx) (Woke ChDiskFree)) v).
Proof.
  revert v. induction idx as [|i idx IH]; intros v Hz [Hn Ha]; cbn [forM_ length replicate].
  - unfold woken, set_out. rewrite app_nil_r. by destruct v.
  - apply list.NoDup_cons in Hn as [Hi Hn]. inversion Ha; subst. pose proof Hz as (? & Hf & ?).
    assert (i < NUM)%nat by (rewrite <- Hf; by eapply lookup_lt_Some).
    rewrite (seq_ok _ _ _ (freed i (took (i :: idx) v))).
    2:{ apply free_desc_run; [done|]. rewrite took_free. rewrite decide_True; [done|]. split; [set_solver|lia]. }
    rewrite undo_one by done. rewrite IH; [|done|done]. unfold woken, set_out. cbn. by rewrite <- app_assoc.
Qed.

Lemma all_free_subseteq v idx l : first_free (took idx v) = None → length (v_free v) = NUM → all_free v l → (length l ≤ length idx)%nat.
Proof.
  intros Hff Hl [Hn Ha]. apply submseteq_length, NoDup_submseteq; [done|]. intros i Hi.
  pose proof (proj1 (list.Forall_forall _ _) Ha i Hi) as Ht. destruct (decide (i ∈ idx)) as [|Hni]; [done|].
  unfold first_free in Hff. destruct (list_find _ _) eqn:F; [done|]. apply list_find_None in F.
  assert (H : v_free (took idx v) !! i = Some true) by (rewrite took_free, decide_False by tauto; done).
  apply (proj1 (list.Forall_lookup _ _)) with (i := i) (x := true) in F; [done|done].
Qed.

Lemma alloc3_loop_run n idx v : zeroed v → all_free v idx →
  (∃ l, length l = n ∧ all_free v (idx ++ l) ∧ alloc3_loop n idx (took idx v) = Ok (Some (idx ++ l)) (took (idx ++ l) v)) ∨
  (∃ k, (∀ l, all_free v l → (length l < length idx + n)%nat) ∧ alloc3_loop n idx (took idx v) = Ok None (woken (replicate k (Woke ChDiskFree)) v)).
Proof.
  revert idx. induction n as [|n IH]; intros idx Hz Ha; cbn [alloc3_loop].
  { left. exists []. rewrite app_nil_r. done. }
  pose proof Hz as (_ & Hf & _).
  assert (Hl : length (v_free (took idx v)) = NUM) by (by rewrite took_length).
  rewrite (bind_ok _ _ _ (first_free (took idx v)) (match first_free (took idx v) with Some i => set_free <[i := false]> (took idx v) | None => took idx v end)).
  2:{ rewrite alloc_desc_run by done. by destruct (first_free _). }
  destruct (first_free (took idx v)) as [i|] eqn:E.
  - apply first_free_Some in E. rewrite took_free in E. destruct (decide _) as [|Hd]; [done|].
    assert (Hi : i ∉ idx) by (intros Hi; apply Hd; split; [done|]; by eapply lookup_lt_Some).
    rewrite <- took_snoc. destruct (IH (idx ++ [i])) as [(l & Hll & Hal & Er)|(k & Hk & Er)]; [done| | |].
    + destruct Ha as [Hn Ha]. split; [apply list.NoDup_app; split_and!; [done|set_solver|apply list.NoDup_singleton]|]. apply Forall_app. by repeat constructor.
    + left. exists (i :: l). rewrite <- app_assoc in Hal, Er. cbn in Hal, Er |- *. split_and!; [lia|done|done].
    + right. exists k. split; [|done]. intros l Hl'. specialize (Hk l Hl'). rewrite length_app in Hk. cbn in Hk. lia.
  - right. exists (length idx). split.
    + intros l Hl'. pose proof (all_free_subseteq v idx l E Hf Hl'). lia.
    + by rewrite (seq_ok _ _ _ _ (undo_run idx v Hz Ha)).
Qed.

(** Three free descriptors are taken, or there are fewer and nothing is. *)
Lemma alloc3_desc_run v : zeroed v →
  (∃ i0 i1 i2, all_free v [i0; i1; i2] ∧ alloc3_desc v = Ok (Some [i0; i1; i2]) (took [i0; i1; i2] v)) ∨
  (∃ k, (∀ l, all_free v l → (length l < 3)%nat) ∧ alloc3_desc v = Ok None (woken (replicate k (Woke ChDiskFree)) v)).
Proof.
  intros Hz. destruct (alloc3_loop_run 3 [] v Hz) as [(l & Hl & Ha & E)|(k & Hk & E)]; [by split; constructor|left|right; eauto].
  destruct l as [|i0 [|i1 [|i2 [|]]]]; try done. by exists i0, i1, i2.
Qed.

(** The three descriptors of a request, as the device reads them. *)
Record chain (v : disk) (b : nat) (w : bool) (sec : Z) (i0 i1 i2 : nat) : Prop := {
  ch_busy : NoDup [i0; i1; i2] ∧ Forall (λ i, v_free v !! i = Some false) [i0; i1; i2];
  ch_op : v_ops v !! i0 = Some (mkReq (if w then VIRTIO_BLK_T_OUT else VIRTIO_BLK_T_IN) 0 sec);
  ch_0 : v_desc v !! i0 = Some (mkDesc (OpPtr i0) 16 VRING_DESC_F_NEXT i1);
  ch_1 : v_desc v !! i1 = Some (mkDesc (DataPtr b) BLOCK (Z.lor (if w then 0 else VRING_DESC_F_WRITE) VRING_DESC_F_NEXT) i2);
  ch_2 : v_desc v !! i2 = Some (mkDesc (StatusPtr i0) 1 VRING_DESC_F_WRITE 0);
  ch_b : in_b <$> v_info v !! i0 = Some (Some b) }.

Definition finished (i0 i1 i2 : nat) (v : disk) : disk :=
  freed i2 (freed i1 (freed i0 (set_info (alter (set_in_b None) i0) v))).

Lemma free_chain_step fuel i v d : (i < NUM)%nat → v_free v !! i = Some false → v_desc v !! i = Some d →
  free_chain (S fuel) i v = if negb (Z.land (d_flags d) VRING_DESC_F_NEXT =? 0)
    then free_chain fuel (Z.to_nat (d_next d)) (freed i v) else Ok tt (freed i v).
Proof.
  intros Hi Hf Hd. cbn [free_chain]. unfold gets. rewrite (bind_ok _ _ v (desc_at v i) v) by done.
  unfold desc_at. rewrite Hd. cbn [default from_option id]. rewrite (seq_ok _ _ _ _ (free_desc_run i v Hi Hf)). by destruct (negb _).
Qed.

Lemma finish_run v b w sec i0 i1 i2 : length (v_free v) = NUM → chain v b w sec i0 i1 i2 →
  finish i0 v = Ok tt (finished i0 i1 i2 v).
Proof.
  intros Hl [[Hn Hf] _ H0 H1 H2 _]. repeat (apply list.NoDup_cons in Hn as [? Hn]). inversion_clear Hf as [|? ? F0 Hf']. inversion_clear Hf' as [|? ? F1 Hf].
  inversion_clear Hf as [|? ? F2 _]. assert (Hlt : ∀ i x, v_free v !! i = Some x → (i < NUM)%nat) by (intros i x Hx; rewrite <- Hl; by eapply lookup_lt_Some).
  unfold finish. rewrite (seq_ok _ _ v (set_info (alter (set_in_b None) i0) v)) by done. change NUM with (S 7). erewrite free_chain_step; [|by eapply Hlt|done|done].
  change (negb _) with true. cbn [d_next]. rewrite Nat2Z.id.
  erewrite free_chain_step; [|by eapply Hlt|cbn; rewrite list_lookup_insert_ne by set_solver; done..].
  replace (negb _) with true by (by destruct w). cbn [d_next]. rewrite Nat2Z.id.
  erewrite free_chain_step; [|by eapply Hlt|cbn; rewrite !list_lookup_insert_ne by set_solver; done..]. done.
Qed.

Definition submitted (b : nat) (w : bool) (sec : Z) (i0 i1 i2 : nat) (v : disk) : disk :=
  mkDisk (<[i2 := mkDesc (StatusPtr i0) 1 VRING_DESC_F_WRITE 0]>
           (<[i1 := mkDesc (DataPtr b) BLOCK (Z.lor (if w then 0 else VRING_DESC_F_WRITE) VRING_DESC_F_NEXT) i2]>
             (<[i0 := mkDesc (OpPtr i0) 16 VRING_DESC_F_NEXT i1]> (v_desc v))))
    (u16 (v_avail_idx v + 1)) (<[Z.to_nat (v_avail_idx v mod 8) := Z.of_nat i0]> (v_avail v))
    (v_used_ring_idx v) (v_used v) (v_free v) (v_used_idx v)
    (alter (set_in_b (Some b)) i0 (alter (set_in_status 0xff) i0 (v_info v)))
    (<[i0 := mkReq (if w then VIRTIO_BLK_T_OUT else VIRTIO_BLK_T_IN) 0 sec]> (v_ops v))
    (alter (set_db_disk true) b (v_bufs v)) (v_out v ++ [Notify]).

Lemma submit_run b w sec i0 i1 i2 v : submit b w sec i0 i1 i2 v = Ok tt (submitted b w sec i0 i1 i2 v).
Proof. done. Qed.

(** ** The device *)

Definition rd (m : Z → Z) (sec len : Z) : list Z := (λ k, m (sec * 512 + k)) <$> seqZ 0 len.
Definition wr (m : Z → Z) (sec : Z) (bs : list Z) : Z → Z := λ a,
  if decide (sec * 512 ≤ a < sec * 512 + length bs) then default 0 (bs !! Z.to_nat (a - sec * 512)) else m a.

(** A transfer: buffer, direction, first sector and the bytes. *)
Record transfer : Type := mkTr { t_b : nat; t_w : bool; t_sec : Z; t_data : list Z }.
Definition replay (m : Z → Z) (l : list transfer) : Z → Z :=
  foldl (λ m e, if t_w e then wr m (t_sec e) (t_data e) else m) m l.

Definition set_db_data (x : list Z) (d : dbuf) : dbuf := mkDbuf (db_blockno d) x (db_disk d).

(** The device performs the request whose chain starts at [h], if the chain is
    that of a block request. *)
Definition perform (v : disk) (m : Z → Z) (h : nat) : option (disk * (Z → Z) * transfer) :=
  let d0 := desc_at v h in
  let d1 := desc_at v (Z.to_nat (d_next d0)) in
  let d2 := desc_at v (Z.to_nat (d_next d1)) in
  match d_addr d0, d_addr d1, d_addr d2 with
  | OpPtr i, DataPtr b, StatusPtr k =>
      let r := op_at v i in
      let done := set_info (alter (set_in_status 0) k) in
      if (d_len d0 =? 16) && (d_flags d0 =? VRING_DESC_F_NEXT) && (d_len d2 =? 1) && (d_flags d2 =? VRING_DESC_F_WRITE) then
        if (r_type r =? VIRTIO_BLK_T_OUT) && (d_flags d1 =? VRING_DESC_F_NEXT) then
          let bs := take (Z.to_nat (d_len d1)) (db_data (dbuf_at v b)) in
          Some (done v, wr m (r_sector r) bs, mkTr b true (r_sector r) bs)
        else if (r_type r =? VIRTIO_BLK_T_IN) && (d_flags d1 =? Z.lor VRING_DESC_F_WRITE VRING_DESC_F_NEXT) then
          let bs := rd m (r_sector r) (d_len d1) in
          Some (done (set_dbufs (alter (set_db_data bs) b) v), m, mkTr b false (r_sector r) bs)
        else None
      else None
  | _, _, _ => None
  end.

(** The device puts [h] in the used ring. *)
Definition use (h : nat) (v : disk) : disk :=
  set_used (u16 (v_used_ring_idx v + 1)) <[Z.to_nat (v_used_ring_idx v mod 8) := Z.of_nat h]> v.

(** ** Threads, device and interrupts *)

(** A thread in [virtio_disk_rw(b, w)], called when the buffer held [d0]: waiting
    for descriptors, or for the device. *)
Inductive thread : Type :=
  | Allocating (b : nat) (w : bool) (sec : Z) (d0 : list Z)
  | Waiting (b : nat) (w : bool) (sec : Z) (d0 : list Z) (i0 i1 i2 : nat).
Definition t_buf (t : thread) : nat := match t with Allocating b _ _ _ | Waiting b _ _ _ _ _ _ => b end.
Definition t_idx (t : thread) : list nat := match t with Allocating _ _ _ _ => [] | Waiting _ _ _ _ i0 i1 i2 => [i0; i1; i2] end.

(** The driver, the threads, the position of the device in the available ring, the
    requests it has accepted, the medium, the transfers it made, and those of the
    calls that have returned. *)
Record sys : Type := mkSys {
  s_v : disk; s_thr : gmap nat thread; s_idx : Z; s_acc : list nat; s_med : Z → Z;
  s_log : list transfer; s_done : list transfer }.

Inductive sstep : sys → sys → Prop :=
  (** The owner of a buffer uses it. *)
  | Touch v thr idx acc med log dn b blockno data :
      (∀ t x, thr !! t = Some x → t_buf x ≠ b) → length data = Z.to_nat BLOCK →
      sstep (mkSys v thr idx acc med log dn)
            (mkSys (set_dbufs (alter (λ x, mkDbuf blockno data (db_disk x)) b) v) thr idx acc med log dn)
  (** It calls [virtio_disk_rw]. *)
  | Call v thr idx acc med log dn t b w x :
      (∀ t x, thr !! t = Some x → t_buf x ≠ b) → thr !! t = None → v_bufs v !! b = Some x →
      sstep (mkSys v thr idx acc med log dn)
            (mkSys v (<[t := Allocating b w (sector_of (db_blockno x)) (db_data x)]> thr) idx acc med log dn)
  (** No descriptors: it sleeps. *)
  | Retry v v' thr idx acc med log dn t b w sec d0 :
      thr !! t = Some (Allocating b w sec d0) → alloc3_desc v = Ok None v' →
      sstep (mkSys v thr idx acc med log dn) (mkSys v' thr idx acc med log dn)
  (** It submits the request and sleeps. *)
  | Submit v v1 v2 thr idx acc med log dn t b w sec d0 i0 i1 i2 :
      thr !! t = Some (Allocating b w sec d0) → alloc3_desc v = Ok (Some [i0; i1; i2]) v1 →
      submit b w sec i0 i1 i2 v1 = Ok tt v2 →
      sstep (mkSys v thr idx acc med log dn) (mkSys v2 (<[t := Waiting b w sec d0 i0 i1 i2]> thr) idx acc med log dn)
  (** The request is done: it returns. *)
  | Return v v' thr idx acc med log dn t b w sec d0 i0 i1 i2 :
      thr !! t = Some (Waiting b w sec d0 i0 i1 i2) → db_disk (dbuf_at v b) = false → finish i0 v = Ok tt v' →
      sstep (mkSys v thr idx acc med log dn)
            (mkSys v' (delete t thr) idx acc med log (dn ++ [mkTr b w sec (if w then d0 else db_data (dbuf_at v b))]))
  | Accept v thr idx acc med log dn :
      idx ≠ v_avail_idx v →
      sstep (mkSys v thr idx acc med log dn)
            (mkSys v thr (u16 (idx + 1)) (acc ++ [Z.to_nat (default 0 (v_avail v !! Z.to_nat (idx mod 8)))]) med log dn)
  | Perform v v' thr idx acc1 h acc2 med med' log dn e :
      perform v med h = Some (v', med', e) →
      sstep (mkSys v thr idx (acc1 ++ h :: acc2) med log dn)
            (mkSys (use h v') thr idx (acc1 ++ acc2) med' (log ++ [e]) dn)
  | Interrupt v v' thr idx acc med log dn :
      virtio_disk_intr v = Ok tt v' →
      sstep (mkSys v thr idx acc med log dn) (mkSys v' thr idx acc med log dn).

(** ** The invariant *)

Definition heads (buf : list Z) (a b : Z) : list nat := Z.to_nat <$> window 8 (2 ^ 16) buf a b.
(** Requests that the device has still to perform, and all that the interrupt
    handler has not seen. *)
Definition todo (s : sys) : list nat := heads (v_avail (s_v s)) (s_idx s) (v_avail_idx (s_v s)) ++ s_acc s.
Definition used (s : sys) : list nat := heads (v_used (s_v s)) (v_used_idx (s_v s)) (v_used_ring_idx (s_v s)).
Definition queue (s : sys) : list nat := todo s ++ used s.

Definition of_buf (b : nat) (l : list transfer) : list transfer := filter (λ e, t_b e = b) l.
(** The device made, for buffer [b], the transfers of the calls that have
    returned, and then those of [l]. *)
Definition hist (s : sys) (b : nat) (l : list transfer) : Prop := of_buf b (s_log s) = of_buf b (s_done s) ++ l.

Definition thread_ok (s : sys) (x : thread) : Prop :=
  ∃ y, v_bufs (s_v s) !! t_buf x = Some y ∧
  match x with
  | Allocating b w sec d0 => sec = sector_of (db_blockno y) ∧ db_data y = d0 ∧ db_disk y = false ∧ hist s b []
  | Waiting b w sec d0 i0 i1 i2 =>
      chain (s_v s) b w sec i0 i1 i2 ∧ sec = sector_of (db_blockno y) ∧
      (db_disk y = true ↔ i0 ∈ queue s) ∧
      (i0 ∈ todo s → db_data y = d0 ∧ hist s b []) ∧
      (i0 ∉ todo s → hist s b [mkTr b w sec (if w then d0 else db_data y)] ∧ (w = true → db_data y = d0))
  end.

Definition unused (s : sys) (b : nat) : Prop := ∀ t x, s_thr s !! t = Some x → t_buf x ≠ b.
Definition pos16 (i : Z) : Prop := 0 ≤ i < 2 ^ 16.

Record shape (v : disk) (idx : Z) : Prop := {
  sh_zeroed : zeroed v;
  sh_avail : length (v_avail v) = NUM;
  sh_used : length (v_used v) = NUM;
  sh_info : length (v_info v) = NUM;
  sh_ops : length (v_ops v) = NUM;
  sh_idx : pos16 (v_avail_idx v) ∧ pos16 (v_used_ring_idx v) ∧ pos16 (v_used_idx v) ∧ pos16 idx;
  sh_data : ∀ b y, v_bufs v !! b = Some y → length (db_data y) = Z.to_nat BLOCK }.

(** Reads in the log gave what the writes before them left. *)
Definition log_ok (m0 : Z → Z) (l : list transfer) : Prop :=
  ∀ l1 e l2, l = l1 ++ e :: l2 → t_w e = false → t_data e = rd (replay m0 l1) (t_sec e) BLOCK.

Record inv (m0 : Z → Z) (s : sys) : Prop := {
  iv_shape : shape (s_v s) (s_idx s);
  iv_disj : ∀ t t' x x' i, s_thr s !! t = Some x → s_thr s !! t' = Some x' → i ∈ t_idx x → i ∈ t_idx x' → t = t';
  iv_own : ∀ i, v_free (s_v s) !! i = Some false → ∃ t x, s_thr s !! t = Some x ∧ i ∈ t_idx x;
  iv_bufs : ∀ t t' x x', s_thr s !! t = Some x → s_thr s !! t' = Some x' → t_buf x = t_buf x' → t = t';
  iv_nodup : NoDup (queue s);
  iv_heads : ∀ h, h ∈ queue s → ∃ t b w sec d0 i1 i2, s_thr s !! t = Some (Waiting b w sec d0 h i1 i2);
  iv_status : ∀ h, h ∈ used s → in_status <$> v_info (s_v s) !! h = Some 0;
  iv_threads : ∀ t x, s_thr s !! t = Some x → thread_ok s x;
  iv_idle : ∀ b, unused s b → hist s b [] ∧ ∀ y, v_bufs (s_v s) !! b = Some y → db_disk y = false;
  iv_med : s_med s = replay m0 (s_log s);
  iv_log : log_ok m0 (s_log s) }.

Lemma elem_cons_ne {A} (x y : A) l : x ≠ y → x ∈ y :: l ↔ x ∈ l.
Proof. rewrite elem_of_cons. tauto. Qed.
Lemma in_used s h : h ∈ used s → h ∈ queue s.
Proof. intros ?. apply elem_of_app. by right. Qed.
Lemma in_todo s h : h ∈ todo s → h ∈ queue s.
Proof. intros ?. apply elem_of_app. by left. Qed.

(** What a thread relies on. *)
Lemma thread_frame s s' x : thread_ok s x →
  (∀ i, i ∈ t_idx x → v_desc (s_v s') !! i = v_desc (s_v s) !! i ∧ v_free (s_v s') !! i = v_free (s_v s) !! i ∧
     v_ops (s_v s') !! i = v_ops (s_v s) !! i ∧ in_b <$> v_info (s_v s') !! i = in_b <$> v_info (s_v s) !! i ∧
     (i ∈ todo s' ↔ i ∈ todo s) ∧ (i ∈ queue s' ↔ i ∈ queue s)) →
  v_bufs (s_v s') !! t_buf x = v_bufs (s_v s) !! t_buf x →
  (∀ l, hist s (t_buf x) l → hist s' (t_buf x) l) → thread_ok s' x.
Proof.
  intros (y & Hy & Hx) Hi Hb Hh. exists y. split; [by rewrite Hb|]. destruct x as [b w sec d0|b w sec d0 i0 i1 i2]; cbn in *.
  - destruct Hx as (? & ? & ? & ?). eauto.
  - destruct Hx as ([[Hn Hf] ? ? ? ? ?] & ? & Hd & Ht & Hnt).
    pose proof (Hi i0 ltac:(set_solver)) as (? & F0 & ? & ? & T0 & Q0). pose proof (Hi i1 ltac:(set_solver)) as (? & F1 & _).
    pose proof (Hi i2 ltac:(set_solver)) as (? & F2 & _). split_and!.
    + constructor; try congruence. split; [done|]. repeat (apply list.Forall_cons in Hf as [? Hf]). repeat constructor; congruence.
    + done.
    + by rewrite Q0.
    + rewrite T0. intros Hin. destruct (Ht Hin). eauto.
    + rewrite T0. intros Hin. destruct (Hnt Hin). eauto.
Qed.

Lemma inv_lt m0 s t x i : inv m0 s → s_thr s !! t = Some x → i ∈ t_idx x → (i < NUM)%nat ∧ v_free (s_v s) !! i = Some false.
Proof.
  intros H Hx Hi. destruct (iv_threads _ _ H t x Hx) as (y & _ & Hok). destruct x as [|b w sec d0 i0 i1 i2]; [by apply not_elem_of_nil in Hi|].
  destruct Hok as ([[_ Hf] _ _ _ _ _] & _). pose proof (proj1 (list.Forall_forall _ _) Hf i Hi) as Hfi. split; [|done].
  destruct (sh_zeroed _ _ (iv_shape _ _ H)) as (_ & Hl & _). apply lookup_lt_Some in Hfi. lia.
Qed.

Lemma inv_head m0 s h : inv m0 s → h ∈ queue s → (h < NUM)%nat ∧ v_free (s_v s) !! h = Some false.
Proof.
  intros H Hh. destruct (iv_heads _ _ H h Hh) as (t & b & w & sec & d0 & i1 & i2 & Ht). eapply inv_lt; [done..|]. set_solver.
Qed.

Section steps.
Context (m0 : Z → Z).

Lemma touch_inv v thr idx acc med log dn b blockno data :
  inv m0 (mkSys v thr idx acc med log dn) →
  (∀ t x, thr !! t = Some x → t_buf x ≠ b) → length data = Z.to_nat BLOCK →
  inv m0 (mkSys (set_dbufs (alter (λ x, mkDbuf blockno data (db_disk x)) b) v) thr idx acc med log dn).
Proof.
  intros H Hb Hd. destruct (iv_shape _ _ H) as [? ? ? ? ? ? Hdata]. constructor; try apply H.
  - constructor; try done. cbn. intros b' y. destruct (decide (b = b')) as [<-|]; [|rewrite list_lookup_alter_ne by done; apply Hdata].
    rewrite list_lookup_alter_eq, fmap_Some. by intros (? & _ & ->).
  - intros t x Hx. eapply thread_frame; [by eapply (iv_threads _ _ H)|done| |done]. cbn. apply list_lookup_alter_ne. intros E. by apply (Hb _ _ Hx).
  - intros b' Hu. destruct (iv_idle _ _ H b' Hu) as [? Hy]. split; [done|]. intros y. cbn.
    destruct (decide (b = b')) as [<-|]; [|rewrite list_lookup_alter_ne by done; apply Hy].
    rewrite list_lookup_alter_eq, fmap_Some. intros (y' & Hy' & ->). cbn. by apply Hy.
Qed.

Lemma call_inv v thr idx acc med log dn t b w x :
  inv m0 (mkSys v thr idx acc med log dn) →
  (∀ t x, thr !! t = Some x → t_buf x ≠ b) → thr !! t = None → v_bufs v !! b = Some x →
  inv m0 (mkSys v (<[t := Allocating b w (sector_of (db_blockno x)) (db_data x)]> thr) idx acc med log dn).
Proof.
  intros H Hb Ht Hx. destruct (iv_idle _ _ H b Hb) as [Hh Hd]. constructor; try apply H; cbn.
  - intros t1 t2 x1 x2 i. rewrite !lookup_insert_Some. intros [[<- <-]|[? H1]] [[<- <-]|[? H2]] I1 I2; [done|by apply not_elem_of_nil in I1|by apply not_elem_of_nil in I2|].
    eapply (iv_disj _ _ H); eauto.
  - intros i Hi. destruct (iv_own _ _ H i Hi) as (t' & x' & ? & ?). exists t', x'. split; [|done]. rewrite lookup_insert_ne; [done|]. intros ->. by simplify_eq/=.
  - intros t1 t2 x1 x2. rewrite !lookup_insert_Some. intros [[<- <-]|[? H1]] [[<- <-]|[? H2]] E; cbn in E; [done|by exfalso; eapply Hb|by exfalso; eapply Hb|].
    eapply (iv_bufs _ _ H); eauto.
  - intros h Hq. destruct (iv_heads _ _ H h Hq) as (t' & ? & ? & ? & ? & ? & ? & ?). do 7 eexists. rewrite lookup_insert_ne; [done|]. intros ->. by simplify_eq/=.
  - intros t' x'. rewrite lookup_insert_Some. intros [[<- <-]|[? H1]]; [|by apply (iv_threads _ _ H) in H1].
    exists x. cbn. split_and!; [done..|by apply Hd|done].
  - intros b' Hu. apply (iv_idle _ _ H). intros t' x' Hx'. apply (Hu t'). cbn. rewrite lookup_insert_ne; [done|]. intros ->. by simplify_eq/=.
Qed.

Lemma wakes_inv v thr idx acc med log dn chs :
  inv m0 (mkSys v thr idx acc med log dn) → inv m0 (mkSys (woken chs v) thr idx acc med log dn).
Proof.
  intros H. destruct (iv_shape _ _ H). constructor; try apply H; [by constructor|].
  intros t x Hx. eapply thread_frame; [by eapply (iv_threads _ _ H)|done..].
Qed.

Lemma heads_pop buf a b : pos16 a → pos16 b → a ≠ b →
  heads buf a b = Z.to_nat (default 0 (buf !! Z.to_nat (a mod 8))) :: heads buf (u16 (a + 1)) b.
Proof. intros ? ? ?. unfold heads. rewrite (window_pop 8 (2 ^ 16)); [done|lia|by exists 8192|lia|done..]. Qed.

Lemma heads_push buf a b i : pos16 a → pos16 b → length buf = NUM → (length (heads buf a b) < NUM)%nat →
  heads (<[Z.to_nat (b mod 8) := Z.of_nat i]> buf) a (u16 (b + 1)) = heads buf a b ++ [i].
Proof.
  intros ? ? Hl Hn. unfold heads in *. rewrite length_fmap in Hn. unfold u16. unfold NUM in *. rewrite (window_push 8 (2 ^ 16)); [|lia|by exists 8192|lia|done|done|lia..].
  rewrite fmap_app. cbn. by rewrite Nat2Z.id.
Qed.

Lemma small_nodup l : NoDup l → (∀ i, i ∈ l → (i < NUM)%nat) → (length l ≤ NUM)%nat.
Proof.
  intros Hn Hl. rewrite <- (length_seq NUM 0). apply submseteq_length, NoDup_submseteq; [done|]. intros i Hi. apply elem_of_seq. specialize (Hl i Hi). lia.
Qed.

Lemma took_chain b w sec i0 i1 i2 v : zeroed v → all_free v [i0; i1; i2] → length (v_info v) = NUM → length (v_ops v) = NUM →
  chain (submitted b w sec i0 i1 i2 (took [i0; i1; i2] v)) b w sec i0 i1 i2.
Proof.
  intros (Hd & Hl & _) [Hn Hf] Hi Ho. assert (Hlt : ∀ i, i ∈ [i0; i1; i2] → (i < NUM)%nat).
  { intros i Hin. pose proof (proj1 (list.Forall_forall _ _) Hf i Hin) as E. apply lookup_lt_Some in E. lia. }
  pose proof (Hlt i0 ltac:(set_solver)). pose proof (Hlt i1 ltac:(set_solver)). pose proof (Hlt i2 ltac:(set_solver)).
  assert (i0 ≠ i1 ∧ i0 ≠ i2 ∧ i1 ≠ i2) as (? & ? & ?) by (repeat (apply list.NoDup_cons in Hn as [? Hn]); set_solver).
  constructor; cbn.
  - split; [done|]. apply list.Forall_forall. intros i Hin. pose proof (took_free [i0; i1; i2] v i) as E. cbn in E. rewrite E.
    rewrite decide_True; [done|]. specialize (Hlt i Hin). split; [done|lia].
  - apply list_lookup_insert_eq. lia.
  - rewrite !list_lookup_insert_ne by congruence. apply list_lookup_insert_eq. lia.
  - rewrite list_lookup_insert_ne by congruence. apply list_lookup_insert_eq. rewrite length_insert. lia.
  - apply list_lookup_insert_eq. rewrite !length_insert. lia.
  - rewrite !list_lookup_alter_eq. destruct (lookup_lt_is_Some_2 (v_info v) i0) as [x ->]; [lia|]. done.
Qed.

Lemma submit_shape b w sec i0 i1 i2 v idx : shape v idx → all_free v [i0; i1; i2] →
  shape (submitted b w sec i0 i1 i2 (took [i0; i1; i2] v)) idx.
Proof.
  intros [Hz ? ? ? ? [] Hdata] Ha. pose proof Hz as (Hd & Hl & Hzz). constructor; cbn; rewrite ?length_insert, ?length_alter; try done.
  - split_and!; cbn; [by rewrite !length_insert|by rewrite !length_insert|]. intros i Hi.
    pose proof (took_free [i0; i1; i2] v i) as E. cbn in E. rewrite E in Hi. case_decide as Hdec; [done|].
    assert (i ∉ [i0; i1; i2]) by (intros ?; apply Hdec; split; [done|]; apply lookup_lt_Some in Hi; done).
    rewrite !list_lookup_insert_ne by set_solver. by apply Hzz.
  - split; [apply Z.mod_pos_bound; lia|done].
  - intros b' y. destruct (decide (b = b')) as [<-|]; [|rewrite list_lookup_alter_ne by done; apply Hdata].
    rewrite list_lookup_alter_eq, fmap_Some. intros (y' & Hy & ->). exact (Hdata b y' Hy).
Qed.

Lemma submit_queue v thr idx acc med log dn b w sec i0 i1 i2 :
  inv m0 (mkSys v thr idx acc med log dn) → all_free v [i0; i1; i2] → ∀ thr',
  let s' := mkSys (submitted b w sec i0 i1 i2 (took [i0; i1; i2] v)) thr' idx acc med log dn in
  let s := mkSys v thr idx acc med log dn in
  todo s' ≡ₚ i0 :: todo s ∧ queue s' ≡ₚ i0 :: queue s ∧ used s' = used s ∧ ∀ i, i ∈ [i0; i1; i2] → i ∉ queue s.
Proof.
  intros H [Hn Hf] thr' s' s. pose proof (iv_shape _ _ H) as [Hz Ha Hu Hi Ho (Pa & _ & _ & Pi) _].
  assert (Hfr : ∀ i, i ∈ [i0; i1; i2] → i ∉ queue s).
  { intros i Hin Hq. destruct (inv_head _ _ _ H Hq) as [_ E]. pose proof (proj1 (list.Forall_forall _ _) Hf i Hin) as E'. cbn in E, E'. congruence. }
  assert (Hlen : (length (heads (v_avail v) idx (v_avail_idx v)) < NUM)%nat).
  { assert (length (i0 :: queue s) ≤ NUM)%nat as Hq.
    - apply small_nodup; [apply list.NoDup_cons; split; [apply Hfr; set_solver|apply H]|]. intros i Hin.
      apply elem_of_cons in Hin as [->|Hin]; [|by apply (inv_head _ _ _ H Hin)].
      pose proof (proj1 (list.Forall_forall _ _) Hf i0 ltac:(set_solver)) as E. apply lookup_lt_Some in E. destruct Hz as (_ & Hzl & _). cbn in E, Hzl. lia.
    - unfold queue, todo in Hq. cbn [length] in Hq. rewrite !length_app in Hq. cbn [s s_v s_idx] in Hq. lia. }
  assert (Ht : todo s' ≡ₚ i0 :: todo s).
  { unfold todo, s', s. cbn. rewrite heads_push by done. rewrite <- app_assoc. cbn. by rewrite Permutation_middle. }
  split_and!; [done| |done|done]. unfold queue. rewrite Ht. done.
Qed.

Lemma submit_inv v thr idx acc med log dn t b w sec d0 i0 i1 i2 :
  inv m0 (mkSys v thr idx acc med log dn) → thr !! t = Some (Allocating b w sec d0) → all_free v [i0; i1; i2] →
  inv m0 (mkSys (submitted b w sec i0 i1 i2 (took [i0; i1; i2] v)) (<[t := Waiting b w sec d0 i0 i1 i2]> thr) idx acc med log dn).
Proof.
  intros H Ht Hall. destruct (submit_queue _ _ _ _ _ _ _ b w sec _ _ _ H Hall (<[t := Waiting b w sec d0 i0 i1 i2]> thr)) as (Et & Eq & Eu & Hfr).
  pose proof (iv_shape _ _ H) as Hsh. set (s' := mkSys (submitted _ _ _ _ _ _ _) _ _ _ _ _ _) in *.
  set (s := mkSys v thr idx acc med log dn) in *. pose proof Hall as [Hn Hf].
  assert (Hold : ∀ t' x i, thr !! t' = Some x → i ∈ t_idx x → i ∉ [i0; i1; i2]).
  { intros t' x i Hx Hi Hin. destruct (inv_lt m0 s t' x i H Hx Hi) as [_ E]. pose proof (proj1 (list.Forall_forall _ _) Hf i Hin) as E'. cbn in E, E'. congruence. }
  destruct (iv_threads _ _ H t _ Ht) as (y & Hy & Hsec & Hdata & Hdisk & Hhist). cbn in Hy.
  constructor.
  - by apply submit_shape.
  - cbn. intros t1 t2 x1 x2 i. rewrite !lookup_insert_Some. intros [[<- <-]|[? H1]] [[<- <-]|[? H2]] I1 I2; [done|by exfalso; eapply Hold|by exfalso; eapply Hold|].
    eapply (iv_disj _ _ H); eauto.
  - cbn. intros i Hi. pose proof (took_free [i0; i1; i2] v i) as E. cbn in E. rewrite E in Hi. case_decide as Hd.
    + exists t, (Waiting b w sec d0 i0 i1 i2). rewrite lookup_insert_eq. by destruct Hd.
    + destruct (iv_own _ _ H i Hi) as (t' & x' & Hx & Hin). exists t', x'. split; [|done]. rewrite lookup_insert_ne; [done|]. intros <-. cbn in Hx. rewrite Ht in Hx. simplify_eq. by apply not_elem_of_nil in Hin.
  - cbn. intros t1 t2 x1 x2. rewrite !lookup_insert_Some. intros [[<- <-]|[? H1]] [[<- <-]|[? H2]] E; cbn in E; [done|..].
    + by apply (iv_bufs _ _ H t t2 _ _ Ht H2).
    + by apply (iv_bufs _ _ H t1 t _ _ H1 Ht).
    + by apply (iv_bufs _ _ H t1 t2 _ _ H1 H2).
  - rewrite Eq. apply list.NoDup_cons. split; [apply Hfr; set_solver|apply H].
  - intros h. rewrite Eq. intros [->|Hh]%elem_of_cons; [by do 7 eexists; cbn; apply lookup_insert_eq|].
    destruct (iv_heads _ _ H h Hh) as (t' & ? & ? & ? & ? & ? & ? & E). do 7 eexists. cbn. rewrite lookup_insert_ne; [done|]. intros <-. cbn in E. congruence.
  - intros h. rewrite Eu. intros Hh. pose proof (iv_status _ _ H h Hh) as E.
    assert (h ≠ i0) by (intros ->; apply (Hfr i0); [set_solver|]; by apply in_used). cbn. by rewrite !list_lookup_alter_ne.
  - intros t' x'. cbn. rewrite lookup_insert_Some. intros [[<- <-]|[Hne H1]].
    + exists (set_db_disk true y). cbn. rewrite list_lookup_alter_eq, Hy. destruct Hsh as [? ? ? ? ? ? ?]. split; [done|]. split_and!; [by apply took_chain|done| |done|].
      * split; [intros _; rewrite Eq; apply list_elem_of_here|done].
      * intros Hnt. exfalso. apply Hnt. rewrite Et. apply list_elem_of_here.
    + assert (Hb : b ≠ t_buf x') by (intros E; apply Hne; by apply (iv_bufs _ _ H t t' _ _ Ht H1)).
      eapply thread_frame; [by apply (iv_threads _ _ H t' x' H1)| | |done].
      * intros i Hi. pose proof (Hold _ _ _ H1 Hi) as Hni. assert (i ≠ i0 ∧ i ≠ i1 ∧ i ≠ i2) as (? & ? & ?) by set_solver. cbn.
        rewrite !list_lookup_insert_ne, !list_lookup_alter_ne by congruence. split_and!; try done; [rewrite Et; by apply elem_cons_ne|rewrite Eq; by apply elem_cons_ne].
      * cbn. by rewrite list_lookup_alter_ne.
  - intros b' Hu. assert (Hb : b ≠ b') by (apply (Hu t (Waiting b w sec d0 i0 i1 i2)); apply lookup_insert_eq).
    destruct (iv_idle _ _ H b') as [Hh Hd].
    { intros t' x' Hx'. destruct (decide (t = t')) as [<-|]; [cbn in Hx'; rewrite Ht in Hx'; by simplify_eq|]. apply (Hu t'). cbn. by rewrite lookup_insert_ne. }
    split; [done|]. intros y'. cbn. rewrite list_lookup_alter_ne by done. apply Hd.
  - apply H.
  - apply H.
Qed.

Lemma of_buf_eq b l e : t_b e = b → of_buf b (l ++ [e]) = of_buf b l ++ [e].
Proof. intros He. unfold of_buf. by rewrite list.filter_app, filter_cons_True. Qed.
Lemma of_buf_ne b l e : t_b e ≠ b → of_buf b (l ++ [e]) = of_buf b l.
Proof. intros He. unfold of_buf. by rewrite list.filter_app, filter_cons_False, filter_nil, app_nil_r. Qed.

Lemma finished_other i0 i1 i2 v i : i ∉ [i0; i1; i2] →
  v_desc (finished i0 i1 i2 v) !! i = v_desc v !! i ∧ v_free (finished i0 i1 i2 v) !! i = v_free v !! i ∧
  v_info (finished i0 i1 i2 v) !! i = v_info v !! i.
Proof.
  intros Hi. assert (i ≠ i0 ∧ i ≠ i1 ∧ i ≠ i2) as (? & ? & ?) by set_solver. cbn.
  by rewrite !list_lookup_insert_ne, list_lookup_alter_ne by congruence.
Qed.

Lemma finished_own i0 i1 i2 v i : length (v_free v) = NUM → length (v_desc v) = NUM → (i < NUM)%nat → i ∈ [i0; i1; i2] →
  v_desc (finished i0 i1 i2 v) !! i = Some desc0 ∧ v_free (finished i0 i1 i2 v) !! i = Some true.
Proof.
  intros Hf Hd Hlt Hi. cbn. destruct (decide (i = i2)) as [->|]; [by rewrite !list_lookup_insert_eq by (rewrite ?length_insert; lia)|].
  rewrite !(list_lookup_insert_ne _ i2) by done. destruct (decide (i = i1)) as [->|]; [by rewrite !list_lookup_insert_eq by (rewrite ?length_insert; lia)|].
  rewrite !(list_lookup_insert_ne _ i1) by done. assert (i = i0) as -> by set_solver. by rewrite !list_lookup_insert_eq by lia.
Qed.

Lemma finished_shape i0 i1 i2 v idx : shape v idx → shape (finished i0 i1 i2 v) idx.
Proof.
  intros [(Hd & Hf & Hz) ? ? ? ? ? ?]. constructor; cbn; rewrite ?length_alter; try done.
  split_and!; [cbn; by rewrite !length_insert..|]. intros i Hi. destruct (decide (i ∈ [i0; i1; i2])) as [Hin|Hni].
  - apply finished_own; [done..| |done]. apply lookup_lt_Some in Hi. cbn in Hi. rewrite !length_insert in Hi. lia.
  - destruct (finished_other i0 i1 i2 v i Hni) as (E1 & E2 & _). rewrite E2 in Hi. rewrite E1. by apply Hz.
Qed.

Lemma return_inv v thr idx acc med log dn t b w sec d0 i0 i1 i2 :
  inv m0 (mkSys v thr idx acc med log dn) → thr !! t = Some (Waiting b w sec d0 i0 i1 i2) → db_disk (dbuf_at v b) = false →
  inv m0 (mkSys (finished i0 i1 i2 v) (delete t thr) idx acc med log (dn ++ [mkTr b w sec (if w then d0 else db_data (dbuf_at v b))])).
Proof.
  intros H Ht Hdisk. destruct (iv_threads _ _ H t _ Ht) as (y & Hy & Hch & Hsec & Hq & _ & Hdone). cbn in Hy.
  assert (Ey : dbuf_at v b = y) by (unfold dbuf_at; by rewrite Hy). rewrite Ey in *. clear Ey.
  set (s := mkSys v thr idx acc med log dn) in *. assert (Hnq : i0 ∉ queue s) by (intros ?%Hq; congruence).
  destruct Hdone as [Hhist _]; [by intros ?%in_todo|]. pose proof (iv_shape _ _ H) as Hsh.
  set (e := mkTr b w sec (if w then d0 else db_data y)) in *. set (s' := mkSys (finished i0 i1 i2 v) _ _ _ _ _ _).
  assert (Hold : ∀ t' x i, t' ≠ t → thr !! t' = Some x → i ∈ t_idx x → i ∉ [i0; i1; i2]).
  { intros t' x i Hne Hx Hi Hin. apply Hne. by apply (iv_disj _ _ H t' t x _ i Hx Ht). }
  constructor; try apply H.
  - by apply finished_shape.
  - cbn. intros t1 t2 x1 x2 i [_ H1]%lookup_delete_Some [_ H2]%lookup_delete_Some. eapply (iv_disj _ _ H); done.
  - intros i Hi. destruct (decide (i ∈ [i0; i1; i2])) as [Hin|Hni].
    + destruct (inv_lt _ _ _ _ i H Ht Hin) as [Hlt _]. destruct (sh_zeroed _ _ Hsh) as (? & ? & _).
      pose proof (finished_own i0 i1 i2 v i) as E. unfold s' in Hi. destruct E as [_ E]; [done..|]. cbn [s_v] in Hi. congruence.
    + destruct (finished_other i0 i1 i2 v i Hni) as (_ & E & _). unfold s' in Hi. cbn [s_v] in Hi. rewrite E in Hi.
      destruct (iv_own _ _ H i Hi) as (t' & x & Hx & Hix). exists t', x. split; [|done]. cbn. apply lookup_delete_Some. split; [|done].
      intros <-. cbn in Hx. rewrite Ht in Hx. simplify_eq. done.
  - cbn. intros t1 t2 x1 x2 [_ H1]%lookup_delete_Some [_ H2]%lookup_delete_Some. eapply (iv_bufs _ _ H); done.
  - intros h Hh. destruct (iv_heads _ _ H h Hh) as (t' & ? & ? & ? & ? & ? & ? & E). do 7 eexists. cbn. apply lookup_delete_Some. split; [|done].
    intros <-. cbn in E. rewrite Ht in E. injection E as; subst. exact (Hnq Hh).
  - intros h Hh. pose proof (iv_status _ _ H h Hh) as E. assert (h ≠ i0) by (intros ->; by apply Hnq, in_used).
    cbn. by rewrite list_lookup_alter_ne.
  - cbn. intros t' x' [Hne H1]%lookup_delete_Some. assert (Hb : b ≠ t_buf x') by (intros E; apply Hne; by apply (iv_bufs _ _ H t t' _ _ Ht H1)).
    eapply thread_frame; [by apply (iv_threads _ _ H t' x' H1)| |done|].
    + intros i Hi. destruct (finished_other i0 i1 i2 v i (Hold t' x' i ltac:(congruence) H1 Hi)) as (E1 & E2 & E3). unfold s'. cbn [s_v].
      rewrite E1, E2, E3. done.
    + unfold hist, s'. cbn [s_log s_done]. intros l. by rewrite of_buf_ne.
  - intros b' Hu. cbn. destruct (decide (b = b')) as [<-|Hb].
    + split; [unfold hist, s'; cbn [s_log s_done]; rewrite of_buf_eq, app_nil_r; done|]. intros y'. rewrite Hy. by intros [= <-].
    + destruct (iv_idle _ _ H b') as [Hh Hd]; [|split; [unfold hist, s'; cbn [s_log s_done]; by rewrite of_buf_ne|done]].
      intros t' x' Hx'. destruct (decide (t = t')) as [<-|]; [cbn in Hx'; rewrite Ht in Hx'; by simplify_eq|]. apply (Hu t'). by apply lookup_delete_Some.
Qed.

Lemma accept_inv v thr idx acc med log dn : inv m0 (mkSys v thr idx acc med log dn) → idx ≠ v_avail_idx v →
  inv m0 (mkSys v thr (u16 (idx + 1)) (acc ++ [Z.to_nat (default 0 (v_avail v !! Z.to_nat (idx mod 8)))]) med log dn).
Proof.
  intros H Hne. set (s := mkSys v thr idx acc med log dn) in *. set (s' := mkSys v thr _ _ _ _ _).
  destruct (iv_shape _ _ H) as [? ? ? ? ? (? & ? & ? & Hi) ?]. 
  assert (Et : todo s' ≡ₚ todo s).
  { unfold todo, s, s'. cbn. rewrite (heads_pop _ idx) by done. cbn. rewrite app_assoc, (Permutation_app_comm _ [_]). done. }
  assert (Eq : queue s' ≡ₚ queue s) by (unfold queue; by rewrite Et).
  constructor; try apply H.
  - constructor; try done. split_and!; try done. apply Z.mod_pos_bound. lia.
  - rewrite Eq. apply H.
  - intros h. rewrite Eq. apply H.
  - intros t x Hx. eapply thread_frame; [by apply (iv_threads _ _ H t)| |done..]. intros i _. by rewrite Et, Eq.
Qed.

(** The request of a chain, performed. *)
Definition moved (m : Z → Z) (w : bool) (sec : Z) (y : dbuf) : list Z := if w then db_data y else rd m sec BLOCK.
Definition performed (m : Z → Z) (b : nat) (w : bool) (sec : Z) (h : nat) (y : dbuf) (v : disk) : disk :=
  set_info (alter (set_in_status 0) h) (set_dbufs (alter (set_db_data (moved m w sec y)) b) v).

Lemma perform_run v m b w sec h i1 i2 y : chain v b w sec h i1 i2 → v_bufs v !! b = Some y → length (db_data y) = Z.to_nat BLOCK →
  perform v m h = Some (performed m b w sec h y v, if w then wr m sec (db_data y) else m, mkTr b w sec (moved m w sec y)).
Proof.
  intros [_ Ho H0 H1 H2 _] Hy Hl. unfold perform, desc_at. rewrite H0. cbn [default from_option id d_next]. rewrite Nat2Z.id, H1.
  cbn [default from_option id d_next]. rewrite Nat2Z.id, H2. cbn -[take rd]. unfold op_at, dbuf_at. rewrite Ho, Hy. cbn -[take rd Z.to_nat].
  destruct w; cbn -[take rd Z.to_nat]; [|done]. rewrite take_ge by lia. unfold performed, moved.
  do 4 f_equal. unfold set_dbufs. cbn. rewrite <- (list_alter_id (λ x, x) (v_bufs v) b) at 1 by done.
  destruct v; cbn in *. f_equal. apply list_eq. intros j. destruct (decide (b = j)) as [<-|]; [|by rewrite !list_lookup_alter_ne].
  rewrite !list_lookup_alter_eq, Hy. by destruct y.
Qed.

Lemma rd_length m sec : length (rd m sec BLOCK) = Z.to_nat BLOCK.
Proof. unfold rd. by rewrite length_fmap, length_seqZ. Qed.

Lemma log_ok_snoc l e : log_ok m0 l → (t_w e = false → t_data e = rd (replay m0 l) (t_sec e) BLOCK) → log_ok m0 (l ++ [e]).
Proof.
  intros Hl He l1 e' l2 E. destruct l2 as [|e2 l2 _] using rev_ind.
  - apply app_inj_tail in E as [<- <-]. done.
  - rewrite app_comm_cons, app_assoc in E. apply app_inj_tail in E as [E _]. by eapply Hl.
Qed.

Lemma perform_queue v v' thr idx acc1 h acc2 med med' log log' dn :
  inv m0 (mkSys v thr idx (acc1 ++ h :: acc2) med log dn) →
  v_avail v' = v_avail v → v_avail_idx v' = v_avail_idx v → v_used v' = v_used v → v_used_idx v' = v_used_idx v → v_used_ring_idx v' = v_used_ring_idx v →
  let s := mkSys v thr idx (acc1 ++ h :: acc2) med log dn in
  let s' := mkSys (use h v') thr idx (acc1 ++ acc2) med' log' dn in
  (todo s ≡ₚ h :: todo s') ∧ used s' = used s ++ [h] ∧ (queue s' ≡ₚ queue s) ∧ (h ∉ todo s') ∧ (h ∉ used s).
Proof.
  intros H E1 E2 E3 E4 E5 s s'. pose proof (iv_shape _ _ H) as [_ _ Hu _ _ (_ & ? & ? & _) _].
  assert (Et : todo s ≡ₚ h :: todo s').
  { unfold todo, s, s'. cbn. rewrite E1, E2. rewrite <- (Permutation_middle acc1), <- Permutation_middle. done. }
  assert (Hn : NoDup (h :: todo s' ++ used s)).
  { pose proof (iv_nodup _ _ H) as Hn. change (NoDup (todo s ++ used s)) in Hn. rewrite Et in Hn. done. }
  assert (Hin : h ∈ queue s) by (unfold queue; rewrite Et; set_solver).
  assert (Hlen : (length (used s) < NUM)%nat).
  { assert (length (queue s) ≤ NUM)%nat as Hq by (apply small_nodup; [apply H|]; intros i Hi; by apply (inv_head _ _ _ H Hi)).
    unfold queue in Hq. rewrite Et in Hq. cbn in Hq. rewrite length_app in Hq. lia. }
  assert (Eu : used s' = used s ++ [h]).
  { unfold used, s', s. cbn. rewrite E3, E4, E5. by apply heads_push. }
  apply list.NoDup_cons in Hn as [[Hnt Hnu]%not_elem_of_app _].
  split_and!; [done|done| |done..]. unfold queue. rewrite Eu, Et. rewrite (Permutation_app_comm (used s)). cbn. by rewrite <- Permutation_middle.
Qed.

Lemma perform_inv v thr idx acc1 h acc2 med log dn t b w sec d0 i1 i2 y :
  inv m0 (mkSys v thr idx (acc1 ++ h :: acc2) med log dn) → thr !! t = Some (Waiting b w sec d0 h i1 i2) → v_bufs v !! b = Some y →
  inv m0 (mkSys (use h (performed med b w sec h y v)) thr idx (acc1 ++ acc2) (if w then wr med sec (db_data y) else med)
            (log ++ [mkTr b w sec (moved med w sec y)]) dn).
Proof.
  intros H Ht Hy. set (v' := performed med b w sec h y v). set (e := mkTr b w sec (moved med w sec y)).
  destruct (perform_queue v v' thr idx acc1 h acc2 med (if w then wr med sec (db_data y) else med) log (log ++ [e]) dn H) as (Et & Eu & Eq & Hnt & Hnu); [done..|].
  set (s := mkSys v _ _ _ _ _ _) in *. set (s' := mkSys (use h v') _ _ _ _ _ _) in *.
  destruct (iv_threads _ _ H t _ Ht) as (y' & Hy' & Hch & Hsec & Hq & Htd & _). cbn in Hy'. rewrite Hy in Hy'. injection Hy' as <-.
  destruct Htd as [Hdata Hhist]; [rewrite Et; apply list_elem_of_here|]. pose proof (iv_shape _ _ H) as [Hz ? ? Hinfo ? (? & ? & ? & ?) Hlen].
  assert (Hh : (h < NUM)%nat) by (apply (inv_lt _ _ _ _ h H Ht); apply list_elem_of_here).
  constructor; try apply H.
  - constructor; cbn; rewrite ?length_alter, ?length_insert; try done; [split_and!; try done; apply Z.mod_pos_bound; lia|].
    intros b' z. destruct (decide (b = b')) as [<-|]; [|rewrite list_lookup_alter_ne by done; apply Hlen].
    rewrite list_lookup_alter_eq, Hy. intros [= <-]. cbn. unfold moved. destruct w; [by apply (Hlen b)|apply rd_length].
  - rewrite Eq. apply H.
  - intros k. rewrite Eq. apply H.
  - intros k. rewrite Eu. intros [Hk|Hk]%elem_of_app; cbn.
    + assert (k ≠ h) by (intros ->; done). rewrite list_lookup_alter_ne by done. by apply (iv_status _ _ H k).
    + apply list_elem_of_singleton in Hk as ->. rewrite list_lookup_alter_eq. destruct (lookup_lt_is_Some_2 (v_info v) h) as [x ->]; [cbn in Hinfo; lia|]. done.
  - cbn. intros t' x' Hx. destruct (decide (t = t')) as [<-|Hne].
    + rewrite Ht in Hx. injection Hx as <-. exists (set_db_data (moved med w sec y) y). cbn. split; [by rewrite list_lookup_alter_eq, Hy|].
      split_and!; [|done|by rewrite Eq|done|].
      * destruct Hch. constructor; try done. cbn. rewrite list_lookup_alter_eq. cbn in *. destruct (v_info v !! h); done.
      * intros _. unfold hist, s'. cbn [s_log s_done]. rewrite of_buf_eq by done. unfold hist, s in Hhist. cbn [s_log s_done] in Hhist. rewrite Hhist, app_nil_r.
        unfold e, moved. destruct w; [by rewrite Hdata|done].
    + assert (Hb : b ≠ t_buf x') by (intros E; apply Hne; by apply (iv_bufs _ _ H t t' _ _ Ht Hx)).
      eapply thread_frame; [by apply (iv_threads _ _ H t' x' Hx)| | |].
      * intros i Hi. assert (Hih : i ≠ h) by (intros ->; apply Hne; apply (iv_disj _ _ H t t' _ _ h Ht Hx); [apply list_elem_of_here|done]).
        rewrite Eq, Et. cbn. rewrite list_lookup_alter_ne by done. split_and!; try done. by apply symmetry, elem_cons_ne.
      * cbn. by rewrite list_lookup_alter_ne.
      * unfold hist, s'. cbn [s_log s_done]. intros l. by rewrite of_buf_ne.
  - intros b' Hu. assert (Hb : b ≠ b') by (by apply (Hu t (Waiting b w sec d0 h i1 i2))). destruct (iv_idle _ _ H b' Hu) as [Hh' Hd].
    split; [unfold hist, s'; cbn [s_log s_done]; by rewrite of_buf_ne|]. cbn. by rewrite list_lookup_alter_ne.
  - cbn. pose proof (iv_med _ _ H) as Hm. cbn in Hm. unfold replay. rewrite foldl_app. cbn. unfold replay in Hm. rewrite <- Hm. unfold moved. by destruct w.
  - cbn. apply log_ok_snoc; [apply H|]. cbn. intros ->. cbn. pose proof (iv_med _ _ H) as Hm. cbn in Hm. by rewrite Hm.
Qed.

(** One round of the interrupt handler. *)
Definition served (b : nat) (v : disk) : disk :=
  set_used_idx (u16 (v_used_idx v + 1)) (woken [Woke (ChDiskBuf b)] (set_dbufs (alter (set_db_disk false) b) v)).

Lemma served_inv v thr idx acc med log dn : inv m0 (mkSys v thr idx acc med log dn) → v_used_idx v ≠ v_used_ring_idx v →
  let h := Z.to_nat (default 0 (v_used v !! Z.to_nat (v_used_idx v mod 8))) in
  ∃ b i, v_info v !! h = Some i ∧ in_status i = 0 ∧ in_b i = Some b ∧ used (mkSys v thr idx acc med log dn) = h :: used (mkSys (served b v) thr idx acc med log dn) ∧
    inv m0 (mkSys (served b v) thr idx acc med log dn).
Proof.
  intros H Hne h. set (s := mkSys v _ _ _ _ _ _) in *. pose proof (iv_shape _ _ H) as [? ? ? ? ? (? & ? & ? & ?) Hlen].
  assert (Hu : ∀ b, used s = h :: used (mkSys (served b v) thr idx acc med log dn)) by (intros b; unfold used, s; cbn; by apply heads_pop).
  assert (Hhq : h ∈ queue s) by (apply in_used; rewrite (Hu 0%nat); apply list_elem_of_here).
  destruct (iv_heads _ _ H h Hhq) as (t & b & w & sec & d0 & i1 & i2 & Ht). cbn in Ht.
  destruct (iv_threads _ _ H t _ Ht) as (y & Hy & Hch & Hsec & Hq & Htd & Hnt). cbn in Hy.
  assert (Hst : in_status <$> v_info v !! h = Some 0) by (apply (iv_status _ _ H h); rewrite (Hu 0%nat); apply list_elem_of_here).
  pose proof (ch_b _ _ _ _ _ _ _ Hch) as Hb. cbn [s s_v] in Hb. destruct (v_info v !! h) as [i|] eqn:Ei; [|done]. cbn in Hb, Hst.
  exists b, i. split_and!; [done|congruence|congruence|done|]. set (s' := mkSys (served b v) _ _ _ _ _ _).
  specialize (Hu b). fold s' in Hu. assert (Hn : NoDup (todo s ++ h :: used s')) by (rewrite <- Hu; apply H).
  rewrite <- Permutation_middle in Hn. apply list.NoDup_cons in Hn as [Hnin Hn]. change (todo s ++ used s') with (queue s') in Hnin, Hn.
  assert (Eq : queue s ≡ₚ h :: queue s') by (unfold queue; rewrite Hu; by rewrite <- Permutation_middle).
  constructor; try apply H.
  - constructor; try done; [split_and!; try done; apply Z.mod_pos_bound; lia|]. cbn. intros b' z.
    destruct (decide (b = b')) as [<-|]; [|rewrite list_lookup_alter_ne by done; apply Hlen]. rewrite list_lookup_alter_eq, Hy. intros [= <-]. apply (Hlen b y Hy).
  - done.
  - intros k Hk. apply (iv_heads _ _ H). rewrite Eq. by apply list_elem_of_further.
  - intros k Hk. apply (iv_status _ _ H). rewrite Hu. by apply list_elem_of_further.
  - cbn. intros t' x' Hx. destruct (decide (t = t')) as [<-|Hne'].
    + rewrite Ht in Hx. injection Hx as <-. exists (set_db_disk false y). cbn. split; [by rewrite list_lookup_alter_eq, Hy|].
      split_and!; [by destruct Hch; constructor|done| |done|done]. split; [done|]. intros ?. by exfalso.
    + assert (Hb' : b ≠ t_buf x') by (intros E; apply Hne'; by apply (iv_bufs _ _ H t t' _ _ Ht Hx)).
      eapply thread_frame; [by apply (iv_threads _ _ H t' x' Hx)| | |done]; [|cbn; by rewrite list_lookup_alter_ne].
      intros k Hk. assert (Hkh : k ≠ h) by (intros ->; apply Hne'; apply (iv_disj _ _ H t t' _ _ h Ht Hx); [apply list_elem_of_here|done]).
      split_and!; try done. rewrite Eq. by apply symmetry, elem_cons_ne.
  - intros b' Hun. assert (Hbb : b ≠ b') by (by apply (Hun t (Waiting b w sec d0 h i1 i2))). destruct (iv_idle _ _ H b' Hun) as [Hh' Hd].
    split; [done|]. cbn. by rewrite list_lookup_alter_ne.
Qed.

Lemma intr_run fuel v thr idx acc med log dn : inv m0 (mkSys v thr idx acc med log dn) →
  (length (used (mkSys v thr idx acc med log dn)) ≤ fuel)%nat →
  ∃ v' chs, intr_loop fuel v = Ok tt v' ∧ inv m0 (mkSys v' thr idx acc med log dn) ∧
    used (mkSys v' thr idx acc med log dn) = [] ∧ todo (mkSys v' thr idx acc med log dn) = todo (mkSys v thr idx acc med log dn) ∧ v_out v' = v_out v ++ chs ∧
    ∀ b, db_disk (dbuf_at v b) = true → db_disk (dbuf_at v' b) = false → Woke (ChDiskBuf b) ∈ chs.
Proof.
  revert v. induction fuel as [|fuel IH]; intros v H Hl; cbn [intr_loop]; unfold gets; rewrite (bind_ok _ _ v v v) by done.
  all: destruct (Z.eqb_spec (v_used_idx v) (v_used_ring_idx v)) as [E|E]; cbn [negb].
  1,3: exists v, []; split_and!; [done|done| |done|by rewrite app_nil_r|by intros b -> ?];
    unfold used, heads; cbn; rewrite E; by rewrite window_nil.
  { destruct (served_inv _ _ _ _ _ _ _ H E) as (b & i & _ & _ & _ & Eu & _). rewrite Eu in Hl. cbn in Hl. lia. }
  destruct (served_inv _ _ _ _ _ _ _ H E) as (b & i & Ei & Es & Eb & Eu & Hi). rewrite Eu in Hl. cbn [length] in Hl.
  change (Z.of_nat NUM) with 8. unfold info_at. rewrite Ei. cbn [default from_option id]. rewrite Es, Eb. cbn [Z.eqb negb].
  destruct (IH _ Hi ltac:(lia)) as (v' & chs & Er & Hv' & Hu' & Ht' & Hw & Hb). exists v', (Woke (ChDiskBuf b) :: chs). split_and!; try done.
  - rewrite Hw. cbn. by rewrite <- app_assoc.
  - intros b' Hd Hd'. destruct (decide (b = b')) as [<-|Hne]; [apply list_elem_of_here|]. apply list_elem_of_further. apply Hb; [|done].
    unfold dbuf_at in *. cbn. by rewrite list_lookup_alter_ne.
Qed.

End steps.

(** ** Every interleaving *)

(** [struct disk] before start-up, with the buffers of the cache. *)
Definition zero_disk (bufs : list dbuf) : disk :=
  mkDisk [] 0 [] 0 [] (replicate NUM false) 0 (replicate NUM info0) (replicate NUM req0) bufs [].
Definition bufs_ok (bufs : list dbuf) : Prop := Forall (λ y, length (db_data y) = Z.to_nat BLOCK ∧ db_disk y = false) bufs.

(** What the device has to answer for the driver to accept it. *)
Definition accepts (R : list (Z * Z) → Z → Z) : Prop := ∀ out,
  u32 (R out VIRTIO_MMIO_MAGIC_VALUE) = 0x74726976 ∧ u32 (R out VIRTIO_MMIO_VERSION) = 2 ∧
  u32 (R out VIRTIO_MMIO_DEVICE_ID) = 2 ∧ u32 (R out VIRTIO_MMIO_VENDOR_ID) = 0x554d4551 ∧
  Z.testbit (R out VIRTIO_MMIO_STATUS) 3 = true ∧ u32 (R out VIRTIO_MMIO_QUEUE_READY) = 0 ∧
  Z.of_nat NUM ≤ u32 (R out VIRTIO_MMIO_QUEUE_NUM_MAX).

Definition ready_disk (bufs : list dbuf) : disk :=
  mkDisk (replicate NUM desc0) 0 (replicate NUM 0) 0 (replicate NUM 0) (replicate NUM true) 0 (replicate NUM info0) (replicate NUM req0) bufs [].

Lemma features_ok x : Z.testbit x 3 = true → (Z.land (u32 x) VIRTIO_CONFIG_S_FEATURES_OK =? 0) = false.
Proof.
  intros Hx. apply Z.eqb_neq. intros E. apply (f_equal (λ z, Z.testbit z 3)) in E. rewrite Z.land_spec, Z.bits_0 in E. unfold u32 in E.
  rewrite Z.mod_pow2_bits_low, Hx in E by lia. done.
Qed.

Lemma init_run R d a u bufs : accepts R →
  ∃ out, virtio_disk_init R (Some d, Some a, Some u) (mkBoot (zero_disk bufs) []) = Ok tt (mkBoot (ready_disk bufs) out).
Proof.
  intros HR. eexists. unfold virtio_disk_init, reg_read, reg_write, mbind, M_bind, gets, modify. cbn [obind vb_out vb_disk].
  destruct (HR []) as (-> & -> & -> & -> & _). cbn [Z.eqb Pos.eqb negb orb app].
  rewrite features_ok by apply HR.
  cbn [obind vb_out vb_disk app]. lazymatch goal with |- context [R ?o VIRTIO_MMIO_QUEUE_READY] => destruct (HR o) as (_ & _ & _ & _ & _ & -> & Hm) end.
  cbn [Z.eqb negb obind vb_out vb_disk]. rewrite (proj2 (Z.eqb_neq _ 0)) by (unfold NUM in Hm; lia). rewrite (proj2 (Z.ltb_ge _ _)) by done.
  reflexivity.
Qed.

Definition start (bufs : list dbuf) (m0 : Z → Z) : sys := mkSys (ready_disk bufs) ∅ 0 [] m0 [] [].

Lemma start_inv bufs m0 : bufs_ok bufs → inv m0 (start bufs m0).
Proof.
  intros Hb. constructor; try done; cbn.
  - constructor; try done. { split_and!; [done..|]. intros i Hi. apply lookup_lt_Some in Hi. by apply (lookup_replicate_2 NUM desc0 i). }
    intros b y Hy. by apply (proj1 (list.Forall_lookup _ _) Hb b y Hy).
  - intros i Hi. by apply (lookup_replicate_1 NUM true false i) in Hi as [? _].
  - constructor.
  - intros h Hh. by apply not_elem_of_nil in Hh.
  - intros h Hh. by apply not_elem_of_nil in Hh.
  - intros b _. split; [done|]. intros y Hy. by apply (proj1 (list.Forall_lookup _ _) Hb b y Hy).
  - intros l1 e l2 E. by destruct l1.
Qed.

Lemma used_small m0 s : inv m0 s → (length (used s) ≤ NUM)%nat.
Proof.
  intros H. assert (length (queue s) ≤ NUM)%nat as Hq by (apply small_nodup; [apply H|]; intros i Hi; by apply (inv_head _ _ _ H Hi)).
  unfold queue in Hq. rewrite length_app in Hq. lia.
Qed.

Lemma handler_run m0 v thr idx acc med log dn : inv m0 (mkSys v thr idx acc med log dn) →
  ∃ v' chs, virtio_disk_intr v = Ok tt v' ∧ inv m0 (mkSys v' thr idx acc med log dn) ∧
    used (mkSys v' thr idx acc med log dn) = [] ∧ todo (mkSys v' thr idx acc med log dn) = todo (mkSys v thr idx acc med log dn) ∧
    v_out v' = v_out v ++ Ack :: chs ∧
    ∀ b, db_disk (dbuf_at v b) = true → db_disk (dbuf_at v' b) = false → Woke (ChDiskBuf b) ∈ chs.
Proof.
  intros H. pose proof (wakes_inv m0 _ _ _ _ _ _ _ [Ack] H) as H1. destruct (intr_run m0 NUM _ _ _ _ _ _ _ H1 (used_small _ _ H1)) as (v' & chs & E & ? & ? & ? & Ew & ?).
  exists v', chs. split_and!; [exact E|done..| |done]. rewrite Ew. cbn. by rewrite <- app_assoc.
Qed.
(** An accepted request is performed. *)
Lemma perform_ok m0 v thr idx acc1 h acc2 med log dn : inv m0 (mkSys v thr idx (acc1 ++ h :: acc2) med log dn) →
  ∃ v' med' e, perform v med h = Some (v', med', e) ∧ inv m0 (mkSys (use h v') thr idx (acc1 ++ acc2) med' (log ++ [e]) dn).
Proof.
  intros H. destruct (iv_heads _ _ H h) as (t & b & w & sec & d0 & i1 & i2 & Ht); [apply in_todo, elem_of_app; right; apply elem_of_app; right; apply list_elem_of_here|]. cbn in Ht.
  destruct (iv_threads _ _ H t _ Ht) as (y & Hy & Hch & _). do 3 eexists. split; [eapply perform_run; [done|done|]|].
  - by eapply (sh_data _ _ (iv_shape _ _ H)).
  - by eapply perform_inv.
Qed.

Lemma step_inv m0 s s' : sstep s s' → inv m0 s → inv m0 s'.
Proof.
  intros Hs H. destruct Hs as [v thr idx acc med log dn b blockno data Hb Hd|v thr idx acc med log dn t b w x Hb Ht Hx
    |v v' thr idx acc med log dn t b w sec d0 Ht Ha|v v1 v2 thr idx acc med log dn t b w sec d0 i0 i1 i2 Ht Ha Hsub
    |v v' thr idx acc med log dn t b w sec d0 i0 i1 i2 Ht Hd Hf|v thr idx acc med log dn Hi
    |v v' thr idx acc1 h acc2 med med' log dn e Hp|v v' thr idx acc med log dn Hi].
  - by apply touch_inv.
  - by apply call_inv.
  - destruct (alloc3_desc_run v) as [(j0 & j1 & j2 & _ & E)|(k & _ & E)]; [apply (iv_shape _ _ H)|congruence|]. rewrite E in Ha. injection Ha as <-. by apply wakes_inv.
  - destruct (alloc3_desc_run v) as [(j0 & j1 & j2 & Hall & E)|(k & _ & E)]; [apply (iv_shape _ _ H)| |congruence]. rewrite E in Ha.
    injection Ha as -> -> -> <-. rewrite submit_run in Hsub. injection Hsub as <-. by apply submit_inv.
  - destruct (iv_threads _ _ H t _ Ht) as (y & _ & Hch & _). rewrite (finish_run v b w sec i0 i1 i2) in Hf; [|apply (sh_zeroed _ _ (iv_shape _ _ H))|done].
    injection Hf as <-. by apply return_inv.
  - by apply accept_inv.
  - destruct (perform_ok _ _ _ _ _ _ _ _ _ _ H) as (v1 & med1 & e1 & E & ?). rewrite E in Hp. by injection Hp as <- <- <-.
  - destruct (handler_run m0 v thr idx acc med log dn H) as (v1 & chs & E & ? & _). rewrite E in Hi. by injection Hi as <-.
Qed.

Lemma reach_inv bufs m0 s : bufs_ok bufs → rtc sstep (start bufs m0) s → inv m0 s.
Proof.
  intros Hb Hs. pose proof (start_inv bufs m0 Hb) as H. induction Hs as [|s1 s2 s3 Hstep _ IH]; [done|]. by apply IH, (step_inv _ s1).
Qed.

(** C7: Whatever the interleaving, no code of the driver panics, faults or loops: a
    thread that looks for descriptors gets three or none, one whose request is done
    frees its chain, the interrupt handler ends and wakes the owner of every buffer
    it completes, and every request that the device accepts is well formed. *)
Theorem virtio_disk_safe bufs m0 s : bufs_ok bufs → rtc sstep (start bufs m0) s →
  (∃ r v', alloc3_desc (s_v s) = Ok r v') ∧
  (∀ t b w sec d0 i0 i1 i2, s_thr s !! t = Some (Waiting b w sec d0 i0 i1 i2) → ∃ v', finish i0 (s_v s) = Ok tt v') ∧
  (∃ v' chs, virtio_disk_intr (s_v s) = Ok tt v' ∧ v_out v' = v_out (s_v s) ++ Ack :: chs ∧
    ∀ b, db_disk (dbuf_at (s_v s) b) = true → db_disk (dbuf_at v' b) = false → Woke (ChDiskBuf b) ∈ chs) ∧
  (∀ h, h ∈ s_acc s → is_Some (perform (s_v s) (s_med s) h)).
Proof.
  intros Hb Hs. pose proof (reach_inv _ _ _ Hb Hs) as H. destruct s as [v thr idx acc med log dn]. cbn [s_v s_thr s_acc s_med]. split_and!.
  - destruct (alloc3_desc_run v) as [(? & ? & ? & _ & E)|(? & _ & E)]; [apply (iv_shape _ _ H)|eauto..].
  - intros t b w sec d0 i0 i1 i2 Ht. destruct (iv_threads _ _ H t _ Ht) as (y & _ & Hch & _). eexists.
    apply (finish_run v b w sec i0 i1 i2); [apply (sh_zeroed _ _ (iv_shape _ _ H))|done].
  - destruct (handler_run m0 v thr idx acc med log dn H) as (v1 & chs & E & _ & _ & _ & Hw & Hc). by exists v1, chs.
  - intros h (acc1 & acc2 & ->)%list_elem_of_split. destruct (perform_ok _ _ _ _ _ _ _ _ _ _ H) as (? & ? & ? & -> & _). done.
Qed.

(** C6: When no call for a buffer is in progress, the transfers that the device made for
    it are those of the calls that returned: one for each call, in order, with
    the sector of its block and the bytes it had (a write) or returned with (a
    read).  A read gave what the writes before it left on the medium.  With no call in
    progress at all, every descriptor is free again. *)
Theorem virtio_disk_correct bufs m0 s : bufs_ok bufs → rtc sstep (start bufs m0) s →
  (∀ b, (∀ t x, s_thr s !! t = Some x → t_buf x ≠ b) → of_buf b (s_log s) = of_buf b (s_done s)) ∧
  s_med s = replay m0 (s_log s) ∧
  (∀ l1 e l2, s_log s = l1 ++ e :: l2 → t_w e = false → t_data e = rd (replay m0 l1) (t_sec e) BLOCK) ∧
  (s_thr s = ∅ → v_free (s_v s) = replicate NUM true).
Proof.
  intros Hb Hs. pose proof (reach_inv _ _ _ Hb Hs) as H. split_and!; [|apply H|apply H|].
  - intros b Hu. destruct (iv_idle _ _ H b Hu) as [Hh _]. by rewrite Hh, app_nil_r.
  - intros Ht. destruct (sh_zeroed _ _ (iv_shape _ _ H)) as (_ & Hl & _). symmetry. apply replicate_as_elem_of. split; [done|].
    intros x [i Hi]%list_elem_of_lookup. destruct x; [done|]. destruct (iv_own _ _ H i Hi) as (t & y & E & _). by rewrite Ht, lookup_empty in E.
Qed.

(** ** Progress *)

(** How far the threads are from returning. *)
Definition left_of (x : thread) : nat := match x with Allocating _ _ _ _ => 5 | Waiting _ _ _ _ _ _ _ => 1 end.
Definition left_thr (thr : gmap nat thread) : nat := map_fold (λ _ x n, left_of x + n)%nat 0%nat thr.
Definition left_all (s : sys) : nat :=
  (left_thr (s_thr s) + length (queue s) + length (todo s) + length (heads (v_avail (s_v s)) (s_idx s) (v_avail_idx (s_v s))))%nat.

Lemma left_insert thr t x : thr !! t = None → left_thr (<[t := x]> thr) = (left_of x + left_thr thr)%nat.
Proof. intros Ht. unfold left_thr. rewrite (map_fold_insert_L (λ _ x n, left_of x + n)%nat); [done| |done]. intros. lia. Qed.
Lemma left_delete thr t x : thr !! t = Some x → left_thr thr = (left_of x + left_thr (delete t thr))%nat.
Proof. intros Ht. rewrite <- (insert_delete_id thr t x) at 1 by done. apply left_insert, lookup_delete_eq. Qed.
Lemma left_update thr t x y : thr !! t = Some x → (left_thr (<[t := y]> thr) + left_of x = left_thr thr + left_of y)%nat.
Proof.
  intros Ht. rewrite (left_delete thr t x) by done. rewrite <- insert_delete_eq, left_insert by apply lookup_delete_eq. lia.
Qed.

(** No request is queued, and no thread waits for one. *)
Lemma quiet_submit m0 v thr idx acc med log dn t b w sec d0 :
  inv m0 (mkSys v thr idx acc med log dn) → thr !! t = Some (Allocating b w sec d0) →
  (∀ t x, thr !! t = Some x → t_idx x = []) →
  ∃ i0 i1 i2, all_free v [i0; i1; i2] ∧ alloc3_desc v = Ok (Some [i0; i1; i2]) (took [i0; i1; i2] v).
Proof.
  intros H Ht Hw. pose proof (sh_zeroed _ _ (iv_shape _ _ H)) as Hz. destruct (alloc3_desc_run v Hz) as [?|(k & Hk & _)]; [done|].
  exfalso. assert (all_free v [0; 1; 2]%nat) as Ha; [|specialize (Hk _ Ha); cbn in Hk; lia].
  split; [by apply (bool_decide_unpack _); vm_compute|]. apply list.Forall_forall. intros i Hi.
  destruct Hz as (_ & Hl & _). cbn [s_v] in Hl. destruct (v_free v !! i) as [[]|] eqn:E; [done| |].
  - destruct (iv_own _ _ H i E) as (t' & x & Hx & Hix). rewrite (Hw _ _ Hx) in Hix. by apply not_elem_of_nil in Hix.
  - apply lookup_ge_None in E. unfold NUM in Hl. assert (i < 3)%nat by (repeat (apply elem_of_cons in Hi as [->|Hi]; [lia|]); by apply not_elem_of_nil in Hi). lia.
Qed.

Lemma progress m0 s : inv m0 s → s_thr s ≠ ∅ → ∃ s', sstep s s' ∧ (left_all s' < left_all s)%nat.
Proof.
  intros H Hne. destruct s as [v thr idx acc med log dn]. cbn in Hne. set (s := mkSys v thr idx acc med log dn) in *.
  pose proof (iv_shape _ _ H) as Hsh. destruct (sh_idx _ _ Hsh) as (Pa & Pr & Pu & Pi). cbn in Pa, Pr, Pu, Pi.
  destruct (decide (idx = v_avail_idx v)) as [Ei|Ei].
  2:{ eexists. split; [by apply Accept|]. unfold left_all, queue, todo, used, s. cbn [s_v s_thr s_idx s_acc].
      rewrite (heads_pop _ idx (v_avail_idx v)) by done. rewrite !length_app. cbn [length]. lia. }
  destruct acc as [|h acc].
  2:{ destruct (perform_ok m0 v thr idx [] h acc med log dn H) as (v' & med' & e & E & Hinv). eexists. split; [by apply (Perform v v' thr idx [] h acc)|].
      destruct (iv_heads _ _ H h) as (t & b & w & sec & d0 & i1 & i2 & Ht); [apply in_todo, elem_of_app; right; apply list_elem_of_here|]. cbn in Ht.
      destruct (iv_threads _ _ H t _ Ht) as (y & Hy & Hch & _). rewrite (perform_run v med b w sec h i1 i2 y Hch Hy) in E by (by eapply (sh_data _ _ Hsh)). injection E as <- <- <-.
      destruct (perform_queue m0 v (performed med b w sec h y v) thr idx [] h acc med med log log dn H) as (Et & _ & Eq & _); [done..|].
      apply Permutation_length in Et, Eq. unfold left_all, s. cbn [app s_thr s_v s_idx length] in *. unfold queue, todo, used in *. cbn in *. lia. }
  destruct (decide (v_used_idx v = v_used_ring_idx v)) as [Eu|Eu].
  2:{ destruct (handler_run m0 v thr idx [] med log dn H) as (v' & chs & E & _ & Hu' & Ht' & _). eexists. split; [by apply Interrupt|].
      destruct (served_inv _ _ _ _ _ _ _ _ H Eu) as (b & i & _ & _ & _ & Hu & _). unfold left_all, queue, s. rewrite Hu', Ht', Hu. cbn [s_thr].
      pose proof (f_equal length Ht') as El. unfold todo in El. cbn in El. rewrite !length_app in El. rewrite !length_app. cbn [s_v s_idx length] in *. lia. }
  assert (Hq : queue s = []).
  { unfold queue, todo, used, heads, s. cbn. rewrite Ei, Eu. by rewrite !window_nil. }
  destruct (decide (map_Exists (λ _ x, t_idx x ≠ []) thr)) as [(t & x & Ht & Hx)|Hno].
  - destruct x as [|b w sec d0 i0 i1 i2]; [done|]. destruct (iv_threads _ _ H t _ Ht) as (y & Hy & Hch & _ & Hd & _). cbn in Hy.
    assert (Hdisk : db_disk (dbuf_at v b) = false).
    { unfold dbuf_at. rewrite Hy. cbn. destruct (db_disk y); [|done]. rewrite Hq in Hd. by destruct (not_elem_of_nil i0 (proj1 Hd eq_refl)). }
    eexists. split; [eapply Return; [done|done|]; apply (finish_run v b w sec i0 i1 i2); [apply (sh_zeroed _ _ Hsh)|done]|].
    unfold left_all, s. cbn [s_thr]. rewrite (left_delete thr t _ Ht). unfold queue, todo, used. cbn. lia.
  - destruct (map_choose thr Hne) as (t & x & Ht). assert (Hw : ∀ t x, thr !! t = Some x → t_idx x = []).
    { intros t' x' Hx'. destruct (decide (t_idx x' = [])); [done|]. exfalso. apply Hno. by exists t', x'. }
    destruct x as [b w sec d0|]; [|by specialize (Hw _ _ Ht)]. destruct (quiet_submit m0 v thr idx [] med log dn t b w sec d0 H Ht Hw) as (i0 & i1 & i2 & Hall & Ha).
    eexists. split; [eapply Submit; [done|done|apply submit_run]|].
    destruct (submit_queue _ _ _ _ _ _ _ _ b w sec _ _ _ H Hall (<[t := Waiting b w sec d0 i0 i1 i2]> thr)) as (Et & Eq & _).
    apply Permutation_length in Et, Eq. pose proof (left_update thr t _ (Waiting b w sec d0 i0 i1 i2) Ht) as El. cbn [left_of length] in *.
    unfold left_all. fold s in Et, Eq. rewrite Et, Eq. unfold todo in Et. rewrite !length_app in Et. unfold s in *. cbn [s_thr s_v s_idx s_acc length] in *. lia.
Qed.


(** ** The steps are those of the code *)

(** What is left to run of [virtio_disk_rw]. *)
Definition code (fuel fuel' : nat) (x : thread) : D unit :=
  match x with
  | Allocating b w sec _ =>
      idx ← rw_alloc fuel;
      match idx with
      | [i0; i1; i2] => submit b w sec i0 i1 i2;; rw_wait fuel' b;; finish i0
      | _ => halt NoFuel
      end
  | Waiting b _ _ _ i0 _ _ => rw_wait fuel' b;; finish i0
  end.

Lemma rw_code fuel b w v : virtio_disk_rw fuel b w v = code fuel fuel (Allocating b w (sector_of (db_blockno (dbuf_at v b))) (db_data (dbuf_at v b))) v.
Proof. done. Qed.

(** Between two sleeps a thread that looks for descriptors takes the step [Retry] or
    the step [Submit] ... *)
Lemma alloc_segment fuel fuel' b w sec d0 v v' r : alloc3_desc v = Ok r v' →
  code (S fuel) fuel' (Allocating b w sec d0) v =
  match r with
  | None => Switch v' (code fuel fuel' (Allocating b w sec d0))
  | Some [i0; i1; i2] => code fuel fuel' (Waiting b w sec d0 i0 i1 i2) (submitted b w sec i0 i1 i2 v')
  | Some _ => Stop NoFuel v'
  end.
Proof.
  intros E. unfold code at 1. cbn [rw_alloc]. unfold mbind, M_bind. rewrite E. cbn [obind].
  destruct r as [idx|]; [|done]. cbn. destruct idx as [|i0 [|i1 [|i2 [|]]]]; done.
Qed.

(** ... and one that waits for the device sleeps again or takes [Return]. *)
Lemma wait_segment fuel fuel' b w sec d0 i0 i1 i2 v :
  code fuel (S fuel') (Waiting b w sec d0 i0 i1 i2) v =
  if db_disk (dbuf_at v b) then Switch v (code fuel fuel' (Waiting b w sec d0 i0 i1 i2)) else finish i0 v.
Proof. unfold code. cbn [rw_wait]. unfold mbind at 1 2, M_bind, gets. cbn [obind]. by destruct (db_disk _). Qed.

(** ** A write and its interrupt *)

Definition ex_bufs : list dbuf := [mkDbuf 7 (replicate 1024 9) false].
Definition ex_m : Z → Z := λ _, 0.
Definition ex_v1 : disk := submitted 0 true 14 0 1 2 (took [0; 1; 2]%nat (ready_disk ex_bufs)).
Definition ex_s1 : sys := mkSys ex_v1 {[0%nat := Waiting 0 true 14 (replicate 1024 9) 0 1 2]} 0 [] ex_m [] [].

Lemma ex_bufs_ok : bufs_ok ex_bufs.
Proof. by repeat constructor. Qed.

Lemma ex_submit : rtc sstep (start ex_bufs ex_m) ex_s1.
Proof.
  eapply rtc_l; [apply (Call _ ∅ _ _ _ _ _ 0%nat 0%nat true (mkDbuf 7 (replicate 1024 9) false)); [by intros ? ? ?%lookup_empty_Some|done|done]|].
  eapply rtc_l; [|apply rtc_refl]. unfold ex_s1.
  assert (E : {[0%nat := Waiting 0 true 14 (replicate 1024 9) 0 1 2]} = <[0%nat := Waiting 0 true 14 (replicate 1024 9) 0 1 2]>
    (<[0%nat := Allocating 0 true 14 (replicate 1024 9)]> (∅ : gmap nat thread))) by done. rewrite E.
  eapply Submit; [apply lookup_insert_eq|by vm_compute|apply submit_run].
Qed.

Lemma virtio_disk_safe_witness : s_thr ex_s1 !! 0%nat = Some (Waiting 0 true 14 (replicate 1024 9) 0 1 2) ∧ ∃ v', finish 0 (s_v ex_s1) = Ok tt v'.
Proof.
  split; [done|]. destruct (virtio_disk_safe ex_bufs ex_m ex_s1 ex_bufs_ok ex_submit) as (_ & H & _ & _).
  apply (H 0%nat 0%nat true 14 (replicate 1024 9) 0%nat 1%nat 2%nat). done.
Defined.


Definition ex_v2 : disk := use 0 (set_info (alter (set_in_status 0) 0%nat) ex_v1).
Definition ex_v3 : disk := match virtio_disk_intr ex_v2 with Ok _ v => v | _ => ex_v2 end.
Definition ex_e : transfer := mkTr 0 true 14 (replicate 1024 9).
Definition ex_s2 : sys := mkSys (finished 0 1 2 ex_v3) ∅ 1 [] (wr ex_m 14 (replicate 1024 9)) [ex_e] [ex_e].

Lemma ex_return : rtc sstep (start ex_bufs ex_m) ex_s2.
Proof.
  etransitivity; [apply ex_submit|]. set (thr := s_thr ex_s1).
  apply (rtc_l _ _ (mkSys ex_v1 thr 1 [0%nat] ex_m [] [])); [by apply (Accept ex_v1 thr 0 [] ex_m [] [])|].
  apply (rtc_l _ _ (mkSys ex_v2 thr 1 [] (wr ex_m 14 (replicate 1024 9)) [ex_e] [])).
  { by apply (Perform ex_v1 (set_info (alter (set_in_status 0) 0%nat) ex_v1) thr 1 [] 0%nat [] ex_m _ [] [] ex_e). }
  apply (rtc_l _ _ (mkSys ex_v3 thr 1 [] (wr ex_m 14 (replicate 1024 9)) [ex_e] [])); [by apply Interrupt; vm_compute|].
  eapply rtc_l; [|apply rtc_refl].
  assert (E : ∅ = delete 0%nat ({[0%nat := Waiting 0 true 14 (replicate 1024 9) 0 1 2]} : gmap nat thread)) by done.
  unfold ex_s2. rewrite E. apply (Return ex_v3 (finished 0 1 2 ex_v3) _ 1 [] (wr ex_m 14 (replicate 1024 9)) [ex_e] [] 0 0 true 14 (replicate 1024 9) 0 1 2); by vm_compute.
Qed.

Lemma virtio_disk_correct_witness : of_buf 0 (s_log ex_s2) = [ex_e] ∧ of_buf 0 (s_done ex_s2) = [ex_e] ∧ v_free (s_v ex_s2) = replicate NUM true.
Proof.
  destruct (virtio_disk_correct ex_bufs ex_m ex_s2 ex_bufs_ok ex_return) as (H1 & _ & _ & H2).
  split_and!; [rewrite H1; [done|cbn; by intros ? ? ?%lookup_empty_Some]|done|by apply H2].
Defined.
