(* ===== verification/Grep.v ===== *)
(** src/user/grep.c: the matcher for the operators ^ . * $ and the loop that
    finds matching lines in a file read in pieces.  C strings are lists of their
    bytes without the NUL; the byte behind the end is the NUL. *)

From S2P Require Import Prelude Machine.

Module Grep.

Definition CARET : Z := 94.
Definition DOT : Z := 46.
Definition STAR : Z := 42.
Definition DOLLAR : Z := 36.
Definition NL : Z := 10.

(** ** The matcher *)

(** [matchstar(c, re, text)]; [here] is [matchhere(re, _)]. *)
Fixpoint matchstar (here : list Z → bool) (c : Z) (text : list Z) : bool :=
  if here text then true
  else match text with
       | [] => false
       | t :: text' => if (t =? c) || (c =? DOT) then matchstar here c text' else false
       end.

Fixpoint matchhere (re text : list Z) : bool :=
  match re with
  | [] => true
  | c :: re1 =>
      let rest :=
        if (c =? DOLLAR) && bool_decide (re1 = []) then bool_decide (text = [])
        else match text with
             | [] => false
             | t :: text' => if (c =? DOT) || (c =? t) then matchhere re1 text' else false
             end in
      match re1 with
      | d :: re2 => if d =? STAR then matchstar (matchhere re2) c text else rest
      | [] => rest
      end
  end.

(** The loop of [match]. *)
Fixpoint match_any (re text : list Z) : bool :=
  if matchhere re text then true
  else match text with [] => false | _ :: text' => match_any re text' end.

Definition match_ (re text : list Z) : bool :=
  match re with
  | c :: re' => if c =? CARET then matchhere re' text else match_any re text
  | [] => match_any re text
  end.

(** ** [grep] *)

(** [q = strchr(p, '\n')]: the line and what follows the newline. *)
Fixpoint next_line (p : list Z) : option (list Z * list Z) :=
  match p with
  | [] => None
  | c :: p' =>
      if c =? 0 then None
      else if c =? NL then Some ([], p')
      else match next_line p' with Some (l, r) => Some (c :: l, r) | None => None end
  end.

(** The inner loop: what is written, and the bytes left over. *)
Fixpoint grep_lines (fuel : nat) (pattern p : list Z) : list Z * list Z :=
  match fuel, next_line p with
  | S fuel', Some (l, r) =>
      let '(out, rest) := grep_lines fuel' pattern r in
      ((if match_ pattern l then l ++ [NL] else []) ++ out, rest)
  | _, _ => ([], p)
  end.

Definition BUFSIZE : Z := 1024.

Section grep.
(** [read(fd, _, n)] returns the next [rd s n] bytes of the file, if [s] is what
    is left of it. *)
Variable rd : list Z → Z → nat.

(** The outer loop: [buf] holds the bytes of a line that is not complete. *)
Fixpoint grep_loop (fuel : nat) (pattern buf s : list Z) : option (list Z) :=
  let n := rd s (BUFSIZE - length buf - 1) in
  if Z.of_nat n >? 0 then
    match fuel with
    | O => None
    | S fuel' =>
        let buf := buf ++ take n s in
        let '(out, rest) := grep_lines (length buf) pattern buf in
        (out ++.) <$> grep_loop fuel' pattern rest (drop n s)
    end
  else Some [].
Definition grep (pattern s : list Z) : option (list Z) := grep_loop (length s) pattern [] s.
End grep.

(** ** What a pattern means *)

(** A pattern character stands for itself, or for any character. *)
Definition char_ok (c d : Z) : Prop := c = DOT ∨ c = d.

Inductive item : Type := One (c : Z) | Many (c : Z).

(** The items of a pattern and whether it ends in $. *)
Fixpoint parse (re : list Z) : list item * bool :=
  match re with
  | [] => ([], false)
  | c :: re1 =>
      let one := if decide (c = DOLLAR ∧ re1 = []) then ([], true) else (One c :: (parse re1).1, (parse re1).2) in
      match re1 with
      | d :: re2 => if decide (d = STAR) then (Many c :: (parse re2).1, (parse re2).2) else one
      | [] => one
      end
  end.

(** The strings of a list of items. *)
Fixpoint lang (l : list item) (s : list Z) : Prop :=
  match l with
  | [] => s = []
  | One c :: l' => ∃ d s', s = d :: s' ∧ char_ok c d ∧ lang l' s'
  | Many c :: l' => ∃ s1 s2, s = s1 ++ s2 ∧ Forall (char_ok c) s1 ∧ lang l' s2
  end.

(** The text starts with a string of the pattern, and ends with it after $. *)
Definition starts (re text : list Z) : Prop :=
  ∃ s t, text = s ++ t ∧ lang (parse re).1 s ∧ ((parse re).2 = true → t = []).

(** The complete lines of a text, without their newlines, and the rest. *)
Fixpoint lines (s : list Z) : list (list Z) * list Z :=
  match s with
  | [] => ([], [])
  | c :: s' =>
      let '(ls, r) := lines s' in
      if c =? NL then ([] :: ls, r)
      else match ls with [] => ([], c :: r) | l :: ls' => ((c :: l) :: ls', r) end
  end.

(** ** The matcher finds what the pattern means *)

Lemma matchstar_spec here c text :
  matchstar here c text = true ↔ ∃ s t, text = s ++ t ∧ Forall (char_ok c) s ∧ here t = true.
Proof.
  induction text as [|x text IH]; cbn [matchstar]; destruct (here _) eqn:Hh.
  - split; [|done]. intros _. by exists [], [].
  - split; [done|]. intros (s & t & E & _ & Ht). symmetry in E. apply app_nil in E as [-> ->]. congruence.
  - split; [|done]. intros _. by exists [], (x :: text).
  - assert ((x =? c) || (c =? DOT) = true ↔ char_ok c x) as Hc.
    { unfold char_ok. rewrite orb_true_iff, !Z.eqb_eq. naive_solver. }
    split.
    + destruct ((x =? c) || (c =? DOT)) eqn:E; [|done]. intros (s & t & -> & Hs & Ht)%IH.
      exists (x :: s), t. split_and!; [done|constructor; [by apply Hc|done]|done].
    + intros (s & t & E & Hs & Ht). destruct s as [|y s]; cbn in E; [subst t; congruence|]. injection E as <- ->.
      inversion Hs; subst. rewrite (proj2 Hc) by done. apply IH. by exists s, t.
Qed.

Lemma starts_many c re text :
  starts (c :: STAR :: re) text ↔ ∃ s t, text = s ++ t ∧ Forall (char_ok c) s ∧ starts re t.
Proof.
  unfold starts. cbn [parse]. rewrite decide_True by done. cbn [fst snd lang]. split.
  - intros (s & t & -> & (s1 & s2 & -> & H1 & H2) & He). exists s1, (s2 ++ t). rewrite app_assoc. split_and!; [done|done|by exists s2, t].
  - intros (s1 & t1 & -> & H1 & (s2 & t & -> & H2 & He)). exists (s1 ++ s2), t. rewrite app_assoc. split_and!; [done|by exists s1, s2|done].
Qed.

Lemma starts_end text : starts [DOLLAR] text ↔ text = [].
Proof.
  unfold starts. cbn [parse]. rewrite decide_True by done. cbn. split.
  - intros (s & t & -> & -> & He). by rewrite He.
  - intros ->. by exists [], [].
Qed.

Lemma starts_one c re text : head re ≠ Some STAR → ¬ (c = DOLLAR ∧ re = []) →
  starts (c :: re) text ↔ ∃ d t, text = d :: t ∧ char_ok c d ∧ starts re t.
Proof.
  intros Hs Hd. assert (parse (c :: re) = (One c :: (parse re).1, (parse re).2)) as Hp.
  { cbn [parse]. rewrite decide_False by done. destruct re as [|d re2]; [done|]. rewrite decide_False; [done|]. by intros ->. }
  unfold starts. rewrite Hp. cbn [fst snd lang]. split.
  - intros (s & t & -> & (d & s' & -> & Hc & Hl) & He). exists d, (s' ++ t). split_and!; [done|done|by exists s', t].
  - intros (d & t' & -> & Hc & (s & t & -> & Hl & He)). exists (d :: s), t. split_and!; [done|by exists d, s|done].
Qed.

Lemma matchhere_spec re text : matchhere re text = true ↔ starts re text.
Proof.
  remember (length re) as n eqn:Hn. assert (length re ≤ n)%nat as Hle by lia. clear Hn. revert re Hle text.
  induction n as [|n IH]; intros re Hle text.
  { destruct re; [|cbn in Hle; lia]. cbn. split; [|done]. intros _. by exists [], text. }
  destruct re as [|c re]; [cbn; split; [|done]; intros _; by exists [], text|]. cbn [length] in Hle. cbn [matchhere].
  set (rest := if (c =? DOLLAR) && bool_decide (re = []) then _ else _).
  assert (head re ≠ Some STAR → rest = true ↔ starts (c :: re) text) as Hrest.
  { intros Hs. subst rest. destruct (decide (c = DOLLAR ∧ re = [])) as [[-> ->]|Hd].
    - cbn. rewrite starts_end. apply bool_decide_eq_true.
    - assert ((c =? DOLLAR) && bool_decide (re = []) = false) as ->.
      { apply not_true_iff_false. rewrite andb_true_iff, Z.eqb_eq, bool_decide_eq_true. done. }
      rewrite starts_one by done. destruct text as [|d text]; [split; [done|]; by intros (? & ? & ? & _)|].
      assert ((c =? DOT) || (c =? d) = true ↔ char_ok c d) as Hc.
      { unfold char_ok. rewrite orb_true_iff, !Z.eqb_eq. done. }
      split.
      + destruct ((c =? DOT) || (c =? d)) eqn:Eo; [|done]. intros Hm%IH; [|lia]. exists d, text. split_and!; [done|by apply Hc|done].
      + intros (d' & t & [= <- <-] & Ho & Hst). rewrite (proj2 Hc) by done. apply IH; [lia|done]. }
  destruct re as [|d re2]; [by apply Hrest|]. destruct (Z.eqb_spec d STAR) as [->|Hne].
  - rewrite matchstar_spec, starts_many. cbn [length] in Hle. split; intros (s & t & ? & ? & Ht); exists s, t; (split_and!; [done|done|]);
      apply IH in Ht; (lia || done).
  - apply Hrest. by intros [= ->].
Qed.

Lemma match_any_spec re text : match_any re text = true ↔ ∃ a b, text = a ++ b ∧ starts re b.
Proof.
  induction text as [|c text IH]; cbn [match_any]; destruct (matchhere re _) eqn:Hh.
  - split; [|done]. intros _. exists [], []. by rewrite <- matchhere_spec.
  - split; [done|]. intros (a & b & E & Hb). symmetry in E. apply app_nil in E as [-> ->]. apply matchhere_spec in Hb. congruence.
  - split; [|done]. intros _. exists [], (c :: text). by rewrite <- matchhere_spec.
  - rewrite IH. split; intros (a & b & E & Hb).
    + exists (c :: a), b. by rewrite E.
    + destruct a as [|x a]; cbn in E; [subst b; apply matchhere_spec in Hb; congruence|]. injection E as <- ->. by exists a, b.
Qed.

(** C36: [match] returns 1 exactly when the text has a part that the pattern stands
    for: characters for themselves, . for any character and x* for any number of
    x; after ^ the part is at the start of the text, before $ at its end. *)
Theorem match_correct re text :
  match_ re text = true ↔
  ∃ a s t, text = a ++ s ++ t ∧
    let '(anchored, re') := match re with c :: re' => if c =? CARET then (true, re') else (false, re) | [] => (false, []) end in
    (anchored = true → a = []) ∧ lang (parse re').1 s ∧ ((parse re').2 = true → t = []).
Proof.
  unfold match_. destruct re as [|c re']; [|destruct (c =? CARET)].
  - rewrite match_any_spec. unfold starts. split.
    + intros (a & b & -> & s & t & -> & Hs & Ht). exists a, s, t. by split_and!.
    + intros (a & s & t & -> & _ & Hs & Ht). exists a, (s ++ t). split; [done|]. by exists s, t.
  - rewrite matchhere_spec. unfold starts. split.
    + intros (s & t & -> & Hs & Ht). by exists [], s, t.
    + intros (a & s & t & -> & Ha & Hs & Ht). rewrite Ha by done. by exists s, t.
  - rewrite match_any_spec. unfold starts. split.
    + intros (a & b & -> & s & t & -> & Hs & Ht). exists a, s, t. by split_and!.
    + intros (a & s & t & -> & _ & Hs & Ht). exists a, (s ++ t). split; [done|]. by exists s, t.
Qed.

(** ** The loop finds the lines *)

Definition with_nl (ls : list (list Z)) : list Z := concat ((λ l, l ++ [NL]) <$> ls).
(** The lines of [s] that match, in order. *)
Definition grepped (pattern s : list Z) : list Z := with_nl (filter (λ l, match_ pattern l = true) (lines s).1).

Lemma lines_app a b : lines (a ++ b) = ((lines a).1 ++ (lines ((lines a).2 ++ b)).1, (lines ((lines a).2 ++ b)).2).
Proof.
  induction a as [|c a IH]; cbn; [by destruct (lines b)|]. rewrite IH. destruct (lines a) as [ls r]. cbn.
  destruct (c =? NL) eqn:Ec; [done|]. destruct ls as [|l ls]; cbn; [|done]. destruct (lines (r ++ b)) as [ls' r']. rewrite Ec. by destruct ls'.
Qed.

Lemma lines_none a : NL ∉ a → lines a = ([], a).
Proof.
  induction a as [|c a IH]; intros Hn; [done|]. apply not_elem_of_cons in Hn as [Hc Ha]. cbn. rewrite IH by done.
  by rewrite (proj2 (Z.eqb_neq c NL)).
Qed.

Lemma lines_rest a : NL ∉ (lines a).2.
Proof.
  induction a as [|c a IH]; cbn; [apply not_elem_of_nil|]. destruct (lines a) as [ls r]. cbn in IH.
  destruct (Z.eqb_spec c NL); [done|]. destruct ls; [|done]. cbn. by apply not_elem_of_cons.
Qed.

Lemma lines_rest_Forall (P : Z → Prop) a : Forall P a → Forall P (lines a).2.
Proof.
  induction a as [|c a IH]; cbn; [done|]. intros Ha. inversion Ha; subst. specialize (IH ltac:(done)).
  destruct (lines a) as [ls r]. cbn in IH. destruct (c =? NL); [done|]. destruct ls; [|done]. by constructor.
Qed.

Lemma grepped_app pattern a b : grepped pattern (a ++ b) = grepped pattern a ++ grepped pattern ((lines a).2 ++ b).
Proof. unfold grepped, with_nl. rewrite lines_app. cbn [fst]. by rewrite list.filter_app, fmap_app, concat_app. Qed.

(** The next line is the first one. *)
Lemma next_line_spec p : Forall (λ c, c ≠ 0) p →
  match next_line p with
  | Some (l, r) => p = l ++ NL :: r ∧ lines p = (l :: (lines r).1, (lines r).2)
  | None => lines p = ([], p)
  end.
Proof.
  induction p as [|c p IH]; intros Hp; [done|]. inversion Hp; subst. cbn. rewrite (proj2 (Z.eqb_neq c 0)) by done.
  specialize (IH ltac:(done)). destruct (Z.eqb_spec c NL) as [->|Hc]; [by destruct (lines p)|].
  destruct (next_line p) as [[l r]|]; [destruct IH as [-> E]; by rewrite E|]. by rewrite IH.
Qed.

Lemma grep_lines_spec pattern : ∀ (fuel : nat) p, (length p ≤ fuel)%nat → Forall (λ c, c ≠ 0) p →
  grep_lines fuel pattern p = (grepped pattern p, (lines p).2).
Proof.
  intros fuel. induction fuel as [|fuel IH]; intros p Hf Hp; pose proof (next_line_spec p Hp) as Hn.
  { destruct p; [done|cbn in Hf; lia]. }
  cbn [grep_lines]. unfold grepped. destruct (next_line p) as [[l r]|]; [|by rewrite Hn].
  destruct Hn as [-> E]. rewrite E, IH; [|rewrite length_app in Hf; cbn in Hf; lia|by apply Forall_app in Hp as [_ Hp]; inversion Hp].
  cbn [fst snd]. rewrite filter_cons. unfold grepped, with_nl. destruct (match_ pattern l) eqn:Em.
  - rewrite decide_True by done. cbn. by rewrite <- app_assoc.
  - by rewrite decide_False by done.
Qed.

(** The start of a line is no longer than the line. *)
Lemma lines_prefix a b N : NL ∉ a → Forall (λ l, length l < N)%nat (lines (a ++ b)).1 → (length (lines (a ++ b)).2 < N)%nat →
  (length a < N)%nat.
Proof.
  intros Ha Hl Hr. rewrite lines_app, lines_none in * by done. cbn in *.
  assert (match lines (a ++ b) with (l :: _, _) => length a ≤ length l | ([], r) => length a ≤ length r end)%nat as Hp.
  { clear Hl Hr. induction a as [|c a IH]; cbn; [destruct (lines b) as [[|] ?]; cbn; lia|].
    apply not_elem_of_cons in Ha as [Hc Ha]. specialize (IH Ha). destruct (lines (a ++ b)) as [[|l ls] r];
      rewrite (proj2 (Z.eqb_neq c NL)) by done; cbn; lia. }
  destruct (lines (a ++ b)) as [[|l ls] r]; cbn in *; [lia|]. inversion Hl; subst. lia.
Qed.

(** C37: For every way in which read returns the bytes of the file in pieces, [grep]
    terminates and writes exactly the lines that match, in order and complete, if
    every line fits the buffer with its newline and a NUL.  A last line without a
    newline is not written. *)
Theorem grep_correct rd pattern s :
  (∀ s n, s = [] ∨ n ≤ 0 → rd s n = 0%nat) → (∀ s n, s ≠ [] → 0 < n → 0 < rd s n ≤ Z.min n (length s)) →
  Forall (λ c, c ≠ 0) s → Forall (λ l, length l < 1023)%nat (lines s).1 → (length (lines s).2 < 1023)%nat →
  grep rd pattern s = Some (grepped pattern s).
Proof.
  intros Hrd0 Hrd Hz Hl Hr. unfold grep.
  assert (∀ (fuel : nat) buf s, (length s ≤ fuel)%nat → NL ∉ buf → Forall (λ c, c ≠ 0) (buf ++ s) →
    Forall (λ l, length l < 1023)%nat (lines (buf ++ s)).1 → (length (lines (buf ++ s)).2 < 1023)%nat →
    grep_loop rd fuel pattern buf s = Some (grepped pattern (buf ++ s))) as Hgo.
  { clear s Hz Hl Hr. intros fuel. induction fuel as [|fuel IH]; intros buf s Hf Hb Hz Hl Hr; cbn [grep_loop].
    { destruct s; [|cbn in Hf; lia]. rewrite Hrd0 by auto. cbn. rewrite app_nil_r. unfold grepped. by rewrite lines_none. }
    pose proof (lines_prefix buf s 1023 Hb Hl Hr) as Hlen.
    destruct (decide (s = [])) as [->|Hne].
    { rewrite Hrd0 by auto. cbn. rewrite app_nil_r. unfold grepped. by rewrite lines_none. }
    specialize (Hrd s (BUFSIZE - length buf - 1) Hne ltac:(unfold BUFSIZE; lia)).
    set (n := rd s (BUFSIZE - length buf - 1)) in *. rewrite Z.gtb_ltb, (proj2 (Z.ltb_lt 0 n)) by lia.
    set (a := buf ++ take n s). assert (buf ++ s = a ++ drop n s) as Es by (unfold a; by rewrite <- app_assoc, take_drop).
    rewrite Es in *. apply Forall_app in Hz as [Hza Hzs]. rewrite grep_lines_spec by done.
    rewrite grepped_app. rewrite lines_app in Hl, Hr. apply Forall_app in Hl as [_ Hl].
    rewrite (IH (lines a).2 (drop n s)); [done|rewrite length_drop; lia|apply lines_rest| |done|done].
    apply Forall_app. split; [by apply lines_rest_Forall|done]. }
  by apply (Hgo _ []); [|apply not_elem_of_nil|..].
Qed.

(** The pattern b* in the lines ab, c and bb, read two bytes at a time. *)
Lemma grep_correct_witness :
  grep (λ s n, Z.to_nat (Z.min n (Z.min 2 (length s)))) [94; 98; 42; 36] [97; 98; 10; 98; 98; 10; 99] = Some [98; 98; 10].
Proof.
  rewrite (grep_correct (λ s n, Z.to_nat (Z.min n (Z.min 2 (length s)))) [94; 98; 42; 36] [97; 98; 10; 98; 98; 10; 99]).
  - by vm_compute.
  - intros s n [->|]; cbn; lia.
  - intros s n Hs Hn. destruct s; [done|]. cbn [length]. lia.
  - by repeat constructor.
  - vm_compute. repeat constructor; lia.
  - vm_compute. lia.
Defined.
End Grep.
