(* ===== verification/Ulib.v ===== *)
(** The user library: src/user/ulib.c and src/user/printf.c.  Memory is that of the
    process; a loop over a string has fuel and gives [None] when no NUL is found.
    [write] appends to the output; [read] of one byte takes the next one of the
    input. *)

From S2P Require Import Prelude Machine Str.

Module Ulib.

(** ** ulib.c *)

(** [while(( *s++ = *t++) != 0)] *)
Fixpoint strcpy (fuel : nat) (m : memory) (s t : Z) : option memory :=
  match fuel with
  | O => None
  | S fuel' =>
      let c := ld8 m t in
      let m := st8 m s c in
      if c =? 0 then Some m else strcpy fuel' m (s + 1) (t + 1)
  end.

Fixpoint strcmp (fuel : nat) (m : memory) (p q : Z) : option Z :=
  match fuel with
  | O => None
  | S fuel' =>
      if negb (ld8 m p =? 0) && (ld8 m p =? ld8 m q) then strcmp fuel' m (p + 1) (q + 1)
      else Some (ld8 m p - ld8 m q)
  end.

Fixpoint strlen_loop (fuel : nat) (m : memory) (s n : Z) : option Z :=
  match fuel with
  | O => None
  | S fuel' => if ld8 m (s + n) =? 0 then Some n else strlen_loop fuel' m s (n + 1)
  end.
Definition strlen (fuel : nat) (m : memory) (s : Z) : option Z := strlen_loop fuel m s 0.

Definition memset (m : memory) (dst c n : Z) : memory := memset_loop (Z.to_nat n) m dst 0 c.

Fixpoint memcmp_loop (n : nat) (m : memory) (p1 p2 : Z) : Z :=
  match n with
  | O => 0
  | S n' => if negb (ld8 m p1 =? ld8 m p2) then ld8 m p1 - ld8 m p2 else memcmp_loop n' m (p1 + 1) (p2 + 1)
  end.
Definition memcmp (m : memory) (s1 s2 n : Z) : Z := memcmp_loop (Z.to_nat n) m s1 s2.

(** [for(; *s; s++) if( *s == c) return s;]: 0 when [c] does not occur. *)
Fixpoint strchr (fuel : nat) (m : memory) (s c : Z) : option Z :=
  match fuel with
  | O => None
  | S fuel' =>
      if ld8 m s =? 0 then Some 0
      else if ld8 m s =? c then Some s
      else strchr fuel' m (s + 1) c
  end.

(** The bytes read are stored from [buf + i] on; [n] is [max - 1 - i].  The result
    has the rest of the input. *)
Fixpoint gets_loop (n : nat) (m : memory) (buf : Z) (input : list Z) : memory * Z * list Z :=
  match n, input with
  | S n', c :: input' =>
      let m := st8 m buf c in
      if (u8 c =? 10) || (u8 c =? 13) then (m, buf + 1, input') else gets_loop n' m (buf + 1) input'
  | _, _ => (m, buf, input)
  end.
Definition gets (m : memory) (buf max : Z) (input : list Z) : memory * list Z :=
  let '(m, p, input) := gets_loop (Z.to_nat (max - 1)) m buf input in (st8 m p 0, input).

(** [n = n*10 + *s++ - '0'] on [int]. *)
Fixpoint atoi_loop (fuel : nat) (m : memory) (s n : Z) : option Z :=
  match fuel with
  | O => None
  | S fuel' =>
      if (48 <=? ld8 m s) && (ld8 m s <=? 57) then atoi_loop fuel' m (s + 1) (s32 (n * 10 + ld8 m s - 48))
      else Some n
  end.
Definition atoi (fuel : nat) (m : memory) (s : Z) : option Z := atoi_loop fuel m s 0.

Definition memmove (m : memory) (dst src n : Z) : memory :=
  if src >? dst then copy_up (Z.to_nat n) m dst src
  else copy_down (Z.to_nat n) m (dst + n) (src + n).
Definition memcpy (m : memory) (dst src n : Z) : memory := memmove m dst src n.

(** ** printf.c: the characters written *)

Definition DIGITS : list Z := [48; 49; 50; 51; 52; 53; 54; 55; 56; 57; 65; 66; 67; 68; 69; 70].
Definition digit (d : Z) : Z := default 0 (DIGITS !! Z.to_nat d).

(** [do buf[i++] = digits[x % base]; while((x /= base) != 0)], the last digit
    first; a [uint] has at most 32 digits. *)
Fixpoint digits_of (fuel : nat) (x base : Z) : list Z :=
  match fuel with
  | O => []
  | S fuel' => digit (x mod base) :: (if x / base =? 0 then [] else digits_of fuel' (x / base) base)
  end.

(** [xx] is an [int]: a larger argument is cut to 32 bits. *)
Definition printint (xx base : Z) (sgn : bool) : list Z :=
  let xx := s32 xx in
  let neg := sgn && (xx <? 0) in
  let x := if neg then u32 (- xx) else u32 xx in
  reverse (digits_of 32 x base ++ (if neg then [45] else [])).

Fixpoint hex_chars (n : nat) (x : Z) : list Z :=
  match n with O => [] | S n' => digit (Z.shiftr x 60) :: hex_chars n' (u64 (Z.shiftl x 4)) end.
Definition printptr (x : Z) : list Z := [48; 120] ++ hex_chars 16 x.

(** An argument: a number, or a string that may be null. *)
Inductive arg : Type := ANum (z : Z) | AStr (s : option (list Z)).
Definition NULLSTR : list Z := [40; 110; 117; 108; 108; 41].

(** [percent] is [state == '%'].  An argument that is missing or of another type
    is undefined: [None]. *)
Fixpoint vprintf (percent : bool) (fmt : list Z) (args : list arg) : option (list Z) :=
  match fmt with
  | [] => Some []
  | c :: fmt' =>
      if negb percent then
        if c =? 37 then vprintf true fmt' args
        else (λ out, c :: out) <$> vprintf false fmt' args
      else
        let num f := match args with ANum z :: args' => (λ out, f z ++ out) <$> vprintf false fmt' args' | _ => None end in
        if c =? 100 then num (λ z, printint z 10 true)
        else if c =? 108 then num (λ z, printint z 10 false)
        else if c =? 120 then num (λ z, printint z 16 false)
        else if c =? 112 then num printptr
        else if c =? 115 then
          match args with AStr s :: args' => (λ out, default NULLSTR s ++ out) <$> vprintf false fmt' args' | _ => None end
        else if c =? 99 then num (λ z, [u8 z])
        else if c =? 37 then (λ out, c :: out) <$> vprintf false fmt' args
        else (λ out, [37; c] ++ out) <$> vprintf false fmt' args
  end.

(** The bytes that go to [fd], and to standard output. *)
Definition fprintf (fmt : list Z) (args : list arg) : option (list Z) := vprintf false fmt args.

(** ** Correctness *)

(** Both versions of [memmove] in the system do the same, although they choose the
    direction of the copy differently. *)
Theorem memmove_equiv m dst src n a : 0 ≤ n → ld8 (memmove m dst src n) a = ld8 (Str.memmove m dst src n) a.
Proof.
  intros Hn. rewrite Str.ld8_memmove by done. unfold memmove. destruct (Z.gtb_spec src dst).
  - rewrite ld8_copy_up by lia. repeat case_decide; try done; lia.
  - rewrite ld8_copy_down by lia. repeat case_decide; try done; try lia. f_equal. lia.
Qed.

(** *** [atoi] and [printint] *)

Lemma atoi_step cs : ∀ (fuel : nat) m s n, ld_bytes m s (length cs) = cs → Forall (λ c, 48 ≤ c ≤ 57) cs →
  atoi_loop (length cs + fuel) m s n = atoi_loop fuel m (s + length cs) (foldl (λ n c, s32 (n * 10 + c - 48)) n cs).
Proof.
  induction cs as [|c cs IH]; intros fuel m s n Hm Hc; cbn [length Nat.add atoi_loop foldl].
  - by rewrite Z.add_0_r.
  - cbn [length ld_bytes] in Hm. injection Hm as Hh Hm. apply list.Forall_cons in Hc as [Hc Hcs]. rewrite Hh.
    rewrite (proj2 (Z.leb_le 48 c)), (proj2 (Z.leb_le c 57)) by lia. cbn [andb]. rewrite IH by done. f_equal. lia.
Qed.

Lemma digit_10 d : 0 ≤ d < 10 → digit d = 48 + d.
Proof. intros H. unfold digit. assert (d ∈ [0; 1; 2; 3; 4; 5; 6; 7; 8; 9]) as Hd by (rewrite !elem_of_cons; lia). clear H.
  repeat (apply elem_of_cons in Hd as [->|Hd]; [done|]). by apply elem_of_nil in Hd.
Qed.

Lemma digits_value (fuel : nat) : ∀ x, 0 ≤ x < 2 ^ 31 → x < 10 ^ Z.of_nat fuel →
  Forall (λ c, 48 ≤ c ≤ 57) (digits_of fuel x 10) ∧
  foldl (λ n c, s32 (n * 10 + c - 48)) 0 (reverse (digits_of fuel x 10)) = x.
Proof.
  induction fuel as [|fuel IH]; intros x Hx Hf.
  - cbn in *. split; [constructor|lia].
  - cbn [digits_of]. assert (0 ≤ x mod 10 < 10) as Hm by (apply Z.mod_pos_bound; lia). rewrite digit_10 by done.
    assert (0 ≤ x / 10 ∧ x / 10 * 10 + x mod 10 = x) as [Hd He] by (pose proof (Z.div_mod x 10); lia).
    rewrite Nat2Z.inj_succ, Z.pow_succ_r in Hf by lia.
    assert (x / 10 < 10 ^ Z.of_nat fuel) as Hd' by lia.
    destruct (Z.eqb_spec (x / 10) 0) as [E|E].
    + split; [by constructor; [lia|]|]. cbn. rewrite E in He. rewrite s32_small; lia.
    + destruct (IH (x / 10)) as [H1 H2]; [lia|done|]. split; [by constructor; [lia|]|].
      rewrite reverse_cons, foldl_app, H2. cbn. rewrite s32_small; lia.
Qed.

(** What [printf] prints for %d, [atoi] reads back, for every number that is not
    negative. *)
Theorem atoi_printint m s n : 0 ≤ n < 2 ^ 31 → let cs := printint n 10 true in
  ld_bytes m s (length cs) = cs → ¬ 48 ≤ ld8 m (s + length cs) ≤ 57 → atoi (S (length cs)) m s = Some n.
Proof.
  intros Hn cs Hm He. assert (cs = reverse (digits_of 32 n 10)) as E.
  { unfold cs, printint. rewrite s32_small by lia. rewrite (proj2 (Z.ltb_ge n 0)) by lia. cbn [andb]. by rewrite u32_small, app_nil_r by lia. }
  destruct (digits_value 32 n Hn) as [H1 H2]; [change (Z.of_nat 32) with 32; lia|].
  unfold atoi. rewrite <- Nat.add_1_r, (atoi_step cs); [|done|rewrite E; by apply Forall_reverse].
  rewrite E at 2. rewrite H2. cbn [atoi_loop]. destruct (Z.leb_spec 48 (ld8 m (s + length cs))), (Z.leb_spec (ld8 m (s + length cs)) 57); cbn [andb]; (done || lia).
Qed.

(** *** [gets] *)

(** The line that is read: up to and with the first newline or return, or [n]
    bytes. *)
Fixpoint line_of (n : nat) (input : list Z) : list Z :=
  match n, input with
  | S n', c :: input' => c :: (if (c =? 10) || (c =? 13) then [] else line_of n' input')
  | _, _ => []
  end.

Lemma gets_loop_line n : ∀ m buf input, Forall (λ c, 0 ≤ c < 256) input → let l := line_of n input in
  gets_loop n m buf input = (st_bytes m buf l, buf + length l, drop (length l) input) ∧ (length l ≤ n)%nat ∧ l = take (length l) input.
Proof.
  induction n as [|n IH]; intros m buf input Hi; [cbn; by rewrite Z.add_0_r|].
  destruct Hi as [|c input Hc Hi]; cbn [gets_loop line_of]; [cbn; rewrite Z.add_0_r; split_and!; [done|lia|done]|].
  rewrite u8_small by done. destruct ((c =? 10) || (c =? 13)); [cbn; split_and!; [done|lia|done]|].
  destruct (IH (st8 m buf c) (buf + 1) input Hi) as (E & H1 & H2). rewrite E. cbn [st_bytes length drop take].
  split_and!; [|lia|by rewrite <- H2]. do 2 f_equal. lia.
Qed.

Lemma gets_run m buf max input : 0 < max → Forall (λ c, 0 ≤ c < 256) input →
  let l := line_of (Z.to_nat (max - 1)) input in
  ∃ m', gets m buf max input = (m', drop (length l) input) ∧ l = take (length l) input ∧
    ld_bytes m' buf (S (length l)) = l ++ [0] ∧ ∀ a, ¬ buf ≤ a < buf + max → ld8 m' a = ld8 m a.
Proof.
  intros Hmax Hi l. destruct (gets_loop_line (Z.to_nat (max - 1)) m buf input Hi) as (E & Hlen & Ht). fold l in E, Hlen, Ht.
  exists (st8 (st_bytes m buf l) (buf + length l) 0). unfold gets. rewrite E. split_and!; [done|done|..].
  - apply list_eq. intros i. destruct (decide (i < S (length l))%nat) as [Hlt|Hge].
    + rewrite lookup_ld_bytes, ld8_st8 by done. case_decide as D.
      * assert (i = length l) as -> by lia. by rewrite lookup_app_r, Nat.sub_diag by lia.
      * rewrite lookup_app_l, ld8_st_bytes by lia. replace (Z.to_nat (buf + i - buf)) with i by lia.
        destruct (lookup_lt_is_Some_2 l i) as [c Hc]; [lia|]. rewrite Hc, decide_True by lia.
        rewrite Ht in Hc. apply lookup_take_Some in Hc as [Hc _]. by rewrite u8_small by (by eapply (list.Forall_lookup_1 _ _ _ _ Hi)).
    + rewrite !lookup_ge_None_2; [done|rewrite length_app; cbn; lia|rewrite length_ld_bytes; lia].
  - intros a Ha. rewrite ld8_st8, decide_False by lia. apply ld8_st_bytes_out. lia.
Qed.

Lemma gets_line m buf max input : 0 < max → Forall (λ c, 0 ≤ c < 256) input →
  let l := line_of (Z.to_nat (max - 1)) input in
  ∃ m', gets m buf max input = (m', drop (length l) input) ∧ ld_bytes m' buf (S (length l)) = l ++ [0].
Proof. intros H1 H2 l. destruct (gets_run m buf max input H1 H2) as (m' & E & _ & Hm & _). by exists m'. Qed.

(** [gets] stores the next line of the input with its newline, cut to [max - 1]
    bytes, and a NUL; it writes no byte outside the buffer and leaves the rest of
    the input. *)
Theorem gets_correct m buf max input : 0 < max → Forall (λ c, 0 ≤ c < 256) input →
  let l := line_of (Z.to_nat (max - 1)) input in
  ∃ m', gets m buf max input = (m', drop (length l) input) ∧ l = take (length l) input ∧
    ld_bytes m' buf (S (length l)) = l ++ [0] ∧ ∀ a, ¬ buf ≤ a < buf + max → ld8 m' a = ld8 m a.
Proof. apply gets_run. Qed.

(** ** The theorems at work *)

Lemma memmove_equiv_witness : ld8 (memmove (st_bytes ∅ 10 [1; 2; 3]) 11 10 3) 12 = ld8 (Str.memmove (st_bytes ∅ 10 [1; 2; 3]) 11 10 3) 12.
Proof. apply memmove_equiv. lia. Defined.

Lemma atoi_printint_witness : atoi 4 (st_bytes ∅ 100 [51; 48; 55; 0]) 100 = Some 307.
Proof. apply (atoi_printint _ 100 307); [lia|by vm_compute|]. vm_compute. intros [H _]. by apply H. Defined.

Lemma gets_correct_witness : ∃ m', gets ∅ 0 8 [108; 115; 10; 99] = (m', [99]) ∧ ld_bytes m' 0 4 = [108; 115; 10; 0].
Proof.
  destruct (gets_correct ∅ 0 8 [108; 115; 10; 99]) as (m' & E & _ & H & _); [lia|by repeat constructor|]. exists m'. exact (conj E H).
Defined.
End Ulib.
