(* ===== verification/Sh.v ===== *)
(** The shell: src/user/sh.c.  The line is a list of bytes without a NUL and a
    pointer into it is an index; behind the last byte is the NUL, at [es].  The
    parser runs in the monad of the development with the pointer [*ps] as its
    state; [panic] stops it.  The nodes of the command tree are values; malloc is
    assumed to find memory for them. *)

From S2P Require Import Prelude Machine Str Types Vma Ulib.

Module Sh.

(** ** Command trees *)

(** A string of the line: its first byte and the one behind its last. *)
Definition tok : Type := nat * nat.

Inductive cmd : Type :=
  | EXEC (argv : list tok)
  | REDIR (c : cmd) (file : tok) (mode fd : Z)
  | PIPE (left right : cmd)
  | LIST (left right : cmd)
  | BACK (c : cmd).

Definition MAXARGS : nat := 10.

(** [cmd->argv[argc] = q; cmd->eargv[argc] = eq]: the redirections of a simple
    command are wrapped around its node while its arguments are still read. *)
Fixpoint add_arg (t : tok) (c : cmd) : cmd :=
  match c with
  | EXEC argv => EXEC (argv ++ [t])
  | REDIR c f m d => REDIR (add_arg t c) f m d
  | _ => c
  end.

(** ** Characters *)

Definition whitespace : list Z := [32; 9; 13; 10; 11].
Definition symbols : list Z := [60; 124; 62; 38; 59; 40; 41].
(** [strchr(s, c) != 0] *)
Definition strchr (s : list Z) (c : Z) : bool := existsb (Z.eqb c) s.

Definition BAR : Z := 124.
Definition LPAR : Z := 40.
Definition RPAR : Z := 41.
Definition SEMI : Z := 59.
Definition AMP : Z := 38.
Definition LT : Z := 60.
Definition GT : Z := 62.
(** The kinds of tokens that are not a character of the line: >> and words. *)
Definition PLUS : Z := 43.
Definition WORD : Z := 97.

Definition is_space (c : Z) : bool := strchr whitespace c.
Definition is_word (c : Z) : bool := negb (is_space c) && negb (strchr symbols c).

(** ** Parsing *)

Section parse.
Variable buf : list Z.

Definition es : nat := length buf.
Definition at_ (s : nat) : Z := default 0 (buf !! s).

(** [while(s < es && p( *s)) s++], with [n] = es - s *)
Fixpoint skip (p : Z → bool) (n s : nat) : nat :=
  match n with
  | O => s
  | S n' => if p (at_ s) then skip p n' (S s) else s
  end.
Definition while_in (p : Z → bool) (s : nat) : nat := skip p (es - s) s.

Definition P (A : Type) : Type := M nat A.

(** The kind of the token, and its place. *)
Definition gettoken : P (Z * tok) :=
  s ← gets id;
  let q := while_in is_space s in
  let c := at_ q in
  let '(ret, eq) :=
    if c =? 0 then (0, q)
    else if strchr [BAR; LPAR; RPAR; SEMI; AMP; LT] c then (c, S q)
    else if c =? GT then if at_ (S q) =? GT then (PLUS, S (S q)) else (GT, S q)
    else (WORD, while_in is_word q) in
  modify (λ _, while_in is_space eq);;
  mret (ret, (q, eq)).

Definition peek (toks : list Z) : P bool :=
  s ← gets id;
  let s := while_in is_space s in
  modify (λ _, s);;
  mret (negb (at_ s =? 0) && strchr toks (at_ s)).

Definition redir_of (k : Z) (c : cmd) (f : tok) : cmd :=
  if k =? LT then REDIR c f O_RDONLY 0
  else if k =? GT then REDIR c f (Z.lor (Z.lor O_WRONLY O_CREATE) O_TRUNC) 1
  else if k =? PLUS then REDIR c f (Z.lor O_WRONLY O_CREATE) 1
  else c.

(** The loops take at least one character of the line in each iteration, so the
    length of the line is enough fuel. *)
Fixpoint parseredirs_loop (fuel : nat) (c : cmd) : P cmd :=
  b ← peek [LT; GT];
  if (b : bool) then
    match fuel with
    | O => halt NoFuel
    | S fuel' =>
        t ← gettoken;
        f ← gettoken;
        if negb (f.1 =? WORD) then panic "missing file for redirection"
        else parseredirs_loop fuel' (redir_of t.1 c f.2)
    end
  else mret c.
Definition parseredirs (c : cmd) : P cmd := parseredirs_loop es c.

Fixpoint parseargs (fuel argc : nat) (ret : cmd) : P cmd :=
  b ← peek [BAR; RPAR; AMP; SEMI];
  if (b : bool) then mret ret
  else
    t ← gettoken;
    if t.1 =? 0 then mret ret
    else if negb (t.1 =? WORD) then panic "syntax"
    else if (MAXARGS <=? S argc)%nat then panic "too many args"
    else
      match fuel with
      | O => halt NoFuel
      | S fuel' => ret ← parseredirs (add_arg t.2 ret); parseargs fuel' (S argc) ret
      end.

Fixpoint parsebacks (fuel : nat) (c : cmd) : P cmd :=
  b ← peek [AMP];
  if (b : bool) then
    match fuel with O => halt NoFuel | S fuel' => gettoken;; parsebacks fuel' (BACK c) end
  else mret c.

(** Four calls for every character are enough: see [parse_safe] in [ShSpec]. *)
Fixpoint parseline (fuel : nat) : P cmd :=
  match fuel with
  | O => halt NoFuel
  | S fuel' =>
      c ← parsepipe fuel';
      c ← parsebacks es c;
      b ← peek [SEMI];
      if (b : bool) then gettoken;; c' ← parseline fuel'; mret (LIST c c')
      else mret c
  end
with parsepipe (fuel : nat) : P cmd :=
  match fuel with
  | O => halt NoFuel
  | S fuel' =>
      c ← parseexec fuel';
      b ← peek [BAR];
      if (b : bool) then gettoken;; c' ← parsepipe fuel'; mret (PIPE c c')
      else mret c
  end
with parseexec (fuel : nat) : P cmd :=
  match fuel with
  | O => halt NoFuel
  | S fuel' =>
      b ← peek [LPAR];
      if (b : bool) then parseblock fuel'
      else ret ← parseredirs (EXEC []); parseargs es 0 ret
  end
with parseblock (fuel : nat) : P cmd :=
  match fuel with
  | O => halt NoFuel
  | S fuel' =>
      b ← peek [LPAR];
      if negb b then panic "parseblock"
      else
        gettoken;;
        c ← parseline fuel';
        b ← peek [RPAR];
        if negb b then panic "syntax - missing )"
        else gettoken;; c ← parseredirs c; mret c
  end.

(** [nulterminate] writes the line. *)
Fixpoint nulterminate (c : cmd) (b : list Z) : list Z :=
  match c with
  | EXEC argv => foldl (λ b t, <[t.2 := 0]> b) b argv
  | REDIR c f _ _ => <[f.2 := 0]> (nulterminate c b)
  | PIPE l r | LIST l r => nulterminate r (nulterminate l b)
  | BACK c => nulterminate c b
  end.

(** The tree, and the line with its NUL. *)
Definition parsecmd : outcome nat (cmd * list Z) :=
  (c ← parseline (4 * S es);
   peek [];;
   s ← gets id;
   if negb (s =? es)%nat then panic "syntax"
   else mret (c, nulterminate c (buf ++ [0]))) 0%nat.
End parse.

(** ** Running a command *)

(** What a file descriptor of a process refers to: something it inherited, a
    file it opened, or an end of a pipe. *)
Inductive fobj : Type :=
  | Inherited (n : nat)
  | Opened (file : list Z) (mode : Z)
  | PipeR (n : nat)
  | PipeW (n : nat).

(** The open descriptors of a process.  [open], [dup] and [pipe] take the lowest
    free ones ([fdalloc] in src/kernel/sysfile.c). *)
Abbreviation fds := (list (option fobj)).
Definition fd_close (fd : nat) (t : fds) : fds := <[fd := None]> t.
Definition fd_alloc (o : fobj) (t : fds) : option (nat * fds) :=
  match list_find (λ x, x = None) t with
  | Some (i, _) => Some (i, <[i := Some o]> t)
  | None => None
  end.
(** [dup(fd)], its result ignored. *)
Definition fd_dup (fd : nat) (t : fds) : fds :=
  match t !! fd with
  | Some (Some o) => match fd_alloc o t with Some (_, t') => t' | None => t end
  | _ => t
  end.

(** What a process goes on to do. *)
Inductive run : Type :=
  | Exit (status : Z)
  (** [exec] succeeds: the program runs with these descriptors. *)
  | Exec (argv : list (list Z)) (t : fds)
  (** The child and the parent of a [fork]. *)
  | Fork (child parent : run)
  | Wait (k : run).

(** How the system calls that can fail turn out: [exec] and [open] depending on
    the file, [pipe] and the i-th [fork] depending on the node of the command tree
    that makes the call.  The nodes are numbered: below [n] are [2 * n + 1] and
    [2 * n + 2]. *)
Class Sys := {
  exec_ok : list Z → bool;
  open_ok : list Z → Z → bool;
  fork_ok : nat → nat → bool;
  pipe_ok : nat → bool }.

Section run.
Context `{S : Sys}.
(** The line after [nulterminate]. *)
Variable b : list Z.

Definition str (t : tok) : list Z := cstr_of (drop t.1 b).

(** The i-th [fork1] of the node. *)
Definition fork1 (n i : nat) (child parent : run) : run :=
  if fork_ok n i then Fork child parent else Exit 1.

(** [p[0]] and [p[1]] *)
Definition sys_pipe (n : nat) (t : fds) : option (nat * nat * fds) :=
  if pipe_ok n then
    match fd_alloc (PipeR n) t with
    | Some (p0, t) => match fd_alloc (PipeW n) t with Some (p1, t) => Some (p0, p1, t) | None => None end
    | None => None
    end
  else None.

(** [n] is the number of the node. *)
Fixpoint runcmd (c : cmd) (t : fds) (n : nat) : run :=
  match c with
  | EXEC argv =>
      match argv with
      | [] => Exit 1
      | a :: _ => if exec_ok (str a) then Exec (str <$> argv) t else Exit 0
      end
  | REDIR c f mode fd =>
      let t := fd_close (Z.to_nat fd) t in
      if open_ok (str f) mode then
        match fd_alloc (Opened (str f) mode) t with
        | Some (_, t) => runcmd c t n
        | None => Exit 1
        end
      else Exit 1
  | LIST l r => fork1 n 0 (runcmd l t (2 * n + 1)) (Wait (runcmd r t (2 * n + 2)))
  | PIPE l r =>
      match sys_pipe n t with
      | None => Exit 1
      | Some (p0, p1, t) =>
          fork1 n 0
            (runcmd l (fd_close p1 (fd_close p0 (fd_dup p1 (fd_close 1 t)))) (2 * n + 1))
            (fork1 n 1
               (runcmd r (fd_close p1 (fd_close p0 (fd_dup p0 (fd_close 0 t)))) (2 * n + 2))
               (Wait (Wait (Exit 0))))
      end
  | BACK c => fork1 n 0 (runcmd c t (2 * n + 1)) (Exit 0)
  end.
End run.

(** ** The loop of the shell *)

(** The memory, the rest of the input and the result. *)
Definition getcmd (m : memory) (buf nbuf : Z) (input : list Z) : memory * list Z * Z :=
  let m := Ulib.memset m buf 0 nbuf in
  let '(m, input) := Ulib.gets m buf nbuf input in
  (m, input, if ld8 m buf =? 0 then -1 else 0).

(** What the shell does with a line: [chdir], or a child that runs the parsed
    command and is waited for. *)
Inductive action : Type := Chdir (path : list Z) | Command (line : list Z).

Definition LINESIZE : Z := 100.

(** [buf] is the address of the line; an iteration reads at least one byte of the
    input. *)
Fixpoint main_loop (fuel : nat) (m : memory) (buf : Z) (input : list Z) : option (list action) :=
  let '(m, input, r) := getcmd m buf LINESIZE input in
  if r >=? 0 then
    match fuel with
    | O => None
    | S fuel' =>
        if (ld8 m buf =? 99) && (ld8 m (buf + 1) =? 100) && (ld8 m (buf + 2) =? 32) then
          match Ulib.strlen (Z.to_nat LINESIZE) m buf with
          | None => None
          | Some n =>
              let m := st8 m (buf + n - 1) 0 in
              (λ l, Chdir (cstr (Z.to_nat LINESIZE) m (buf + 3)) :: l) <$> main_loop fuel' m buf input
          end
        else (λ l, Command (cstr (Z.to_nat LINESIZE) m buf) :: l) <$> main_loop fuel' m buf input
    end
  else Some [].
End Sh.
