(* ===== verification/ShSpec.v ===== *)
(** Correctness of the shell: the parser terminates on every line, the strings of
    the command tree are the words of the line also after [nulterminate] has
    written NULs into it, every command tree can be written as a line, and the
    processes of a pipeline are connected by pipes and hold no other end of them. *)

From S2P Require Import Prelude Machine Str Types Vma Ulib Sh.
Import Sh.

(** ** Termination and the shape of the tokens *)

(** The parser returns a result in [Q], or it panics; it never runs out of fuel. *)
Definition safe {A} (o : outcome nat A) (Q : A → nat → Prop) : Prop :=
  match o with
  | Ok a s => Q a s
  | Stop (Panics _) _ => True
  | _ => False
  end.

Lemma safe_bind {A B} (m : P A) (f : A → P B) s Q R :
  safe (m s) Q → (∀ a s', Q a s' → safe (f a s') R) → safe ((m ≫= f) s) R.
Proof. unfold mbind, M_bind. destruct (m s) as [a s'|[]|]; cbn; auto. Qed.

Lemma safe_mono {A} (o : outcome nat A) (Q R : A → nat → Prop) : safe o Q → (∀ a s, Q a s → R a s) → safe o R.
Proof. destruct o as [a s|[]|]; cbn; auto. Qed.

(** The strings of a command tree. *)
Fixpoint tokens (c : cmd) : list tok :=
  match c with
  | EXEC argv => argv
  | REDIR c f _ _ => tokens c ++ [f]
  | PIPE l r | LIST l r => tokens l ++ tokens r
  | BACK c => tokens c
  end.

(** The redirections that the parser makes. *)
Fixpoint redirs_std (c : cmd) : Prop :=
  match c with
  | EXEC _ => True
  | REDIR c _ _ fd => (fd = 0 ∨ fd = 1) ∧ redirs_std c
  | PIPE l r | LIST l r => redirs_std l ∧ redirs_std r
  | BACK c => redirs_std c
  end.

Section parse.
Variable buf : list Z.
Hypothesis no_nul : Forall (λ c, c ≠ 0) buf.

Abbreviation es := (es buf).
Abbreviation at_ := (at_ buf).

Lemma at_nul s : at_ s = 0 ↔ (es ≤ s)%nat.
Proof.
  unfold Sh.at_, Sh.es. destruct (buf !! s) as [c|] eqn:E; cbn.
  - pose proof (list.Forall_lookup_1 _ _ _ _ no_nul E). apply lookup_lt_Some in E. split; [done|lia].
  - apply lookup_ge_None in E. done.
Qed.

Lemma skip_spec p n s : (s + n = es)%nat → let w := skip buf p n s in
  (s ≤ w ≤ es)%nat ∧ (∀ i, (s ≤ i < w)%nat → p (at_ i) = true) ∧ ((w < es)%nat → p (at_ w) = false).
Proof.
  revert s. induction n as [|n IH]; intros s Hs; cbn; [split_and!; intros; lia|].
  destruct (p (at_ s)) eqn:E; [|split_and!; intros; (done || lia)].
  destruct (IH (S s)) as (H1 & H2 & H3); [lia|]. split_and!; [lia|lia| |done].
  intros i Hi. destruct (decide (i = s)) as [->|]; [done|]. apply H2. lia.
Qed.

Lemma while_in_spec p s : (s ≤ es)%nat → let w := while_in buf p s in
  (s ≤ w ≤ es)%nat ∧ (∀ i, (s ≤ i < w)%nat → p (at_ i) = true) ∧ ((w < es)%nat → p (at_ w) = false).
Proof. intros H. apply skip_spec. lia. Qed.

Lemma while_in_stop p s : p (at_ s) = false → while_in buf p s = s.
Proof. intros H. unfold while_in. destruct (es - s)%nat; cbn; [done|by rewrite H]. Qed.

(** A word of the line, up to its end. *)
Definition tok_ok (t : tok) : Prop :=
  (t.1 < t.2 ≤ es)%nat ∧ (∀ i, (t.1 ≤ i < t.2)%nat → is_word (at_ i) = true) ∧
  ((t.2 < es)%nat → is_word (at_ t.2) = false).

(** At a character that is not a space, or at the end. *)
Definition ready (s : nat) : Prop := (s ≤ es)%nat ∧ ((s < es)%nat → is_space (at_ s) = false).

Lemma ready_skip s : (s ≤ es)%nat → ready (while_in buf is_space s) ∧ (s ≤ while_in buf is_space s)%nat.
Proof. intros H. destruct (while_in_spec is_space s H) as (H1 & _ & H3). split; [split; [lia|done]|lia]. Qed.

Lemma gettoken_safe s : (s ≤ es)%nat →
  safe (gettoken buf s) (λ r s', (s ≤ s')%nat ∧ ready s' ∧ (ready s → (s < es)%nat → (s < s')%nat) ∧
    (r.1 = 0 → s' = es) ∧ (r.1 ≠ 0 → (s < s')%nat) ∧ (r.1 = WORD → tok_ok r.2)).
Proof.
  intros Hs. unfold gettoken. unfold mbind, M_bind, gets, id. cbn [obind].
  destruct (ready_skip s Hs) as [Hq Hsq]. set (q := while_in buf is_space s) in *.
  assert (ready s → (s < es)%nat → q = s) as Hqs.
  { intros [_ R] Hlt. unfold q. apply while_in_stop. by apply R. }
  destruct (Z.eqb_spec (at_ q) 0) as [Hz|Hz].
  { apply at_nul in Hz. destruct Hq as [Hqe _]. assert (q = es) as E by lia. cbn.
    destruct (ready_skip q Hqe) as [R1 R2]. rewrite E in *. destruct R1 as [R1 R1']. split_and!; try done; lia. }
  assert (q < es)%nat as Hlt by (destruct (decide (q < es)%nat); [done|]; destruct Hz; apply at_nul; lia).
  assert (∀ k e, (q < e ≤ es)%nat → k ≠ 0 → (k = WORD → tok_ok (q, e)) →
    safe (Ok (k, (q, e)) (while_in buf is_space e)) (λ (r : Z * tok) s', (s ≤ s')%nat ∧ ready s' ∧
      (ready s → (s < es)%nat → (s < s')%nat) ∧ (r.1 = 0 → s' = es) ∧ (r.1 ≠ 0 → (s < s')%nat) ∧ (r.1 = WORD → tok_ok r.2))) as Hk.
  { intros k e He Hk0 Hk. cbn. destruct (ready_skip e) as [R1 R2]; [lia|]. split_and!; try done; try (intros; lia). }
  destruct (strchr [BAR; LPAR; RPAR; SEMI; AMP; LT] (at_ q)) eqn:Hsym.
  { apply Hk; [lia|done|]. intros E. rewrite E in Hsym. done. }
  destruct (Z.eqb_spec (at_ q) GT) as [Hg|Hg].
  { destruct (Z.eqb_spec (at_ (S q)) GT) as [Hg'|]; apply Hk; try done; try lia.
    destruct (decide (S q < es)%nat); [lia|]. assert (at_ (S q) = 0) as E by (apply at_nul; lia). rewrite E in Hg'. done. }
  assert (is_word (at_ q) = true) as Hw.
  { unfold is_word. rewrite (proj2 Hq Hlt). cbn [negb andb]. apply negb_true_iff.
    destruct (strchr symbols (at_ q)) eqn:E; [|done]. unfold strchr, symbols, existsb in E. unfold strchr, existsb, BAR, LPAR, RPAR, SEMI, AMP, LT, GT in *.
    rewrite !orb_true_iff, !Z.eqb_eq in E. rewrite !orb_false_iff, !Z.eqb_neq in Hsym. lia. }
  destruct (while_in_spec is_word q (proj1 Hq)) as (W1 & W2 & W3). set (e := while_in buf is_word q) in *.
  assert (q < e)%nat.
  { destruct (decide (e = q)) as [E|]; [|lia]. rewrite E in W3. rewrite W3 in Hw by lia. done. }
  apply Hk; [lia|done|]. intros _. split_and!; cbn; [lia|lia|done|done].
Qed.

Lemma peek_safe toks s : (s ≤ es)%nat →
  safe (peek buf toks s) (λ b s', (s ≤ s')%nat ∧ ready s' ∧ b = negb (at_ s' =? 0) && strchr toks (at_ s') ∧
    (b = true → (s' < es)%nat)).
Proof.
  intros Hs. cbn. destruct (ready_skip s Hs) as [Hq Hsq]. split_and!; try done.
  intros Hb. apply andb_true_iff in Hb as [Hb _]. apply negb_true_iff, Z.eqb_neq in Hb. rewrite at_nul in Hb. lia.
Qed.

(** From [s] the parser goes on to a later place, with a tree of words. *)
Definition cmd_ok (c : cmd) : Prop := Forall tok_ok (tokens c) ∧ redirs_std c.
Definition parsed (s : nat) (c : cmd) (s' : nat) : Prop := (s ≤ s' ≤ es)%nat ∧ cmd_ok c.

Lemma cmd_ok_add_arg t c : cmd_ok c → tok_ok t → cmd_ok (add_arg t c).
Proof.
  intros H Ht. induction c as [argv|c IH f m d| | |]; try done; destruct H as [H1 H2]; split; cbn in *; try done.
  - apply Forall_app. split; [done|by apply Forall_singleton].
  - apply Forall_app in H1 as [H1 H3]. apply Forall_app. split; [|done]. exact (proj1 (IH (conj H1 (proj2 H2)))).
  - split; [apply H2|]. apply Forall_app in H1 as [H1 H3]. exact (proj2 (IH (conj H1 (proj2 H2)))).
Qed.

Lemma cmd_ok_redir k c f : cmd_ok c → tok_ok f → cmd_ok (redir_of k c f).
Proof.
  intros [H1 H2] Hf. unfold redir_of. repeat case_match; try done;
    (split; cbn; [apply Forall_app; split; [done|by apply Forall_singleton]|split; [lia|done]]).
Qed.

Lemma cmd_ok_two l r : cmd_ok l → cmd_ok r → cmd_ok (PIPE l r) ∧ cmd_ok (LIST l r).
Proof. intros [H1 H2] [H3 H4]. by repeat split; try apply Forall_app. Qed.

Lemma parseredirs_safe fuel c s : (s ≤ es)%nat → (es - s ≤ fuel)%nat → cmd_ok c →
  safe (parseredirs_loop buf fuel c s) (parsed s).
Proof.
  revert c s. induction fuel as [|fuel IH]; intros c s Hs Hf Hc; cbn [parseredirs_loop].
  all: eapply safe_bind; [by apply peek_safe|]; intros b s1 (H1 & R1 & _ & H2); destruct b; [|cbn; by destruct R1; split; [lia|]].
  - specialize (H2 eq_refl). lia.
  - specialize (H2 eq_refl). eapply safe_bind; [apply gettoken_safe, R1|]. intros t s2 (H3 & R2 & H4 & _). specialize (H4 R1 H2).
    eapply safe_bind; [apply gettoken_safe, R2|]. intros f s3 (H5 & R3 & _ & _ & _ & H6).
    destruct (Z.eqb_spec f.1 WORD) as [Ew|]; cbn [negb]; [|done].
    destruct R3 as [R3 _]. eapply safe_mono; [apply IH; [done|lia|]|].
    + apply cmd_ok_redir; [done|by apply H6].
    + intros c' s' [? ?]. split; [lia|done].
Qed.

Lemma parseargs_safe fuel argc c s : (s ≤ es)%nat → (es - s ≤ fuel)%nat → cmd_ok c →
  safe (parseargs buf fuel argc c s) (parsed s).
Proof.
  revert argc c s. induction fuel as [|fuel IH]; intros argc c s Hs Hf Hc; cbn [parseargs].
  all: eapply safe_bind; [by apply peek_safe|]; intros b s1 (H1 & R1 & _ & _); destruct b; [by destruct R1; split; [lia|]|].
  all: eapply safe_bind; [apply gettoken_safe, R1|]; intros t s2 (H3 & R2 & _ & H0 & H4 & H6).
  all: destruct (Z.eqb_spec t.1 0) as [E0|E0]; [specialize (H0 E0); split; [lia|done]|]; specialize (H4 E0); destruct R2 as [R2 _].
  all: destruct (Z.eqb_spec t.1 WORD) as [Ew|]; cbn [negb]; [|done]; specialize (H6 Ew); case_match; [done|].
  - lia.
  - eapply safe_bind; [apply parseredirs_safe; [done|lia|by apply cmd_ok_add_arg]|]. intros c' s3 [H7 Hc'].
    eapply safe_mono; [apply IH; [lia|lia|done]|]. intros c2 s4 [? ?]. split; [lia|done].
Qed.

Lemma parsebacks_safe fuel c s : (s ≤ es)%nat → (es - s ≤ fuel)%nat → cmd_ok c →
  safe (parsebacks buf fuel c s) (parsed s).
Proof.
  revert c s. induction fuel as [|fuel IH]; intros c s Hs Hf Hc; cbn [parsebacks].
  all: eapply safe_bind; [by apply peek_safe|]; intros b s1 (H1 & R1 & _ & H2); destruct b; [|cbn; by destruct R1; split; [lia|]].
  all: specialize (H2 eq_refl).
  { lia. }
  eapply safe_bind; [apply gettoken_safe, R1|].
  intros t s2 (H3 & [R2 _] & H4 & _). specialize (H4 R1 H2).
  eapply safe_mono; [apply IH; [done|lia|done]|]. intros c' s' [? ?]. split; [lia|done].
Qed.

(** After a token that [peek] has seen. *)
Lemma token_safe {A} (f : Z * tok → P A) s Q : ready s → (s < es)%nat →
  (∀ t s', (s < s')%nat → (s' ≤ es)%nat → safe (f t s') Q) → safe ((gettoken buf ≫= f) s) Q.
Proof.
  intros R Hs H. eapply safe_bind; [apply gettoken_safe, R|]. intros t s2 (_ & [R2 _] & H4 & _). apply H; auto.
Qed.

(** The four levels of the grammar, with the fuel each of them needs. *)
Lemma parse_safe fuel s : (s ≤ es)%nat → let n := (4 * (es - s))%nat in
  ((n + 4 ≤ fuel)%nat → safe (parseline buf fuel s) (parsed s)) ∧
  ((n + 3 ≤ fuel)%nat → safe (parsepipe buf fuel s) (parsed s)) ∧
  ((n + 2 ≤ fuel)%nat → safe (parseexec buf fuel s) (parsed s)) ∧
  ((n + 1 ≤ fuel)%nat → safe (parseblock buf fuel s) (parsed s)).
Proof.
  revert s. induction fuel as [|fuel IH]; intros s Hs n; [split_and!; intros; lia|].
  destruct (IH s Hs) as (_ & IHp & IHe & IHb). cbn [parseline parsepipe parseexec parseblock]. split_and!; intros Hf.
  - eapply safe_bind; [apply IHp; lia|]. intros c s1 [H1 T1].
    eapply safe_bind; [apply parsebacks_safe; [lia|lia|done]|]. intros c2 s2 [H2 T2].
    eapply safe_bind; [apply peek_safe; lia|]. intros b s3 (H3 & R3 & _ & Hb). destruct b; [|destruct R3; split; [lia|done]].
    apply token_safe; [done|by apply Hb|]. intros _ s4 H4 H4'. destruct (IH s4 H4') as (IHl & _).
    eapply safe_bind; [apply IHl; lia|]. intros c5 s5 [H5 T5]. split; [lia|]. by apply cmd_ok_two.
  - eapply safe_bind; [apply IHe; lia|]. intros c s1 [H1 T1].
    eapply safe_bind; [apply peek_safe; lia|]. intros b s3 (H3 & R3 & _ & Hb). destruct b; [|destruct R3; split; [lia|done]].
    apply token_safe; [done|by apply Hb|]. intros _ s4 H4 H4'. destruct (IH s4 H4') as (_ & IHp' & _).
    eapply safe_bind; [apply IHp'; lia|]. intros c5 s5 [H5 T5]. split; [lia|]. by apply cmd_ok_two.
  - eapply safe_bind; [by apply peek_safe|]. intros b s1 (H1 & [R1 _] & _ & _). destruct b.
    + destruct (IH s1 R1) as (_ & _ & _ & IHb'). eapply safe_mono; [apply IHb'; lia|]. intros c2 s2 [? ?]. split; [lia|done].
    + eapply safe_bind; [apply parseredirs_safe; [done|lia|by split; [constructor|]]|]. intros c2 s2 [H2 T2].
      eapply safe_mono; [apply parseargs_safe; [lia|lia|done]|]. intros c3 s3 [? ?]. split; [lia|done].
  - eapply safe_bind; [by apply peek_safe|]. intros b s1 (H1 & R1 & _ & Hb). destruct b; [|done]. cbn [negb].
    apply token_safe; [done|by apply Hb|]. intros _ s2 H2 H2'. destruct (IH s2 H2') as (IHl & _).
    eapply safe_bind; [apply IHl; lia|]. intros c3 s3 [H3 T3].
    eapply safe_bind; [apply peek_safe; lia|]. intros b s4 (H4 & R4 & _ & Hb4). destruct b; [|done]. cbn [negb].
    apply token_safe; [done|by apply Hb4|]. intros _ s5 H5 H5'.
    eapply safe_bind; [apply parseredirs_safe; [done|lia|done]|]. intros c6 s6 [? ?]. split; [lia|done].
Qed.

(** ** [nulterminate] *)

Lemma nul_writes (l : list tok) b i :
  length (foldl (λ b t, <[t.2 := 0]> b) b l) = length b ∧
  ((∀ t, t ∈ l → t.2 ≠ i) → foldl (λ b t, <[t.2 := 0]> b) b l !! i = b !! i) ∧
  ((i < length b)%nat → (∃ t, t ∈ l ∧ t.2 = i) ∨ b !! i = Some 0 → foldl (λ b t, <[t.2 := 0]> b) b l !! i = Some 0).
Proof.
  revert b. induction l as [|t l IH]; intros b; cbn.
  - split_and!; [done|done|]. intros Hi [(t & Ht & _)|?]; [by apply elem_of_nil in Ht|done].
  - destruct (IH (<[t.2 := 0]> b)) as (H1 & H2 & H3). rewrite length_insert in *. split_and!; [done|..].
    + intros H. rewrite H2 by (intros t' Ht'; apply H; by apply elem_of_cons; right).
      apply list_lookup_insert_ne, H. by apply elem_of_cons; left.
    + intros Hi H. apply H3; [done|]. destruct (decide (t.2 = i)) as [E|E].
      * right. rewrite E. by apply list_lookup_insert_eq.
      * destruct H as [(t' & Ht' & E')|H]; [|right; by rewrite list_lookup_insert_ne].
        apply elem_of_cons in Ht' as [->|Ht']; [done|]. left. by exists t'.
Qed.

Lemma nulterminate_fold c b : nulterminate c b = foldl (λ b t, <[t.2 := 0]> b) b (tokens c).
Proof.
  revert b. induction c as [argv|c IH f m d|l IHl r IHr|l IHl r IHr|c IH]; intros b; cbn; [done|..].
  - by rewrite IH, foldl_app.
  - by rewrite IHl, IHr, foldl_app.
  - by rewrite IHl, IHr, foldl_app.
  - apply IH.
Qed.

(** The characters of a string of the line. *)
Definition slice (t : tok) : list Z := take (t.2 - t.1) (drop t.1 buf).

Lemma at_lookup i : (i < es)%nat → buf !! i = Some (at_ i).
Proof. intros H. unfold Sh.at_. destruct (lookup_lt_is_Some_2 buf i H) as [c ->]. done. Qed.

Lemma slice_word t : tok_ok t → slice t ≠ [] ∧ Forall (λ c, is_word c = true ∧ c ≠ 0) (slice t).
Proof.
  intros ([Hlt Hle] & Hw & _). split.
  - intros E. apply (f_equal length) in E. unfold slice in E. rewrite length_take, length_drop in E. cbn in E. unfold Sh.es in *. lia.
  - apply Forall_lookup_2. intros i c. unfold slice. rewrite lookup_take_Some, lookup_drop. intros [Hc Hi].
    rewrite (at_lookup (t.1 + i)) in Hc by lia. injection Hc as <-. split; [apply Hw; lia|]. rewrite at_nul. lia.
Qed.

Lemma cstr_of_app w l : Forall (λ c, c ≠ 0) w → cstr_of (w ++ 0 :: l) = w.
Proof. induction 1 as [|c w Hc Hw IH]; cbn; [done|]. rewrite (proj2 (Z.eqb_neq c 0) Hc). by rewrite IH. Qed.

(** The strings survive the NULs: each NUL is written behind a word, never into
    another one. *)
Lemma nulterminate_str c t : Forall tok_ok (tokens c) → t ∈ tokens c → str (nulterminate c (buf ++ [0])) t = slice t.
Proof.
  intros Hc Ht. pose proof (proj1 (list.Forall_forall _ _) Hc t Ht) as ([Hlt Hle] & Hw & _).
  destruct (slice_word t) as [_ Hnz]; [by apply (proj1 (list.Forall_forall _ _) Hc)|].
  rewrite nulterminate_fold. set (b := foldl _ _ _).
  assert (drop t.1 b = slice t ++ 0 :: drop (S t.2) b) as E.
  { apply list_eq. intros i. rewrite lookup_drop.
    assert (length (slice t) = t.2 - t.1)%nat as Hl by (unfold slice; rewrite length_take, length_drop; unfold Sh.es in *; lia).
    destruct (nul_writes (tokens c) (buf ++ [0]) (t.1 + i)) as (Hlen & Hkeep & Hnul). fold b in Hlen, Hkeep, Hnul.
    rewrite length_app in *. cbn in Hnul. unfold Sh.es in *. destruct (decide (i < t.2 - t.1)%nat) as [Hi|Hi].
    - rewrite lookup_app_l by lia. unfold slice. rewrite lookup_take_lt, lookup_drop by lia.
      rewrite Hkeep; [by rewrite lookup_app_l by lia|]. intros t' Ht' E'.
      pose proof (proj1 (list.Forall_forall _ _) Hc t' Ht') as (H1' & _ & H3'). unfold Sh.es in *. rewrite E' in H3'.
      rewrite Hw in H3' by lia. discriminate H3'. lia.
    - rewrite lookup_app_r by lia. rewrite Hl. destruct (decide (i = t.2 - t.1)%nat) as [->|Hne].
      + rewrite Nat.sub_diag. cbn. apply Hnul; [lia|]. left. exists t. split; [done|lia].
      + change (0 :: drop (S t.2) b) with ([0] ++ drop (S t.2) b). rewrite lookup_app_r, lookup_drop by (cbn; lia). f_equal. cbn. lia. }
  unfold str. rewrite E. apply cstr_of_app. eapply list.Forall_impl; [exact Hnz|]. by intros ? [].
Qed.
End parse.

(** C28: The parser terminates on every line and gives a tree or an error message.
    The strings of the tree are words of the line, without spaces or symbols, and
    [nulterminate] has made each of them a C string; redirections are of standard
    input and output. *)
Theorem parsecmd_correct buf :
  Forall (λ c, c ≠ 0) buf →
  safe (parsecmd buf) (λ r _, Forall (λ t, str r.2 t = slice buf t ∧ slice buf t ≠ [] ∧
    Forall (λ c, is_word c = true) (slice buf t)) (tokens r.1) ∧ redirs_std r.1).
Proof.
  intros Hb. unfold parsecmd. destruct (parse_safe buf Hb (4 * S (es buf)) 0) as (Hl & _); [lia|].
  eapply safe_bind; [apply Hl; lia|]. intros c s1 [H1 [Hc Hr]].
  eapply safe_bind; [by apply peek_safe; [|lia]|]. intros _ s2 _. unfold mbind, M_bind, gets, id. cbn [obind]. destruct (s2 =? es buf)%nat; cbn [negb]; [split; [cbn|done]|done].
  apply list.Forall_forall. intros t Ht. split; [by apply nulterminate_str|].
  destruct (slice_word buf Hb t) as [? Hw]; [by apply (proj1 (list.Forall_forall _ _) Hc)|]. split; [done|].
  eapply list.Forall_impl; [exact Hw|]. by intros ? [].
Qed.

(** ** Writing commands

    Every command tree can be written as a line, with parentheses where the
    grammar needs them, and is read back. *)

(** A command tree with its strings. *)
Inductive ast : Type :=
  | AExec (argv : list (list Z))
  | ARedir (c : ast) (file : list Z) (mode fd : Z)
  | APipe (left right : ast)
  | AList (left right : ast)
  | ABack (c : ast).

Fixpoint ast_of (f : tok → list Z) (c : cmd) : ast :=
  match c with
  | EXEC argv => AExec (f <$> argv)
  | REDIR c t mode fd => ARedir (ast_of f c) (f t) mode fd
  | PIPE l r => APipe (ast_of f l) (ast_of f r)
  | LIST l r => AList (ast_of f l) (ast_of f r)
  | BACK c => ABack (ast_of f c)
  end.

(** The symbol of a redirection. *)
Definition redir_sym (mode fd : Z) : option Z :=
  if decide (mode = O_RDONLY ∧ fd = 0) then Some LT
  else if decide (mode = Z.lor (Z.lor O_WRONLY O_CREATE) O_TRUNC ∧ fd = 1) then Some GT
  else if decide (mode = Z.lor O_WRONLY O_CREATE ∧ fd = 1) then Some PLUS
  else None.

Definition word (w : list Z) : Prop := w ≠ [] ∧ Forall (λ c, is_word c = true ∧ c ≠ 0) w.

(** The trees that can be written. *)
Fixpoint writable (a : ast) : Prop :=
  match a with
  | AExec argv => Forall word argv ∧ (length argv < MAXARGS)%nat
  | ARedir c file mode fd => writable c ∧ word file ∧ is_Some (redir_sym mode fd)
  | APipe l r | AList l r => writable l ∧ writable r
  | ABack c => writable c
  end.

(** A token as the lexer classifies it, with its characters. *)
Definition lexeme : Type := Z * list Z.
Definition sym (c : Z) : lexeme := (c, if c =? PLUS then [GT; GT] else [c]).
Definition paren (b : bool) (l : list lexeme) : list lexeme := if b then [sym LPAR] ++ l ++ [sym RPAR] else l.

(** The tokens of a command, at level 0 for a line, 1 for a part of a list, 2 for
    a pipeline and 3 for a part of a pipeline. *)
Fixpoint lexemes (lvl : nat) (a : ast) : list lexeme :=
  match a with
  | AExec argv => (λ w, (WORD, w)) <$> argv
  | ARedir c file mode fd => lexemes 3 c ++ [sym (default 0 (redir_sym mode fd)); (WORD, file)]
  | APipe l r => paren (2 <? lvl)%nat (lexemes 3 l ++ [sym BAR] ++ lexemes 2 r)
  | ABack c => paren (1 <? lvl)%nat (lexemes 1 c ++ [sym AMP])
  | AList l r => paren (0 <? lvl)%nat (lexemes 1 l ++ [sym SEMI] ++ lexemes 0 r)
  end.

(** Every token is followed by a space. *)
Definition spell (l : list lexeme) : list Z := concat ((λ t, t.2 ++ [32]) <$> l).

Definition show (a : ast) : list Z := spell (lexemes 0 a).

Definition lex_ok (t : lexeme) : Prop :=
  (∃ c, c ∈ [BAR; LPAR; RPAR; SEMI; AMP; LT; GT; PLUS] ∧ t = sym c) ∨ ∃ w, word w ∧ t = (WORD, w).

(** The first character of the next token, or the NUL. *)
Definition next (ts : list lexeme) : Z := match ts with [] => 0 | t :: _ => default 0 (head t.2) end.

Section lexer.
Variable buf : list Z.

Abbreviation es := (es buf).
Abbreviation at_ := (at_ buf).

Lemma at_drop s l : drop s buf = l → at_ s = default 0 (head l).
Proof. intros <-. unfold Sh.at_. rewrite <- (Nat.add_0_r s) at 1. rewrite <- lookup_drop. by destruct (drop s buf). Qed.

Lemma drop_app s w l : drop s buf = w ++ l → drop (s + length w) buf = l.
Proof. intros H. rewrite <- drop_drop, H. apply drop_app_length. Qed.

Lemma es_drop s l : drop s buf = l → (es - s = length l)%nat.
Proof. intros <-. by rewrite length_drop. Qed.

Lemma while_in_run p s w l :
  drop s buf = w ++ l → Forall (λ c, p c = true) w → match l with [] => True | c :: _ => p c = false end →
  while_in buf p s = (s + length w)%nat.
Proof.
  intros Hd Hw Hl. unfold while_in. rewrite (es_drop _ _ Hd). revert s Hd.
  induction Hw as [|c w Hc Hw IH]; intros s Hd; cbn.
  - rewrite Nat.add_0_r. destruct l as [|c l]; cbn; [done|]. rewrite (at_drop _ _ Hd). cbn. by rewrite Hl.
  - rewrite (at_drop _ _ Hd). cbn. rewrite Hc, IH; [lia|]. by apply (drop_app s [c]) in Hd; rewrite Nat.add_1_r in Hd.
Qed.

(** The first character of a token is no space. *)
Lemma lex_head t : lex_ok t → ∃ c w, t.2 = c :: w ∧ is_space c = false ∧ c ≠ 0.
Proof.
  intros [(c & Hc & ->)|(w & [Hw Hf] & ->)].
  - repeat (apply elem_of_cons in Hc as [->|Hc]; [eexists _, _; by split_and!|]). by apply elem_of_nil in Hc.
  - destruct w as [|c w]; [done|]. apply list.Forall_cons in Hf as [[Hc ?] _]. exists c, w. split_and!; [done| |done].
    unfold is_word in Hc. by destruct (is_space c).
Qed.

Lemma spell_head ts : Forall lex_ok ts →
  match spell ts with [] => True | c :: _ => is_space c = false end ∧ default 0 (head (spell ts)) = next ts.
Proof.
  intros H. destruct H as [|t ts Ht _]; [done|]. destruct (lex_head t Ht) as (c & w & E & Hs & _).
  unfold spell, next. cbn. by rewrite E.
Qed.

Lemma peek_spell toks s ts : Forall lex_ok ts → drop s buf = spell ts →
  peek buf toks s = Ok (negb (next ts =? 0) && strchr toks (next ts)) s.
Proof.
  intros Ht Hd. destruct (spell_head ts Ht) as [Hs Hn]. unfold peek, mbind, M_bind, gets, id, modify, mret, M_ret. cbn [obind].
  rewrite (while_in_run is_space s [] (spell ts)) by done. cbn. rewrite Nat.add_0_r, (at_drop _ _ Hd), Hn. done.
Qed.

Lemma gettoken_spell_nil s : drop s buf = [] → gettoken buf s = Ok (0, (s, s)) s.
Proof.
  intros Hd. unfold gettoken, mbind, M_bind, gets, id, modify, mret, M_ret. cbn [obind].
  rewrite (while_in_run is_space s [] []), Nat.add_0_r, (at_drop _ _ Hd) by done. cbn.
  rewrite (while_in_run is_space s [] []), Nat.add_0_r by done. done.
Qed.

(** The part of [gettoken] that finds the end of the token. *)
Lemma lex_end t l s : lex_ok t → drop s buf = t.2 ++ 32 :: l →
  (if at_ s =? 0 then (0, s)
   else if strchr [BAR; LPAR; RPAR; SEMI; AMP; LT] (at_ s) then (at_ s, S s)
   else if at_ s =? GT then if at_ (S s) =? GT then (PLUS, S (S s)) else (GT, S s)
   else (WORD, while_in buf is_word s)) = (t.1, (s + length t.2)%nat).
Proof.
  intros Ht Hd. destruct (lex_head t Ht) as (c & w & E & _ & Hnz). rewrite (at_drop _ _ Hd), E. change (default 0 (head ((c :: w) ++ 32 :: l))) with c.
  rewrite (proj2 (Z.eqb_neq c 0) Hnz). destruct Ht as [(k & Hk & ->)|(w' & [Hw Hf] & ->)].
  - assert (drop (S s) buf = w ++ 32 :: l) as Hd'.
    { rewrite E in Hd. apply (drop_app s [c]) in Hd. by rewrite Nat.add_1_r in Hd. }
    rewrite (at_drop _ _ Hd'). unfold sym in *. cbn [fst snd] in *. clear -E Hk.
    repeat (apply elem_of_cons in Hk as [->|Hk]; [cbn in E; injection E as <- <-; cbn; f_equal; lia|]). by apply elem_of_nil in Hk.
  - cbn [fst snd] in *. subst w'. apply list.Forall_cons in Hf as Hf'. destruct Hf' as [[Hcw _] _].
    assert (strchr symbols c = false) as Hs by (unfold is_word in Hcw; by destruct (is_space c), (strchr symbols c)).
    unfold strchr, symbols, existsb in Hs. rewrite !orb_false_iff, !Z.eqb_neq in Hs.
    unfold strchr, existsb, BAR, LPAR, RPAR, SEMI, AMP, LT, GT.
    rewrite !(proj2 (Z.eqb_neq c _)) by lia. cbn [orb]. f_equal.
    apply (while_in_run is_word s (c :: w) (32 :: l)); [done| |done].
    eapply list.Forall_impl; [exact Hf|]. by intros ? [].
Qed.

Lemma gettoken_spell s t ts : lex_ok t → Forall lex_ok ts → drop s buf = spell (t :: ts) →
  let e := (s + length t.2)%nat in
  gettoken buf s = Ok (t.1, (s, e)) (S e) ∧ drop (S e) buf = spell ts ∧ slice buf (s, e) = t.2 ∧ (s < e)%nat.
Proof.
  intros Ht Hts Hd e. assert (drop s buf = t.2 ++ 32 :: spell ts) as Hd'.
  { rewrite Hd. unfold spell. cbn. by rewrite <- app_assoc. }
  destruct (spell_head ts Hts) as [Hs _]. destruct (lex_head t Ht) as (c & w & E & Hc & _).
  assert (drop e buf = [32] ++ spell ts) as He by by apply (drop_app s t.2).
  split_and!.
  - unfold gettoken, mbind, M_bind, gets, id, modify, mret, M_ret. cbn [obind].
    rewrite (while_in_run is_space s [] (spell (t :: ts))); [|done|done|by rewrite <- Hd, Hd', E].
    cbn [length]. rewrite Nat.add_0_r, (lex_end t _ s Ht Hd'). fold e. cbn [obind].
    rewrite (while_in_run is_space e [32] (spell ts)) by (done || by repeat constructor). cbn. by rewrite Nat.add_1_r.
  - apply (drop_app e [32]) in He. by rewrite Nat.add_1_r in He.
  - unfold slice, e. cbn. rewrite Hd'. replace (s + length t.2 - s)%nat with (length t.2) by lia. apply take_app_length.
  - unfold e. rewrite E. cbn. lia.
Qed.
End lexer.

Lemma strchr_elem l c : strchr l c = true ↔ c ∈ l.
Proof.
  unfold strchr. rewrite existsb_exists. split.
  - intros (d & Hd & E). apply Z.eqb_eq in E as ->. by apply list_elem_of_In.
  - intros H. exists c. split; [by apply list_elem_of_In|apply Z.eqb_refl].
Qed.

(** What may come behind a part of a command. *)
Definition stop_at (l : list Z) (ts : list lexeme) : Prop := ts = [] ∨ next ts ∈ l.

Lemma stop_mono l l' ts : l ⊆ l' → stop_at l ts → stop_at l' ts.
Proof. intros Hl [->|H]; [by left|]. right. by apply Hl. Qed.

(** [peek] for characters that cannot come here. *)
Lemma stop_no l toks ts : stop_at l ts → (∀ c, c ∈ l → c ∉ toks) → negb (next ts =? 0) && strchr toks (next ts) = false.
Proof.
  intros [->|H] Hl; [done|]. apply andb_false_iff. right. apply not_true_iff_false. rewrite strchr_elem. by apply Hl.
Qed.

Lemma next_yes toks ts : next ts ≠ 0 → next ts ∈ toks → negb (next ts =? 0) && strchr toks (next ts) = true.
Proof. intros H1 H2. rewrite (proj2 (Z.eqb_neq _ _) H1). by apply strchr_elem. Qed.

Lemma lexemes_ok lvl a : writable a → Forall lex_ok (lexemes lvl a).
Proof.
  assert (∀ c, c ∈ [BAR; LPAR; RPAR; SEMI; AMP; LT; GT; PLUS] → lex_ok (sym c)) as Hsym by (intros c Hc; left; by exists c).
  assert (∀ b l, Forall lex_ok l → Forall lex_ok (paren b l)) as Hp.
  { intros [] l Hl; [|done]. unfold paren. rewrite !list.Forall_app, !list.Forall_singleton.
    split_and!; [apply Hsym; set_solver|done|apply Hsym; set_solver]. }
  revert lvl. induction a as [argv|c IH f m d|l IHl r IHr|l IHl r IHr|c IH]; intros lvl Ha; cbn [lexemes writable] in *.
  - apply list.Forall_fmap. eapply list.Forall_impl; [apply Ha|]. intros w Hw. right. by exists w.
  - destruct Ha as (Hc & Hf & [k Hk]). rewrite list.Forall_app. split; [by apply IH|]. rewrite Hk. cbn.
    apply list.Forall_cons. split; [|apply list.Forall_singleton; right; by exists f].
    apply Hsym. unfold redir_sym in Hk. repeat case_decide; simplify_eq; set_solver.
  - destruct Ha. apply Hp. rewrite !list.Forall_app, list.Forall_singleton. split_and!; [by apply IHl|apply Hsym; set_solver|by apply IHr].
  - destruct Ha. apply Hp. rewrite !list.Forall_app, list.Forall_singleton. split_and!; [by apply IHl|apply Hsym; set_solver|by apply IHr].
  - apply Hp. rewrite !list.Forall_app, list.Forall_singleton. split_and!; [by apply IH|apply Hsym; set_solver].
Qed.

Section roundtrip.
Variable buf : list Z.
Abbreviation es := (es buf).

(** The line from [s] on consists of these tokens. *)
Definition at_toks (s : nat) (ts : list lexeme) : Prop := Forall lex_ok ts ∧ drop s buf = spell ts ∧ (s ≤ es)%nat.

Lemma at_peek toks s ts : at_toks s ts → peek buf toks s = Ok (negb (next ts =? 0) && strchr toks (next ts)) s.
Proof. intros (H1 & H2 & _). by apply peek_spell. Qed.

Lemma at_gettoken s t ts : at_toks s (t :: ts) → ∃ e, gettoken buf s = Ok (t.1, (s, e)) (S e) ∧ at_toks (S e) ts ∧
  slice buf (s, e) = t.2 ∧ (s < e < es)%nat.
Proof.
  intros (H1 & H2 & _). apply list.Forall_cons in H1 as [Ht Hts].
  destruct (gettoken_spell buf s t ts Ht Hts H2) as (E & Hd & Hs & Hlt). eexists. split; [exact E|].
  assert (s + length t.2 < es)%nat.
  { apply es_drop in H2. unfold spell in H2. cbn in H2. rewrite !length_app in H2. cbn in H2. lia. }
  split_and!; [split_and!; [done|done|lia]|done|done|done].
Qed.

(** Redirections. *)
Lemma redirs_stop n c s ts : at_toks s ts → stop_at [BAR; RPAR; AMP; SEMI] ts → parseredirs_loop buf n c s = Ok c s.
Proof.
  intros Ha Hs. destruct n; cbn [parseredirs_loop]; rewrite (bind_ok _ _ _ _ _ (at_peek _ _ _ Ha));
    rewrite (stop_no _ _ _ Hs); try done; set_solver.
Qed.

Lemma redirs_word n c s w ts : at_toks s ((WORD, w) :: ts) → parseredirs_loop buf n c s = Ok c s.
Proof.
  intros Ha. assert (negb (next ((WORD, w) :: ts) =? 0) && strchr [LT; GT] (next ((WORD, w) :: ts)) = false) as E.
  { destruct Ha as (H & _). apply list.Forall_cons in H as [[(c' & Hc & E)|(w' & [Hw Hf] & [= <-])] _].
    - exfalso. repeat (apply elem_of_cons in Hc as [->|Hc]; [done|]). by apply elem_of_nil in Hc.
    - destruct w as [|x w]; [done|]. apply list.Forall_cons in Hf as [[Hx _] _]. change (next ((WORD, x :: w) :: ts)) with x.
      apply andb_false_iff. right. apply not_true_iff_false. rewrite strchr_elem. intros Hin.
      unfold is_word in Hx. repeat (apply elem_of_cons in Hin as [->|Hin]; [done|]). by apply elem_of_nil in Hin. }
  destruct n; cbn [parseredirs_loop]; rewrite (bind_ok _ _ _ _ _ (at_peek _ _ _ Ha)), E; done.
Qed.

Lemma redirs_step n c s m d f ts k : at_toks s (sym k :: (WORD, f) :: ts) → redir_sym m d = Some k → (es - s ≤ n)%nat →
  ∃ n' t s', parseredirs_loop buf n c s = parseredirs_loop buf n' (REDIR c t m d) s' ∧ slice buf t = f ∧
    at_toks s' ts ∧ (s < s')%nat ∧ (es - s' ≤ n')%nat.
Proof.
  intros Ha Hk Hn. destruct (at_gettoken _ _ _ Ha) as (e1 & E1 & A1 & _ & H1). destruct (at_gettoken _ _ _ A1) as (e2 & E2 & A2 & Sl & H2).
  assert (k ∈ [LT; GT; PLUS] ∧ ∀ c t, redir_of (sym k).1 c t = REDIR c t m d) as [Hk1 Hk2].
  { unfold redir_sym in Hk. repeat case_decide; simplify_eq; destruct_and!; subst; split; (set_solver || done). }
  destruct n as [|n]; [lia|]. exists n, (S e1, e2), (S e2). split; [|split_and!; [done|done|lia|lia]].
  cbn [parseredirs_loop]. rewrite (bind_ok _ _ _ _ _ (at_peek _ _ _ Ha)).
  assert (negb (next (sym k :: (WORD, f) :: ts) =? 0) && strchr [LT; GT] (next (sym k :: (WORD, f) :: ts)) = true) as ->.
  { clear -Hk1. repeat (apply elem_of_cons in Hk1 as [->|Hk1]; [done|]). by apply elem_of_nil in Hk1. }
  rewrite (bind_ok _ _ _ _ _ E1), (bind_ok _ _ _ _ _ E2). cbn [fst snd]. cbn [negb]. by rewrite Hk2.
Qed.

(** Arguments. *)
Lemma args_stop fuel argc c s ts : at_toks s ts → stop_at [BAR; RPAR; AMP; SEMI] ts → parseargs buf fuel argc c s = Ok c s.
Proof.
  intros Ha Hs. assert (∀ fuel, parseargs buf fuel argc c s = (b ← peek buf [BAR; RPAR; AMP; SEMI]; if (b : bool) then mret c
    else t ← gettoken buf; if t.1 =? 0 then mret c else if negb (t.1 =? WORD) then panic "syntax"
    else if (MAXARGS <=? S argc)%nat then panic "too many args"
    else match fuel with O => halt NoFuel | S fuel' => ret ← parseredirs buf (add_arg t.2 c); parseargs buf fuel' (S argc) ret end) s) as ->
    by by intros [].
  rewrite (bind_ok _ _ _ _ _ (at_peek _ _ _ Ha)). destruct Hs as [->|Hin].
  - cbn [next]. destruct Ha as (_ & Hd & _). cbn [negb andb]. rewrite Z.eqb_refl. cbn [negb andb].
    rewrite (bind_ok _ _ _ _ _ (gettoken_spell_nil buf s Hd)). done.
  - rewrite next_yes; [done| |done]. intros E. rewrite E in Hin. clear -Hin. set_solver.
Qed.

Lemma word_next w ts s : at_toks s ((WORD, w) :: ts) →
  negb (next ((WORD, w) :: ts) =? 0) && strchr [BAR; RPAR; AMP; SEMI] (next ((WORD, w) :: ts)) = false ∧
  negb (next ((WORD, w) :: ts) =? 0) && strchr [LPAR] (next ((WORD, w) :: ts)) = false.
Proof.
  intros (H & _). apply list.Forall_cons in H as [[(c' & Hc & E)|(w' & [Hw Hf] & [= <-])] _].
  - exfalso. repeat (apply elem_of_cons in Hc as [->|Hc]; [done|]). by apply elem_of_nil in Hc.
  - destruct w as [|x w]; [done|]. apply list.Forall_cons in Hf as [[Hx _] _]. change (next ((WORD, x :: w) :: ts)) with x.
    unfold is_word in Hx. split; apply andb_false_iff; right; apply not_true_iff_false; rewrite strchr_elem; intros Hin;
      repeat (apply elem_of_cons in Hin as [->|Hin]; [done|]); by apply elem_of_nil in Hin.
Qed.

Lemma args_run args : ∀ pre n fuel s ts, at_toks s (((λ w, (WORD, w)) <$> args) ++ ts) → (length pre + length args < MAXARGS)%nat →
  (es - s ≤ n)%nat → (es - s ≤ fuel)%nat →
  ∃ n' fuel' toks s', (parseredirs_loop buf n (EXEC pre) ≫= parseargs buf fuel (length pre)) s =
      (parseredirs_loop buf n' (EXEC (pre ++ toks)) ≫= parseargs buf fuel' (length (pre ++ toks))) s' ∧
    slice buf <$> toks = args ∧ at_toks s' ts ∧ (s ≤ s')%nat ∧ (es - s' ≤ n')%nat.
Proof.
  induction args as [|w args IH]; intros pre n fuel s ts Ha Hl Hn Hf.
  - exists n, fuel, [], s. rewrite app_nil_r. by split_and!.
  - change (at_toks s ((WORD, w) :: ((λ w, (WORD, w)) <$> args) ++ ts)) in Ha. destruct (at_gettoken _ _ _ Ha) as (e & E & A & Sl & He).
    cbn [length] in Hl. destruct fuel as [|fuel]; [lia|].
    destruct (IH (pre ++ [(s, e)]) es fuel (S e) ts A) as (n' & fuel' & toks & s' & E' & Ht & A' & Hs' & Hn'); [rewrite length_app; cbn; lia|lia|lia|].
    exists n', fuel', ((s, e) :: toks), s'. rewrite <- app_assoc in E'. split; [|split_and!; [by rewrite fmap_cons, Ht, Sl|done|lia|done]].
    rewrite (bind_ok _ _ _ _ _ (redirs_word n _ s w _ Ha)). cbn [parseargs].
    rewrite (bind_ok _ _ _ _ _ (at_peek _ _ _ Ha)), (proj1 (word_next _ _ _ Ha)), (bind_ok _ _ _ _ _ E). cbn [fst snd].
    change (WORD =? 0) with false. cbn [negb]. rewrite (proj2 (Nat.leb_gt _ _)) by lia. rewrite length_app in E'. cbn [length] in E'.
    rewrite Nat.add_1_r in E'. cbn [add_arg]. exact E'.
Qed.

(** ** The levels of the grammar *)

Definition S3 (a : ast) : Prop := ∀ fuel s ts, at_toks s (lexemes 3 a ++ ts) → (4 * (es - s) + 2 ≤ fuel)%nat →
  stop_at [BAR; RPAR; AMP; SEMI; LT; GT] ts →
  ∃ n c s' k, parseexec buf fuel s = (parseredirs_loop buf n c ≫= k) s' ∧ ast_of (slice buf) c = a ∧ at_toks s' ts ∧
    (s ≤ s')%nat ∧ (es - s' ≤ n)%nat ∧ ∀ c s ts, at_toks s ts → stop_at [BAR; RPAR; AMP; SEMI] ts → k c s = Ok c s.

Definition S2 (a : ast) : Prop := ∀ fuel s ts, at_toks s (lexemes 2 a ++ ts) → (4 * (es - s) + 3 ≤ fuel)%nat →
  stop_at [RPAR; AMP; SEMI] ts →
  ∃ c s', parsepipe buf fuel s = Ok c s' ∧ ast_of (slice buf) c = a ∧ at_toks s' ts ∧ (s ≤ s')%nat.

Definition S1 (a : ast) : Prop := ∀ fuel n s ts, at_toks s (lexemes 1 a ++ ts) → (4 * (es - s) + 3 ≤ fuel)%nat → (es - s ≤ n)%nat →
  stop_at [RPAR; AMP; SEMI] ts →
  ∃ c s' n', (parsepipe buf fuel ≫= parsebacks buf n) s = parsebacks buf n' c s' ∧ ast_of (slice buf) c = a ∧
    at_toks s' ts ∧ (s ≤ s')%nat ∧ (es - s' ≤ n')%nat.

Definition S0 (a : ast) : Prop := ∀ fuel s ts, at_toks s (lexemes 0 a ++ ts) → (4 * (es - s) + 4 ≤ fuel)%nat →
  stop_at [RPAR] ts →
  ∃ c s', parseline buf fuel s = Ok c s' ∧ ast_of (slice buf) c = a ∧ at_toks s' ts ∧ (s ≤ s')%nat.

(** A simple command or a block, with its redirections complete. *)
Lemma exec_end a fuel s ts : S3 a → at_toks s (lexemes 3 a ++ ts) → (4 * (es - s) + 2 ≤ fuel)%nat →
  stop_at [BAR; RPAR; AMP; SEMI] ts →
  ∃ c s', parseexec buf fuel s = Ok c s' ∧ ast_of (slice buf) c = a ∧ at_toks s' ts ∧ (s ≤ s')%nat.
Proof.
  intros H3 Ha Hf Hs. destruct (H3 fuel s ts Ha Hf) as (n & c & s' & k & E & Hc & A & Hs' & _ & Hk).
  { eapply stop_mono; [|exact Hs]. set_solver. }
  exists c, s'. rewrite E, (bind_ok _ _ _ _ _ (redirs_stop n c s' ts A Hs)). by rewrite (Hk c s' ts).
Qed.

Lemma S3_S2 a : S3 a → lexemes 2 a = lexemes 3 a → S2 a.
Proof.
  intros H3 El fuel s ts Ha Hf Hs. rewrite El in Ha. destruct fuel as [|fuel]; [lia|].
  destruct (exec_end a fuel s ts H3 Ha) as (c & s' & E & Hc & A & Hs'); [lia|eapply stop_mono; [|exact Hs]; set_solver|].
  exists c, s'. split_and!; [|done..]. cbn [parsepipe]. rewrite (bind_ok _ _ _ _ _ E), (bind_ok _ _ _ _ _ (at_peek _ _ _ A)).
  rewrite (stop_no _ _ _ Hs); [done|]. set_solver.
Qed.

Lemma S2_S1 a : S2 a → lexemes 1 a = lexemes 2 a → S1 a.
Proof.
  intros H2 El fuel n s ts Ha Hf Hn Hs. rewrite El in Ha. destruct (H2 fuel s ts Ha Hf Hs) as (c & s' & E & Hc & A & Hs').
  exists c, s', n. rewrite (bind_ok _ _ _ _ _ E). split_and!; try done. lia.
Qed.

Lemma backs_stop n c s ts : at_toks s ts → stop_at [RPAR; SEMI] ts → parsebacks buf n c s = Ok c s.
Proof.
  intros A Hs. destruct n; cbn [parsebacks]; rewrite (bind_ok _ _ _ _ _ (at_peek _ _ _ A)), (stop_no _ _ _ Hs); try done; set_solver.
Qed.

(** A part of a list, with all its &. *)
Lemma backs_end a fuel s ts : S1 a → at_toks s (lexemes 1 a ++ ts) → (4 * (es - s) + 3 ≤ fuel)%nat → stop_at [RPAR; SEMI] ts →
  ∃ c s', (parsepipe buf fuel ≫= parsebacks buf es) s = Ok c s' ∧ ast_of (slice buf) c = a ∧ at_toks s' ts ∧ (s ≤ s')%nat.
Proof.
  intros H1 Ha Hf Hs. destruct (H1 fuel es s ts Ha Hf) as (c & s' & n' & E & Hc & A & Hs' & _); [lia|eapply stop_mono; [|exact Hs]; set_solver|].
  exists c, s'. rewrite E, (backs_stop n' c s' ts A Hs). done.
Qed.

Lemma bind2_ok {A B C} (m : P A) (g : A → P B) (h : B → P C) s b s' :
  (m ≫= g) s = Ok b s' → (m ≫= (λ a, g a ≫= h)) s = h b s'.
Proof.
  intros H. apply bind_inv in H as (a & s1 & E1 & E2). by rewrite (bind_ok _ _ _ _ _ E1), (bind_ok _ _ _ _ _ E2).
Qed.

Lemma S1_S0 a : S1 a → lexemes 0 a = lexemes 1 a → S0 a.
Proof.
  intros H1 El fuel s ts Ha Hf Hs. rewrite El in Ha. destruct fuel as [|fuel]; [lia|].
  destruct (backs_end a fuel s ts H1 Ha) as (c & s' & E & Hc & A & Hs'); [lia|eapply stop_mono; [|exact Hs]; set_solver|].
  exists c, s'. split_and!; [|done..]. cbn [parseline]. rewrite (bind2_ok _ _ _ _ _ _ E), (bind_ok _ _ _ _ _ (at_peek _ _ _ A)).
  rewrite (stop_no _ _ _ Hs); [done|]. set_solver.
Qed.

(** A symbol that [peek] sees. *)
Lemma at_sym {B} (k : Z) toks (f : bool → P B) s ts : at_toks s (sym k :: ts) → k ∈ toks → k ≠ PLUS → k ≠ 0 →
  (peek buf toks ≫= f) s = f true s.
Proof.
  intros A Hk Hp H0. rewrite (bind_ok _ _ _ _ _ (at_peek _ _ _ A)). rewrite next_yes; [done|..];
    unfold next, sym; cbn [snd]; rewrite (proj2 (Z.eqb_neq k PLUS) Hp); cbn; done.
Qed.

Lemma S0_S3 a : S0 a → lexemes 3 a = paren true (lexemes 0 a) → S3 a.
Proof.
  intros H0 El fuel s ts Ha Hf _. rewrite El in Ha. cbn [paren] in Ha. rewrite <- !app_assoc in Ha.
  destruct fuel as [|[|fuel]]; [lia..|].
  destruct (at_gettoken _ _ _ Ha) as (e & E1 & A1 & _ & He).
  destruct (H0 fuel (S e) _ A1) as (c & s2 & E2 & Hc & A2 & Hs2); [lia|right; set_solver|].
  destruct (at_gettoken _ _ _ A2) as (e3 & E3 & A3 & _ & He3).
  exists es, c, (S e3), mret. split_and!; [|done|done|lia|lia|done].
  cbn [parseexec]. rewrite (at_sym _ _ _ _ _ Ha); [|set_solver|done|done]. cbn [parseblock].
  rewrite (at_sym _ _ _ _ _ Ha); [|set_solver|done|done]. cbn [negb].
  rewrite (bind_ok _ _ _ _ _ E1), (bind_ok _ _ _ _ _ E2), (at_sym _ _ _ _ _ A2); [|set_solver|done|done]. cbn [negb].
  by rewrite (bind_ok _ _ _ _ _ E3).
Qed.

Lemma S3_exec argv : writable (AExec argv) → S3 (AExec argv).
Proof.
  intros [Hw Hl] fuel s ts Ha Hf Hs. cbn [lexemes] in Ha. destruct fuel as [|fuel]; [lia|].
  assert (negb (next (((λ w, (WORD, w)) <$> argv) ++ ts) =? 0) && strchr [LPAR] (next (((λ w, (WORD, w)) <$> argv) ++ ts)) = false) as Hp.
  { destruct argv as [|w argv]; [|by apply (word_next _ _ s)]. apply (stop_no _ _ _ Hs). set_solver. }
  destruct (args_run argv [] es es s ts Ha) as (n & fuel' & toks & s' & E & Ht & A & Hs' & Hn); [done|lia|lia|].
  exists n, (EXEC toks), s', (parseargs buf fuel' (length toks)). split_and!; [|cbn; by rewrite Ht|done|done|done|].
  - cbn [parseexec]. rewrite (bind_ok _ _ _ _ _ (at_peek _ _ _ Ha)), Hp. exact E.
  - intros c s1 ts1. apply args_stop.
Qed.

Lemma S3_redir c f m d : S3 c → is_Some (redir_sym m d) → S3 (ARedir c f m d).
Proof.
  intros H3 [k Hk] fuel s ts Ha Hf Hs. cbn [lexemes] in Ha. rewrite Hk in Ha. rewrite <- app_assoc in Ha. cbn [default app] in Ha.
  assert (k ∈ [LT; GT; PLUS]) as Hk1 by (unfold redir_sym in Hk; repeat case_decide; simplify_eq; set_solver).
  destruct (H3 fuel s _ Ha Hf) as (n & c' & s' & k' & E & Hc & A & Hs' & Hn & Hk').
  { right. clear -Hk1. repeat (apply elem_of_cons in Hk1 as [->|Hk1]; [cbn; set_solver|]). by apply elem_of_nil in Hk1. }
  destruct (redirs_step n c' s' m d f ts k A Hk Hn) as (n' & t & s2 & E2 & Sl & A2 & Hs2 & Hn2).
  exists n', (REDIR c' t m d), s2, k'. split_and!; [|cbn; by rewrite Hc, Sl|done|lia|done|done].
  rewrite E. unfold mbind, M_bind. by rewrite E2.
Qed.

Lemma S2_pipe l r : S3 l → S2 r → S2 (APipe l r).
Proof.
  intros Hl Hr fuel s ts Ha Hf Hs. cbn [lexemes] in Ha. change (paren (2 <? 2)%nat ?x) with x in Ha. rewrite <- !app_assoc in Ha.
  destruct fuel as [|fuel]; [lia|]. destruct (exec_end l fuel s _ Hl Ha) as (c & s1 & E1 & Hc & A1 & H1); [lia|right; set_solver|].
  destruct (at_gettoken _ _ _ A1) as (e & E2 & A2 & _ & He).
  destruct (Hr fuel (S e) ts A2) as (c2 & s3 & E3 & Hc2 & A3 & H3); [lia|done|].
  exists (PIPE c c2), s3. split_and!; [|cbn; by rewrite Hc, Hc2|done|lia]. cbn [parsepipe].
  rewrite (bind_ok _ _ _ _ _ E1), (at_sym _ _ _ _ _ A1); [|set_solver|done|done].
  rewrite (bind_ok _ _ _ _ _ E2), (bind_ok _ _ _ _ _ E3). done.
Qed.

Lemma S1_back c : S1 c → S1 (ABack c).
Proof.
  intros Hc fuel n s ts Ha Hf Hn Hs. cbn [lexemes] in Ha. change (paren (1 <? 1)%nat ?x) with x in Ha. rewrite <- !app_assoc in Ha.
  destruct (Hc fuel n s _ Ha Hf Hn) as (c1 & s1 & n1 & E1 & Hc1 & A1 & H1 & Hn1); [right; set_solver|].
  destruct (at_gettoken _ _ _ A1) as (e & E2 & A2 & _ & He). destruct n1 as [|n1]; [lia|].
  exists (BACK c1), (S e), n1. split_and!; [|cbn; by rewrite Hc1|done|lia|lia]. rewrite E1. cbn [parsebacks].
  rewrite (at_sym _ _ _ _ _ A1); [|set_solver|done|done]. by rewrite (bind_ok _ _ _ _ _ E2).
Qed.

Lemma S0_list l r : S1 l → S0 r → S0 (AList l r).
Proof.
  intros Hl Hr fuel s ts Ha Hf Hs. cbn [lexemes] in Ha. change (paren (0 <? 0)%nat ?x) with x in Ha. rewrite <- !app_assoc in Ha.
  destruct fuel as [|fuel]; [lia|]. destruct (backs_end l fuel s _ Hl Ha) as (c & s1 & E1 & Hc & A1 & H1); [lia|right; set_solver|].
  destruct (at_gettoken _ _ _ A1) as (e & E2 & A2 & _ & He).
  destruct (Hr fuel (S e) ts A2) as (c2 & s3 & E3 & Hc2 & A3 & H3); [lia|done|].
  exists (LIST c c2), s3. split_and!; [|cbn; by rewrite Hc, Hc2|done|lia]. cbn [parseline].
  rewrite (bind2_ok _ _ _ _ _ _ E1), (at_sym _ _ _ _ _ A1); [|set_solver|done|done].
  rewrite (bind_ok _ _ _ _ _ E2), (bind_ok _ _ _ _ _ E3). done.
Qed.

Lemma grammar a : writable a → S3 a ∧ S1 a ∧ S2 a ∧ S0 a.
Proof.
  induction a as [argv|c IH f m d|l IHl r IHr|l IHl r IHr|c IH]; intros Ha.
  - pose proof (S3_exec argv Ha) as H3. pose proof (S3_S2 _ H3 eq_refl) as H2. pose proof (S2_S1 _ H2 eq_refl) as H1.
    pose proof (S1_S0 _ H1 eq_refl). done.
  - destruct Ha as (Hc & _ & Hk). pose proof (S3_redir c f m d (proj1 (IH Hc)) Hk) as H3. pose proof (S3_S2 _ H3 eq_refl) as H2.
    pose proof (S2_S1 _ H2 eq_refl) as H1. pose proof (S1_S0 _ H1 eq_refl). done.
  - destruct Ha as (Hl & Hr). destruct (IHl Hl) as (L3 & _). destruct (IHr Hr) as (_ & _ & R2 & _).
    pose proof (S2_pipe l r L3 R2) as H2. pose proof (S2_S1 _ H2 eq_refl) as H1. pose proof (S1_S0 _ H1 eq_refl) as H0.
    pose proof (S0_S3 _ H0 eq_refl). done.
  - destruct Ha as (Hl & Hr). destruct (IHl Hl) as (_ & L1 & _). destruct (IHr Hr) as (_ & _ & _ & R0).
    pose proof (S0_list l r L1 R0) as H0. pose proof (S0_S3 _ H0 eq_refl) as H3. pose proof (S3_S2 _ H3 eq_refl) as H2.
    pose proof (S2_S1 _ H2 eq_refl). done.
  - pose proof (S1_back c (proj1 (proj2 (IH Ha)))) as H1. pose proof (S1_S0 _ H1 eq_refl) as H0. pose proof (S0_S3 _ H0 eq_refl) as H3.
    pose proof (S3_S2 _ H3 eq_refl). done.
Qed.
End roundtrip.

Lemma ast_of_ext f g c : (∀ t, t ∈ tokens c → f t = g t) → ast_of f c = ast_of g c.
Proof.
  induction c as [argv|c IH t m d|l IHl r IHr|l IHl r IHr|c IH]; cbn; intros H.
  - f_equal. apply list_fmap_ext. intros i t Ht. apply H. by eapply list_elem_of_lookup_2.
  - rewrite IH, H; [done|apply elem_of_app; right; by apply list_elem_of_singleton|]. intros t' Ht'. apply H, elem_of_app. by left.
  - rewrite IHl, IHr; [done|..]; intros t Ht; apply H, elem_of_app; tauto.
  - rewrite IHl, IHr; [done|..]; intros t Ht; apply H, elem_of_app; tauto.
  - by rewrite IH.
Qed.

Lemma spell_no_nul ts : Forall lex_ok ts → Forall (λ c, c ≠ 0) (spell ts).
Proof.
  induction 1 as [|t ts Ht Hts IH]; [constructor|]. unfold spell. cbn. rewrite !list.Forall_app. split_and!; [|by constructor|done].
  destruct Ht as [(c & Hc & ->)|(w & [_ Hw] & ->)].
  - clear -Hc. repeat (apply elem_of_cons in Hc as [->|Hc]; [by repeat constructor|]). by apply elem_of_nil in Hc.
  - eapply list.Forall_impl; [exact Hw|]. by intros ? [].
Qed.

(** C29: Every command tree whose words have no spaces, symbols or NULs, with less than
    MAXARGS arguments and the three kinds of redirections, can be written as a line;
    the parser reads the line back as that tree, with its strings as C strings. *)
Theorem parsecmd_roundtrip a : writable a →
  ∃ c b s, parsecmd (show a) = Ok (c, b) s ∧ ast_of (str b) c = a.
Proof.
  intros Hw. pose proof (lexemes_ok 0 a Hw) as Hl. pose proof (spell_no_nul _ Hl) as Hn. set (buf := show a).
  destruct (grammar buf a Hw) as (_ & _ & _ & H0).
  assert (at_toks buf 0 (lexemes 0 a ++ [])) as A by (rewrite app_nil_r; split_and!; [done|done|lia]).
  destruct (H0 (4 * S (es buf))%nat 0%nat [] A) as (c & s & E & Hc & A' & _); [lia|by left|].
  pose proof (proj1 (parse_safe buf Hn (4 * S (es buf)) 0 (Nat.le_0_l _)) ltac:(lia)) as Hs. rewrite E in Hs. destruct Hs as [Hs [Ht _]].
  assert (s = es buf) as Es by (destruct A' as (_ & Hd & _); apply (es_drop buf) in Hd; cbn in Hd; lia).
  exists c, (nulterminate c (buf ++ [0])), s. split.
  - unfold parsecmd. rewrite (bind_ok _ _ _ _ _ E), (bind_ok _ _ _ _ _ (at_peek _ _ _ _ A')).
    unfold mbind, M_bind, gets, id. cbn [obind]. by rewrite Es, Nat.eqb_refl.
  - rewrite <- Hc. apply ast_of_ext. intros t Htt. by apply nulterminate_str.
Qed.

(** ** The descriptors of the processes *)

(** Descriptors 0 and 1 are open and two others are free. *)
Definition std (t : fds) : Prop :=
  (∃ i o, t !! 0%nat = Some (Some i) ∧ t !! 1%nat = Some (Some o)) ∧
  ∃ p q, p ≠ q ∧ t !! p = Some None ∧ t !! q = Some None.

Section wired.
Context `{S : Sys}.
Variable b : list Z.

(** What a command should do: its processes run with the table of the shell in
    which only standard input and output are replaced. *)
Fixpoint wired (c : cmd) (t : fds) (n : nat) : run :=
  match c with
  | EXEC argv =>
      match argv with
      | [] => Exit 1
      | a :: _ => if exec_ok (str b a) then Exec (str b <$> argv) t else Exit 0
      end
  | REDIR c f mode fd =>
      if open_ok (str b f) mode then wired c (<[Z.to_nat fd := Some (Opened (str b f) mode)]> t) n else Exit 1
  | LIST l r => fork1 n 0 (wired l t (2 * n + 1)) (Wait (wired r t (2 * n + 2)))
  | PIPE l r =>
      if pipe_ok n then
        fork1 n 0 (wired l (<[1%nat := Some (PipeW n)]> t) (2 * n + 1))
          (fork1 n 1 (wired r (<[0%nat := Some (PipeR n)]> t) (2 * n + 2)) (Wait (Wait (Exit 0))))
      else Exit 1
  | BACK c => fork1 n 0 (wired c t (2 * n + 1)) (Exit 0)
  end.

Lemma fd_alloc_first o t i : t !! i = Some None → (∀ j, (j < i)%nat → t !! j ≠ Some None) →
  fd_alloc o t = Some (i, <[i := Some o]> t).
Proof.
  intros Hi Hlt. unfold fd_alloc. assert (list_find (λ x, x = None) t = Some (i, None)) as ->; [|done].
  apply list_find_Some. split_and!; [done|done|]. intros j y Hj Hlt' ->. by apply (Hlt j).
Qed.

Lemma fd_alloc_some o t p : t !! p = Some None →
  ∃ i, fd_alloc o t = Some (i, <[i := Some o]> t) ∧ t !! i = Some None ∧ ∀ j, (j < i)%nat → t !! j ≠ Some None.
Proof.
  intros Hp. unfold fd_alloc. destruct (list_find (λ x, x = None) t) as [[i x]|] eqn:E.
  - apply list_find_Some in E as (Hi & -> & Hlt). exists i. split_and!; [done|done|]. intros j Hj Hn. by apply (Hlt j None).
  - apply list_find_None in E. exfalso. exact (list.Forall_lookup_1 _ _ _ _ E Hp eq_refl).
Qed.

Lemma sys_pipe_std n t : std t → pipe_ok n = true → ∃ p0 p1, p0 ≠ p1 ∧ (2 ≤ p0)%nat ∧ (2 ≤ p1)%nat ∧
  t !! p0 = Some None ∧ t !! p1 = Some None ∧ sys_pipe n t = Some (p0, p1, <[p1 := Some (PipeW n)]> (<[p0 := Some (PipeR n)]> t)).
Proof.
  intros ((i & o & H0 & H1) & p & q & Hpq & Hp & Hq) Hok. unfold sys_pipe. rewrite Hok.
  destruct (fd_alloc_some (PipeR n) t p Hp) as (p0 & E0 & Hp0 & Hlt0). rewrite E0.
  assert (∃ r, r ≠ p0 ∧ t !! r = Some None) as (r & Hr & Hrn) by (destruct (decide (p = p0)); [exists q|exists p]; split; congruence).
  destruct (fd_alloc_some (PipeW n) (<[p0 := Some (PipeR n)]> t) r) as (p1 & E1 & Hp1 & _); [by rewrite list_lookup_insert_ne|].
  rewrite E1. assert (p1 ≠ p0) as Hne.
  { intros ->. rewrite list_lookup_insert_eq in Hp1 by (by eapply lookup_lt_Some). done. }
  rewrite list_lookup_insert_ne in Hp1 by done. exists p0, p1. split_and!; try done;
    match goal with |- (2 ≤ ?x)%nat => destruct x as [|[|]]; [congruence..|lia] end.
Qed.

(** [close(fd); dup(p); close(p0); close(p1)] *)
Lemma dup_std t p0 p1 p fd o : std t → (fd = 0 ∨ fd = 1)%nat → p0 ≠ p1 → (2 ≤ p0)%nat → (2 ≤ p1)%nat → (2 ≤ p)%nat →
  ∀ t', t' !! p = Some (Some o) → (∀ j, j ≠ p0 → j ≠ p1 → t' !! j = t !! j) → length t' = length t →
  t !! p0 = Some None → t !! p1 = Some None →
  fd_close p1 (fd_close p0 (fd_dup p (fd_close fd t'))) = <[fd := Some o]> t.
Proof.
  intros ((i & o' & H0 & H1) & _) Hfd Hne Hp0 Hp1 Hp t' Ht' Hj Hlen Hn0 Hn1. unfold fd_dup, fd_close.
  rewrite list_lookup_insert_ne by lia. rewrite Ht'.
  rewrite (fd_alloc_first o _ fd).
  - apply list_eq. intros j. rewrite !list_lookup_insert, !length_insert, Hlen.
    pose proof (lookup_lt_Some _ _ _ H0). pose proof (lookup_lt_Some _ _ _ H1).
    pose proof (lookup_lt_Some _ _ _ Hn0). pose proof (lookup_lt_Some _ _ _ Hn1).
    repeat case_decide; destruct_and?; subst; try done; try lia; try congruence; apply Hj; intros ->; naive_solver.
  - rewrite list_lookup_insert_eq; [done|]. rewrite Hlen. destruct Hfd as [->| ->]; by eapply lookup_lt_Some.
  - intros j Hlt. assert (fd = 1 ∧ j = 0)%nat as [-> ->] by lia. rewrite list_lookup_insert_ne, Hj by lia. by rewrite H0.
Qed.

Lemma std_insert t fd o : std t → (fd = 0 ∨ fd = 1)%nat → std (<[fd := Some o]> t).
Proof.
  intros ((i & o' & H0 & H1) & p & q & Hpq & Hp & Hq) Hfd.
  assert (∀ j, j ≠ fd → <[fd := Some o]> t !! j = t !! j) as Hj by (intros; by rewrite list_lookup_insert_ne).
  assert (<[fd := Some o]> t !! fd = Some (Some o)) as Hf.
  { apply list_lookup_insert_eq. destruct Hfd as [->| ->]; by eapply lookup_lt_Some. }
  assert (p ≠ fd ∧ q ≠ fd) as [? ?] by (split; intros ->; destruct Hfd as [->| ->]; congruence).
  split; [|exists p, q; by rewrite !Hj].
  destruct Hfd as [->| ->]; [exists o, o'|exists i, o]; (split; [|]); rewrite ?Hj by lia; done.
Qed.

End wired.

(** ** The loop of the shell *)

Lemma cstr_ld m l : ∀ a n, ld_bytes m a (S (length l)) = l ++ [0] → Forall (λ c, c ≠ 0) l → (length l < n)%nat → cstr n m a = l.
Proof.
  induction l as [|c l IH]; intros a n Hm Hl Hn; (destruct n as [|n]; [cbn in Hn; lia|]); cbn [cstr].
  - cbn in Hm. injection Hm as ->. done.
  - change (ld8 m a :: ld_bytes m (a + 1) (S (length l)) = c :: (l ++ [0])) in Hm. injection Hm as -> Hm.
    apply list.Forall_cons in Hl as [Hc Hl]. rewrite (proj2 (Z.eqb_neq c 0) Hc). f_equal. apply IH; [done|done|cbn in Hn; lia].
Qed.

Lemma strlen_ld m l : ∀ s n (fuel : nat), ld_bytes m (s + n) (S (length l)) = l ++ [0] → Forall (λ c, c ≠ 0) l → (length l < fuel)%nat →
  Ulib.strlen_loop fuel m s n = Some (n + length l).
Proof.
  induction l as [|c l IH]; intros s n fuel Hm Hl Hn; (destruct fuel as [|fuel]; [cbn in Hn; lia|]); cbn [Ulib.strlen_loop].
  - cbn in Hm. injection Hm as ->. cbn. by rewrite Z.add_0_r.
  - change (ld8 m (s + n) :: ld_bytes m (s + n + 1) (S (length l)) = c :: (l ++ [0])) in Hm. injection Hm as -> Hm.
    apply list.Forall_cons in Hl as [Hc Hl]. rewrite (proj2 (Z.eqb_neq c 0) Hc).
    rewrite <- Z.add_assoc in Hm. rewrite (IH s (n + 1) fuel Hm Hl); [f_equal; cbn; lia|cbn in Hn; lia].
Qed.

Definition line_ok (l : list Z) : Prop := Forall (λ c, 0 < c < 256 ∧ c ≠ 10 ∧ c ≠ 13) l ∧ (length l < 99)%nat.

Lemma line_of_nl l rest : ∀ n, Forall (λ c, 0 < c < 256 ∧ c ≠ 10 ∧ c ≠ 13) l → (length l < n)%nat →
  Ulib.line_of n (l ++ 10 :: rest) = l ++ [10].
Proof.
  induction l as [|c l IH]; intros n Hl Hn; (destruct n as [|n]; [cbn in Hn; lia|]); cbn; [done|].
  apply list.Forall_cons in Hl as [Hc Hl]. rewrite (proj2 (Z.eqb_neq c 10)), (proj2 (Z.eqb_neq c 13)) by lia. cbn.
  rewrite IH; [done|done|cbn in Hn; lia].
Qed.

Lemma getcmd_line m buf l rest : line_ok l → Forall (λ c, 0 ≤ c < 256) rest →
  ∃ m', getcmd m buf LINESIZE (l ++ 10 :: rest) = (m', rest, 0) ∧ ld_bytes m' buf (S (length (l ++ [10]))) = (l ++ [10]) ++ [0].
Proof.
  intros [Hl Hn] Hr. unfold getcmd. destruct (Ulib.gets_line (Ulib.memset m buf 0 LINESIZE) buf LINESIZE (l ++ 10 :: rest)) as (m' & E & Hm); [done| |].
  { rewrite list.Forall_app, list.Forall_cons. split; [|split; [lia|done]]. eapply list.Forall_impl; [exact Hl|]. cbn. lia. }
  rewrite line_of_nl in E, Hm by done. exists m'. rewrite E. rewrite length_app. cbn [length].
  replace (drop (length l + 1) (l ++ 10 :: rest)) with rest.
  2:{ rewrite <- drop_drop, drop_app_length. done. }
  split; [|by rewrite length_app in Hm]. do 2 f_equal.
  destruct l as [|c l]; cbn in Hm; injection Hm as Hh _; rewrite Hh; [done|].
  apply list.Forall_cons in Hl as [Hc _]. by rewrite (proj2 (Z.eqb_neq c 0)) by lia.
Qed.

(** What a line is for. *)
Definition action_of (l : list Z) : action :=
  if decide (take 3 l = [99; 100; 32]) then Chdir (drop 3 l) else Command (l ++ [10]).

Lemma lines_bytes ls : Forall line_ok ls → Forall (λ c, 0 ≤ c < 256) (concat ((λ l, l ++ [10]) <$> ls)).
Proof.
  induction 1 as [|l ls [Hl _] Hls IH]; cbn; [constructor|]. rewrite !list.Forall_app, list.Forall_singleton. split; [|done].
  split; [|lia]. eapply list.Forall_impl; [exact Hl|]. cbn. lia.
Qed.

(** The test for cd. *)
Lemma line_head m buf l : ld_bytes m buf (S (length (l ++ [10]))) = (l ++ [10]) ++ [0] →
  (ld8 m buf =? 99) && (ld8 m (buf + 1) =? 100) && (ld8 m (buf + 2) =? 32) = bool_decide (take 3 l = [99; 100; 32]).
Proof.
  intros H. assert (∀ i : nat, (i < S (length (l ++ [10%Z])))%nat → Some (ld8 m (buf + i)) = ((l ++ [10]) ++ [0]) !! i) as Hi.
  { intros i Hi. by rewrite <- H, lookup_ld_bytes. }
  pose proof (Hi 0%nat) as H0. pose proof (Hi 1%nat) as H1. pose proof (Hi 2%nat) as H2. rewrite Z.add_0_r in H0.
  change (Z.of_nat 1) with 1 in H1. change (Z.of_nat 2) with 2 in H2. clear H Hi.
  destruct l as [|c0 [|c1 [|c2 l]]]; cbn in H0, H1, H2; injection (H0 ltac:(lia)) as ->; injection (H1 ltac:(lia)) as ->.
  - by rewrite bool_decide_false by done.
  - rewrite bool_decide_false by done. by rewrite andb_false_r.
  - injection (H2 ltac:(lia)) as ->. rewrite bool_decide_false by done. by rewrite andb_false_r.
  - injection (H2 ltac:(lia)) as ->. cbn [take]. destruct (Z.eqb_spec c0 99), (Z.eqb_spec c1 100), (Z.eqb_spec c2 32); cbn;
      case_bool_decide as D; simplify_eq; try done; destruct D; by subst.
Qed.

(** Chopping the newline. *)
Lemma chop_nl m buf l : ld_bytes m buf (S (length (l ++ [10]))) = (l ++ [10]) ++ [0] →
  ld_bytes (st8 m (buf + length l) 0) buf (S (length l)) = l ++ [0].
Proof.
  intros H. apply list_eq. intros i. destruct (decide (i < S (length l))%nat) as [Hi|Hi].
  - rewrite lookup_ld_bytes, ld8_st8 by done. assert (ld_bytes m buf (S (length (l ++ [10]))) !! i = ((l ++ [10]) ++ [0]) !! i) as E by by rewrite H.
    rewrite lookup_ld_bytes in E by (rewrite length_app; cbn; lia). case_decide as D.
    + assert (i = length l) as -> by lia. by rewrite lookup_app_r, Nat.sub_diag by lia.
    + rewrite E, <- app_assoc, !lookup_app_l by lia. done.
  - rewrite !lookup_ge_None_2; [done|rewrite length_app; cbn; lia|rewrite length_ld_bytes; lia].
Qed.

Lemma ld_bytes_drop m a l (k : nat) : (k ≤ length l)%nat → ld_bytes m a (S (length l)) = l ++ [0] →
  ld_bytes m (a + k) (S (length (drop k l))) = drop k l ++ [0].
Proof.
  intros Hk H. apply list_eq. intros i. rewrite length_drop. destruct (decide (i < S (length l - k))%nat) as [Hi|Hi].
  - rewrite lookup_ld_bytes by done. assert (ld_bytes m a (S (length l)) !! (k + i)%nat = (l ++ [0]) !! (k + i)%nat) as E by by rewrite H.
    rewrite lookup_ld_bytes in E by lia. rewrite <- lookup_drop, drop_app_le in E by done. rewrite <- E. do 2 f_equal. lia.
  - rewrite !lookup_ge_None_2; [done|rewrite length_app, length_drop; cbn; lia|rewrite length_ld_bytes; lia].
Qed.

(** The shell reads its input line by line, up to the end: a line that starts with
    cd changes the directory, any other line is a command.  The lines fit the
    buffer. *)
Theorem main_loop_correct m buf ls : Forall line_ok ls →
  main_loop (length ls) m buf (concat ((λ l, l ++ [10]) <$> ls)) = Some (action_of <$> ls).
Proof.
  intros Hls. revert m. induction Hls as [|l ls Hl Hls IH]; intros m.
  - assert (getcmd m buf LINESIZE [] = (st8 (Ulib.memset m buf 0 LINESIZE) buf 0, [], -1)) as E.
    { unfold getcmd, Ulib.gets. change (Z.to_nat (LINESIZE - 1)) with 99%nat. cbn [Ulib.gets_loop]. by rewrite ld8_st8, decide_True. }
    change (concat ((λ l, l ++ [10]) <$> [])) with (@nil Z). change (length []) with 0%nat. cbn [main_loop]. by rewrite E.
  - set (rest := concat ((λ l, l ++ [10]) <$> ls)) in *.
    assert (concat ((λ l, l ++ [10]) <$> l :: ls) = l ++ 10 :: rest) as -> by (cbn; by rewrite <- app_assoc).
    destruct (getcmd_line m buf l rest Hl) as (m' & E & Hm); [by apply lines_bytes|]. cbn [main_loop length]. rewrite E.
    change (0 >=? 0) with true. cbv iota. rewrite (line_head m' buf l Hm), fmap_cons. unfold action_of at 1. destruct Hl as [Hl Hn].
    assert (Forall (λ c, c ≠ 0) l) as Hnz by (eapply list.Forall_impl; [exact Hl|]; cbn; lia).
    assert (Forall (λ c, c ≠ 0) (l ++ [10])) as Hnz' by (apply list.Forall_app; split; [done|by apply list.Forall_singleton]).
    assert (length (l ++ [10]) = S (length l)) as El by (rewrite length_app; cbn; lia).
    destruct (decide (take 3 l = [99; 100; 32])) as [Hcd|Hcd].
    + rewrite bool_decide_true by done. unfold Ulib.strlen. change (Z.to_nat LINESIZE) with 100%nat.
      rewrite (strlen_ld m' (l ++ [10]) buf 0); [|by rewrite Z.add_0_r|done|lia].
      replace (buf + (0 + length (l ++ [10])) - 1) with (buf + length l) by lia. rewrite IH. cbn [fmap option_fmap option_map]. do 3 f_equal.
      assert (3 ≤ length l)%nat by (apply (f_equal length) in Hcd; rewrite length_take in Hcd; change (length [99; 100; 32]) with 3%nat in Hcd; lia).
      apply cstr_ld; [|by apply Forall_drop|rewrite length_drop; lia].
      apply (ld_bytes_drop _ _ l 3); [done|by apply chop_nl].
    + rewrite bool_decide_false by done. rewrite IH. cbn [fmap option_fmap option_map]. do 3 f_equal.
      apply cstr_ld; [done|done|]. change (Z.to_nat LINESIZE) with 100%nat. lia.
Qed.

(** ** The theorems at work *)

Definition tk (q e : nat) : tok := (q, e).

(** ls | wc > f *)
Definition ex_line : list Z := [108; 115; 32; 124; 32; 119; 99; 32; 62; 32; 102].

Lemma parsecmd_correct_witness : ∃ c b s, parsecmd ex_line = Ok (c, b) s ∧
  c = PIPE (EXEC [tk 0 2]) (REDIR (EXEC [tk 5 7]) (tk 10 11) 0x601 1) ∧
  Forall (λ t, str b t = slice ex_line t) (tokens c).
Proof.
  pose proof (parsecmd_correct ex_line ltac:(by repeat constructor)) as H.
  destruct (parsecmd ex_line) as [[c b] s|w s|s k] eqn:E; [|by vm_compute in E..].
  exists c, b, s. split; [done|]. split; [vm_compute in E; injection E as <- _ _; reflexivity|]. destruct H as [H _].
  eapply list.Forall_impl; [exact H|]. by intros t [? _].
Defined.

(** (a b &) | c < d *)
Definition ex_ast : ast := APipe (ABack (AExec [[97]; [98]])) (ARedir (AExec [[99]]) [100] O_RDONLY 0).

Lemma parsecmd_roundtrip_witness : show ex_ast = [40; 32; 97; 32; 98; 32; 38; 32; 41; 32; 124; 32; 99; 32; 60; 32; 100; 32] ∧
  ∃ c b s, parsecmd (show ex_ast) = Ok (c, b) s ∧ ast_of (str b) c = ex_ast.
Proof.
  split; [by vm_compute|]. apply parsecmd_roundtrip. cbn. unfold word. split_and!; try done; try lia; try (by eexists); by repeat constructor.
Defined.

Definition ex_sys : Sys := Build_Sys (λ _, true) (λ _ _, true) (λ _ _, true) (λ _, true).
Definition ex_fds : fds := [Some (Inherited 0); Some (Inherited 1); Some (Inherited 2); None; None; None].


(** cd a, then ls *)
Lemma main_loop_correct_witness : main_loop 2 ∅ 0 [99; 100; 32; 97; 10; 108; 115; 10] = Some [Chdir [97]; Command [108; 115; 10]].
Proof. apply (main_loop_correct ∅ 0 [[99; 100; 32; 97]; [108; 115]]). repeat constructor; try done; cbn; lia. Defined.
