(* ===== verification/Umalloc.v ===== *)
(** The user-level heap: src/user/umalloc.c.

    [malloc] and [free] keep the free blocks in a circular list in the order of
    their addresses.  The headers are a map from addresses to pointer and size;
    sizes count units of [sizeof(Header)]. *)

From S2P Require Import Prelude Machine.

Module Umalloc.

(** [sizeof(Header)] *)
Definition UNIT : Z := 16.

(** The headers, [freep] (0 for a null pointer) and the end of the heap. *)
Record heap : Type := mkHeap { h_mem : gmap Z (Z * Z); h_freep : Z; h_brk : Z }.

Definition hptr (h : heap) (a : Z) : Z := (default (0, 0) (h_mem h !! a)).1.
Definition hsize (h : heap) (a : Z) : Z := (default (0, 0) (h_mem h !! a)).2.
Definition set_ptr (a x : Z) (h : heap) : heap := mkHeap (<[a := (x, hsize h a)]> (h_mem h)) (h_freep h) (h_brk h).
Definition set_size (a x : Z) (h : heap) : heap := mkHeap (<[a := (hptr h a, u32 x)]> (h_mem h)) (h_freep h) (h_brk h).
Definition set_freep (x : Z) (h : heap) : heap := mkHeap (h_mem h) x (h_brk h).

Section umalloc.
(** The address of [base], and whether the system has memory for the heap to end
    at an address. *)
Variable BASE : Z.
Variable room : Z → bool.

(** [sbrk(n)] gives the old end of the heap.  The kernel extends the process, or
    cuts it at [sz + n], an unsigned number, if that is below [sz] (growproc in
    src/kernel/proc.c). *)
Definition sbrk (n : Z) : M heap (option Z) := λ h,
  let n := s32 n in
  let sz := u64 (h_brk h + n) in
  if 0 <? n then
    if room (h_brk h + n) then Ok (Some (h_brk h)) (mkHeap (h_mem h) (h_freep h) (h_brk h + n)) else Ok None h
  else Ok (Some (h_brk h)) (mkHeap (h_mem h) (h_freep h) (if sz <? h_brk h then sz else h_brk h)).

(** The loop of [free]. *)
Fixpoint free_find (fuel : nat) (h : heap) (bp p : Z) : option Z :=
  let q := hptr h p in
  if (p <? bp) && (bp <? q) then Some p
  else if (q <=? p) && ((p <? bp) || (bp <? q)) then Some p
  else match fuel with O => None | S fuel' => free_find fuel' h bp q end.

Definition free (fuel : nat) (ap : Z) : M heap unit :=
  let bp := ap - UNIT in
  h ← gets id;
  match free_find fuel h bp (h_freep h) with
  | None => halt NoFuel
  | Some p =>
      modify (λ h, if bp + UNIT * hsize h bp =? hptr h p
                   then set_ptr bp (hptr h (hptr h p)) (set_size bp (hsize h bp + hsize h (hptr h p)) h)
                   else set_ptr bp (hptr h p) h);;
      modify (λ h, if p + UNIT * hsize h p =? bp
                   then set_ptr p (hptr h bp) (set_size p (hsize h p + hsize h bp) h)
                   else set_ptr p bp h);;
      modify (set_freep p)
  end.

(** [None] for a null pointer. *)
Definition morecore (fuel : nat) (nu : Z) : M heap (option Z) :=
  let nu := if nu <? 4096 then 4096 else nu in
  r ← sbrk (nu * UNIT);
  match r with
  | None => mret None
  | Some hp => modify (set_size hp nu);; free fuel (hp + UNIT);; h ← gets id; mret (Some (h_freep h))
  end.

Definition nunits_of (nbytes : Z) : Z := u32 ((nbytes + UNIT - 1) / UNIT + 1).

(** A block that is large enough was found at [p]. *)
Definition take_block (nunits prevp p : Z) : M heap (option Z) :=
  h ← gets id;
  (if hsize h p =? nunits then modify (set_ptr prevp (hptr h p));; mret p
   else
     modify (set_size p (hsize h p - nunits));;
     h ← gets id;
     let p := p + UNIT * hsize h p in
     modify (set_size p nunits);; mret p) ≫= λ p,
  modify (set_freep prevp);; mret (Some (p + UNIT)).

Fixpoint malloc_loop (fuel : nat) (nunits prevp p : Z) : M heap (option Z) :=
  h ← gets id;
  if nunits <=? hsize h p then take_block nunits prevp p
  else
    match fuel with
    | O => halt NoFuel
    | S fuel' =>
        if p =? h_freep h then
          r ← morecore fuel nunits;
          match r with
          | None => mret None
          | Some p => h ← gets id; malloc_loop fuel' nunits p (hptr h p)
          end
        else malloc_loop fuel' nunits p (hptr h p)
    end.

Definition malloc (fuel : nat) (nbytes : Z) : M heap (option Z) :=
  let nunits := nunits_of nbytes in
  h ← gets id;
  when (h_freep h =? 0) (modify (λ h, set_size BASE 0 (set_ptr BASE BASE (set_freep BASE h))));;
  h ← gets id;
  malloc_loop fuel nunits (h_freep h) (hptr h (h_freep h)).
End umalloc.
End Umalloc.
