(* ===== verification/UmallocSpec.v ===== *)
(** Correctness of the user-level heap: the blocks handed out are disjoint from each
    other and from the free list, the free list stays sorted and coalesced, no
    memory is lost, and the loops over the circular list end. *)

From S2P Require Import Prelude Machine Umalloc.
Import Umalloc.

(** Membership in a list made of parts. *)
Ltac elem := repeat (rewrite elem_of_app || rewrite elem_of_cons); intuition auto.

(** ** Blocks *)

(** A block: the address of its header and its size in units. *)
Abbreviation block := (Z * Z)%type.
Definition endof (x : block) : Z := x.1 + UNIT * x.2.
Definition sep (x y : block) : Prop := endof x ≤ y.1 ∨ endof y ≤ x.1.

Fixpoint disj (l : list block) : Prop :=
  match l with [] => True | x :: l' => Forall (sep x) l' ∧ disj l' end.

#[global] Instance sep_sym : Symmetric sep.
Proof. intros x y [?|?]; [right|left]; done. Qed.

#[global] Instance disj_perm : Proper ((≡ₚ) ==> iff) disj.
Proof.
  assert (H : ∀ l l', l ≡ₚ l' → disj l → disj l').
  { induction 1 as [|x l l' Hp IH|x y l|l1 l2 l3 _ IH1 _ IH2]; cbn; [done| | |by auto].
    - intros [Hx ?]. split; [by rewrite <- Hp|auto].
    - intros [[Hxy Hx]%list.Forall_cons [Hy ?]]. split_and!; [|done|done]. constructor; [by symmetry|done]. }
  intros l l' Hp. split; [by apply H|by apply H; symmetry].
Qed.

Definition units (l : list block) : Z := foldr (λ x n, x.2 + n) 0 l.
#[global] Instance units_perm : Proper ((≡ₚ) ==> (=)) units.
Proof. unfold units. induction 1; cbn; lia. Qed.
Lemma units_app l1 l2 : units (l1 ++ l2) = units l1 + units l2.
Proof. unfold units. induction l1; cbn; lia. Qed.
Lemma units_cons x l : units (x :: l) = x.2 + units l.
Proof. done. Qed.
Ltac units := repeat (rewrite units_app || rewrite units_cons); cbn [fst snd]; lia.

(** Two adjacent blocks are as good as one. *)
Lemma disj_merge a s t l : 0 ≤ s → 0 ≤ t → Forall (λ x, 1 ≤ x.2 ∨ endof x < a) l → disj ((a, s) :: (a + UNIT * s, t) :: l) ↔ disj ((a, s + t) :: l).
Proof.
  intros Hs Ht Hl. cbn [disj]. rewrite list.Forall_cons. unfold sep, endof, UNIT in *. cbn [fst snd]. split.
  - intros [[_ H1] [H2 H3]]. split; [|done]. rewrite list.Forall_forall in *. intros x Hx. specialize (H1 x Hx). specialize (H2 x Hx). specialize (Hl x Hx). cbn in *. lia.
  - intros [H1 H3]. split_and!; [lia| | |done]; rewrite list.Forall_forall in *; intros x Hx; specialize (H1 x Hx); specialize (Hl x Hx); cbn in *; lia.
Qed.

(** ** The circular list *)

Section list.
Variable BASE : Z.

(** The address that follows the nodes before [l]. *)
Definition nxt (l : list block) : Z := match l with [] => BASE | x :: _ => x.1 end.

(** The headers of [l] are linked in this order, the last one to [BASE]. *)
Fixpoint linked (m : gmap Z (Z * Z)) (l : list block) : Prop :=
  match l with [] => True | x :: l' => m !! x.1 = Some (nxt l', x.2) ∧ linked m l' end.

(** In the order of the addresses, with a gap between neighbours. *)
Fixpoint sorted (l : list block) : Prop :=
  match l with [] => True | x :: l' => Forall (λ y, endof x < y.1) l' ∧ sorted l' end.

Lemma sorted_app l1 l2 : sorted (l1 ++ l2) ↔ sorted l1 ∧ sorted l2 ∧ Forall (λ x, Forall (λ y, endof x < y.1) l2) l1.
Proof.
  induction l1 as [|x l1 IH]; cbn; [intuition; constructor|]. rewrite Forall_app, IH, list.Forall_cons. tauto.
Qed.

Lemma linked_lookup m l1 x l2 : linked m (l1 ++ x :: l2) → m !! x.1 = Some (nxt l2, x.2).
Proof. induction l1 as [|y l1 IH]; cbn; [by intros [? _]|]. intros [_ ?]. auto. Qed.

Lemma linked_mono m m' l : linked m l → (∀ x, x ∈ l → m' !! x.1 = m !! x.1) → linked m' l.
Proof.
  induction l as [|y l IH]; cbn; [done|]. intros [Hy ?] Hm. split; [rewrite Hm; [done|apply list_elem_of_here]|]. apply IH; [done|]. intros x Hx. by apply Hm, list_elem_of_further.
Qed.

(** The nodes before a place point to what is there. *)
Lemma linked_app_mono m m' l1 l2 l3 : linked m (l1 ++ l2) → nxt l3 = nxt l2 → (∀ x, x ∈ l1 → m' !! x.1 = m !! x.1) → linked m' l3 → linked m' (l1 ++ l3).
Proof.
  intros H Hn Hm H3. induction l1 as [|y l1 IH]; [done|]. cbn in *. destruct H as [Hy H]. split.
  - rewrite Hm by apply list_elem_of_here. rewrite Hy. do 2 f_equal. destruct l1; [by symmetry|done].
  - apply IH; [done|]. intros x Hx. by apply Hm, list_elem_of_further.
Qed.

Lemma hptr_linked h l1 x l2 : linked (h_mem h) (l1 ++ x :: l2) → hptr h x.1 = nxt l2 ∧ hsize h x.1 = x.2.
Proof. intros H%linked_lookup. unfold hptr, hsize. by rewrite H. Qed.

Lemma find_forward h bp B : ∀ l1 x fuel, linked (h_mem h) (l1 ++ x :: B) → sorted (x :: B) → 0 ≤ x.2 → BASE ≤ x.1 → x.1 < bp →
  Forall (λ z, 0 ≤ z.2 ∧ z.1 ≠ bp) B → (length B ≤ fuel)%nat →
  ∃ B1 y B2, x :: B = B1 ++ y :: B2 ∧ y.1 < bp ∧ Forall (λ z, bp < z.1) B2 ∧ free_find fuel h bp x.1 = Some y.1.
Proof.
  induction B as [|z B IH]; intros l1 x fuel Hl Hs Hx0 Hxb Hx HB Hf; destruct (hptr_linked _ _ _ _ Hl) as [Ep _]; cbn [nxt] in Ep.
  - exists [], x, []. split_and!; [done|done|done|]. destruct fuel; cbn [free_find]; rewrite Ep, (proj2 (Z.ltb_lt _ _) Hx); cbn;
      rewrite (proj2 (Z.leb_le _ _) Hxb); by destruct (bp <? BASE).
  - destruct Hs as [[Hxz _]%list.Forall_cons Hs]. apply list.Forall_cons in HB as [[Hz0 Hz] HB]. unfold endof, UNIT in Hxz.
    destruct (decide (bp < z.1)) as [Hlt|Hge].
    + exists [], x, (z :: B). split_and!; [done|done| |].
      * constructor; [done|]. destruct Hs as [Hs _]. eapply list.Forall_impl; [exact Hs|]. cbn. unfold endof, UNIT. lia.
      * destruct fuel; cbn [free_find]; rewrite Ep, (proj2 (Z.ltb_lt _ _) Hx), (proj2 (Z.ltb_lt _ _) Hlt); done.
    + destruct fuel as [|fuel]; [cbn in Hf; lia|]. destruct (IH (l1 ++ [x]) z fuel) as (B1 & y & B2 & E & Hy & HB2 & Er); [by rewrite <- app_assoc|done|done|lia|lia|done|cbn in Hf; lia|].
      exists (x :: B1), y, B2. split_and!; [by rewrite E|done|done|]. rewrite <- Er. cbn [free_find]. rewrite Ep.
      rewrite (proj2 (Z.ltb_ge bp z.1)), andb_false_r by lia. rewrite (proj2 (Z.leb_gt z.1 x.1)) by lia. done.
Qed.

Lemma find_around h bp B : ∀ l1 x fuel, linked (h_mem h) (l1 ++ x :: B) → sorted (x :: B) → 0 ≤ x.2 → BASE < x.1 → bp < x.1 → BASE < bp →
  Forall (λ z, 0 ≤ z.2) B → free_find (S (length B) + fuel) h bp x.1 = free_find fuel h bp BASE.
Proof.
  induction B as [|z B IH]; intros l1 x fuel Hl Hs Hx0 Hxb Hx Hb HB; destruct (hptr_linked _ _ _ _ Hl) as [Ep _]; cbn [nxt] in Ep;
    cbn [length Nat.add free_find]; rewrite Ep, (proj2 (Z.ltb_ge x.1 bp)) by lia; cbn [andb orb].
  - by rewrite (proj2 (Z.ltb_ge bp BASE)), andb_false_r by lia.
  - destruct Hs as [[Hxz _]%list.Forall_cons Hs]. apply list.Forall_cons in HB as [Hz0 HB]. unfold endof, UNIT in Hxz.
    rewrite (proj2 (Z.leb_gt z.1 x.1)) by lia. cbn [andb]. apply (IH (l1 ++ [x]) z fuel); [by rewrite <- app_assoc|done|done|lia|lia|done|done].
Qed.

(** The loop of [free] stops at the node before the block, wherever it starts. *)
Lemma free_find_run h L bp fuel : linked (h_mem h) ((BASE, 0) :: L) → sorted ((BASE, 0) :: L) → h_freep h ∈ ((BASE, 0) :: L).*1 →
  Forall (λ z, 0 ≤ z.2 ∧ z.1 ≠ bp) L → BASE < bp → (2 * S (length L) ≤ fuel)%nat →
  ∃ N1 y N2, (BASE, 0) :: L = N1 ++ y :: N2 ∧ y.1 < bp ∧ Forall (λ z, bp < z.1) N2 ∧ free_find fuel h bp (h_freep h) = Some y.1.
Proof.
  intros Hl Hs Hf HL Hb Hfuel. apply list_elem_of_fmap in Hf as (x & Ex & (N1 & N2 & EN)%list_elem_of_split). rewrite Ex.
  assert (Hlen : (length N1 + S (length N2) = S (length L))%nat) by (apply (f_equal length) in EN; rewrite length_app in EN; cbn in EN; lia).
  assert (HN : Forall (λ z, 0 ≤ z.2 ∧ z.1 ≠ bp ∧ BASE ≤ z.1) ((BASE, 0) :: L)).
  { destruct Hs as [Hs _]. constructor; [cbn; lia|]. rewrite list.Forall_forall in *. intros z Hz. specialize (HL z Hz). specialize (Hs z Hz). unfold endof in Hs. cbn in *. lia. }
  pose proof Hl as Hl'. pose proof Hs as Hs'. rewrite EN in Hl', Hs', HN. apply sorted_app in Hs' as (_ & Hs' & _).
  apply Forall_app in HN as [HN1 [(Hx0 & Hxb & HxB) HN2]%list.Forall_cons].
  destruct (decide (x.1 < bp)) as [Hlt|Hge].
  - destruct (find_forward h bp N2 N1 x fuel) as (B1 & y & B2 & E & Hy & HB2 & Er); [done|done|done|done|done| |lia|].
    { eapply list.Forall_impl; [exact HN2|]. cbn. tauto. }
    exists (N1 ++ B1), y, B2. by rewrite EN, E, <- app_assoc.
  - replace fuel with (S (length N2) + (fuel - S (length N2)))%nat by lia. rewrite (find_around h bp N2 N1 x); [|done|done|done|lia|lia|done|].
    2:{ eapply list.Forall_impl; [exact HN2|]. cbn. tauto. }
    destruct (find_forward h bp L [] (BASE, 0) (fuel - S (length N2))) as (B1 & y & B2 & E & Hy & HB2 & Er); [done|done|done|done|done|done|lia|].
    by exists B1, y, B2.
Qed.

(** ** The invariant *)

Variable lo : Z.

(** The first node is [base], of size 0; the others are in the heap. *)
Definition real (brk : Z) (x : block) : Prop := 1 ≤ x.2 ∧ lo ≤ x.1 ∧ endof x ≤ brk.
Definition node (brk : Z) (x : block) : Prop := x = (BASE, 0) ∨ real brk x.

(** The free list [N] and the blocks in use [A] share out the heap. *)
Record heap_ok (h : heap) (N A : list block) : Prop := {
  hk_head : head N = Some (BASE, 0);
  hk_linked : linked (h_mem h) N;
  hk_sorted : sorted N;
  hk_freep : h_freep h ∈ N.*1;
  hk_nodes : Forall (node (h_brk h)) N;
  hk_real : Forall (real (h_brk h)) A;
  hk_alloc : Forall (λ x, ∃ p, h_mem h !! x.1 = Some (p, x.2)) A;
  hk_disj : disj (N ++ A);
  hk_units : UNIT * units (N ++ A) = h_brk h - lo;
  hk_brk : h_brk h < 2 ^ 36 }.

Hypothesis lo_pos : BASE < lo ∧ 0 ≤ lo.

Lemma node_size brk x : node brk x → 0 ≤ x.2.
Proof. intros [->|[? _]]; cbn; lia. Qed.

Lemma disj_sep l1 x l2 y : disj (l1 ++ x :: l2) → y ∈ l1 ++ l2 → sep x y.
Proof. rewrite <- Permutation_middle. intros [H _] Hy. by apply (proj1 (list.Forall_forall _ _) H). Qed.

Lemma rest_ok h N A a : heap_ok h N A → lo ≤ a → Forall (λ x, 1 ≤ x.2 ∨ endof x < a) (N ++ A).
Proof using lo_pos.
  intros H Ha. apply Forall_app. split.
  - eapply list.Forall_impl; [apply (hk_nodes _ _ _ H)|]. intros x [->|[? _]]; [right; unfold endof; cbn; lia|by left].
  - eapply list.Forall_impl; [apply (hk_real _ _ _ H)|]. intros x [? _]. by left.
Qed.

Lemma swap_out (N1 R A : list block) y z x : (N1 ++ y :: z :: R) ++ x :: A ≡ₚ x :: z :: N1 ++ y :: R ++ A.
Proof.
  rewrite <- (Permutation_middle _ A). constructor. rewrite <- app_assoc. cbn. by rewrite (perm_swap z y), <- Permutation_middle.
Qed.

(** The first half of [free]: the block absorbs the free block behind it. *)
Lemma absorb_right h N1 y N2 A bp s : heap_ok h (N1 ++ y :: N2) ((bp, s) :: A) → y.1 < bp → Forall (λ z, bp < z.1) N2 →
  ∃ t R, (if bp + UNIT * hsize h bp =? hptr h y.1
          then set_ptr bp (hptr h (hptr h y.1)) (set_size bp (hsize h bp + hsize h (hptr h y.1)) h)
          else set_ptr bp (hptr h y.1) h) = mkHeap (<[bp := (nxt R, t)]> (h_mem h)) (h_freep h) (h_brk h) ∧
    s ≤ t ∧ real (h_brk h) (bp, t) ∧ Forall (λ z, endof (bp, t) < z.1) R ∧ (∃ N3, N2 = N3 ++ R) ∧
    disj ((bp, t) :: N1 ++ y :: R ++ A) ∧ units ((bp, t) :: N1 ++ y :: R ++ A) = units ((N1 ++ y :: N2) ++ (bp, s) :: A).
Proof.
  intros H Hy HN2. pose proof (hk_real _ _ _ H) as [Hbp HA]%list.Forall_cons. pose proof (hk_alloc _ _ _ H) as [[pp Hm] _]%list.Forall_cons. cbn in Hm.
  destruct (hptr_linked h N1 y N2) as [Ep _]; [apply H|]. assert (Es : hsize h bp = s) by (unfold hsize; by rewrite Hm). rewrite Ep, Es.
  pose proof (hk_disj _ _ _ H) as Hd. pose proof (hk_brk _ _ _ H) as Hbrk. destruct Hbp as (Hs1 & Hlo & Hend). unfold endof, UNIT in *. cbn [fst snd] in *.
  destruct (Z.eqb_spec (bp + 16 * s) (nxt N2)) as [E|E].
  - destruct N2 as [|z R]; [cbn in E; lia|]. cbn [nxt] in E |- *. destruct (hptr_linked h (N1 ++ [y]) z R) as [Ez Esz]; [rewrite <- app_assoc; apply H|].
    assert (Hz : node (h_brk h) z) by (apply (proj1 (list.Forall_forall _ _) (hk_nodes _ _ _ H)); elem).
    apply list.Forall_cons in HN2 as [Hbz HR]. destruct Hz as [->|(Hz1 & Hzlo & Hzend)]; [cbn in Hbz; lia|]. unfold endof, UNIT in Hzend.
    exists (s + z.2), R. rewrite Ez, Esz. split_and!.
    + unfold set_ptr, set_size, hsize. cbn. rewrite lookup_insert_eq, insert_insert_eq. cbn. unfold u32. rewrite Z.mod_small by lia. done.
    + lia.
    + unfold real, endof, UNIT. cbn. lia.
    + pose proof (hk_sorted _ _ _ H) as (_ & (_ & HzR & _) & _)%sorted_app. eapply list.Forall_impl; [exact HzR|]. cbn. unfold endof, UNIT. lia.
    + by exists [z].
    + assert (P : (N1 ++ y :: z :: R) ++ (bp, s) :: A ≡ₚ (bp, s) :: (bp + UNIT * s, z.2) :: N1 ++ y :: R ++ A).
      { replace (bp + UNIT * s, z.2) with z by (destruct z; cbn in *; unfold UNIT; congruence). apply swap_out. }
      rewrite P in Hd. apply disj_merge in Hd; [done|lia|lia|].
      pose proof (rest_ok _ _ _ bp H Hlo) as Hr. rewrite P in Hr. by inversion Hr as [|? ? _ Hr']; inversion Hr'.
    + rewrite swap_out. cbn. lia.
  - exists s, N2. split_and!.
    + unfold set_ptr, hsize. by rewrite Hm.
    + lia.
    + done.
    + pose proof (hk_sorted _ _ _ H) as (_ & [_ HsN2] & _)%sorted_app. pose proof (hk_nodes _ _ _ H) as [_ [_ Hn2]%list.Forall_cons]%Forall_app.
      destruct N2 as [|w N2]; [constructor|]. cbn [nxt] in E. apply list.Forall_cons in HN2 as [Hw _]. apply list.Forall_cons in Hn2 as [Hnw _]. apply node_size in Hnw.
      assert (Hlt : endof (bp, s) < w.1).
      { destruct (disj_sep (N1 ++ y :: w :: N2) (bp, s) A w Hd) as [Hse|Hse]; [elem| |]; unfold endof, UNIT in *; cbn in *; lia. }
      constructor; [done|]. destruct HsN2 as [HsN2 _]. eapply list.Forall_impl; [exact HsN2|]. cbn. unfold endof, UNIT in *. cbn in *. lia.
    + by exists [].
    + rewrite <- Permutation_middle in Hd. by rewrite <- app_assoc in Hd.
    + rewrite <- (Permutation_middle _ A). by rewrite <- app_assoc.
Qed.

(** The list from a node on is replaced. *)
Lemma splice h m' N1 y N2 A0 A Y : heap_ok h (N1 ++ y :: N2) A0 →
  nxt Y = y.1 → (y = (BASE, 0) → head Y = Some (BASE, 0)) → Y ≠ [] →
  (∀ x : block, x.1 < y.1 → m' !! x.1 = h_mem h !! x.1) → linked m' Y → sorted Y → Forall (λ x, y.1 ≤ x.1) Y → Forall (node (h_brk h)) Y →
  Forall (real (h_brk h)) A → Forall (λ x, ∃ p, m' !! x.1 = Some (p, x.2)) A → disj ((N1 ++ Y) ++ A) →
  UNIT * units ((N1 ++ Y) ++ A) = h_brk h - lo → heap_ok (mkHeap m' y.1 (h_brk h)) (N1 ++ Y) A.
Proof.
  intros H Hn Hh HY Hm Hl Hs Hge HYn HA Hal Hd Hu. pose proof (hk_nodes _ _ _ H) as [Hn1 _]%Forall_app.
  pose proof (hk_sorted _ _ _ H) as (Hs1 & _ & Hs1y)%sorted_app.
  assert (Hlt : ∀ x, x ∈ N1 → endof x < y.1).
  { intros x Hx. apply (proj1 (list.Forall_forall _ _) Hs1y) in Hx. by inversion Hx. }
  constructor; cbn; try done.
  - destruct N1 as [|n1 N1]; [|apply H]. apply Hh. pose proof (hk_head _ _ _ H) as E. cbn in E. congruence.
  - eapply (linked_app_mono (h_mem h)); [apply H|done| |done]. intros x Hx. apply Hm. pose proof (Hlt x Hx) as Hx'.
    pose proof (node_size _ _ (proj1 (list.Forall_forall _ _) Hn1 x Hx)). unfold endof, UNIT in Hx'. lia.
  - apply sorted_app. split_and!; [done|done|]. apply list.Forall_forall. intros x Hx. specialize (Hlt x Hx).
    eapply list.Forall_impl; [exact Hge|]. cbn. lia.
  - destruct Y as [|w Y]; [done|]. cbn in Hn. rewrite <- Hn, fmap_app. cbn. elem.
  - by apply Forall_app.
  - apply H.
Qed.

(** The second half: the node before the block absorbs it, or points to it. *)
Lemma link_left h N1 y N2 A bp s t R : heap_ok h (N1 ++ y :: N2) ((bp, s) :: A) → y.1 < bp →
  let h1 := mkHeap (<[bp := (nxt R, t)]> (h_mem h)) (h_freep h) (h_brk h) in
  s ≤ t → real (h_brk h) (bp, t) → Forall (λ z, endof (bp, t) < z.1) R → (∃ N3, N2 = N3 ++ R) →
  disj ((bp, t) :: N1 ++ y :: R ++ A) → units ((bp, t) :: N1 ++ y :: R ++ A) = units ((N1 ++ y :: N2) ++ (bp, s) :: A) →
  ∃ N', heap_ok (set_freep y.1 (if y.1 + UNIT * hsize h1 y.1 =? bp
          then set_ptr y.1 (hptr h1 bp) (set_size y.1 (hsize h1 y.1 + hsize h1 bp) h1) else set_ptr y.1 bp h1)) N' A ∧
    (length N' ≤ S (length (N1 ++ y :: N2)))%nat ∧ ∃ x, x ∈ N' ∧ s ≤ x.2.
Proof using lo_pos.
  intros H Hy h1 Hst Hbp HR [N3 ->] Hd Hu. destruct (hptr_linked h N1 y (N3 ++ R)) as [_ Esy]; [apply H|].
  assert (Esy1 : hsize h1 y.1 = y.2) by (unfold hsize, h1 in *; cbn; rewrite lookup_insert_ne by lia; done).
  assert (hptr h1 bp = nxt R ∧ hsize h1 bp = t) as [Epb Esb] by (unfold hptr, hsize, h1; cbn; by rewrite lookup_insert_eq).
  rewrite Esy1, Epb, Esb.
  pose proof (hk_nodes _ _ _ H) as [_ [Hny [_ HnR]%Forall_app]%list.Forall_cons]%Forall_app.
  pose proof (hk_sorted _ _ _ H) as (_ & [_ (_ & HsR & _)%sorted_app] & _)%sorted_app.
  pose proof (hk_real _ _ _ H) as [_ HA]%list.Forall_cons. pose proof (hk_alloc _ _ _ H) as [_ Hal]%list.Forall_cons. pose proof (hk_brk _ _ _ H).
  assert (Hy0 : 0 ≤ y.2) by (by eapply node_size). destruct Hbp as (Ht & Hblo & Hbend). pose proof Hd as [Hdb Hd'].
  assert (Hyb : endof y ≤ bp).
  { assert (sep (bp, t) y) as S1 by (apply (proj1 (list.Forall_forall _ _) Hdb); elem). unfold sep, endof, UNIT, real in *. cbn in *. lia. }
  assert (HR' : ∀ x, x ∈ R → bp < x.1).
  { intros x Hx. apply (proj1 (list.Forall_forall _ _) HR) in Hx. unfold endof, UNIT in Hx. cbn in Hx, Ht. lia. }
  assert (HyA : ∀ x, x ∈ A → x.1 ≠ y.1 ∧ x.1 ≠ bp).
  { intros x Hx. pose proof (proj1 (list.Forall_forall _ _) HA x Hx) as (? & ? & _).
    assert (sep (bp, t) x) as S1 by (apply (proj1 (list.Forall_forall _ _) Hdb); elem).
    assert (sep y x) as S2 by (apply (disj_sep N1 y (R ++ A)); [done|elem]).
    unfold sep, endof, UNIT in *. cbn in *. destruct Hny as [->|(? & ? & _)]; cbn in *; lia. }
  assert (Hl : ∀ v, linked (<[y.1 := v]> (<[bp := (nxt R, t)]> (h_mem h))) R).
  { intros v. apply (linked_mono (h_mem h)); [|intros x Hx; rewrite !lookup_insert_ne; [done|specialize (HR' x Hx); lia..]].
    pose proof (hk_linked _ _ _ H) as Hl. clear -Hl. assert (E : N1 ++ y :: N3 ++ R = (N1 ++ y :: N3) ++ R) by (by rewrite <- app_assoc). rewrite E in Hl.
    clear E. induction (N1 ++ y :: N3); [done|]. apply IHl. apply Hl. }
  assert (Ha : ∀ v, Forall (λ x, ∃ p, (<[y.1 := v]> (<[bp := (nxt R, t)]> (h_mem h))) !! x.1 = Some (p, x.2)) A).
  { intros v. rewrite list.Forall_forall in *. intros x Hx. specialize (HyA x Hx). rewrite !lookup_insert_ne by lia. by apply Hal. }
  destruct (Z.eqb_spec (y.1 + UNIT * y.2) bp) as [E|E].
  - exists (N1 ++ (y.1, y.2 + t) :: R). split_and!; [|rewrite !length_app; cbn; rewrite length_app; lia|exists (y.1, y.2 + t); split; [elem|cbn; lia]].
    assert (real (h_brk h) y) as (? & ? & ?) by (destruct Hny as [->|]; [unfold UNIT in E; cbn in E, Hy; lia|done]). unfold endof, UNIT in *. cbn [fst snd] in *.
    replace (set_freep _ _) with (mkHeap (<[y.1 := (nxt R, y.2 + t)]> (<[bp := (nxt R, t)]> (h_mem h))) y.1 (h_brk h)).
    2:{ unfold set_freep, set_ptr, set_size, hsize. cbn. rewrite lookup_insert_eq, insert_insert_eq. cbn. unfold u32. rewrite Z.mod_small by lia. done. }
    eapply splice; [done|done| |done| | | | | |done|apply Ha| |].
    + intros ->. cbn in *. lia.
    + intros x Hx. by rewrite !lookup_insert_ne by lia.
    + cbn. rewrite lookup_insert_eq. done.
    + cbn. split; [|done]. eapply list.Forall_impl; [exact HR|]. unfold endof, UNIT. cbn. lia.
    + constructor; [cbn; lia|]. apply list.Forall_forall. intros x Hx. specialize (HR' x Hx). lia.
    + constructor; [|done]. right. unfold real, endof, UNIT. cbn. lia.
    + rewrite <- app_assoc. cbn [app]. rewrite <- (Permutation_middle N1).
      apply disj_merge; [done|lia| |].
      * pose proof (rest_ok _ _ _ y.1 H ltac:(lia)) as Hr. rewrite !Forall_app, !list.Forall_cons, !Forall_app in Hr. rewrite !Forall_app. tauto.
      * replace (y.1 + UNIT * y.2) with bp by (unfold UNIT; lia). destruct y as [ya ys]. cbn [fst snd]. rewrite (perm_swap (bp, t) (ya, ys)). by rewrite (Permutation_middle N1).
    + rewrite <- (hk_units _ _ _ H), <- Hu. f_equal. rewrite <- app_assoc. cbn [app]. rewrite <- !(Permutation_middle N1). cbn. lia.
  - exists (N1 ++ y :: (bp, t) :: R). split_and!; [|rewrite !length_app; cbn; rewrite length_app; lia|exists (bp, t); split; [elem|done]].
    unfold set_freep, set_ptr. cbn [h_mem h_brk]. rewrite Esy1. apply (splice h _ N1 y (N3 ++ R) ((bp, s) :: A)); [done|done|by intros ->|done| | | | | |done|apply Ha| |].
    + intros x Hx. cbn. by rewrite !lookup_insert_ne by lia.
    + cbn. rewrite lookup_insert_eq, lookup_insert_ne, lookup_insert_eq by lia. done.
    + cbn. split_and!; [|done|done]. constructor; [unfold endof, UNIT in *; cbn; lia|]. apply list.Forall_forall. intros x Hx. specialize (HR' x Hx). lia.
    + repeat constructor; [cbn; lia..|]. apply list.Forall_forall. intros x Hx. specialize (HR' x Hx). lia.
    + constructor; [done|]. constructor; [by right|done].
    + rewrite <- app_assoc. cbn. rewrite (perm_swap (bp, t) y), <- (Permutation_middle N1). done.
    + rewrite <- (hk_units _ _ _ H), <- Hu. f_equal. rewrite <- app_assoc. cbn [app]. by rewrite (perm_swap (bp, t) y), <- (Permutation_middle N1).
Qed.

Lemma free_run h N A bp s fuel : heap_ok h N ((bp, s) :: A) → (2 * length N ≤ fuel)%nat →
  ∃ h' N', free fuel (bp + UNIT) h = Ok tt h' ∧ heap_ok h' N' A ∧ h_brk h' = h_brk h ∧ (length N' ≤ S (length N))%nat ∧ ∃ x, x ∈ N' ∧ s ≤ x.2.
Proof using lo_pos.
  intros H Hf. pose proof (hk_real _ _ _ H) as [(? & ? & ?) _]%list.Forall_cons. pose proof (hk_head _ _ _ H) as Hh. destruct N as [|x N]; [done|]. injection Hh as ->.
  destruct (free_find_run h N bp fuel) as (N1 & y & N2 & EN & Hy & HN2 & Er); [apply H|apply H|apply H| |cbn in *; lia|cbn in Hf; lia|].
  { apply list.Forall_forall. intros z Hz. pose proof (node_size _ _ (proj1 (list.Forall_forall _ _) (hk_nodes _ _ _ H) z ltac:(elem))). split; [done|].
    pose proof (hk_sorted _ _ _ H) as [Hs _]. apply (proj1 (list.Forall_forall _ _) Hs) in Hz as Hz'.
    pose proof (proj1 (list.Forall_forall _ _) (hk_nodes _ _ _ H) z ltac:(elem)) as [->|(? & ? & ?)]; [unfold endof in Hz'; cbn in Hz'; lia|].
    pose proof (disj_sep ((BASE, 0) :: N) (bp, s) A z (hk_disj _ _ _ H) ltac:(cbn; elem)) as Hse. unfold sep, endof, UNIT in *. cbn in *. lia. }
  rewrite EN in H |- *. destruct (absorb_right _ _ _ _ _ _ _ H Hy HN2) as (t & R & E1 & Hst & Hr & HR & HN3 & Hd & Hu).
  destruct (link_left _ _ _ _ _ _ _ _ _ H Hy Hst Hr HR HN3 Hd Hu) as (N' & Hok & Hlen & Hx).
  eexists _, N'. split_and!; [|exact Hok| |done|done].
  - unfold free. replace (bp + UNIT - UNIT) with bp by lia. unfold mbind, M_bind, gets, modify. cbn [obind id]. rewrite Er. cbn [obind]. by rewrite E1.
  - cbn. by destruct (_ =? bp).
Qed.

(** A block that is large enough is taken off the list, or cut at its end. *)
Lemma take_run h N1 y p s N2 A nu : heap_ok h (N1 ++ y :: (p, s) :: N2) A → 1 ≤ nu → nu ≤ s →
  ∃ a h' N', take_block nu y.1 p h = Ok (Some (a + UNIT)) h' ∧ heap_ok h' N' ((a, nu) :: A) ∧ h_brk h' = h_brk h ∧ (length N' ≤ length (N1 ++ y :: (p, s) :: N2))%nat.
Proof using lo_pos.
  intros H Hnu Hs. pose proof (hk_linked _ _ _ H) as Hl. destruct (hptr_linked h N1 y ((p, s) :: N2)) as [_ Ey]; [done|].
  destruct (hptr_linked h (N1 ++ [y]) (p, s) N2) as [Ep Es]; [by rewrite <- app_assoc|]. cbn [fst snd] in Ep, Es.
  pose proof (linked_lookup _ (N1 ++ [y]) (p, s) N2 ltac:(rewrite <- app_assoc; exact Hl)) as Hmp. cbn in Hmp.
  pose proof (hk_nodes _ _ _ H) as [_ [Hny [[[= -> ->]|(Hps & Hplo & Hpend)] HnN2]%list.Forall_cons]%list.Forall_cons]%Forall_app; [lia|].
  pose proof (hk_sorted _ _ _ H) as (_ & ([Hyp HyN2]%list.Forall_cons & HpN2 & HsN2) & _)%sorted_app. cbn [fst snd] in *.
  pose proof (node_size _ _ Hny) as Hy0. pose proof (hk_disj _ _ _ H) as Hd. pose proof (hk_brk _ _ _ H) as Hbrk. unfold endof, UNIT in *. cbn [fst snd] in *.
  assert (HA : ∀ x, x ∈ A → 1 ≤ x.2 ∧ x.1 ≠ y.1 ∧ ¬ p ≤ x.1 < p + 16 * s).
  { intros x Hx. pose proof (proj1 (list.Forall_forall _ _) (hk_real _ _ _ H) x Hx) as (? & ? & _). rewrite <- app_assoc in Hd.
    assert (sep y x) as S1 by (apply (disj_sep N1 y ((p, s) :: N2 ++ A)); [done|elem]).
    assert (sep (p, s) x) as S2 by (apply (disj_sep (N1 ++ [y]) (p, s) (N2 ++ A)); [by rewrite <- app_assoc|elem]).
    unfold sep, endof, UNIT in S1, S2. cbn in S1, S2. destruct Hny as [->|(? & ? & _)]; cbn in *; lia. }
  assert (HN2 : ∀ x, x ∈ N2 → p + 16 * s < x.1) by (intros x Hx; by apply (proj1 (list.Forall_forall _ _) HpN2) in Hx).
  assert (Hlt : linked (h_mem h) N2) by (clear -Hl; induction N1; [apply Hl|]; apply IHN1, Hl).
  unfold take_block, mbind, M_bind, gets, modify, mret, M_ret. cbn [obind id]. rewrite Es. destruct (Z.eqb_spec s nu) as [->|Hne].
  - eexists p, _, (N1 ++ y :: N2). split_and!; [cbn [obind]; rewrite Ep; reflexivity| |done|rewrite !length_app; cbn; lia].
    unfold set_freep, set_ptr. cbn [h_mem h_brk]. rewrite Ey. apply (splice h _ N1 y ((p, nu) :: N2) A); [done|done|by intros ->|done| | | | | | | | |].
    + intros x Hx. by rewrite lookup_insert_ne by lia.
    + cbn. rewrite lookup_insert_eq. split; [done|]. apply (linked_mono (h_mem h)); [done|]. intros x Hx. specialize (HN2 x Hx). by rewrite lookup_insert_ne by lia.
    + split; [by unfold endof, UNIT|done].
    + constructor; [lia|]. apply list.Forall_forall. intros x Hx. specialize (HN2 x Hx). lia.
    + by constructor.
    + constructor; [done|apply H].
    + constructor; [exists (nxt N2); cbn; by rewrite lookup_insert_ne by lia|]. pose proof (hk_alloc _ _ _ H) as Hal. rewrite list.Forall_forall in *.
      intros x Hx. specialize (HA x Hx). rewrite lookup_insert_ne by lia. by apply Hal.
    + rewrite <- Permutation_middle. rewrite <- !app_assoc in *. cbn in *. by rewrite (perm_swap (p, nu) y), <- (Permutation_middle N1) in Hd.
    + rewrite <- (hk_units _ _ _ H). f_equal. units.
  - set (q := p + 16 * (s - nu)). set (h1 := set_size p (s - nu) h).
    assert (E1 : h_mem h1 = <[p := (nxt N2, s - nu)]> (h_mem h)) by (unfold h1, set_size; cbn; rewrite Ep; unfold u32; rewrite Z.mod_small by lia; done).
    assert (Es1 : hsize h1 p = s - nu) by (unfold hsize; rewrite E1, lookup_insert_eq; done).
    exists q, (mkHeap (<[q := (hptr h1 q, nu)]> (<[p := (nxt N2, s - nu)]> (h_mem h))) y.1 (h_brk h)), (N1 ++ y :: (p, s - nu) :: N2). split_and!; [| |done|by rewrite !length_app].
    { cbn [obind]. fold h1. rewrite Es1. unfold set_freep, set_size at 1. cbn [h_mem h_brk h_freep]. unfold UNIT. fold q. rewrite E1. unfold u32. by rewrite Z.mod_small by lia. }
    apply (splice h _ N1 y ((p, s) :: N2) A); [done|done|by intros ->|done| | | | | | | | |].
    + intros x Hx. by rewrite !lookup_insert_ne by lia.
    + cbn. pose proof (linked_lookup _ _ _ _ Hl) as Hmy. cbn in Hmy. rewrite lookup_insert_ne, lookup_insert_ne, Hmy by lia. split; [done|].
      rewrite lookup_insert_ne, lookup_insert_eq by lia. split; [done|].
      apply (linked_mono (h_mem h)); [done|]. intros x Hx. specialize (HN2 x Hx). by rewrite !lookup_insert_ne by lia.
    + cbn. split_and!; [|eapply list.Forall_impl; [exact HpN2|]; unfold endof, UNIT; cbn; lia|done].
      constructor; [done|]. apply list.Forall_forall. intros x Hx. specialize (HN2 x Hx). unfold endof, UNIT. lia.
    + constructor; [lia|]. constructor; [cbn; lia|]. apply list.Forall_forall. intros x Hx. specialize (HN2 x Hx). lia.
    + constructor; [done|]. constructor; [|done]. right. unfold real, endof, UNIT. cbn. lia.
    + constructor; [unfold real, endof, UNIT; cbn; lia|apply H].
    + constructor; [eexists; cbn; by rewrite lookup_insert_eq|]. pose proof (hk_alloc _ _ _ H) as Hal. rewrite list.Forall_forall in *.
      intros x Hx. specialize (HA x Hx). rewrite !lookup_insert_ne by lia. by apply Hal.
    + rewrite <- Permutation_middle, <- app_assoc. rewrite <- app_assoc in Hd. cbn [app] in *.
      rewrite (perm_swap (p, s - nu) y), <- (Permutation_middle N1). rewrite (perm_swap (p, s) y), <- (Permutation_middle N1) in Hd.
      rewrite perm_swap. unfold q. apply (disj_merge p (s - nu) nu); [lia|lia| |by replace (s - nu + nu) with s by lia].
      pose proof (rest_ok _ _ _ p H ltac:(lia)) as Hr. rewrite !Forall_app, !list.Forall_cons in Hr. rewrite !Forall_app, !list.Forall_cons, !Forall_app. tauto.
    + rewrite <- (hk_units _ _ _ H). f_equal. units.
Qed.

(** ** The search *)

Variable room : Z → bool.
Hypothesis room_small : ∀ brk, room brk = true → brk < 2 ^ 36.

Lemma scan_run nu h fuel B1 : ∀ N1 x B2, linked (h_mem h) (N1 ++ x :: B1 ++ B2) → Forall (λ z, z.2 < nu ∧ z.1 ≠ h_freep h) B1 →
  ∃ N1' y, N1 ++ x :: B1 = N1' ++ [y] ∧ malloc_loop room (length B1 + fuel) nu x.1 (nxt (B1 ++ B2)) h = malloc_loop room fuel nu y.1 (nxt B2) h.
Proof.
  induction B1 as [|z B1 IH]; intros N1 x B2 Hl HB; [by exists N1, x|]. apply list.Forall_cons in HB as [[Hz Hzf] HB].
  destruct (hptr_linked h (N1 ++ [x]) z (B1 ++ B2)) as [Ep Es]; [by rewrite <- app_assoc|].
  destruct (IH (N1 ++ [x]) z B2) as (N1' & y & E & Er); [by rewrite <- app_assoc|done|]. exists N1', y. split; [by rewrite <- E, <- app_assoc|].
  rewrite <- Er, <- Ep. cbn [length Nat.add app nxt malloc_loop]. unfold mbind at 1, M_bind, gets. cbn [obind id].
  rewrite Es, (proj2 (Z.leb_gt nu z.2)), (proj2 (Z.eqb_neq z.1 _)) by done. done.
Qed.

Definition extend (fuel : nat) (nu : Z) : M heap (option Z) :=
  r ← morecore room (S fuel) nu;
  match r with
  | None => mret None
  | Some p => h ← gets id; malloc_loop room fuel nu p (hptr h p)
  end.

Lemma loop_take fuel nu prevp p h : nu ≤ hsize h p → malloc_loop room fuel nu prevp p h = take_block nu prevp p h.
Proof. intros Hp. destruct fuel; cbn [malloc_loop]; unfold mbind at 1, M_bind, gets; cbn [obind id]; by rewrite (proj2 (Z.leb_le _ _) Hp). Qed.

Lemma loop_extend fuel nu prevp h : hsize h (h_freep h) < nu → malloc_loop room (S fuel) nu prevp (h_freep h) h = extend fuel nu h.
Proof.
  intros Hp. cbn [malloc_loop]; unfold mbind at 1, M_bind at 1, gets at 1; cbn [obind id]. by rewrite (proj2 (Z.leb_gt _ _) Hp), Z.eqb_refl.
Qed.

(** What the search from a node to a later one finds. *)
Lemma scan_find nu h fuel N1 x B1 B2 : linked (h_mem h) (N1 ++ x :: B1 ++ B2) → (∀ z, z ∈ B1 → z.1 ≠ h_freep h) → (length B1 ≤ fuel)%nat →
  (∃ M1 y p s M2, N1 ++ x :: B1 ++ B2 = M1 ++ y :: (p, s) :: M2 ∧ nu ≤ s ∧ malloc_loop room fuel nu x.1 (nxt (B1 ++ B2)) h = take_block nu y.1 p h) ∨
  (Forall (λ z, z.2 < nu) B1 ∧ ∃ M1 y, N1 ++ x :: B1 = M1 ++ [y] ∧ malloc_loop room fuel nu x.1 (nxt (B1 ++ B2)) h = malloc_loop room (fuel - length B1) nu y.1 (nxt B2) h).
Proof.
  intros Hl Hf Hle. destruct (list_find (λ z, nu ≤ z.2) B1) as [[i [p s]]|] eqn:F.
  - left. apply list_find_Some in F as (Hi & Hs & Hno). apply take_drop_middle in Hi as Ei. set (C1 := take i B1) in *. set (C2 := drop (S i) B1) in *.
    assert (HC1 : Forall (λ z, z.2 < nu ∧ z.1 ≠ h_freep h) C1).
    { apply list.Forall_lookup. intros j z Hj. pose proof (lookup_lt_Some _ _ _ Hj) as Hji. unfold C1 in Hj, Hji. rewrite length_take in Hji.
      rewrite lookup_take_lt in Hj by lia. specialize (Hno j z Hj ltac:(lia)). split; [lia|]. apply Hf. by eapply list_elem_of_lookup_2. }
    rewrite <- Ei in Hl |- *. rewrite <- app_assoc in Hl |- *. assert (Hlen : (length C1 ≤ fuel)%nat) by (rewrite <- Ei, length_app in Hle; lia).
    destruct (scan_run nu h (fuel - length C1) C1 N1 x ((p, s) :: C2 ++ B2) Hl HC1) as (M1 & y & E & Er).
    exists M1, y, p, s, (C2 ++ B2). assert (EN : N1 ++ x :: C1 ++ (p, s) :: C2 ++ B2 = M1 ++ y :: (p, s) :: C2 ++ B2).
    { change (x :: C1 ++ ?l) with ((x :: C1) ++ l). rewrite app_assoc, E, <- app_assoc. done. }
    split_and!; [done|done|]. replace fuel with (length C1 + (fuel - length C1))%nat by lia. cbn [app] in *. rewrite Er. cbn [nxt]. apply loop_take.
    destruct (hptr_linked h (M1 ++ [y]) (p, s) (C2 ++ B2)) as [_ Es]; [rewrite <- app_assoc; cbn; by rewrite <- EN|]. cbn in Es. rewrite Es. done.
  - right. apply list_find_None in F. assert (HB : Forall (λ z, z.2 < nu) B1) by (eapply list.Forall_impl; [exact F|]; cbn; lia). split; [done|].
    assert (HB' : Forall (λ z, z.2 < nu ∧ z.1 ≠ h_freep h) B1) by (rewrite list.Forall_forall in *; naive_solver).
    destruct (scan_run nu h (fuel - length B1) B1 N1 x B2 Hl HB') as (M1 & y & E & Er). exists M1, y. split; [done|].
    by replace (length B1 + (fuel - length B1))%nat with fuel in Er by lia.
Qed.

Lemma sorted_neq x l : sorted (x :: l) → 0 ≤ x.2 → ∀ z, z ∈ l → z.1 ≠ x.1.
Proof. intros [H _] ? z Hz. apply (proj1 (list.Forall_forall _ _) H) in Hz. unfold endof, UNIT in Hz. lia. Qed.

Lemma linked_base h N A : heap_ok h N A → hsize h BASE = 0.
Proof. intros H. pose proof (hk_head _ _ _ H). destruct N as [|x N]; simplify_eq/=. by destruct (hptr_linked h [] (BASE, 0) N (hk_linked _ _ _ H)). Qed.

(** One round over the circular list: a block that is large enough and the node
    before it, or there is none and the heap is extended. *)
Lemma search_run h N A nu fuel : heap_ok h N A → 1 ≤ nu → (length N ≤ fuel)%nat →
  (∃ M1 y p s M2, N = M1 ++ y :: (p, s) :: M2 ∧ nu ≤ s ∧ malloc_loop room fuel nu (h_freep h) (hptr h (h_freep h)) h = take_block nu y.1 p h) ∨
  (Forall (λ z, z.2 < nu) N ∧ malloc_loop room fuel nu (h_freep h) (hptr h (h_freep h)) h = extend (fuel - length N) nu h).
Proof using lo_pos.
  intros H Hnu Hle. pose proof (linked_base _ _ _ H) as Hb0. pose proof (hk_freep _ _ _ H) as (x & Ef & (A1 & B & EN)%list_elem_of_split)%list_elem_of_fmap.
  pose proof (hk_linked _ _ _ H) as Hl. pose proof (hk_sorted _ _ _ H) as Hs. pose proof (hk_head _ _ _ H) as Hh. pose proof (hk_nodes _ _ _ H) as Hno. rewrite EN in Hl, Hs, Hh, Hno, Hle |- *.
  apply sorted_app in Hs as (_ & Hs & Hs1). apply Forall_app in Hno as [HnA [Hnx HnB]%list.Forall_cons].
  rewrite length_app in Hle |- *. cbn [length] in Hle |- *. destruct (hptr_linked h A1 x B Hl) as [Ep Es]. rewrite Ef, Ep.
  destruct (scan_find nu h fuel A1 x B []) as [Hfound|(HB & M1 & y & EM & Er)]; rewrite ?app_nil_r in *.
  { done. } { intros z Hz. rewrite Ef. by apply (sorted_neq x B Hs (node_size _ _ Hnx)). } { lia. } { by left. }
  rewrite Er. destruct A1 as [|b A1]; cbn in Hh; injection Hh as ->.
  - right. split; [by constructor; [cbn; lia|]|]. cbn [nxt length Nat.add]. replace (fuel - length B)%nat with (S (fuel - S (length B))) by lia.
    cbn in Ef. rewrite <- Ef. apply loop_extend. rewrite Ef. lia.
  - cbn [nxt]. cbn [length Nat.add] in *. assert (HxB : x.1 ≠ BASE).
    { apply list.Forall_cons in Hs1 as [Hs1 _]. apply list.Forall_cons in Hs1 as [Hs1 _]. unfold endof in Hs1. cbn in Hs1. lia. }
    assert (Estep : malloc_loop room (fuel - length B) nu y.1 BASE h = malloc_loop room (fuel - length B - 1) nu BASE (nxt (A1 ++ x :: B)) h).
    { replace (fuel - length B)%nat with (S (fuel - length B - 1)) at 1 by lia. cbn [malloc_loop]. unfold mbind at 1, M_bind at 1, gets at 1. cbn [obind id].
      rewrite Hb0, (proj2 (Z.leb_gt nu 0)), Ef, (proj2 (Z.eqb_neq BASE x.1)) by (lia || congruence).
      destruct (hptr_linked h [] (BASE, 0) (A1 ++ x :: B) Hl) as [E0 _]. cbn [fst] in E0. by rewrite E0. }
    rewrite Estep. destruct (scan_find nu h (fuel - length B - 1) [] (BASE, 0) A1 (x :: B)) as [Hfound|(HA & M1' & y' & EM' & Er')]; [done| |lia|by left|].
    { intros z Hz. rewrite Ef. apply list.Forall_cons in Hs1 as [_ Hs1]. pose proof (proj1 (list.Forall_forall _ _) Hs1 z Hz) as [Hzx _]%list.Forall_cons.
      apply list.Forall_cons in HnA as [_ HnA]. pose proof (node_size _ _ (proj1 (list.Forall_forall _ _) HnA z Hz)). unfold endof, UNIT in Hzx. lia. }
    cbn [app fst] in *. rewrite Er'. cbn [nxt]. destruct (decide (nu ≤ x.2)) as [Hfit|Hnf].
    + left. exists M1', y', x.1, x.2, B. split_and!; [|done|apply loop_take; by rewrite Es].
      change ((BASE, 0) :: A1 ++ x :: B) with (((BASE, 0) :: A1) ++ x :: B). rewrite EM', <- app_assoc. by destruct x.
    + right. split; [constructor; [cbn; lia|]; apply Forall_app; split; [done|constructor; [lia|done]]|].
      replace (fuel - length B - 1 - length A1)%nat with (S (fuel - S (length A1 + S (length B)))) by lia. rewrite <- Ef. apply loop_extend. rewrite Ef, Es. lia.
Qed.
Lemma units_pos brk l : Forall (node brk) l → 0 ≤ units l.
Proof. induction 1 as [|x l Hx _ IH]; [done|]. rewrite units_cons. apply node_size in Hx. lia. Qed.

Lemma brk_lo h N A : heap_ok h N A → lo ≤ h_brk h.
Proof.
  intros H. pose proof (hk_units _ _ _ H) as Hu. rewrite units_app in Hu. unfold UNIT in Hu.
  pose proof (units_pos _ _ (hk_nodes _ _ _ H)). assert (0 ≤ units A); [|lia].
  apply (units_pos (h_brk h)). eapply list.Forall_impl; [apply (hk_real _ _ _ H)|]. intros x. by right.
Qed.

(** The heap grows by a block in use. *)
Lemma grow_ok h N A nu : heap_ok h N A → 1 ≤ nu → h_brk h + UNIT * nu < 2 ^ 36 →
  heap_ok (mkHeap (<[h_brk h := (hptr h (h_brk h), nu)]> (h_mem h)) (h_freep h) (h_brk h + UNIT * nu)) N ((h_brk h, nu) :: A).
Proof using lo_pos.
  intros H Hnu Hbrk. pose proof (brk_lo _ _ _ H) as Hlo. unfold UNIT in *.
  assert (Hreal : ∀ x, real (h_brk h) x → real (h_brk h + 16 * nu) x ∧ x.1 < h_brk h) by (unfold real, endof, UNIT; intros x; lia).
  assert (Hnode : ∀ x, x ∈ N → node (h_brk h + 16 * nu) x ∧ x.1 < h_brk h ∧ endof x ≤ h_brk h).
  { intros x Hx. destruct (proj1 (list.Forall_forall _ _) (hk_nodes _ _ _ H) x Hx) as [->|Hr].
    - unfold endof. cbn. split; [by left|]. lia.
    - destruct (Hreal x Hr). split; [by right|]. destruct Hr as (? & ? & ?). lia. }
  constructor; cbn; try apply H.
  - apply (linked_mono (h_mem h)); [apply H|]. intros x Hx. destruct (Hnode x Hx) as (_ & ? & _). by rewrite lookup_insert_ne by lia.
  - apply list.Forall_forall. intros x Hx. by apply Hnode.
  - constructor; [unfold real, endof, UNIT; cbn; lia|]. eapply list.Forall_impl; [apply (hk_real _ _ _ H)|]. intros x Hx. by apply Hreal.
  - constructor; [eexists; by rewrite lookup_insert_eq|]. pose proof (hk_alloc _ _ _ H) as Hal. pose proof (hk_real _ _ _ H) as HA. rewrite list.Forall_forall in *.
    intros x Hx. destruct (Hreal x (HA x Hx)). rewrite lookup_insert_ne by lia. by apply Hal.
  - rewrite <- Permutation_middle. split; [|apply H]. apply list.Forall_forall. intros x [Hx|Hx]%elem_of_app; right; cbn; [by apply Hnode|].
    by apply (proj1 (list.Forall_forall _ _) (hk_real _ _ _ H)) in Hx as (? & ? & ?).
  - pose proof (hk_units _ _ _ H) as Hu. rewrite units_app in *. rewrite units_cons. cbn. unfold UNIT in *. lia.
  - done.
Qed.

Definition more (nu : Z) : Z := Z.max nu 4096.

Lemma morecore_run h N A nu fuel : heap_ok h N A → 1 ≤ nu → UNIT * nu < 2 ^ 31 → (2 * length N ≤ fuel)%nat →
  if room (h_brk h + UNIT * more nu)
  then ∃ h' N', morecore room fuel nu h = Ok (Some (h_freep h')) h' ∧ heap_ok h' N' A ∧ h_brk h' = h_brk h + UNIT * more nu ∧
    (length N' ≤ S (length N))%nat ∧ ∃ x, x ∈ N' ∧ nu ≤ x.2
  else morecore room fuel nu h = Ok None h.
Proof using lo_pos room_small.
  intros H Hnu Hsmall Hf. unfold morecore. assert (E : (if nu <? 4096 then 4096 else nu) = more nu) by (unfold more; destruct (Z.ltb_spec nu 4096); lia).
  rewrite E. assert (Hm : 1 ≤ more nu ∧ nu ≤ more nu ∧ UNIT * more nu < 2 ^ 31) by (unfold more, UNIT in *; lia). destruct Hm as (Hm1 & Hm2 & Hm3).
  assert (Es : sbrk room (more nu * UNIT) h = if room (h_brk h + UNIT * more nu)
    then Ok (Some (h_brk h)) (mkHeap (h_mem h) (h_freep h) (h_brk h + UNIT * more nu)) else Ok None h).
  { unfold sbrk. rewrite s32_small by (unfold UNIT in *; lia). rewrite (Z.mul_comm _ UNIT). by rewrite (proj2 (Z.ltb_lt 0 _)) by (unfold UNIT; lia). }
  destruct (room (h_brk h + UNIT * more nu)) eqn:Er; [|by rewrite (bind_ok _ _ _ _ _ Es)]. apply room_small in Er.
  pose proof (grow_ok _ _ _ _ H Hm1 Er) as Hg. destruct (free_run _ _ _ _ _ fuel Hg Hf) as (h' & N' & Ef & Hok & Hb & Hl & x & Hx & Hxs).
  exists h', N'. split_and!; [|done|done|done|exists x; split; [done|lia]].
  rewrite (bind_ok _ _ _ _ _ Es). rewrite (seq_ok _ _ _ (mkHeap (<[h_brk h := (hptr h (h_brk h), more nu)]> (h_mem h)) (h_freep h) (h_brk h + UNIT * more nu))).
  2:{ unfold modify, set_size. cbn. unfold u32. rewrite Z.mod_small; [done|]. unfold UNIT in *. lia. }
  by rewrite (seq_ok _ _ _ _ Ef).
Qed.

Lemma malloc_loop_run h N A nu fuel : heap_ok h N A → 1 ≤ nu → UNIT * nu < 2 ^ 31 → (4 * length N + 2 ≤ fuel)%nat →
  ∃ h', (∃ a N', malloc_loop room fuel nu (h_freep h) (hptr h (h_freep h)) h = Ok (Some (a + UNIT)) h' ∧ heap_ok h' N' ((a, nu) :: A) ∧ (length N' ≤ S (length N))%nat) ∨
    (malloc_loop room fuel nu (h_freep h) (hptr h (h_freep h)) h = Ok None h' ∧ h' = h ∧ Forall (λ z, z.2 < nu) N ∧ room (h_brk h + UNIT * more nu) = false).
Proof using lo_pos room_small.
  intros H Hnu Hs Hf. destruct (search_run h N A nu fuel H Hnu ltac:(lia)) as [(M1 & y & p & s & M2 & EN & Hps & Er)|[Hno Er]]; rewrite Er.
  - rewrite EN in H |- *. destruct (take_run _ _ _ _ _ _ _ _ H Hnu Hps) as (a & h' & N' & Et & Hok & _ & ?). exists h'. left. exists a, N'. split_and!; [done|done|lia].
  - pose proof (morecore_run h N A nu (S (fuel - length N)) H Hnu Hs ltac:(lia)) as Hm. unfold extend. destruct (room _) eqn:Ero.
    + destruct Hm as (h1 & N1 & Em & H1 & _ & Hl1 & x & Hx & Hxs). rewrite (bind_ok _ _ _ _ _ Em). unfold mbind at 1, M_bind at 1, gets at 1. cbn [obind id].
      destruct (search_run h1 N1 A nu (fuel - length N) H1 Hnu ltac:(lia)) as [(M1 & y & p & s & M2 & EN & Hps & Er1)|[Hno1 _]].
      * rewrite Er1. rewrite EN in H1, Hl1. destruct (take_run _ _ _ _ _ _ _ _ H1 Hnu Hps) as (a & h' & N' & Et & Hok & _ & ?). exists h'. left. exists a, N'. split_and!; [done|done|lia].
      * apply (proj1 (list.Forall_forall _ _) Hno1) in Hx. lia.
    + exists h. right. by rewrite (bind_ok _ _ _ _ _ Hm).
Qed.
(** The heap with blocks [A] in use and at most [n] nodes in the free list;
    before the first [malloc] there is none. *)
Definition heap_in (n : nat) (h : heap) (A : list block) : Prop :=
  (h_freep h = 0 ∧ A = [] ∧ h_brk h = lo ∧ lo < 2 ^ 36) ∨ ∃ N, heap_ok h N A ∧ (length N ≤ n)%nat.

Hypothesis BASE_pos : 0 < BASE.

Lemma first_ok h : h_brk h = lo → lo < 2 ^ 36 → heap_ok (set_size BASE 0 (set_ptr BASE BASE (set_freep BASE h))) [(BASE, 0)] [].
Proof.
  intros Hb Hlo. constructor; cbn.
  - done.
  - unfold hptr. cbn. by rewrite !lookup_insert_eq.
  - by split.
  - apply list_elem_of_here.
  - by constructor; [left|].
  - constructor.
  - constructor.
  - by split.
  - lia.
  - lia.
Qed.

Lemma nunits_bound nbytes : 0 ≤ nbytes < 2 ^ 31 - 48 → 1 ≤ nunits_of nbytes ∧ UNIT * nunits_of nbytes < 2 ^ 31 ∧ nbytes + UNIT ≤ UNIT * nunits_of nbytes < nbytes + 2 * UNIT.
Proof. intros H. unfold nunits_of, UNIT, u32. rewrite Z.mod_small; dlia. Qed.

Lemma malloc_start fuel nbytes h : h_freep h ≠ 0 → malloc BASE room fuel nbytes h = malloc_loop room fuel (nunits_of nbytes) (h_freep h) (hptr h (h_freep h)) h.
Proof. intros Hf. unfold malloc, mbind, M_bind, gets, when. cbn [obind id]. by rewrite (proj2 (Z.eqb_neq _ 0) Hf). Qed.

Lemma freep_pos h N A : heap_ok h N A → h_freep h ≠ 0.
Proof using BASE_pos lo_pos.
  intros H. pose proof (hk_freep _ _ _ H) as (x & -> & Hx)%list_elem_of_fmap.
  destruct (proj1 (list.Forall_forall _ _) (hk_nodes _ _ _ H) x Hx) as [->|(? & ? & _)]; cbn; lia.
Qed.

Lemma malloc_run n h A nbytes fuel : heap_in n h A → 0 ≤ nbytes < 2 ^ 31 - 48 → (4 * S n + 2 ≤ fuel)%nat →
  ∃ h', (∃ a N', malloc BASE room fuel nbytes h = Ok (Some (a + UNIT)) h' ∧ heap_ok h' N' ((a, nunits_of nbytes) :: A) ∧ (length N' ≤ S (S n))%nat) ∨
    (malloc BASE room fuel nbytes h = Ok None h' ∧ heap_in (S n) h' A ∧ room (h_brk h + UNIT * more (nunits_of nbytes)) = false).
Proof using BASE_pos lo_pos room_small.
  intros H Hn Hf. destruct (nunits_bound nbytes Hn) as (? & ? & _). destruct H as [(Hf0 & -> & Hb & Hlo)|(N & H & Hl)].
  - set (h0 := set_size BASE 0 (set_ptr BASE BASE (set_freep BASE h))). pose proof (first_ok h Hb Hlo) as Hok0. fold h0 in Hok0.
    assert (E : malloc BASE room fuel nbytes h = malloc_loop room fuel (nunits_of nbytes) (h_freep h0) (hptr h0 (h_freep h0)) h0).
    { unfold malloc, mbind, M_bind, gets, when. cbn [obind id]. by rewrite Hf0. }
    rewrite E. destruct (malloc_loop_run _ _ _ (nunits_of nbytes) fuel Hok0) as (h' & [(a & N' & ? & ? & Hl')|(Er & -> & _ & Hr)]); [done|done|cbn; lia| |].
    + exists h'. left. exists a, N'. split_and!; [done|done|]. cbn in Hl'. lia.
    + exists h0. right. split_and!; [done| |done]. right. exists [(BASE, 0)]. split; [done|cbn; lia].
  - rewrite malloc_start by (by eapply freep_pos). destruct (malloc_loop_run _ _ _ (nunits_of nbytes) fuel H) as (h' & [(a & N' & ? & ? & Hl')|(Er & -> & _ & Hr)]); [done|done|lia| |].
    + exists h'. left. exists a, N'. split_and!; [done|done|lia].
    + exists h. right. split_and!; [done| |done]. right. exists N. split; [done|lia].
Qed.
(** C26: [malloc] ends.  It gives a block with room for [nbytes] bytes inside the heap,
    apart from every block in use and no larger than needed; the rest of the heap
    stays as it was.  It gives a null pointer only if the heap cannot grow. *)
Theorem malloc_correct n h A nbytes fuel : heap_in n h A → 0 ≤ nbytes < 2 ^ 31 - 48 → (4 * S n + 2 ≤ fuel)%nat →
  ∃ r h', malloc BASE room fuel nbytes h = Ok r h' ∧
    match r with
    | Some p => heap_in (S (S n)) h' ((p - UNIT, nunits_of nbytes) :: A) ∧ lo + UNIT ≤ p ∧ p + nbytes ≤ h_brk h' ∧
        UNIT * nunits_of nbytes < nbytes + 2 * UNIT ∧ Forall (λ x, endof x ≤ p - UNIT ∨ p + nbytes ≤ x.1) A
    | None => heap_in (S n) h' A ∧ room (h_brk h + UNIT * more (nunits_of nbytes)) = false
    end.
Proof using BASE_pos lo_pos room_small.
  intros H Hn Hf. destruct (nunits_bound nbytes Hn) as (? & ? & ? & ?).
  destruct (malloc_run n h A nbytes fuel H Hn Hf) as (h' & [(a & N' & Er & Hok & Hl)|(Er & Hin & Hr)]); [|by exists None, h'].
  exists (Some (a + UNIT)), h'. split; [done|]. replace (a + UNIT - UNIT) with a by lia. pose proof (hk_real _ _ _ Hok) as [(? & ? & ?) _]%list.Forall_cons.
  unfold endof, UNIT in *. cbn [fst snd] in *. split_and!; [right; by exists N'|lia|lia|done|]. apply list.Forall_forall. intros x Hx.
  destruct (disj_sep N' (a, nunits_of nbytes) A x (hk_disj _ _ _ Hok) ltac:(elem)) as [?|?]; unfold endof, UNIT in *; cbn in *; lia.
Qed.

Lemma heap_ok_perm h N A A' : A ≡ₚ A' → heap_ok h N A → heap_ok h N A'.
Proof. intros E []. constructor; try done; by rewrite <- E. Qed.

Lemma tile brk L : ∀ c, Forall (real brk) L → sorted L → Forall (λ x, c ≤ x.1) L → c ≤ brk →
  UNIT * units L ≤ brk - c ∧ (UNIT * units L = brk - c → L = [] ∨ ∃ s, L = [(c, s)] ∧ c + UNIT * s = brk).
Proof.
  induction L as [|x L IH]; intros c HL Hs Hc Hbrk; [split; [cbn; lia|by left]|]. apply list.Forall_cons in HL as [(? & ? & ?) HL]. apply list.Forall_cons in Hc as [Hx Hc].
  destruct Hs as [Hxs Hs]. rewrite units_cons. destruct L as [|z L].
  - cbn. unfold endof, UNIT in *. split; [lia|]. intros E. right. exists x.2. destruct x as [xa xs]. cbn in *. split; [do 2 f_equal; lia|lia].
  - destruct (IH (endof x + 1)) as [Hle _]; [done|done|eapply list.Forall_impl; [exact Hxs|]; cbn; lia| |unfold endof, UNIT in *; split; lia].
    apply list.Forall_cons in Hxs as [Hz _]. apply list.Forall_cons in HL as [(? & ? & ?) _]. unfold endof, UNIT in *. lia.
Qed.

Lemma all_free_tile h N : heap_ok h N [] → N = [(BASE, 0)] ∨ ∃ s, N = [(BASE, 0); (lo, s)] ∧ lo + UNIT * s = h_brk h.
Proof using lo_pos.
  intros H. pose proof (brk_lo _ _ _ H). pose proof (hk_head _ _ _ H) as Hh. destruct N as [|x L]; [done|]. injection Hh as ->.
  pose proof (hk_sorted _ _ _ H) as [Hb Hs]. pose proof (hk_units _ _ _ H) as Hu. rewrite app_nil_r, units_cons in Hu. cbn [snd] in Hu.
  assert (HL : Forall (real (h_brk h)) L).
  { pose proof (hk_nodes _ _ _ H) as [_ Hn]%list.Forall_cons. rewrite list.Forall_forall in *. intros x Hx. destruct (Hn x Hx) as [->|]; [|done]. specialize (Hb _ Hx). unfold endof in Hb. cbn in Hb. lia. }
  destruct (tile (h_brk h) L lo HL Hs) as [_ [->|(s & -> & ?)]]; [eapply list.Forall_impl; [exact HL|]; intros x (_ & ? & _); done|done|lia|by left|].
  right. by exists s.
Qed.

(** C27: [free] of a block in use ends and gives it back: the other blocks stay in use
    and untouched.  The free list stays sorted and fully coalesced: when nothing is
    in use any more it is one block, the whole heap. *)
Theorem free_correct n h A1 A2 bp s fuel : heap_in n h (A1 ++ (bp, s) :: A2) → (2 * n ≤ fuel)%nat →
  ∃ h', free fuel (bp + UNIT) h = Ok tt h' ∧ heap_in (S n) h' (A1 ++ A2) ∧ h_brk h' = h_brk h ∧
    (A1 ++ A2 = [] → ∃ z, linked (h_mem h') [(BASE, 0); (lo, z)] ∧ lo + UNIT * z = h_brk h').
Proof using lo_pos.
  intros [(_ & E & _)|(N & H & Hl)] Hf; [by destruct A1|]. apply (heap_ok_perm _ _ _ ((bp, s) :: A1 ++ A2)) in H; [|by rewrite <- Permutation_middle].
  pose proof (hk_real _ _ _ H) as [(Hs1 & _) _]%list.Forall_cons. cbn in Hs1.
  destruct (free_run h N (A1 ++ A2) bp s fuel H ltac:(lia)) as (h' & N' & Er & Hok & Hb & Hlen & x & Hx & Hxs). exists h'. split_and!; [done|right; exists N'; split; [done|lia]|done|].
  intros E. rewrite E in Hok. pose proof (hk_linked _ _ _ Hok). destruct (all_free_tile _ _ Hok) as [->|(z & -> & ?)]; [|by exists z].
  apply list_elem_of_singleton in Hx as ->. cbn in Hxs. lia.
Qed.
End list.

(** ** A small heap *)

Definition ex_room (brk : Z) : bool := brk <? 2 ^ 27.
Definition ex_heap : heap := mkHeap ∅ 0 8192.

Lemma ex_heap_in : heap_in 4096 8192 0 ex_heap [].
Proof. by left. Qed.
Lemma ex_room_small brk : ex_room brk = true → brk < 2 ^ 36.
Proof. unfold ex_room. lia. Qed.

Lemma malloc_correct_witness : ∃ p h', malloc 4096 ex_room 6 100 ex_heap = Ok (Some p) h' ∧ heap_in 4096 8192 2 h' [(p - UNIT, 8)] ∧ p + 100 ≤ h_brk h'.
Proof.
  destruct (malloc_correct 4096 8192 ltac:(lia) ex_room ex_room_small ltac:(lia) 0 ex_heap [] 100 6 ex_heap_in ltac:(lia) ltac:(lia)) as ([p|] & h' & E & H).
  - destruct H as (H1 & H2 & H3 & _). exact (ex_intro _ p (ex_intro _ h' (conj E (conj H1 H3)))).
  - exfalso. clear E. destruct H as [_ H]. vm_compute in H. discriminate H.
Defined.

Lemma ex_block_in : ∃ p h', malloc 4096 ex_room 6 100 ex_heap = Ok (Some (p + UNIT)) h' ∧ heap_in 4096 8192 2 h' [(p, 8)].
Proof.
  destruct (malloc_run 4096 8192 ltac:(lia) ex_room ex_room_small ltac:(lia) 0 ex_heap [] 100 6 ex_heap_in ltac:(lia) ltac:(lia)) as (h' & [(a & N' & E & Hok & Hl)|(E & _ & Hr)]).
  - exact (ex_intro _ a (ex_intro _ h' (conj E (or_intror (ex_intro _ N' (conj Hok Hl)))))).
  - exfalso. clear E. vm_compute in Hr. discriminate Hr.
Qed.

Lemma free_correct_witness : ∃ p h h' z, malloc 4096 ex_room 6 100 ex_heap = Ok (Some (p + UNIT)) h ∧ free 4 (p + UNIT) h = Ok tt h' ∧
  linked 4096 (h_mem h') [(4096, 0); (8192, z)] ∧ 8192 + UNIT * z = h_brk h'.
Proof.
  destruct ex_block_in as (p & h & E & H).
  destruct (free_correct 4096 8192 ltac:(lia) 2 h [] [] p 8 4 H ltac:(lia)) as (h' & Ef & _ & _ & Hz). destruct (Hz eq_refl) as (z & H1 & H2).
  exact (ex_intro _ p (ex_intro _ h (ex_intro _ h' (ex_intro _ z (conj E (conj Ef (conj H1 H2))))))).
Defined.

(** A request of 2^31 bytes: the size of the new memory does not fit in the int that
    [sbrk] takes, the heap does not grow, and the block is outside it. *)
Example malloc_huge : ∃ p h', malloc 4096 ex_room 6 (2 ^ 31) ex_heap = Ok (Some p) h' ∧ h_brk h' = 8192 ∧ h_brk h' < p.
Proof. eexists _, _. split; [vm_compute; reflexivity|]. by split. Qed.
