(* ===== verification/Mkfs.v ===== *)
(** The builder of the file system image: src/mkfs/mkfs.c.

    The image is a map from sectors to blocks.  [din.size = xint(x)] and the like
    keep the fields of the structures in the byte order of the disk; here they are
    numbers, and [put_dinode] and [get_dinode] store and load them in that order. *)

From S2P Require Import Prelude Machine Str Types Proc Rely Sleeplock Bio Bytes Log Fs Dir.

Module Mkfs.

Definition NINODES : Z := 200.
Definition nbitmap : Z := FSSIZE / (BSIZE * 8) + 1.
Definition ninodeblocks : Z := NINODES / IPB + 1.
Definition nlog : Z := LOGSIZE.
Definition nmeta : Z := 2 + nlog + ninodeblocks + nbitmap.
Definition nblocks : Z := FSSIZE - nmeta.
Definition sb : superblock := mkSb FSMAGIC FSSIZE nblocks NINODES nlog 2 (2 + nlog) (2 + nlog + ninodeblocks).
Definition zeroes : list Z := replicate (Z.to_nat BSIZE) 0.

(** [xshort] and [xint] give the bytes in the order of the disk. *)
Definition xshort (x : Z) : list Z := [u8 x; u8 (Z.shiftr x 8)].
Definition xint (x : Z) : list Z := [u8 x; u8 (Z.shiftr x 8); u8 (Z.shiftr x 16); u8 (Z.shiftr x 24)].

(** The image, [freeinode] and [freeblock]. *)
Record mk : Type := mkMk { m_img : gmap Z (list Z); m_freeinode : Z; m_freeblock : Z }.
Definition W (A : Type) : Type := M mk A.
(** [die] *)
Definition die {A} : W A := halt (Exits 1).
Definition assert_ (b : bool) : W unit := if b then mret tt else panic "assert".

Definition wsect (sec : Z) (buf : list Z) : W unit := modify (λ s, mkMk (<[sec := buf]> (m_img s)) (m_freeinode s) (m_freeblock s)).
Definition rsect (sec : Z) : W (list Z) :=
  s ← gets id;
  match m_img s !! sec with Some buf => mret buf | None => die end.

Definition winode (inum : Z) (ip : dinode) : W unit :=
  let bn := IBLOCK inum sb in
  buf ← rsect bn;
  wsect bn (put_dinode (dinode_off inum) ip buf).

Definition rinode (inum : Z) : W dinode :=
  buf ← rsect (IBLOCK inum sb);
  mret (get_dinode (dinode_off inum) buf).

Definition ialloc (type : Z) : W Z :=
  s ← gets id;
  let inum := m_freeinode s in
  modify (λ s, mkMk (m_img s) (m_freeinode s + 1) (m_freeblock s));;
  winode inum (mkDinode type 0 0 1 0 (replicate 13 0));;
  mret inum.

Definition balloc (used : Z) : W unit :=
  assert_ (used <? BSIZE * 8);;
  wsect (sb_bmapstart sb) (foldl (λ buf i, or_bit i buf) zeroes (seqZ 0 used)).

(** [freeblock++] *)
Definition newblock : W Z :=
  s ← gets id;
  modify (λ s, mkMk (m_img s) (m_freeinode s) (m_freeblock s + 1));;
  mret (m_freeblock s).

Definition d_addr (d : dinode) (i : nat) : Z := default 0 (d_addrs d !! i).
Definition set_d_addr (i : nat) (a : Z) (d : dinode) : dinode :=
  mkDinode (d_type d) (d_major d) (d_minor d) (d_nlink d) (d_size d) (<[i := a]> (d_addrs d)).
Definition set_d_size (n : Z) (d : dinode) : dinode :=
  mkDinode (d_type d) (d_major d) (d_minor d) (d_nlink d) n (d_addrs d).

(** The block for [fbn]. *)
Definition block_for (d : dinode) (fbn : Z) : W (dinode * Z) :=
  if fbn <? NDIRECT then
    let i := Z.to_nat fbn in
    if d_addr d i =? 0 then a ← newblock; mret (set_d_addr i a d, a) else mret (d, d_addr d i)
  else
    d ← (if d_addr d 12 =? 0 then a ← newblock; mret (set_d_addr 12 a d) else mret d);
    indirect ← rsect (d_addr d 12);
    let o := Z.to_nat (4 * (fbn - NDIRECT)) in
    if get32 o indirect =? 0 then
      a ← newblock;
      wsect (d_addr d 12) (put32 o a indirect);;
      mret (d, a)
    else mret (d, get32 o indirect).

(** Every round appends at least one byte. *)
Fixpoint iappend_loop (fuel : nat) (d : dinode) (off : Z) (p : list Z) : W (dinode * Z) :=
  if (0 <? length p)%nat then
    match fuel with
    | O => halt NoFuel
    | S fuel' =>
        let fbn := off / BSIZE in
        assert_ (fbn <? MAXFILE);;
        r ← block_for d fbn;
        let n1 := Z.to_nat (Z.min (length p) ((fbn + 1) * BSIZE - off)) in
        buf ← rsect r.2;
        wsect r.2 (list_inserts (Z.to_nat (off - fbn * BSIZE)) (take n1 p) buf);;
        iappend_loop fuel' r.1 (off + n1) (drop n1 p)
    end
  else mret (d, off).

Definition iappend (inum : Z) (p : list Z) : W unit :=
  d ← rinode inum;
  r ← iappend_loop (length p) d (d_size d) p;
  winode inum (set_d_size r.2 r.1).

(** ** main *)

Definition sb_fields : list Z :=
  [sb_magic sb; sb_size sb; sb_nblocks sb; sb_ninodes sb; sb_nlog sb; sb_logstart sb; sb_inodestart sb; sb_bmapstart sb].

(** The name in the image of a file given on the command line: without user/ and
    without a leading underscore. *)
Definition basename (arg : list Z) : list Z := if strncmp_bytes 5 arg [117; 115; 101; 114; 47] =? 0 then drop 5 arg else arg.
Definition shortname (arg : list Z) : list Z :=
  match basename arg with 95 :: s => s | s => s end.

(** A file is its name on the command line and the pieces in which [read] gives its
    contents. *)
Definition add_file (rootino : Z) (f : list Z * list (list Z)) : W unit :=
  assert_ (negb (existsb (Z.eqb 47) (basename f.1)));;
  inum ← ialloc T_FILE;
  iappend rootino (mk_dirent inum (shortname f.1));;
  forM_ f.2 (iappend inum).

Definition main (files : list (list Z * list (list Z))) : W unit :=
  modify (λ s, mkMk (m_img s) 1 nmeta);;
  forM_ (seqZ 0 FSSIZE) (λ i, wsect i zeroes);;
  wsect 1 (list_inserts 0 (concat (xint <$> sb_fields)) zeroes);;
  rootino ← ialloc T_DIR;
  assert_ (rootino =? ROOTINO);;
  iappend rootino (mk_dirent rootino [46]);;
  iappend rootino (mk_dirent rootino [46; 46]);;
  forM_ files (add_file rootino);;
  d ← rinode rootino;
  winode rootino (set_d_size ((d_size d / BSIZE + 1) * BSIZE) d);;
  s ← gets id;
  balloc (m_freeblock s).
End Mkfs.
