(* ===== verification/MkfsSpec.v ===== *)
(** Correctness of mkfs: the image is a file system for the kernel.  The free map
    and the inode blocks satisfy the invariant of [FsData], every file given on the
    command line is an inode with its contents and no two files share a block, and
    the root directory has the entries. *)

From S2P Require Import Prelude Machine Str Types Proc ProcSpec Rely Sleeplock Bio BioSpec BioContent BioRep Bytes Log LogSpec LogRun LogView Fs Dir FsFormat FsBlock FsData FsFile FsWrite FsDir Mkfs.
Import Mkfs.

Lemma xint_bytes x : xint x = le_split 4 x.
Proof.
  unfold xint. cbn [le_split]. unfold u8. rewrite !Z.shiftr_div_pow2 by lia. change (2 ^ 16) with (256 * 256). change (2 ^ 24) with (256 * (256 * 256)).
  change (2 ^ 8) with 256. by rewrite <- !Z.div_div by lia.
Qed.

(** ** Files *)

Definition view (s : mk) : Z → list Z := disk_block (m_img s).

(** The inode that the kernel loads. *)
Definition xi (inum : Z) (d : dinode) : inode := load_dinode d (mkInode ROOTDEV inum 1 slk0 true 0 0 0 0 0 []).
Definition dslot (C : Z → list Z) (d : dinode) (j : nat) : Z := slot C (xi 0 d) j.

(** [d] has the contents [c] in its first [nblk] blocks; its blocks lie between the
    metadata and [fb].  Behind the contents it reads zeroes. *)
Record placed (C : Z → list Z) (d : dinode) (fb nblk : Z) (ind : bool) (c : list Z) : Prop := {
  pl_len : length (d_addrs d) = 13%nat;
  pl_nblk : 0 ≤ nblk ≤ 268;
  pl_max : length c ≤ 1024 * nblk;
  pl_slot j : (j < 269)%nat → dslot C d j ≠ 0 → nmeta ≤ dslot C d j < fb;
  pl_inj j k : (j < 269)%nat → (k < 269)%nat → dslot C d j = dslot C d k → dslot C d j ≠ 0 → j = k;
  pl_has bn : 0 ≤ bn < 268 → dslot C d (slot_of bn) ≠ 0 ↔ bn < nblk;
  pl_ind : dslot C d 12 ≠ 0 ↔ ind = true;
  pl_data k : 0 ≤ k < 268 * 1024 → fdata C (xi 0 d) k = default 0 (c !! Z.to_nat k) }.

Lemma slot_same C C' d d' j : d_addrs d' = d_addrs d → (d_addr d 12 ≠ 0 → C' (d_addr d 12) = C (d_addr d 12)) → dslot C' d' j = dslot C d j.
Proof.
  intros Ha Hc. unfold dslot, slot, addr_of, xi, load_dinode. cbn. rewrite Ha. case_decide; [done|]. unfold d_addr in Hc.
  destruct (Z.eqb_spec (default 0 (d_addrs d !! 12%nat)) 0); [done|]. by rewrite Hc.
Qed.

(** Other blocks change, and fields that are not addresses. *)
Lemma placed_frame C C' d d' fb fb' nblk ind c : placed C d fb nblk ind c → d_addrs d' = d_addrs d → fb ≤ fb' →
  (∀ j, (j < 269)%nat → dslot C d j ≠ 0 → C' (dslot C d j) = C (dslot C d j)) →
  placed C' d' fb' nblk ind c ∧ ∀ j, dslot C' d' j = dslot C d j.
Proof.
  intros H Ha Hfb Hc. assert (Hs : ∀ j, dslot C' d' j = dslot C d j).
  { intros j. apply slot_same; [done|]. intros Hnz. apply (Hc 12%nat); [lia|done]. }
  split; [|done]. destruct H as [Hl ? ? Hsl Hi Hh Hin Hd]. constructor; try done.
  - by rewrite Ha.
  - intros j Hj. rewrite Hs. intros Hnz. specialize (Hsl j Hj Hnz). lia.
  - intros j k. rewrite !Hs. apply Hi.
  - intros bn. rewrite Hs. apply Hh.
  - by rewrite Hs.
  - intros k Hk. rewrite <- Hd by done. unfold fdata. change (slot C' (xi 0 d') ?j) with (dslot C' d' j). change (slot C (xi 0 d) ?j) with (dslot C d j).
    rewrite Hs. destruct (Z.eqb_spec (dslot C d (slot_of (k / 1024))) 0); [done|]. rewrite Hc; [done| |done]. apply slot_of_lt. dlia.
Qed.

(** The block [fb], which is zero, becomes slot [j0]. *)
Lemma placed_alloc C d fb nblk nblk' ind ind' c C2 d2 j0 : placed C d fb nblk ind c → nmeta ≤ fb → length (d_addrs d2) = 13%nat →
  (j0 < 269)%nat → dslot C d j0 = 0 → dslot C2 d2 j0 = fb → (∀ j, (j < 269)%nat → j ≠ j0 → dslot C2 d2 j = dslot C d j) →
  (∀ b, b ≠ dslot C2 d2 12 → C2 b = C b) → C fb = zeroes → nblk ≤ nblk' ≤ 268 →
  (∀ bn, 0 ≤ bn < 268 → slot_of bn = j0 ∨ bn < nblk ↔ bn < nblk') → (j0 = 12%nat ∨ ind = true ↔ ind' = true) →
  placed C2 d2 (fb + 1) nblk' ind' c.
Proof.
  intros H Hfb Hl Hj0 Hz Hs0 Hs HC Hzero Hn Hb Hi. assert (0 < fb) by (change nmeta with 46 in Hfb; lia). constructor; [done|pose proof (pl_nblk _ _ _ _ _ _ H); lia|pose proof (pl_max _ _ _ _ _ _ H); lia|..].
  - intros j Hj Hnz. destruct (decide (j = j0)) as [->|Hne]; [lia|]. rewrite Hs in Hnz |- * by done. pose proof (pl_slot _ _ _ _ _ _ H j Hj Hnz). lia.
  - intros j k Hj Hk. destruct (decide (j = j0)) as [->|Hne], (decide (k = j0)) as [->|Hne']; [done|..].
    + rewrite Hs0, Hs by done. intros E Hnz. pose proof (pl_slot _ _ _ _ _ _ H k Hk ltac:(congruence)). lia.
    + rewrite Hs0, Hs by done. intros E Hnz. pose proof (pl_slot _ _ _ _ _ _ H j Hj ltac:(congruence)). lia.
    + rewrite !Hs by done. by apply (pl_inj _ _ _ _ _ _ H).
  - intros bn Hbn. rewrite <- Hb by done. destruct (decide (slot_of bn = j0)) as [E|E].
    + rewrite E, Hs0. split; [by left|lia].
    + rewrite Hs by (done || by apply slot_of_lt). rewrite (pl_has _ _ _ _ _ _ H) by done. tauto.
  - rewrite <- Hi. destruct (decide (12%nat = j0)) as [<-|E]; [rewrite Hs0; split; [by left|lia]|]. rewrite Hs by lia. rewrite (pl_ind _ _ _ _ _ _ H). intuition.
  - intros k Hk. rewrite <- (pl_data _ _ _ _ _ _ H) by done. unfold fdata. change (slot C2 (xi 0 d2) ?j) with (dslot C2 d2 j). change (slot C (xi 0 d) ?j) with (dslot C d j).
    destruct (slot_of_lt (k / 1024)) as [Hlt Hn12]; [dlia|]. destruct (decide (slot_of (k / 1024) = j0)) as [E|E].
    + rewrite E, Hs0, Hz. rewrite (proj2 (Z.eqb_neq fb 0)) by lia. cbn [Z.eqb]. rewrite HC, Hzero.
      * unfold zeroes. destruct (decide (Z.to_nat (k mod 1024) < 1024)%nat); [by rewrite lookup_replicate_2|by rewrite lookup_ge_None_2 by (rewrite length_replicate; unfold BSIZE; lia)].
      * destruct (decide (12%nat = j0)) as [<-|]; [congruence|]. rewrite Hs by lia. intros E'. pose proof (pl_slot _ _ _ _ _ _ H 12%nat ltac:(lia) ltac:(lia)). lia.
    + rewrite Hs by done. destruct (Z.eqb_spec (dslot C d (slot_of (k / 1024))) 0) as [|Hnz]; [done|]. rewrite HC; [done|].
      destruct (decide (12%nat = j0)) as [<-|Hne]; [pose proof (pl_slot _ _ _ _ _ _ H _ Hlt Hnz); lia|]. rewrite Hs by lia.
      intros E'. apply Hn12. by apply (pl_inj _ _ _ _ _ _ H); [|lia|..].
Qed.

(** ** The image *)

(** Every block is there, and those that are not handed out are zero. *)
Record image_ok (s : mk) : Prop := {
  im_blk b : 0 ≤ b < FSSIZE → m_img s !! b = Some (view s b) ∧ length (view s b) = 1024%nat;
  im_zero b : m_freeblock s ≤ b < FSSIZE → view s b = zeroes;
  im_fb : nmeta ≤ m_freeblock s ≤ FSSIZE }.

Lemma rsect_run s b : image_ok s → 0 ≤ b < FSSIZE → rsect b s = Ok (view s b) s.
Proof. intros H Hb. unfold rsect, mbind, M_bind, gets. cbn. by destruct (im_blk _ H b Hb) as [-> _]. Qed.

Definition wrote (b : Z) (bs : list Z) (s : mk) : mk := mkMk (<[b := bs]> (m_img s)) (m_freeinode s) (m_freeblock s).
Definition took (n : Z) (s : mk) : mk := mkMk (m_img s) (m_freeinode s) (m_freeblock s + n).

Lemma view_wrote b bs s b' : view (wrote b bs s) b' = if decide (b' = b) then bs else view s b'.
Proof. unfold view, disk_block, wrote. cbn. case_decide as E; [by rewrite E, lookup_insert_eq|by rewrite lookup_insert_ne]. Qed.

Lemma image_wrote s b bs : image_ok s → 0 ≤ b < m_freeblock s → length bs = 1024%nat → image_ok (wrote b bs s).
Proof.
  intros H Hb Hl. pose proof (im_fb _ H). constructor; [|..].
  - intros b' Hb'. rewrite view_wrote. cbn. case_decide as E; [by rewrite E, lookup_insert_eq|]. rewrite lookup_insert_ne by done. by apply (im_blk _ H).
  - intros b' Hb'. cbn in Hb'. rewrite view_wrote, decide_False by lia. by apply (im_zero _ H).
  - done.
Qed.

Lemma image_took s n : image_ok s → 0 ≤ n → m_freeblock s + n ≤ FSSIZE → image_ok (took n s).
Proof.
  intros H Hn Hf. pose proof (im_fb _ H). constructor; [apply H| |cbn; lia]. intros b Hb. cbn in Hb. apply (im_zero _ H). lia.
Qed.

Lemma newblock_run s : newblock s = Ok (m_freeblock s) (took 1 s).
Proof. done. Qed.

(** ** A block for the next bytes *)

Lemma slot_set C i a d j : length (d_addrs d) = 13%nat → (i < 13)%nat → a ≠ 0 → dslot C (set_d_addr i a d) j =
  if decide (j = i) then a else if decide (j < 13)%nat then dslot C d j
  else if decide (i = 12%nat) then get32 (4 * (j - 13)) (C a) else dslot C d j.
Proof.
  intros Hl Hi Ha. unfold dslot, slot, addr_of, xi, load_dinode, set_d_addr. cbn. destruct (decide (j < 13)%nat) as [Hj|Hj].
  - case_decide as E; [by rewrite E, list_lookup_insert_eq by lia|by rewrite list_lookup_insert_ne].
  - rewrite decide_False by lia. case_decide as E.
    + rewrite E, list_lookup_insert_eq by lia. cbn. by rewrite (proj2 (Z.eqb_neq a 0) Ha).
    + by rewrite list_lookup_insert_ne by done.
Qed.

Lemma slot_entry s d k a j : (k < 256)%nat → length (view s (d_addr d 12)) = 1024%nat → 0 ≤ a < 2 ^ 32 → d_addr d 12 ≠ 0 →
  dslot (view (wrote (d_addr d 12) (put32 (4 * k) a (view s (d_addr d 12))) s)) d j = if decide (j = 13 + k)%nat then a else dslot (view s) d j.
Proof.
  intros Hk Hl Ha Hz. unfold dslot, slot, addr_of, xi, load_dinode. cbn [i_addrs]. case_decide as Hj; [by rewrite decide_False by lia|].
  change (default 0 (d_addrs d !! 12%nat)) with (d_addr d 12). rewrite (proj2 (Z.eqb_neq _ 0) Hz). rewrite view_wrote, decide_True by done.
  case_decide as E.
  - subst j. replace (4 * (13 + k - 13))%nat with (4 * k)%nat by lia. rewrite get32_put32 by lia. by apply u32_small.
  - unfold get32, put32. apply get_put_other; [lia|]. destruct (decide (j - 13 < k)%nat); [left|right]; lia.
Qed.

Definition extra (fbn nblk : Z) : Z := if fbn <? nblk then 0 else if fbn =? 12 then 2 else 1.
Definition norm (nblk : Z) : bool := 12 <? nblk.

(** What getting a block does to the rest of the image. *)
Record extends (s s' : mk) (d d' : dinode) : Prop := {
  ex_keep b : b < m_freeblock s → b ≠ d_addr d 12 → view s' b = view s b;
  ex_slots j : (j < 269)%nat → dslot (view s) d j ≠ 0 → dslot (view s') d' j = dslot (view s) d j;
  ex_new j : (j < 269)%nat → dslot (view s) d j = 0 → dslot (view s') d' j = 0 ∨ m_freeblock s ≤ dslot (view s') d' j;
  ex_inode : m_freeinode s' = m_freeinode s;
  ex_fb : m_freeblock s ≤ m_freeblock s';
  ex_fields : d_type d' = d_type d ∧ d_major d' = d_major d ∧ d_minor d' = d_minor d ∧ d_nlink d' = d_nlink d ∧ d_size d' = d_size d }.

Lemma slot_ind C d : dslot C d 12 = d_addr d 12.
Proof. done. Qed.

Lemma direct_run s d nblk c : image_ok s → placed (view s) d (m_freeblock s) nblk (norm nblk) c → 0 ≤ nblk < 12 → m_freeblock s + 1 ≤ FSSIZE →
  let d' := set_d_addr (Z.to_nat nblk) (m_freeblock s) d in
  placed (view s) d' (m_freeblock s + 1) (nblk + 1) (norm (nblk + 1)) c ∧ extends s (took 1 s) d d'.
Proof.
  intros Him H Hn Hf d'. pose proof (im_fb _ Him) as Hfb. assert (Hnz : m_freeblock s ≠ 0) by (change nmeta with 46 in Hfb; lia).
  set (i := Z.to_nat nblk) in *. assert (Hi : (i < 12)%nat) by lia. pose proof (pl_len _ _ _ _ _ _ H) as Hl.
  assert (Hso : slot_of nblk = i) by (unfold slot_of; by rewrite (proj2 (Z.ltb_lt nblk 12)) by lia).
  assert (Hz : dslot (view s) d i = 0).
  { destruct (decide (dslot (view s) d i = 0)) as [|E]; [done|]. rewrite <- Hso in E. apply (pl_has _ _ _ _ _ _ H) in E; lia. }
  assert (Hs : ∀ j, dslot (view s) d' j = if decide (j = i) then m_freeblock s else dslot (view s) d j).
  { intros j. unfold d'. rewrite slot_set by (done || lia). case_decide; [done|]. case_decide; [done|]. by rewrite decide_False by lia. }
  split.
  - apply (placed_alloc (view s) d (m_freeblock s) nblk _ (norm nblk) _ c _ _ i); [done|lia|unfold d'; cbn; by rewrite length_insert|lia|done|by rewrite Hs, decide_True| |done| |lia| |].
    + intros j _ Hne. by rewrite Hs, decide_False.
    + apply (im_zero _ Him). lia.
    + intros bn Hbn. rewrite <- Hso. split; [intros [E|?]; [apply slot_of_inj in E|]; lia|]. intros Hlt. destruct (decide (bn = nblk)) as [->|]; [by left|right; lia].
    + unfold norm. split; [intros [?|?]; lia|lia].
  - constructor; try done; [|intros j Hj Hz'; cbn; change (view (took 1 s)) with (view s)|cbn; lia].
    + intros j Hj Hjz. change (view (took 1 s)) with (view s). rewrite Hs, decide_False; [done|]. by intros ->.
    + rewrite Hs. case_decide; [by right|by left].
Qed.

Lemma extends_trans s s1 s2 d d1 d2 : extends s s1 d d1 → extends s1 s2 d1 d2 → extends s s2 d d2.
Proof.
  intros H1 H2. pose proof (ex_fb _ _ _ _ H1). pose proof (ex_fb _ _ _ _ H2). constructor.
  - intros b Hb Hne. rewrite (ex_keep _ _ _ _ H2); [by apply (ex_keep _ _ _ _ H1)|lia|].
    destruct (decide (d_addr d 12 = 0)) as [E|E].
    + destruct (ex_new _ _ _ _ H1 12%nat ltac:(lia) E) as [E1|E1]; rewrite slot_ind in E1; [congruence|lia].
    + pose proof (ex_slots _ _ _ _ H1 12%nat ltac:(lia) E) as E1. rewrite !slot_ind in E1. congruence.
  - intros j Hj Hnz. rewrite (ex_slots _ _ _ _ H2 j); rewrite ?(ex_slots _ _ _ _ H1 j); done.
  - intros j Hj Hz. destruct (decide (dslot (view s1) d1 j = 0)) as [E|E].
    + destruct (ex_new _ _ _ _ H2 j Hj E); [by left|right; lia].
    + rewrite (ex_slots _ _ _ _ H2 j) by done. destruct (ex_new _ _ _ _ H1 j Hj Hz); [by left|right; lia].
  - rewrite (ex_inode _ _ _ _ H2). apply H1.
  - lia.
  - destruct (ex_fields _ _ _ _ H1) as (? & ? & ? & ? & ?). destruct (ex_fields _ _ _ _ H2) as (? & ? & ? & ? & ?). split_and!; congruence.
Qed.

Lemma ind_run s d c : image_ok s → placed (view s) d (m_freeblock s) 12 false c → m_freeblock s + 1 ≤ FSSIZE →
  let d' := set_d_addr 12 (m_freeblock s) d in
  placed (view s) d' (m_freeblock s + 1) 12 true c ∧ extends s (took 1 s) d d'.
Proof.
  intros Him H Hf d'. pose proof (im_fb _ Him) as Hfb. assert (Hnz : m_freeblock s ≠ 0) by (change nmeta with 46 in Hfb; lia).
  pose proof (pl_len _ _ _ _ _ _ H) as Hl. assert (Hz : dslot (view s) d 12 = 0).
  { destruct (decide (dslot (view s) d 12 = 0)) as [|E]; [done|]. by apply (pl_ind _ _ _ _ _ _ H) in E. }
  assert (Hs : ∀ j, dslot (view s) d' j = if decide (j = 12%nat) then m_freeblock s else dslot (view s) d j).
  { intros j. unfold d'. rewrite slot_set by (done || lia). case_decide; [done|]. case_decide as Hj; [done|]. rewrite decide_True by done.
    rewrite (im_zero _ Him) by lia. change zeroes with (replicate 1024 0). rewrite get32_zero. unfold dslot. rewrite slot_ge by lia.
    change (addr_of 12 (xi 0 d)) with (dslot (view s) d 12). by rewrite Hz. }
  split.
  - apply (placed_alloc (view s) d (m_freeblock s) 12 _ false _ c _ _ 12%nat); [done|lia|unfold d'; cbn; by rewrite length_insert|lia|done|by rewrite Hs, decide_True| |done| |lia| |].
    + intros j _ Hne. by rewrite Hs, decide_False.
    + apply (im_zero _ Him). lia.
    + intros bn Hbn. destruct (slot_of_lt bn Hbn). intuition.
    + intuition.
  - constructor; try done; [| |cbn; lia]; intros j Hj Hjz; change (view (took 1 s)) with (view s); rewrite Hs; case_decide; [by subst|done|by right|by left].
Qed.

Lemma entry_run s d nblk c : image_ok s → placed (view s) d (m_freeblock s) nblk true c → 12 ≤ nblk < 268 → m_freeblock s + 1 ≤ FSSIZE →
  let s' := wrote (d_addr d 12) (put32 (Z.to_nat (4 * (nblk - 12))) (m_freeblock s) (view s (d_addr d 12))) (took 1 s) in
  get32 (Z.to_nat (4 * (nblk - 12))) (view s (d_addr d 12)) = 0 ∧ image_ok s' ∧
  placed (view s') d (m_freeblock s + 1) (nblk + 1) true c ∧ extends s s' d d.
Proof.
  intros Him H Hn Hf s'. pose proof (im_fb _ Him) as Hfb. change nmeta with 46 in Hfb. change FSSIZE with 2000 in *.
  assert (H12 : d_addr d 12 ≠ 0) by (rewrite <- (slot_ind (view s) d); by apply (pl_ind _ _ _ _ _ _ H)).
  pose proof (pl_slot _ _ _ _ _ _ H 12%nat ltac:(lia) H12) as Hr. rewrite slot_ind in Hr. change nmeta with 46 in Hr.
  destruct (im_blk _ Him (d_addr d 12)) as [_ Hl12]; [change FSSIZE with 2000; lia|].
  set (k := Z.to_nat (nblk - 12)). assert (Ek : Z.to_nat (4 * (nblk - 12)) = (4 * k)%nat) by lia.
  assert (Hso : slot_of nblk = (13 + k)%nat) by (unfold slot_of; rewrite (proj2 (Z.ltb_ge nblk 12)) by lia; lia).
  assert (Hz : dslot (view s) d (13 + k) = 0).
  { destruct (decide (dslot (view s) d (13 + k) = 0)) as [|E]; [done|]. rewrite <- Hso in E. apply (pl_has _ _ _ _ _ _ H) in E; lia. }
  assert (Hs : ∀ j, dslot (view s') d j = if decide (j = 13 + k)%nat then m_freeblock s else dslot (view s) d j).
  { intros j. unfold s'. rewrite Ek. change (view s (d_addr d 12)) with (view (took 1 s) (d_addr d 12)). rewrite slot_entry; [done|lia|done|lia|done]. }
  split_and!.
  - rewrite Ek. unfold dslot in Hz. rewrite slot_ge in Hz by lia. change (addr_of 12 (xi 0 d)) with (d_addr d 12) in Hz.
    rewrite (proj2 (Z.eqb_neq _ 0) H12) in Hz. by replace (13 + k - 13)%nat with k in Hz by lia.
  - apply image_wrote; [apply image_took; [done|lia|change FSSIZE with 2000; lia]|cbn; lia|]. unfold put32. by rewrite length_put_le.
  - apply (placed_alloc (view s) d (m_freeblock s) nblk _ true _ c _ _ (13 + k)%nat); [done|change nmeta with 46; lia|apply H|lia|done|by rewrite Hs, decide_True| | | |lia| |].
    + intros j _ Hne. by rewrite Hs, decide_False.
    + intros b Hb. rewrite slot_ind in Hb. unfold s'. by rewrite view_wrote, decide_False.
    + apply (im_zero _ Him). change FSSIZE with 2000. lia.
    + intros bn Hbn. rewrite <- Hso. split; [intros [E|?]; [apply slot_of_inj in E|]; lia|]. intros Hlt. destruct (decide (bn = nblk)) as [->|]; [by left|right; lia].
    + intuition.
  - constructor; try done; [| | |cbn; lia].
    + intros b Hb Hne. unfold s'. by rewrite view_wrote, decide_False.
    + intros j Hj Hjz. rewrite Hs. case_decide; [by subst|done].
    + intros j Hj Hjz. rewrite Hs. case_decide; [by right|by left].
Qed.

Lemma extends_refl s d : extends s s d d.
Proof. constructor; try done. intros j _ ?. by left. Qed.

Lemma indirect_slot s d fb nblk c fbn : image_ok s → placed (view s) d fb nblk true c → fb ≤ m_freeblock s → 12 ≤ fbn →
  rsect (d_addr d 12) s = Ok (view s (d_addr d 12)) s ∧ get32 (Z.to_nat (4 * (fbn - NDIRECT))) (view s (d_addr d 12)) = dslot (view s) d (slot_of fbn).
Proof.
  intros Him H Hfb Hn. assert (H12 : d_addr d 12 ≠ 0) by (rewrite <- (slot_ind (view s) d); by apply (pl_ind _ _ _ _ _ _ H)).
  pose proof (pl_slot _ _ _ _ _ _ H 12%nat ltac:(lia) H12) as Hr. rewrite slot_ind in Hr. pose proof (im_fb _ Him) as Hf. change nmeta with 46 in *. change FSSIZE with 2000 in *.
  split; [apply rsect_run; [done|change FSSIZE with 2000; lia]|]. unfold dslot. rewrite slot_indirect by done. change (addr_of 12 (xi 0 d)) with (d_addr d 12).
  by rewrite (proj2 (Z.eqb_neq _ 0) H12).
Qed.

(** The block of the file for the next bytes: it is there, or it is the next free
    one. *)
Lemma block_for_run s d nblk c fbn : image_ok s → placed (view s) d (m_freeblock s) nblk (norm nblk) c → 0 ≤ fbn ≤ nblk → fbn < 268 →
  m_freeblock s + extra fbn nblk ≤ FSSIZE →
  ∃ d' s', block_for d fbn s = Ok (d', dslot (view s') d' (slot_of fbn)) s' ∧ image_ok s' ∧
    placed (view s') d' (m_freeblock s') (Z.max nblk (fbn + 1)) (norm (Z.max nblk (fbn + 1))) c ∧
    m_freeblock s' = m_freeblock s + extra fbn nblk ∧ extends s s' d d'.
Proof.
  intros Him H Hf Hf2 Hroom. pose proof (im_fb _ Him) as Hfb. change nmeta with 46 in Hfb. unfold block_for, extra in *. change NDIRECT with 12. destruct (Z.ltb_spec fbn nblk) as [Hlt|Hge].
  - rewrite Z.max_l by lia. exists d, s. assert (Hnz : dslot (view s) d (slot_of fbn) ≠ 0) by (apply (pl_has _ _ _ _ _ _ H); lia).
    split; [|split_and!; [done|done|lia|apply extends_refl]]. destruct (Z.ltb_spec fbn 12) as [H12|H12].
    + unfold dslot in Hnz |- *. rewrite slot_direct in Hnz |- * by lia. change (addr_of ?i (xi 0 d)) with (d_addr d i) in *. by rewrite (proj2 (Z.eqb_neq _ 0) Hnz).
    + replace (norm nblk) with true in H by (unfold norm; lia). destruct (indirect_slot s d _ nblk c fbn Him H ltac:(lia) H12) as [Er Eg]. change NDIRECT with 12 in Eg.
      assert (Hi : d_addr d 12 ≠ 0) by (rewrite <- (slot_ind (view s) d); by apply (pl_ind _ _ _ _ _ _ H)).
      rewrite (proj2 (Z.eqb_neq _ 0) Hi). rewrite (bind_ok _ _ s d s) by done. rewrite (bind_ok _ _ _ _ _ Er). rewrite Eg. by rewrite (proj2 (Z.eqb_neq _ 0) Hnz).
  - assert (fbn = nblk) as -> by lia. rewrite Z.max_r by lia. destruct (Z.ltb_spec nblk 12) as [H12|H12].
    + rewrite (proj2 (Z.eqb_neq nblk 12)) in * by lia. destruct (direct_run s d nblk c) as [Hp He]; [done|done|lia|lia|]. exists (set_d_addr (Z.to_nat nblk) (m_freeblock s) d), (took 1 s).
      assert (Hz : d_addr d (Z.to_nat nblk) = 0).
      { pose proof (pl_has _ _ _ _ _ _ H nblk ltac:(lia)) as Hh. unfold dslot in Hh. rewrite slot_direct in Hh by lia. change (addr_of ?i (xi 0 d)) with (d_addr d i) in Hh.
        destruct (decide (d_addr d (Z.to_nat nblk) = 0)); [done|]. lia. }
      split_and!; [|apply image_took; [done|lia|lia]|done|done|done].
      rewrite Hz. cbn [Z.eqb]. rewrite (bind_ok _ _ _ _ _ (newblock_run s)). unfold mret, M_ret. do 2 f_equal.
      change (view (took 1 s)) with (view s). rewrite slot_set; [|apply H|lia|lia]. rewrite decide_True; [done|]. unfold slot_of. by rewrite (proj2 (Z.ltb_lt nblk 12)) by lia.
    + assert (Hd : ∃ d1 s1, (if d_addr d 12 =? 0 then a ← newblock; mret (set_d_addr 12 a d) else mret d) s = Ok d1 s1 ∧ image_ok s1 ∧
        placed (view s1) d1 (m_freeblock s1) nblk true c ∧ m_freeblock s1 = m_freeblock s + (if nblk =? 12 then 1 else 0) ∧ extends s s1 d d1).
      { destruct (Z.eqb_spec nblk 12) as [->|Hne].
        - destruct (ind_run s d c) as [Hp He]; [done|done|lia|]. exists (set_d_addr 12 (m_freeblock s) d), (took 1 s).
          assert (Hz : d_addr d 12 = 0).
          { destruct (decide (d_addr d 12 = 0)) as [|E]; [done|]. rewrite <- (slot_ind (view s) d) in E. by apply (pl_ind _ _ _ _ _ _ H) in E. }
          rewrite Hz. cbn [Z.eqb]. split_and!; [by rewrite (bind_ok _ _ _ _ _ (newblock_run s))|apply image_took; [done|lia|lia]|done|done|done].
        - replace (norm nblk) with true in H by (unfold norm; lia). exists d, s.
          assert (Hi : d_addr d 12 ≠ 0) by (rewrite <- (slot_ind (view s) d); by apply (pl_ind _ _ _ _ _ _ H)).
          rewrite (proj2 (Z.eqb_neq _ 0) Hi). split_and!; [done|done|done|lia|apply extends_refl]. }
      destruct Hd as (d1 & s1 & E1 & Him1 & H1 & Hf1 & He1). rewrite (bind_ok _ _ _ _ _ E1).
      destruct (indirect_slot s1 d1 _ nblk c nblk Him1 H1 ltac:(lia) H12) as [Er _]. rewrite (bind_ok _ _ _ _ _ Er).
      destruct (entry_run s1 d1 nblk c Him1 H1 ltac:(lia)) as (Eg & Him2 & H2 & He2); [destruct (Z.eqb_spec nblk 12); lia|].
      rewrite Eg. cbn [Z.eqb]. rewrite (bind_ok _ _ _ _ _ (newblock_run s1)).
      set (s2 := wrote (d_addr d1 12) _ (took 1 s1)) in *. exists d1, s2.
      assert (Es : dslot (view s2) d1 (slot_of nblk) = m_freeblock s1).
      { pose proof (pl_has _ _ _ _ _ _ H2 nblk ltac:(lia)) as Hh. pose proof (pl_slot _ _ _ _ _ _ H2 (slot_of nblk) (proj1 (slot_of_lt nblk ltac:(lia))) ltac:(lia)) as Hsl.
        pose proof (ex_new _ _ _ _ He2 (slot_of nblk) (proj1 (slot_of_lt nblk ltac:(lia)))) as Hnew. pose proof (pl_has _ _ _ _ _ _ H1 nblk ltac:(lia)) as Hh1.
        destruct (decide (dslot (view s1) d1 (slot_of nblk) = 0)) as [E0|E0]; [|lia]. destruct (Hnew E0); lia. }
      rewrite Es. split_and!; [done|done|by replace (norm (nblk + 1)) with true by (unfold norm; lia)| |by eapply extends_trans].
      cbn. rewrite Hf1. destruct (Z.eqb_spec nblk 12); lia.
Qed.

(** ** Appending *)

Record grown (s s' : mk) (d d' : dinode) : Prop := {
  gr_keep b : 0 < b < m_freeblock s → (∀ j, (j < 269)%nat → dslot (view s) d j ≠ b) → view s' b = view s b;
  gr_slots j : (j < 269)%nat → dslot (view s) d j ≠ 0 → dslot (view s') d' j = dslot (view s) d j;
  gr_new j : (j < 269)%nat → dslot (view s) d j = 0 → dslot (view s') d' j = 0 ∨ m_freeblock s ≤ dslot (view s') d' j;
  gr_inode : m_freeinode s' = m_freeinode s;
  gr_fb : m_freeblock s ≤ m_freeblock s';
  gr_fields : d_type d' = d_type d ∧ d_major d' = d_major d ∧ d_minor d' = d_minor d ∧ d_nlink d' = d_nlink d ∧ d_size d' = d_size d }.

Lemma extends_grown s s' d d' : extends s s' d d' → grown s s' d d'.
Proof.
  intros []. constructor; try done. intros b Hb Hs. apply ex_keep0; [lia|]. intros ->. by apply (Hs 12%nat); [lia|].
Qed.

Lemma grown_refl s d : grown s s d d.
Proof. apply extends_grown, extends_refl. Qed.

Lemma grown_trans s s1 s2 d d1 d2 : grown s s1 d d1 → grown s1 s2 d1 d2 → grown s s2 d d2.
Proof.
  intros H1 H2. pose proof (gr_fb _ _ _ _ H1). pose proof (gr_fb _ _ _ _ H2). constructor.
  - intros b Hb Hne. rewrite (gr_keep _ _ _ _ H2); [by apply (gr_keep _ _ _ _ H1)|lia|]. intros j Hj E.
    destruct (decide (dslot (view s) d j = 0)) as [Ez|Ez]; [destruct (gr_new _ _ _ _ H1 j Hj Ez); lia|].
    apply (Hne j Hj). by rewrite <- (gr_slots _ _ _ _ H1 j Hj Ez).
  - intros j Hj Hnz. rewrite (gr_slots _ _ _ _ H2 j); rewrite ?(gr_slots _ _ _ _ H1 j); done.
  - intros j Hj Hz. destruct (decide (dslot (view s1) d1 j = 0)) as [E|E].
    + destruct (gr_new _ _ _ _ H2 j Hj E); [by left|right; lia].
    + rewrite (gr_slots _ _ _ _ H2 j) by done. destruct (gr_new _ _ _ _ H1 j Hj Hz); [by left|right; lia].
  - rewrite (gr_inode _ _ _ _ H2). apply H1.
  - lia.
  - destruct (gr_fields _ _ _ _ H1) as (? & ? & ? & ? & ?). destruct (gr_fields _ _ _ _ H2) as (? & ? & ? & ? & ?). split_and!; congruence.
Qed.

Lemma write_run s d nblk ind c p : image_ok s → placed (view s) d (m_freeblock s) nblk ind c →
  let off := Z.of_nat (length c) in let a := dslot (view s) d (slot_of (off / 1024)) in
  off / 1024 < nblk → (length p ≤ 1024 - Z.to_nat (off mod 1024))%nat →
  let s' := wrote a (list_inserts (Z.to_nat (off mod 1024)) p (view s a)) s in
  rsect a s = Ok (view s a) s ∧ image_ok s' ∧ placed (view s') d (m_freeblock s) nblk ind (c ++ p) ∧ grown s s' d d.
Proof.
  intros Him H off a Hn Hp s'. assert (0 ≤ off / 1024) by dlia. pose proof (pl_nblk _ _ _ _ _ _ H) as Hnb. pose proof (im_fb _ Him) as Hfb.
  assert (Hnz : a ≠ 0) by (apply (pl_has _ _ _ _ _ _ H); lia). destruct (slot_of_lt (off / 1024)) as [Hlt Hn12]; [lia|].
  pose proof (pl_slot _ _ _ _ _ _ H _ Hlt Hnz) as Ha. change nmeta with 46 in *. change FSSIZE with 2000 in *. fold a in Ha.
  destruct (im_blk _ Him a) as [_ Hla]; [change FSSIZE with 2000; lia|]. pose proof (Z.mod_pos_bound off 1024 ltac:(lia)) as Hm.
  assert (Ha12 : a ≠ d_addr d 12).
  { rewrite <- (slot_ind (view s) d). intros E. apply Hn12. by apply (pl_inj _ _ _ _ _ _ H); [|lia|..]. }
  assert (Hs : ∀ j, dslot (view s') d j = dslot (view s) d j).
  { intros j. apply slot_same; [done|]. intros _. unfold s'. by rewrite view_wrote, decide_False. }
  split_and!.
  - apply rsect_run; [done|change FSSIZE with 2000; lia].
  - apply image_wrote; [done|lia|]. by rewrite length_inserts.
  - constructor; [apply H|done| |..].
    + rewrite length_app. dlia.
    + intros j. rewrite Hs. apply (pl_slot _ _ _ _ _ _ H).
    + intros j k. rewrite !Hs. apply (pl_inj _ _ _ _ _ _ H).
    + intros bn. rewrite Hs. apply (pl_has _ _ _ _ _ _ H).
    + rewrite Hs. apply (pl_ind _ _ _ _ _ _ H).
    + intros k Hk. pose proof (pl_data _ _ _ _ _ _ H k Hk) as Hd. unfold fdata in *. change (slot (view s') (xi 0 d) ?j) with (dslot (view s') d j). change (slot (view s) (xi 0 d) ?j) with (dslot (view s) d j) in Hd.
      rewrite Hs. destruct (decide (k / 1024 = off / 1024)) as [Ek|Ek].
      * rewrite Ek in Hd |- *. change (dslot (view s) d (slot_of (off / 1024))) with a in Hd |- *. rewrite (proj2 (Z.eqb_neq a 0) Hnz) in Hd |- *. unfold s'. rewrite view_wrote, decide_True by done.
        rewrite lookup_inserts_at by lia. case_decide as Hin.
        -- rewrite lookup_app_r by dlia. do 2 f_equal. dlia.
        -- rewrite Hd. destruct (decide (k < off)) as [Hko|Hko]; [by rewrite lookup_app_l by lia|]. rewrite !lookup_ge_None_2; [done|rewrite length_app; dlia|dlia].
      * replace (view s' (dslot (view s) d (slot_of (k / 1024)))) with (view s (dslot (view s) d (slot_of (k / 1024)))).
        -- rewrite Hd. destruct (decide (k < off)) as [Hko|Hko]; [by rewrite lookup_app_l by lia|]. rewrite !lookup_ge_None_2; [done|rewrite length_app; dlia|lia].
        -- unfold s'. rewrite view_wrote. case_decide as E; [|done]. exfalso. apply Ek. apply slot_of_inj; [dlia|dlia|].
           apply (pl_inj _ _ _ _ _ _ H); [apply slot_of_lt; dlia|done|done|by rewrite E].
  - constructor; try done.
    + intros b Hb Hno. unfold s'. rewrite view_wrote, decide_False; [done|]. intros ->. by apply (Hno (slot_of (off / 1024))).
    + intros j Hj Hz. left. by rewrite Hs.
Qed.

Definition nb (n : Z) : Z := (n + 1023) / 1024.
(** The blocks of a file of [n] bytes, with the indirect block. *)
Definition cost (n : Z) : Z := nb n + (if norm (nb n) then 1 else 0).

Lemma cost_round off n1 : 0 ≤ off → 1 ≤ n1 ≤ 1024 - off mod 1024 → cost (off + n1) = cost off + extra (off / 1024) (nb off) ∧
  nb (off + n1) = Z.max (nb off) (off / 1024 + 1).
Proof.
  intros Ho Hn. assert (E : nb (off + n1) = Z.max (nb off) (off / 1024 + 1)) by (unfold nb; dlia). split; [|done].
  unfold cost, extra, norm. rewrite E. assert (Hnb : nb off = off / 1024 ∨ nb off = off / 1024 + 1) by (unfold nb; dlia).
  destruct (Z.ltb_spec (off / 1024) (nb off)), (Z.eqb_spec (off / 1024) 12), (Z.ltb_spec 12 (nb off)), (Z.ltb_spec 12 (Z.max (nb off) (off / 1024 + 1))); lia.
Qed.

Lemma cost_mono a b : 0 ≤ a ≤ b → cost a ≤ cost b.
Proof. intros H. unfold cost, norm. assert (nb a ≤ nb b) by (unfold nb; dlia). destruct (Z.ltb_spec 12 (nb a)), (Z.ltb_spec 12 (nb b)); lia. Qed.

Lemma iappend_loop_run fuel : ∀ s d c p, image_ok s → let off := Z.of_nat (length c) in
  placed (view s) d (m_freeblock s) (nb off) (norm (nb off)) c → (length p ≤ fuel)%nat → off + length p ≤ 268 * 1024 →
  m_freeblock s + cost (off + length p) - cost off ≤ FSSIZE →
  ∃ d' s', iappend_loop fuel d off p s = Ok (d', off + length p) s' ∧ image_ok s' ∧
    placed (view s') d' (m_freeblock s') (nb (off + length p)) (norm (nb (off + length p))) (c ++ p) ∧
    m_freeblock s' = m_freeblock s + cost (off + length p) - cost off ∧ grown s s' d d'.
Proof.
  induction fuel as [|fuel IH]; intros s d c p Him off H Hf Hmax Hroom.
  { destruct p; [|cbn in Hf; lia]. exists d, s. cbn. rewrite app_nil_r, Z.add_0_r. split_and!; [done|done|done|lia|apply grown_refl]. }
  cbn [iappend_loop]. destruct (Nat.ltb_spec 0 (length p)) as [Hp|Hp].
  2:{ destruct p; [|cbn in Hp; lia]. exists d, s. cbn. rewrite app_nil_r, Z.add_0_r. split_and!; [done|done|done|lia|apply grown_refl]. }
  change BSIZE with 1024. change MAXFILE with 268. unfold assert_. rewrite (proj2 (Z.ltb_lt (off / 1024) 268)) by dlia.
  rewrite (seq_ok _ _ s s) by done. set (n1 := Z.min (length p) ((off / 1024 + 1) * 1024 - off)).
  assert (Hn1 : 1 ≤ n1 ≤ 1024 - off mod 1024 ∧ n1 ≤ length p) by (unfold n1; dlia). destruct Hn1 as [Hn1 Hn1p].
  destruct (cost_round off n1 ltac:(lia) Hn1) as [Ec En]. pose proof (cost_mono (off + n1) (off + length p) ltac:(lia)) as Hmono.
  assert (Hex : 0 ≤ extra (off / 1024) (nb off)) by (unfold extra; repeat case_match; lia).
  destruct (block_for_run s d (nb off) c (off / 1024)) as (d1 & s1 & E1 & Him1 & H1 & Hf1 & He1); [done|done|unfold nb; dlia|dlia|lia|].
  rewrite (bind_ok _ _ _ _ _ E1). cbn [fst snd]. rewrite <- En in H1.
  replace (off - off / 1024 * 1024) with (off mod 1024) by dlia. pose proof (Z.mod_pos_bound off 1024 ltac:(lia)) as Hm.
  destruct (write_run s1 d1 _ _ c (take (Z.to_nat n1) p) Him1 H1) as (Er & Him2 & H2 & Hg2); [rewrite En; fold off; lia|rewrite length_take; fold off; lia|].
  fold off in Er, Him2, H2, Hg2. set (a := dslot (view s1) d1 (slot_of (off / 1024))) in *. rewrite (bind_ok _ _ _ _ _ Er).
  set (s2 := wrote a _ s1) in *. rewrite (seq_ok _ _ s1 s2) by done.
  assert (El : Z.of_nat (length (c ++ take (Z.to_nat n1) p)) = off + n1) by (rewrite length_app, length_take; lia).
  assert (Ed : length (drop (Z.to_nat n1) p) = (length p - Z.to_nat n1)%nat) by apply length_drop.
  destruct (IH s2 d1 (c ++ take (Z.to_nat n1) p) (drop (Z.to_nat n1) p) Him2) as (d' & s' & E' & Him' & H' & Hf' & Hg'); rewrite ?El, ?Ed.
  { done. } { lia. } { lia. } { replace (off + n1 + (length p - Z.to_nat n1)%nat) with (off + length p) by lia. cbn. lia. }
  rewrite El in *. rewrite Ed in *. replace (off + n1 + (length p - Z.to_nat n1)%nat) with (off + length p) in * by lia.
  exists d', s'. rewrite Z2Nat.id by lia. rewrite E'. rewrite <- app_assoc, take_drop in H'. split_and!; [done|done|done|cbn in Hf'; lia|].
  eapply grown_trans; [by apply extends_grown|]. by eapply grown_trans.
Qed.

(** ** Inodes *)

Abbreviation dino s inum := (disk_inode sb (view s) inum).
Definition total (fl : list (Z * list Z)) : Z := foldr (λ x n, cost (length x.2) + n) 0 fl.

(** The image with the files [fl] (type and contents), [fl !! k] in inode [k + 1]. *)
Record mkfs_ok (s : mk) (fl : list (Z * list Z)) : Prop := {
  mo_img : image_ok s;
  mo_count : m_freeinode s = 1 + length fl ∧ (length fl < 200)%nat;
  mo_file (k : nat) ty c : fl !! k = Some (ty, c) → let d := dino s (k + 1) in
    d = mkDinode ty 0 0 1 (length c) (d_addrs d) ∧ - 2 ^ 15 ≤ ty < 2 ^ 15 ∧ length c ≤ 268 * 1024 ∧
    placed (view s) d (m_freeblock s) (nb (length c)) (norm (nb (length c))) c;
  mo_disj (k1 k2 : nat) j1 j2 : (k1 < length fl)%nat → (k2 < length fl)%nat → k1 ≠ k2 → (j1 < 269)%nat → (j2 < 269)%nat →
    dslot (view s) (dino s (k1 + 1)) j1 = dslot (view s) (dino s (k2 + 1)) j2 → dslot (view s) (dino s (k1 + 1)) j1 = 0;
  mo_rest inum : 0 ≤ inum < 200 → inum = 0 ∨ length fl < inum → d_type (dino s inum) = 0;
  mo_fb : m_freeblock s = nmeta + total fl }.

Lemma iblock inum : 0 ≤ inum < 200 → IBLOCK inum sb = 32 + inum / 16.
Proof.
  intros H. unfold IBLOCK. change (sb_inodestart sb) with 32. change IPB with 16. rewrite u32_small; dlia.
Qed.
Lemma iblock_range inum : 0 ≤ inum < 200 → 32 ≤ IBLOCK inum sb < 45.
Proof. intros H. rewrite iblock by done. dlia. Qed.

Lemma dino_put s inum d : image_ok s → 0 ≤ inum < 200 → dinode_ok d →
  let s' := wrote (IBLOCK inum sb) (put_dinode (dinode_off inum) d (view s (IBLOCK inum sb))) s in
  winode inum d s = Ok tt s' ∧ image_ok s' ∧ (∀ inum', 0 ≤ inum' < 200 → dino s' inum' = if decide (inum' = inum) then d else dino s inum') ∧
  ∀ b, ¬ 32 ≤ b < 45 → view s' b = view s b.
Proof.
  intros Him Hi Hd s'. pose proof (iblock_range inum Hi) as Hr. pose proof (im_fb _ Him) as Hfb. change nmeta with 46 in Hfb. change FSSIZE with 2000 in Hfb.
  destruct (im_blk _ Him (IBLOCK inum sb)) as [_ Hl]; [change FSSIZE with 2000; lia|]. pose proof (dinode_off_lt inum ltac:(lia)) as Ho.
  destruct (get_put_dinode (dinode_off inum) d (view s (IBLOCK inum sb)) Hd ltac:(lia)) as [Eg Eo]. split_and!.
  - unfold winode. rewrite (bind_ok _ _ _ _ _ (rsect_run s (IBLOCK inum sb) Him ltac:(change FSSIZE with 2000; lia))). done.
  - apply image_wrote; [done|lia|]. rewrite length_put_dinode; [done|apply Hd].
  - intros inum' Hi'. unfold disk_inode, s'. rewrite view_wrote. case_decide as E; [|case_decide as E'; [by subst|done]].
    case_decide as E'; [subst inum'; apply Eg|]. rewrite Eo; [by rewrite E|].
    rewrite !iblock in E by done. unfold dinode_off. change IPB with 16. pose proof (Z.mod_pos_bound inum 16). pose proof (Z.mod_pos_bound inum' 16). dlia.
  - intros b Hb. unfold s'. rewrite view_wrote, decide_False; [done|]. intros ->. lia.
Qed.

Lemma winode_placed s d fb nblk ind c s' d0 : (∀ b, ¬ 32 ≤ b < 45 → view s' b = view s b) → placed (view s) d0 fb nblk ind c → d_addrs d = d_addrs d0 →
  placed (view s') d fb nblk ind c ∧ ∀ j, dslot (view s') d j = dslot (view s) d0 j.
Proof.
  intros Hv H Ha. apply (placed_frame (view s) _ d0 d fb fb nblk ind c); [done|done|lia|]. intros j Hj Hnz. apply Hv.
  pose proof (pl_slot _ _ _ _ _ _ H j Hj Hnz) as Hr. change nmeta with 46 in Hr. lia.
Qed.

Lemma empty_slot C ty n j : dslot C (mkDinode ty 0 0 n 0 (replicate 13 0)) j = 0.
Proof.
  unfold dslot, slot, addr_of, xi, load_dinode. cbn [i_addrs d_addrs]. assert (E : ∀ i, default 0 (replicate 13 0 !! i) = 0).
  { intros i. destruct (replicate 13 0 !! i) as [x|] eqn:Ex; [|done]. by apply lookup_replicate_1 in Ex as [-> _]. }
  rewrite !E. by case_decide.
Qed.

Lemma empty_placed C ty n fb : placed C (mkDinode ty 0 0 n 0 (replicate 13 0)) fb 0 false [].
Proof.
  constructor; try done.
  - intros j _. by rewrite empty_slot.
  - intros j k _ _. by rewrite !empty_slot.
  - intros bn Hbn. rewrite empty_slot. lia.
  - intros k Hk. unfold fdata. change (slot C (xi 0 ?d) ?j) with (dslot C d j). by rewrite empty_slot.
Qed.

Lemma empty_ok ty : - 2 ^ 15 ≤ ty < 2 ^ 15 → dinode_ok (mkDinode ty 0 0 1 0 (replicate 13 0)).
Proof. intros H. constructor; cbn [d_type d_major d_minor d_nlink d_size d_addrs]; try done; try lia. apply Forall_replicate. lia. Qed.

Lemma total_app a b : total (a ++ b) = total a + total b.
Proof. unfold total. induction a; cbn; lia. Qed.

Lemma ialloc_run s fl ty : mkfs_ok s fl → (S (length fl) < 200)%nat → - 2 ^ 15 ≤ ty < 2 ^ 15 →
  ∃ s', ialloc ty s = Ok (1 + length fl) s' ∧ mkfs_ok s' (fl ++ [(ty, [])]) ∧ ∀ b, ¬ 32 ≤ b < 45 → view s' b = view s b.
Proof.
  intros H Hlen Hty. destruct (mo_count _ _ H) as [Hc _]. set (s1 := mkMk (m_img s) (m_freeinode s + 1) (m_freeblock s)).
  assert (Him1 : image_ok s1) by (destruct (mo_img _ _ H); by constructor). set (n := 1 + length fl).
  destruct (dino_put s1 n _ Him1 ltac:(lia) (empty_ok ty Hty)) as (Ew & Him' & Hd & Hv). set (s' := wrote _ _ s1) in *.
  exists s'. split_and!; [unfold ialloc; rewrite (bind_ok _ _ s s s) by done; rewrite (seq_ok _ _ s s1) by done; rewrite Hc; fold n; by rewrite (seq_ok _ _ _ _ Ew)| |done].
  assert (Hdk : ∀ k : nat, (k < length fl)%nat → dino s' (k + 1) = dino s (k + 1)).
  { intros k Hk. rewrite Hd by lia. by rewrite decide_False by lia. }
  assert (Hdn : dino s' (length fl + 1) = mkDinode ty 0 0 1 0 (replicate 13 0)) by (rewrite Hd by lia; by rewrite decide_True by lia).
  assert (Hold : ∀ (k : nat) ty c, fl !! k = Some (ty, c) → placed (view s') (dino s (k + 1)) (m_freeblock s) (nb (length c)) (norm (nb (length c))) c ∧ ∀ j, dslot (view s') (dino s (k + 1)) j = dslot (view s) (dino s (k + 1)) j).
  { intros k ty' c Hk. destruct (mo_file _ _ H k ty' c Hk) as (_ & _ & _ & Hp). by apply (winode_placed s). }
  assert (Hsl : ∀ (k j : nat), (k < length fl)%nat → dslot (view s') (dino s' (k + 1)) j = dslot (view s) (dino s (k + 1)) j).
  { intros k j Hk. destruct (lookup_lt_is_Some_2 fl k Hk) as [[ty' c] Ek]. rewrite Hdk by done. by apply (Hold k ty' c Ek). }
  constructor; [done| |..].
  - rewrite length_app. cbn. lia.
  - intros k ty' c. rewrite lookup_app_Some. intros [Hk|[Hk Ek]].
    + pose proof (lookup_lt_Some _ _ _ Hk). destruct (mo_file _ _ H k ty' c Hk) as (E & ? & ? & _). rewrite Hdk by done. do 3 (split; [done|]). by apply (Hold k ty' c Hk).
    + apply list_lookup_singleton_Some in Ek as [E0 [= <- <-]]. assert (k = length fl) as -> by lia. rewrite Hdn. split_and!; [done|lia|lia|cbn; lia|apply empty_placed].
  - intros k1 k2 j1 j2. rewrite length_app. cbn [length]. intros Hk1 Hk2 Hne Hj1 Hj2. destruct (decide (k1 = length fl)) as [->|N1]; [rewrite Hdn, empty_slot; done|].
    rewrite (Hsl k1) by lia. destruct (decide (k2 = length fl)) as [->|N2]; [rewrite Hdn, empty_slot; done|]. rewrite (Hsl k2) by lia. apply (mo_disj _ _ H); (done || lia).
  - intros inum Hi Hr. rewrite length_app in Hr. cbn in Hr. rewrite Hd by done. rewrite decide_False by lia. apply (mo_rest _ _ H); [done|lia].
  - rewrite total_app. change (total [(ty, [])]) with 0. change (m_freeblock s') with (m_freeblock s). rewrite (mo_fb _ _ H). lia.
Qed.

Lemma total_cons x l : total (x :: l) = cost (length x.2) + total l.
Proof. done. Qed.

Lemma total_insert fl k x y : fl !! k = Some x → total (<[k := y]> fl) = total fl + cost (length y.2) - cost (length x.2).
Proof.
  revert k. induction fl as [|z fl IH]; intros k Hk; [done|]. destruct k as [|k]; cbn [lookup list_lookup] in Hk.
  - injection Hk as ->. change (<[0%nat := y]> (x :: fl)) with (y :: fl). rewrite !total_cons. lia.
  - change (<[S k := y]> (z :: fl)) with (z :: <[k := y]> fl). rewrite !total_cons. specialize (IH k Hk). lia.
Qed.

Lemma placed_dinode C d fb nblk ind c ty n : placed C d fb nblk ind c → fb ≤ 2000 → - 2 ^ 15 ≤ ty < 2 ^ 15 → 0 ≤ n < 2 ^ 32 → dinode_ok (mkDinode ty 0 0 1 n (d_addrs d)).
Proof.
  intros H Hfb Hty Hn. constructor; cbn [d_type d_major d_minor d_nlink d_size d_addrs]; try done; try lia; [apply H|].
  apply list.Forall_lookup. intros i a Ha. pose proof (lookup_lt_Some _ _ _ Ha) as Hi. rewrite (pl_len _ _ _ _ _ _ H) in Hi.
  assert (E : dslot C d i = a) by (unfold dslot; rewrite slot_lt by lia; unfold addr_of, xi, load_dinode; cbn; by rewrite Ha).
  destruct (decide (a = 0)) as [->|Hnz]; [lia|]. pose proof (pl_slot _ _ _ _ _ _ H i ltac:(lia) ltac:(by rewrite E)) as Hr. rewrite E in Hr. change nmeta with 46 in Hr. lia.
Qed.

(** The blocks before the inodes: the superblock and the log. *)
Definition low (s s' : mk) : Prop := ∀ b, 0 < b < 32 → view s' b = view s b.

Lemma low_trans s1 s2 s3 : low s1 s2 → low s2 s3 → low s1 s3.
Proof. intros H1 H2 b Hb. by rewrite H2, H1. Qed.

Lemma iappend_run s fl (k : nat) ty c p : mkfs_ok s fl → fl !! k = Some (ty, c) → length c + length p ≤ 268 * 1024 →
  m_freeblock s + cost (length c + length p) - cost (length c) ≤ FSSIZE →
  ∃ s', iappend (k + 1) p s = Ok tt s' ∧ mkfs_ok s' (<[k := (ty, c ++ p)]> fl) ∧ low s s'.
Proof.
  intros H Hk Hmax Hroom. pose proof (lookup_lt_Some _ _ _ Hk) as Hkl. destruct (mo_count _ _ H) as [Hc Hlen]. pose proof (mo_img _ _ H) as Him.
  destruct (mo_file _ _ H k ty c Hk) as (Ed & Hty & _ & Hp). set (d := dino s (k + 1)) in *. pose proof (im_fb _ Him) as Hfb. change nmeta with 46 in Hfb. change FSSIZE with 2000 in *.
  assert (Hir : rinode (k + 1) s = Ok d s).
  { unfold rinode. rewrite (bind_ok _ _ _ _ _ (rsect_run s (IBLOCK (k + 1) sb) Him ltac:(pose proof (iblock_range (k + 1)); change FSSIZE with 2000; lia))). done. }
  destruct (iappend_loop_run (length p) s d c p Him Hp ltac:(lia) ltac:(lia) Hroom) as (d1 & s1 & El & Him1 & Hp1 & Hf1 & Hg).
  assert (Esz : d_size d = length c) by (by rewrite Ed). assert (Hn0 : 0 ≤ length c + length p) by lia. set (n := length c + length p : Z) in *.
  destruct (gr_fields _ _ _ _ Hg) as (F1 & F2 & F3 & F4 & _). rewrite Ed in F1, F2, F3, F4. cbn in F1, F2, F3, F4.
  set (d2 := set_d_size n d1). assert (Ed2 : d2 = mkDinode ty 0 0 1 n (d_addrs d1)) by (unfold d2, set_d_size; by rewrite F1, F2, F3, F4).
  pose proof (im_fb _ Him1) as Hfb1. change FSSIZE with 2000 in Hfb1. pose proof (gr_fb _ _ _ _ Hg) as Hgf.
  assert (Hd2 : dinode_ok d2) by (rewrite Ed2; apply (placed_dinode _ _ _ _ _ _ _ _ Hp1); lia).
  destruct (dino_put s1 (k + 1) d2 Him1 ltac:(lia) Hd2) as (Ew & Him2 & Hdi & Hv). set (s2 := wrote _ _ s1) in *.
  exists s2. split; [unfold iappend; rewrite (bind_ok _ _ _ _ _ Hir), Esz, (bind_ok _ _ _ _ _ El); exact Ew|].
  assert (Hkeep : ∀ b, 0 < b < 46 → view s1 b = view s b).
  { intros b Hb. apply (gr_keep _ _ _ _ Hg); [lia|]. intros j Hj E. pose proof (pl_slot _ _ _ _ _ _ Hp j Hj ltac:(lia)) as Hr. change nmeta with 46 in Hr. lia. }
  assert (Hdi' : ∀ inum, 0 ≤ inum < 200 → inum ≠ k + 1 → dino s2 inum = dino s inum).
  { intros inum Hi Hne. rewrite Hdi, decide_False by done. unfold disk_inode. rewrite Hkeep; [done|]. pose proof (iblock_range inum Hi). lia. }
  assert (Hdk : dino s2 (k + 1) = d2) by (rewrite Hdi by lia; by rewrite decide_True).
  assert (Hnew : placed (view s2) d2 (m_freeblock s1) (nb n) (norm (nb n)) (c ++ p) ∧ ∀ j, dslot (view s2) d2 j = dslot (view s1) d1 j).
  { by apply (winode_placed s1). }
  destruct Hnew as [Hp2 Hs2].
  assert (Hother : ∀ (k' : nat) ty' c', k' ≠ k → fl !! k' = Some (ty', c') →
    placed (view s2) (dino s (k' + 1)) (m_freeblock s1) (nb (length c')) (norm (nb (length c'))) c' ∧
    ∀ j, dslot (view s2) (dino s (k' + 1)) j = dslot (view s) (dino s (k' + 1)) j).
  { intros k' ty' c' Hne Hk'. pose proof (lookup_lt_Some _ _ _ Hk'). destruct (mo_file _ _ H k' ty' c' Hk') as (_ & _ & _ & Hp').
    apply (placed_frame (view s) _ _ _ (m_freeblock s)); [done|done|lia|]. intros j Hj Hnz. pose proof (pl_slot _ _ _ _ _ _ Hp' j Hj Hnz) as Hr. change nmeta with 46 in Hr.
    rewrite Hv by lia. apply (gr_keep _ _ _ _ Hg); [lia|]. intros j' Hj' E. apply Hnz. symmetry in E. by apply (mo_disj _ _ H k' k j j'). }
  assert (Hcross : ∀ (k' : nat) j j', k' ≠ k → (k' < length fl)%nat → (j < 269)%nat → (j' < 269)%nat →
    dslot (view s2) d2 j = dslot (view s) (dino s (k' + 1)) j' → dslot (view s2) d2 j = 0).
  { intros k' j j' Hne Hk' Hj Hj' E. rewrite Hs2 in E |- *. destruct (lookup_lt_is_Some_2 fl k' Hk') as [[ty' c'] Ek']. destruct (mo_file _ _ H k' ty' c' Ek') as (_ & _ & _ & Hp').
    destruct (decide (dslot (view s) d j = 0)) as [Ez|Ez].
    - destruct (gr_new _ _ _ _ Hg j Hj Ez) as [|Hge]; [done|]. pose proof (pl_slot _ _ _ _ _ _ Hp' j' Hj' ltac:(lia)). lia.
    - rewrite (gr_slots _ _ _ _ Hg j Hj Ez) in *. by apply (mo_disj _ _ H k k' j j'). }
  split; [|intros b Hb; by rewrite Hv, Hkeep by lia]. constructor; [done| |..].
  - rewrite length_insert. change (m_freeinode s2) with (m_freeinode s1). rewrite (gr_inode _ _ _ _ Hg). done.
  - intros k' ty' c'. destruct (decide (k' = k)) as [->|Hne].
    + rewrite list_lookup_insert_eq by done. intros [= <- <-]. rewrite Hdk, Ed2. cbn [d_addrs]. rewrite length_app, Nat2Z.inj_add. fold n.
      do 2 (split; [done|]). split; [lia|]. by rewrite <- Ed2.
    + rewrite list_lookup_insert_ne by done. intros Hk'. pose proof (lookup_lt_Some _ _ _ Hk'). destruct (mo_file _ _ H k' ty' c' Hk') as (E' & ? & ? & _). rewrite Hdi' by lia.
      do 3 (split; [done|]). by apply (Hother k' ty' c').
  - intros k1 k2 j1 j2. rewrite length_insert. intros Hk1 Hk2 Hne Hj1 Hj2. destruct (decide (k1 = k)) as [->|N1], (decide (k2 = k)) as [->|N2]; [done|..].
    + rewrite Hdk, Hdi' by lia. destruct (lookup_lt_is_Some_2 fl k2 Hk2) as [[ty' c'] Ek']. rewrite (proj2 (Hother k2 ty' c' N2 Ek')). by apply Hcross.
    + rewrite Hdk, Hdi' by lia. destruct (lookup_lt_is_Some_2 fl k1 Hk1) as [[ty' c'] Ek']. rewrite (proj2 (Hother k1 ty' c' N1 Ek')). intros E. rewrite E. symmetry in E. by apply (Hcross k1 j2 j1).
    + rewrite !Hdi' by lia. destruct (lookup_lt_is_Some_2 fl k1 Hk1) as [[ty1 c1] Ek1]. destruct (lookup_lt_is_Some_2 fl k2 Hk2) as [[ty2 c2] Ek2].
      rewrite (proj2 (Hother k1 ty1 c1 N1 Ek1)), (proj2 (Hother k2 ty2 c2 N2 Ek2)). by apply (mo_disj _ _ H).
  - intros inum Hi. rewrite length_insert. intros Hr. rewrite Hdi' by lia. by apply (mo_rest _ _ H).
  - rewrite (total_insert _ _ (ty, c)) by done. cbn [snd]. rewrite length_app, Nat2Z.inj_add. fold n. change (m_freeblock s2) with (m_freeblock s1). rewrite Hf1, (mo_fb _ _ H). lia.
Qed.

(** ** The files of the command line *)

Lemma chunks_run (k : nat) ty chunks : ∀ s fl c, mkfs_ok s fl → fl !! k = Some (ty, c) → length c + length (concat chunks) ≤ 268 * 1024 →
  m_freeblock s + cost (length c + length (concat chunks)) - cost (length c) ≤ FSSIZE →
  ∃ s', forM_ chunks (iappend (k + 1)) s = Ok tt s' ∧ mkfs_ok s' (<[k := (ty, c ++ concat chunks)]> fl) ∧ low s s'.
Proof.
  induction chunks as [|p chunks IH]; intros s fl c H Hk Hmax Hroom; cbn [forM_ concat] in *.
  { exists s. rewrite app_nil_r, list_insert_id by done. split_and!; [done..|by intros b]. }
  rewrite length_app, Nat2Z.inj_add in *. pose proof (cost_mono (length c + length p) (length c + (length p + length (concat chunks))) ltac:(lia)) as Hm.
  destruct (iappend_run s fl k ty c p H Hk) as (s1 & E1 & H1 & Hv1); [lia|lia|]. rewrite (seq_ok _ _ _ _ E1). pose proof (lookup_lt_Some _ _ _ Hk).
  destruct (IH s1 _ (c ++ p) H1) as (s2 & E2 & H2 & Hv2); [by rewrite list_lookup_insert_eq|rewrite length_app; lia| |].
  { rewrite (mo_fb _ _ H1), (total_insert _ _ (ty, c)) by done. rewrite (mo_fb _ _ H) in Hroom. cbn [snd]. rewrite length_app, Nat2Z.inj_add.
    replace (length c + length p + length (concat chunks)) with (length c + (length p + length (concat chunks))) by lia. lia. }
  exists s2. rewrite list_insert_insert_eq, <- app_assoc in H2. split_and!; [done|done|by eapply low_trans].
Qed.

Abbreviation file := (list Z * list (list Z))%type.
Definition contents (f : file) : Z * list Z := (T_FILE, concat f.2).
(** The directory entries, the first for inode [i]. *)
Fixpoint entries (i : Z) (files : list file) : list Z :=
  match files with [] => [] | f :: files' => mk_dirent i (shortname f.1) ++ entries (i + 1) files' end.

Lemma length_mk_dirent i name : length (mk_dirent i name) = 16%nat.
Proof. unfold mk_dirent, strncpy_bytes. rewrite !length_app, length_le_split, length_take, length_replicate. change (Z.to_nat DIRSIZ) with 14%nat. lia. Qed.

Lemma add_file_run s c0 rest f : mkfs_ok s ((T_DIR, c0) :: rest) → existsb (Z.eqb 47) (basename f.1) = false → (length rest < 198)%nat →
  length c0 + 16 ≤ 268 * 1024 → length (concat f.2) ≤ 268 * 1024 →
  m_freeblock s + (cost (length c0 + 16) - cost (length c0)) + cost (length (concat f.2)) ≤ FSSIZE →
  ∃ s', add_file 1 f s = Ok tt s' ∧ mkfs_ok s' ((T_DIR, c0 ++ mk_dirent (2 + length rest) (shortname f.1)) :: rest ++ [contents f]) ∧ low s s'.
Proof.
  intros H Hslash Hlen Hmax0 Hmax Hroom. unfold add_file, assert_. rewrite Hslash. rewrite (seq_ok _ _ s s) by done.
  assert (Hc0 : 0 ≤ cost (length (concat f.2))) by (unfold cost, nb; destruct (norm _); dlia).
  destruct (ialloc_run s _ T_FILE H) as (s1 & E1 & H1 & Hv1); [cbn; lia|done|]. rewrite (bind_ok _ _ _ _ _ E1). cbn [length] in *.
  set (de := mk_dirent (1 + S (length rest)) (shortname f.1)). assert (Hde : length de = 16%nat) by apply length_mk_dirent.
  assert (Hf1 : m_freeblock s1 = m_freeblock s).
  { rewrite (mo_fb _ _ H1), (mo_fb _ _ H), total_app. change (total [(T_FILE, [])]) with 0. lia. }
  destruct (iappend_run s1 _ 0 T_DIR c0 de H1) as (s2 & E2 & H2 & Hv2); [done|lia|rewrite Hde; change (Z.of_nat 16) with 16; lia|].
  change (0%nat + 1) with 1 in E2. rewrite (seq_ok _ _ _ _ E2).
  assert (Hf2 : m_freeblock s2 = m_freeblock s + (cost (length c0 + 16) - cost (length c0))).
  { rewrite (mo_fb _ _ H2), <- Hf1, (mo_fb _ _ H1). rewrite (total_insert _ _ (T_DIR, c0)) by done. cbn [snd]. rewrite length_app, Nat2Z.inj_add, Hde. change (Z.of_nat 16) with 16. lia. }
  change (<[0%nat := (T_DIR, c0 ++ de)]> (((T_DIR, c0) :: rest) ++ [(T_FILE, [])])) with ((T_DIR, c0 ++ de) :: rest ++ [(T_FILE, [])]) in H2.
  set (k := S (length rest)). assert (Hk : ((T_DIR, c0 ++ de) :: rest ++ [(T_FILE, [])]) !! k = Some (T_FILE, [])) by (apply list_lookup_middle; done).
  destruct (chunks_run k T_FILE f.2 s2 _ [] H2 Hk) as (s3 & E3 & H3 & Hv3); [cbn [length]; lia|cbn [length]; change (cost 0%nat) with 0; rewrite Z.add_0_l; lia|].
  change (<[k := (T_FILE, [] ++ concat f.2)]> ((T_DIR, c0 ++ de) :: rest ++ [(T_FILE, [])])) with ((T_DIR, c0 ++ de) :: <[length rest := contents f]> (rest ++ [(T_FILE, [])])) in H3.
  rewrite insert_app_r_alt, Nat.sub_diag in H3 by lia.
  exists s3. replace (1 + Z.of_nat k) with (Z.of_nat k + 1) by lia. rewrite E3. split_and!; [done| |intros b Hb; by rewrite Hv3, Hv2, Hv1 by lia].
  replace (2 + length rest) with (1 + Z.of_nat k) by lia. exact H3.
Qed.

Definition file_fits (f : file) : Prop := existsb (Z.eqb 47) (basename f.1) = false ∧ length (concat f.2) ≤ 268 * 1024.

Lemma total_pos l : 0 ≤ total l.
Proof. induction l as [|x l IH]; [done|]. rewrite total_cons. assert (0 ≤ cost (length x.2)) by (unfold cost, nb; destruct (norm _); dlia). lia. Qed.

Lemma files_run files : ∀ s c0 rest, mkfs_ok s ((T_DIR, c0) :: rest) → Forall file_fits files → (length rest + length files ≤ 198)%nat →
  length c0 + 16 * length files ≤ 268 * 1024 →
  m_freeblock s + (cost (length c0 + 16 * length files) - cost (length c0)) + total (contents <$> files) ≤ FSSIZE →
  ∃ s', forM_ files (add_file 1) s = Ok tt s' ∧ mkfs_ok s' ((T_DIR, c0 ++ entries (2 + length rest) files) :: rest ++ (contents <$> files)) ∧ low s s'.
Proof.
  induction files as [|f files IH]; intros s c0 rest H Hff Hlen Hmax Hroom.
  { exists s. cbn. rewrite !app_nil_r. split_and!; [done..|by intros b]. }
  apply list.Forall_cons in Hff as [[Hs Hf] Hff]. cbn [forM_ length] in *. rewrite fmap_cons in *. rewrite total_cons in Hroom. change ((contents f).2) with (concat f.2) in Hroom.
  pose proof (total_pos (contents <$> files)) as Htp. pose proof (cost_mono (length c0 + 16) (length c0 + 16 * S (length files)) ltac:(lia)) as Hcm.
  destruct (add_file_run s c0 rest f H Hs) as (s1 & E1 & H1 & Hv1); [lia|lia|lia|lia|]. rewrite (seq_ok _ _ _ _ E1).
  assert (Hde : length (mk_dirent (2 + length rest) (shortname f.1)) = 16%nat) by apply length_mk_dirent.
  assert (Hf1 : m_freeblock s1 = m_freeblock s + (cost (length c0 + 16) - cost (length c0)) + cost (length (concat f.2))).
  { rewrite (mo_fb _ _ H1), (mo_fb _ _ H), !total_cons, total_app, total_cons. cbn [snd]. rewrite length_app, Nat2Z.inj_add, Hde. change (total []) with 0. change (Z.of_nat 16) with 16.
    change ((contents f).2) with (concat f.2). lia. }
  destruct (IH s1 _ _ H1 Hff) as (s2 & E2 & H2 & Hv2); rewrite ?length_app, ?Hde; cbn [length]; [lia|lia| |].
  { rewrite Nat2Z.inj_add. replace (length c0 + 16%nat + 16 * length files) with (length c0 + 16 * S (length files)) by lia. rewrite Hf1. change (Z.of_nat 16) with 16. lia. }
  exists s2. split_and!; [done| |by eapply low_trans]. rewrite <- !app_assoc, length_app in H2. cbn [length] in H2.
  replace (2 + (length rest + 1)%nat) with (2 + length rest + 1) in H2 by lia. exact H2.
Qed.

(** ** An empty image *)

Definition zeroed (l : list Z) (img : gmap Z (list Z)) : gmap Z (list Z) := foldl (λ img i, <[i := zeroes]> img) img l.

Lemma zero_run l s : forM_ l (λ i, wsect i zeroes) s = Ok tt (mkMk (zeroed l (m_img s)) (m_freeinode s) (m_freeblock s)).
Proof.
  revert s. induction l as [|i l IH]; intros s; cbn [forM_]; [by destruct s|].
  rewrite (seq_ok _ _ s (mkMk (<[i := zeroes]> (m_img s)) (m_freeinode s) (m_freeblock s))) by done. by rewrite IH.
Qed.

Lemma zeroed_lookup l img b : b ∈ l → zeroed l img !! b = Some zeroes.
Proof.
  assert (G : ∀ l img, img !! b = Some zeroes → zeroed l img !! b = Some zeroes).
  { intros l'. induction l' as [|i l' IH]; intros img' Hi; [done|]. apply (IH (<[i := zeroes]> img')). destruct (decide (i = b)) as [->|]; [by rewrite lookup_insert_eq|by rewrite lookup_insert_ne]. }
  revert img. induction l as [|i l IH]; intros img; [by intros ?%not_elem_of_nil|]. change (zeroed (i :: l) img) with (zeroed l (<[i := zeroes]> img)).
  intros [->|Hb]%elem_of_cons; [apply G, lookup_insert_eq|by apply IH].
Qed.

Definition sbblock : list Z := list_inserts 0 (concat (xint <$> sb_fields)) zeroes.

(** The image before the first inode. *)
Definition blank : mk := mkMk (<[1 := sbblock]> (zeroed (seqZ 0 FSSIZE) ∅)) 1 nmeta.

Lemma blank_view b : 0 ≤ b < FSSIZE → m_img blank !! b = Some (view blank b) ∧ view blank b = if decide (b = 1) then sbblock else zeroes.
Proof.
  intros Hb. unfold view, disk_block. cbn. destruct (decide (b = 1)) as [->|Hne]; [by rewrite lookup_insert_eq|].
  rewrite lookup_insert_ne by done. by rewrite zeroed_lookup by (apply elem_of_seqZ; lia).
Qed.

Lemma blank_sb : view blank 1 = sbblock.
Proof. destruct (blank_view 1 ltac:(change FSSIZE with 2000; lia)) as [_ E]. by rewrite E, decide_True. Qed.

Lemma blank_ok : mkfs_ok blank [].
Proof.
  constructor.
  - constructor; [| |done].
    + intros b Hb. destruct (blank_view b Hb) as [E1 E2]. split; [done|]. rewrite E2. by case_decide.
    + intros b Hb. change (m_freeblock blank) with 46 in Hb. change FSSIZE with 2000 in Hb. destruct (blank_view b ltac:(change FSSIZE with 2000; lia)) as [_ E]. rewrite E. by rewrite decide_False by lia.
  - cbn. lia.
  - by intros k ty c Hk.
  - intros k1 k2 j1 j2 Hk. cbn in Hk. lia.
  - intros inum Hi _. unfold disk_inode. pose proof (iblock_range inum Hi). destruct (blank_view (IBLOCK inum sb)) as [_ E]; [change FSSIZE with 2000; lia|].
    rewrite E, decide_False by lia. unfold get_dinode. cbn [d_type]. unfold get16, get_le, zeroes. rewrite drop_replicate, take_replicate.
    assert (Hz : ∀ k, le_combine (replicate k 0) = 0) by (intros k; induction k as [|k IH]; [done|]; cbn [replicate le_combine]; by rewrite IH). by rewrite Hz.
  - done.
Qed.

(** ** The free map *)

Lemma bitmap_bits (u : nat) : u ≤ 8192 → let m := foldl (λ buf i, or_bit i buf) zeroes (seqZ 0 u) in
  length m = 1024%nat ∧ ∀ b, 0 ≤ b < 8192 → bit_set m b = bool_decide (b < u).
Proof.
  induction u as [|u IH]; intros Hu m.
  - split; [done|]. intros b Hb. rewrite bool_decide_false by lia. rewrite bit_set_testbit. unfold m, zeroes. change (seqZ 0 0%nat) with ([] : list Z). cbn [foldl].
    rewrite lookup_replicate_2 by (change (Z.to_nat BSIZE) with 1024%nat; dlia). apply Z.bits_0.
  - destruct (IH ltac:(lia)) as [Hl Hb]. unfold m. rewrite seqZ_S, foldl_app. cbn [foldl]. rewrite Z.add_0_l. set (m' := foldl _ _ _) in *. split; [by rewrite length_or_bit|].
    intros b Hbr. rewrite bit_set_or by lia. rewrite Hb by done. do 2 case_bool_decide; cbn; try done; rewrite ?bool_decide_true, ?bool_decide_false by lia; try done; lia.
Qed.

(** ** The image *)

Definition img_inode (C : Z → list Z) (inum : Z) : inode := xi inum (disk_inode sb C inum).

(** What the kernel finds: [files !! k] is inode [k + 2]. *)
Record image (C : Z → list Z) (files : list file) : Prop := {
  ig_sb i f : sb_fields !! i = Some f → get32 (4 * i) (C 1) = f;
  ig_log b : 2 ≤ b < 32 → C b = zeroes;
  ig_fs : fs_ok 2 30 sb C;
  ig_file (k : nat) f : files !! k = Some f → let x := img_inode C (k + 2) in
    file_ok ROOTDEV 2 30 sb C x ∧ i_type x = T_FILE ∧ i_nlink x = 1 ∧ i_size x = length (concat f.2) ∧ mapped C x (i_size x) ∧
    file_bytes C x 0 (length (concat f.2)) = concat f.2;
  ig_root : let x := img_inode C ROOTINO in
    file_ok ROOTDEV 2 30 sb C x ∧ i_type x = T_DIR ∧ i_nlink x = 1 ∧ i_size x mod 1024 = 0 ∧ 16 * (2 + length files) < i_size x ≤ 16 * (2 + length files) + 1024 ∧
    dirent C x 0 = mk_dirent ROOTINO [46] ∧ dirent C x 1 = mk_dirent ROOTINO [46; 46] ∧
    (∀ (k : nat) f, files !! k = Some f → dirent C x (k + 2) = mk_dirent (k + 2) (shortname f.1)) ∧
    (∀ k : nat, (2 + length files ≤ k)%nat → 16 * k < i_size x → de_inum (dirent C x k) = 0) ∧
    ((2 + length files) mod 64 ≠ 0 → dir_ok ROOTDEV C x);
  ig_disj a b : 1 ≤ a ≤ 1 + length files → 1 ≤ b ≤ 1 + length files → a ≠ b → disjoint C (img_inode C a) (img_inode C b);
  ig_free inum : 1 + length files < inum < 200 → d_type (disk_inode sb C inum) = 0 }.

Lemma inode_blk_range b : inode_blk sb b → 32 ≤ b < 45.
Proof. intros (m & Hm & ->). apply iblock_range. exact Hm. Qed.

Lemma bblock m : 0 ≤ m < 2000 → BBLOCK m sb = 45.
Proof. intros Hm. unfold BBLOCK. change (sb_bmapstart sb) with 45. change BPB with 8192. rewrite Z.div_small by lia. done. Qed.

Lemma map_fs_ok C u : (∀ b, 0 ≤ b < 2000 → length (C b) = 1024%nat) → (∀ m, 0 ≤ m < 2000 → used sb C m = bool_decide (m < u)) → 46 ≤ u → fs_ok 2 30 sb C.
Proof.
  intros Hl Hu Hu46. constructor.
  - constructor; change (sb_size sb) with 2000; change (sb_bmapstart sb) with 45; [lia|lia|..].
    + intros n Hn. rewrite bblock by done. unfold log_area. lia.
    + intros n Hn. rewrite bblock by done. apply Hl. lia.
    + intros n Hn [->|[Hlog|(m & Hm & ->)]]; rewrite Hu by done; apply bool_decide_eq_true; [lia|unfold log_area in Hlog; lia|rewrite bblock by done; lia].
  - change (sb_inodestart sb) with 32. change (sb_ninodes sb) with 200. lia.
  - intros b Hb%inode_blk_range. rewrite Hu by lia. apply bool_decide_eq_true. lia.
  - intros b Hb%inode_blk_range. change (sb_size sb) with 2000. lia.
  - intros b Hb%inode_blk_range. unfold log_area. lia.
  - intros b m Hb%inode_blk_range Hm. rewrite bblock by exact Hm. lia.
  - intros b Hb%inode_blk_range. apply Hl. lia.
Qed.

Lemma placed_file_ok C d fb nblk ind c inum : (∀ b, 0 ≤ b < 2000 → length (C b) = 1024%nat) → (∀ m, 0 ≤ m < 2000 → used sb C m = bool_decide (m < fb)) → fb ≤ 2000 →
  placed C d fb nblk ind c → file_ok ROOTDEV 2 30 sb C (xi inum d).
Proof.
  intros Hl Hu Hfb H. constructor; [done|apply H| |].
  - intros j Hj Hnz. change (slot C (xi inum d) j) with (dslot C d j) in *. pose proof (pl_slot _ _ _ _ _ _ H j Hj Hnz) as Hr. change nmeta with 46 in Hr. split_and!.
    + constructor; [change (sb_size sb) with 2000; lia|unfold log_area; lia|intros m Hm; rewrite bblock by exact Hm; lia|intros Hb%inode_blk_range; lia].
    + rewrite Hu by lia. apply bool_decide_eq_true. lia.
    + apply Hl. lia.
  - intros j k. change (slot C (xi inum d) ?j) with (dslot C d j). apply (pl_inj _ _ _ _ _ _ H).
Qed.

Lemma placed_bytes C d fb nblk ind c inum off (n : nat) : placed C d fb nblk ind c → 0 ≤ off → off + n ≤ 268 * 1024 →
  file_bytes C (xi inum d) off n = (λ j : nat, default 0 (c !! Z.to_nat (off + j))) <$> seq 0 n.
Proof.
  intros H Ho Hn. unfold file_bytes. apply list_fmap_ext. intros i j [-> Hj]%lookup_seq. apply (pl_data _ _ _ _ _ _ H). lia.
Qed.

Lemma placed_mapped C d fb nblk ind c inum n : (∀ b, 0 ≤ b < 2000 → length (C b) = 1024%nat) → fb ≤ 2000 → placed C d fb nblk ind c → n ≤ 1024 * nblk → mapped C (xi inum d) n.
Proof.
  intros Hl Hfb H Hn bn Hb Hbn. change (slot C (xi inum d) ?j) with (dslot C d j). pose proof (pl_nblk _ _ _ _ _ _ H).
  assert (Hnz : dslot C d (slot_of bn) ≠ 0) by (apply (pl_has _ _ _ _ _ _ H); lia). split; [done|].
  pose proof (pl_slot _ _ _ _ _ _ H _ (proj1 (slot_of_lt bn ltac:(lia))) Hnz) as Hr. change nmeta with 46 in Hr. apply Hl. lia.
Qed.

Lemma entries_nth files : ∀ i k f, files !! k = Some f → take 16 (drop (16 * k) (entries i files)) = mk_dirent (i + k) (shortname f.1).
Proof.
  induction files as [|g files IH]; intros i k f Hk; [done|]. cbn [entries]. destruct k as [|k]; cbn in Hk.
  - injection Hk as ->. rewrite Nat.mul_0_r, drop_0, take_app_le by (rewrite length_mk_dirent; lia). rewrite take_ge by (rewrite length_mk_dirent; lia). f_equal. lia.
  - replace (16 * S k)%nat with (length (mk_dirent i (shortname g.1)) + 16 * k)%nat by (rewrite length_mk_dirent; lia). rewrite <- drop_drop, drop_app_length.
    rewrite (IH _ _ f Hk). f_equal. lia.
Qed.
Lemma length_entries i files : length (entries i files) = (16 * length files)%nat.
Proof. revert i. induction files as [|f files IH]; intros i; [done|]. cbn [entries length]. rewrite length_app, length_mk_dirent, IH. lia. Qed.

(** An entry of a directory whose contents have it. *)
Lemma placed_dirent C d fb nblk ind c inum (k : nat) e : placed C d fb nblk ind c → 16 * (k + 1) ≤ 268 * 1024 → length e = 16%nat →
  take 16 (drop (16 * k) c) = e → dirent C (xi inum d) k = e.
Proof.
  intros H Hk He Hc. unfold dirent. rewrite (placed_bytes _ _ _ _ _ _ _ _ _ H) by lia. apply list_eq. intros j. rewrite list_lookup_fmap.
  destruct (decide (j < 16)%nat) as [Hj|Hj]; [|by rewrite lookup_seq_ge, (lookup_ge_None_2 e) by lia]. rewrite lookup_seq_lt by done. cbn [fmap option_fmap option_map].
  destruct (lookup_lt_is_Some_2 e j) as [x Hx]; [lia|]. rewrite Hx. f_equal. rewrite <- Hc, lookup_take_drop, decide_True in Hx by done.
  replace (Z.to_nat (16 * k + (0 + j)%nat)) with (16 * k + j)%nat by lia. by rewrite Hx.
Qed.

Lemma placed_no_dirent C d fb nblk ind c inum (k : nat) : placed C d fb nblk ind c → 16 * (k + 1) ≤ 268 * 1024 → (length c ≤ 16 * k)%nat → de_inum (dirent C (xi inum d) k) = 0.
Proof.
  intros H Hk Hc. unfold dirent. rewrite (placed_bytes _ _ _ _ _ _ _ _ _ H) by lia. unfold de_inum, get16, get_le. cbn [seq fmap list_fmap drop take].
  rewrite !lookup_ge_None_2 by lia. done.
Qed.

Lemma sbblock_fields i f : sb_fields !! i = Some f → get32 (4 * i) sbblock = f.
Proof. intros H. do 8 (destruct i as [|i]; [injection H as <-; by vm_compute|]). done. Qed.

(** The end of main: the size of the root directory and the free map. *)
Definition sealed (s : mk) : mk :=
  let d := dino s ROOTINO in
  let s1 := wrote (IBLOCK ROOTINO sb) (put_dinode (dinode_off ROOTINO) (set_d_size ((d_size d / BSIZE + 1) * BSIZE) d) (view s (IBLOCK ROOTINO sb))) s in
  wrote 45 (foldl (λ buf i, or_bit i buf) zeroes (seqZ 0 (m_freeblock s))) s1.

Lemma seal_facts s fl c : mkfs_ok s ((T_DIR, c) :: fl) → length c ≤ 8192 → let s' := sealed s in
  (∀ b, ¬ 32 ≤ b < 46 → view s' b = view s b) ∧ (∀ b, 0 ≤ b < 2000 → length (view s' b) = 1024%nat) ∧
  (∀ m, 0 ≤ m < 2000 → used sb (view s') m = bool_decide (m < m_freeblock s)) ∧
  (∀ inum, 0 ≤ inum < 200 → dino s' inum = if decide (inum = 1) then set_d_size ((length c / 1024 + 1) * 1024) (dino s 1) else dino s inum) ∧
  winode ROOTINO (set_d_size ((d_size (dino s ROOTINO) / BSIZE + 1) * BSIZE) (dino s ROOTINO)) s = Ok tt (wrote (IBLOCK ROOTINO sb) (put_dinode (dinode_off ROOTINO) (set_d_size ((d_size (dino s ROOTINO) / BSIZE + 1) * BSIZE) (dino s ROOTINO)) (view s (IBLOCK ROOTINO sb))) s).
Proof.
  intros H Hc s'. pose proof (mo_img _ _ H) as Him. destruct (mo_file _ _ H 0 T_DIR c eq_refl) as (Ed & _ & _ & Hp). change (0%nat + 1) with 1 in *.
  pose proof (im_fb _ Him) as Hfb. change nmeta with 46 in Hfb. change FSSIZE with 2000 in Hfb. set (d := dino s 1) in *. change (dino s ROOTINO) with d.
  assert (Esz : d_size d = length c) by (by rewrite Ed). rewrite Esz. change BSIZE with 1024. set (d' := set_d_size ((length c / 1024 + 1) * 1024) d).
  assert (Hd' : dinode_ok d').
  { assert (Ed' : d' = mkDinode T_DIR 0 0 1 ((length c / 1024 + 1) * 1024) (d_addrs d)) by (unfold d', set_d_size; by rewrite Ed).
    rewrite Ed'. apply (placed_dinode _ _ _ _ _ _ _ _ Hp); [lia|done|dlia]. }
  destruct (dino_put s 1 d' Him ltac:(lia) Hd') as (Ew & Him1 & Hdi & Hv).
  assert (Es : s' = wrote 45 (foldl (λ buf i, or_bit i buf) zeroes (seqZ 0 (m_freeblock s))) (wrote (IBLOCK 1 sb) (put_dinode (dinode_off 1) d' (view s (IBLOCK 1 sb))) s)).
  { unfold s', sealed. change (dino s ROOTINO) with d. rewrite Esz. done. }
  set (s1 := wrote (IBLOCK 1 sb) _ s) in *. destruct (bitmap_bits (Z.to_nat (m_freeblock s)) ltac:(lia)) as [Hml Hmb]. rewrite Z2Nat.id in Hml, Hmb by lia.
  set (map := foldl _ _ _) in *. assert (Hv' : ∀ b, view s' b = if decide (b = 45) then map else view s1 b) by (intros b; rewrite Es; apply view_wrote).
  split_and!; [| | | |exact Ew].
  - intros b Hb. rewrite Hv', decide_False by lia. apply Hv. lia.
  - intros b Hb. rewrite Hv'. case_decide; [done|]. apply (im_blk _ Him1 b). exact Hb.
  - intros m Hm. unfold used. rewrite bblock by done. rewrite Hv', decide_True by done. change BPB with 8192. rewrite Z.mod_small by lia. apply Hmb. lia.
  - intros inum Hi. rewrite <- Hdi by done. unfold disk_inode. rewrite Hv', decide_False; [done|]. pose proof (iblock_range inum Hi). lia.
Qed.

Definition root_bytes (files : list file) : list Z := mk_dirent ROOTINO [46] ++ mk_dirent ROOTINO [46; 46] ++ entries 2 files.

Lemma length_root files : length (root_bytes files) = (16 * (2 + length files))%nat.
Proof. unfold root_bytes. rewrite !length_app, !length_mk_dirent, length_entries. lia. Qed.

Lemma root_entry files (k : nat) f : files !! k = Some f → take 16 (drop (16 * (k + 2)) (root_bytes files)) = mk_dirent (k + 2) (shortname f.1).
Proof.
  intros Hk. unfold root_bytes. rewrite app_assoc. set (h := mk_dirent _ _ ++ mk_dirent _ _).
  assert (Hh : length h = 32%nat) by (unfold h; by rewrite length_app, !length_mk_dirent). replace (16 * (k + 2))%nat with (length h + 16 * k)%nat by lia.
  rewrite <- drop_drop, drop_app_length, (entries_nth _ _ _ _ Hk). f_equal. lia.
Qed.

Section sealed.
Context (s : mk) (files : list file).
Hypothesis Hok : mkfs_ok s ((T_DIR, root_bytes files) :: (contents <$> files)).
Hypothesis Hlow : low blank s.
Let C := view (sealed s).

Lemma root_small : length (root_bytes files) ≤ 8192.
Proof using Hok. rewrite length_root. pose proof (proj2 (mo_count _ _ Hok)) as H. cbn [length] in H. rewrite length_fmap in H. lia. Qed.

(** The inodes after the end of main. *)
Lemma sealed_inode (k : nat) ty c : ((T_DIR, root_bytes files) :: (contents <$> files)) !! k = Some (ty, c) → let d := disk_inode sb C (k + 1) in
  d_type d = ty ∧ d_nlink d = 1 ∧ d_size d = (if decide (k = 0%nat) then (length c / 1024 + 1) * 1024 else length c) ∧
  placed C d (m_freeblock s) (nb (length c)) (norm (nb (length c))) c ∧ ∀ j, dslot C d j = dslot (view s) (dino s (k + 1)) j.
Proof using Hok.
  intros Hk d. pose proof (lookup_lt_Some _ _ _ Hk) as Hlt. destruct (mo_count _ _ Hok) as [_ Hlen]. destruct (mo_file _ _ Hok k ty c Hk) as (Ed & _ & _ & Hp).
  destruct (seal_facts s _ _ Hok root_small) as (Hv & _ & _ & Hdi & _). fold C in Hv, Hdi. specialize (Hdi (k + 1) ltac:(lia)). fold C in Hdi. fold d in Hdi.
  assert (Ha : d_addrs d = d_addrs (dino s (k + 1))).
  { rewrite Hdi. case_decide as E; [|done]. assert (k = 0%nat) as -> by lia. done. }
  destruct (placed_frame (view s) C (dino s (k + 1)) d (m_freeblock s) (m_freeblock s) _ _ c Hp Ha ltac:(lia)) as [Hp' Hs].
  { intros j Hj Hnz. apply Hv. pose proof (pl_slot _ _ _ _ _ _ Hp j Hj Hnz) as Hr. change nmeta with 46 in Hr. lia. }
  rewrite Hdi at 1 2 3. destruct (decide (k = 0%nat)) as [->|Hne].
  - cbn in Hk. injection Hk as <- <-. change (0%nat + 1) with 1 in *. rewrite decide_True by done. rewrite Ed. done.
  - rewrite decide_False by lia. rewrite Ed. done.
Qed.

Lemma sealed_image : image C files.
Proof using Hok Hlow.
  destruct (seal_facts s _ _ Hok root_small) as (Hv & Hl & Hu & Hdi & _). fold C in Hv, Hl, Hu, Hdi. destruct (mo_count _ _ Hok) as [_ Hlen].
  cbn [length] in Hlen. rewrite length_fmap in Hlen. pose proof (im_fb _ (mo_img _ _ Hok)) as Hfb. change nmeta with 46 in Hfb. change FSSIZE with 2000 in Hfb.
  constructor.
  - intros i f Hf. rewrite Hv, Hlow, blank_sb by lia. by apply sbblock_fields.
  - intros b Hb. rewrite Hv, Hlow by lia. destruct (blank_view b ltac:(change FSSIZE with 2000; lia)) as [_ ->]. by rewrite decide_False by lia.
  - apply (map_fs_ok C (m_freeblock s)); [done|done|lia].
  - intros k f Hf x. pose proof (lookup_lt_Some _ _ _ Hf) as Hkl.
    assert (Hfk : ((T_DIR, root_bytes files) :: (contents <$> files)) !! S k = Some (T_FILE, concat f.2)).
    { change ((contents <$> files) !! k = Some (contents f)). by rewrite list_lookup_fmap, Hf. }
    destruct (sealed_inode (S k) T_FILE (concat f.2) Hfk) as (Et & En & Es & Hp & _).
    replace (S k + 1) with (k + 2) in * by lia. destruct (mo_file _ _ Hok (S k) T_FILE (concat f.2) Hfk) as (_ & _ & Hmax & _).
    rewrite decide_False in Es by lia. split_and!; [by eapply placed_file_ok; [..|exact Hp]; [done|done|lia]|done|done|done| |].
    + eapply placed_mapped; [done| |exact Hp|]; [lia|]. change (i_size x) with (d_size (disk_inode sb C (k + 2))). rewrite Es. unfold nb. dlia.
    + unfold x, img_inode. rewrite (placed_bytes _ _ _ _ _ _ _ _ _ Hp) by lia. apply list_eq. intros j. rewrite list_lookup_fmap.
      destruct (decide (j < length (concat f.2))%nat) as [Hj|Hj]; [|by rewrite lookup_seq_ge, lookup_ge_None_2 by lia]. rewrite lookup_seq_lt by done.
      cbn [fmap option_fmap option_map]. destruct (lookup_lt_is_Some_2 _ _ Hj) as [v Hvv]. rewrite Hvv. replace (Z.to_nat (0 + (0 + j)%nat)) with j by lia. by rewrite Hvv.
  - intros x. destruct (sealed_inode 0 T_DIR (root_bytes files)) as (Et & En & Es & Hp & _); [done|]. change (0%nat + 1) with ROOTINO in *. rewrite decide_True in Es by done.
    pose proof (length_root files) as Hlr. assert (Exs : i_size x = (length (root_bytes files) / 1024 + 1) * 1024) by done. rewrite Hlr in Exs.
    assert (Hsz : i_size x mod 1024 = 0 ∧ 16 * (2 + length files) < i_size x ≤ 16 * (2 + length files) + 1024) by (rewrite Exs; dlia).
    split_and!; [by eapply placed_file_ok; [..|exact Hp]; [done|done|lia]|done|done|tauto|lia|lia|..].
    + apply (placed_dirent _ _ _ _ _ _ _ _ _ Hp); [lia|apply length_mk_dirent|done].
    + apply (placed_dirent _ _ _ _ _ _ _ _ _ Hp); [lia|apply length_mk_dirent|done].
    + intros k f Hf. pose proof (lookup_lt_Some _ _ _ Hf). apply (placed_dirent _ _ _ _ _ _ _ _ _ Hp); [lia|apply length_mk_dirent|by apply root_entry].
    + intros k Hk Hks. apply (placed_no_dirent _ _ _ _ _ _ _ _ Hp); [lia|lia].
    + intros Hm. constructor; [done|done|lia|rewrite Exs; dlia|]. eapply placed_mapped; [done| |exact Hp|]; [lia|]. change (i_size (xi ROOTINO _)) with (i_size x). rewrite Exs, Hlr. unfold nb. dlia.
  - intros a b Ha Hb Hne j k Hj Hk E. set (ka := Z.to_nat (a - 1)). set (kb := Z.to_nat (b - 1)).
    assert (Hla : (ka < length ((T_DIR, root_bytes files) :: (contents <$> files)))%nat) by (cbn [length]; rewrite length_fmap; lia).
    assert (Hlb : (kb < length ((T_DIR, root_bytes files) :: (contents <$> files)))%nat) by (cbn [length]; rewrite length_fmap; lia).
    destruct (lookup_lt_is_Some_2 _ _ Hla) as [[tya ca] Ea]. destruct (lookup_lt_is_Some_2 _ _ Hlb) as [[tyb cb] Eb].
    destruct (sealed_inode _ _ _ Ea) as (_ & _ & _ & _ & Hsa). destruct (sealed_inode _ _ _ Eb) as (_ & _ & _ & _ & Hsbb).
    replace (ka + 1) with a in Hsa by lia. replace (kb + 1) with b in Hsbb by lia. change (slot C (img_inode C ?n) ?j) with (dslot C (disk_inode sb C n) j) in *.
    rewrite Hsa, Hsbb in E. rewrite Hsa. pose proof (mo_disj _ _ Hok ka kb j k Hla Hlb ltac:(lia) Hj Hk) as Hdj. replace (ka + 1) with a in Hdj by lia. replace (kb + 1) with b in Hdj by lia. by apply Hdj.
  - intros inum Hi. rewrite Hdi, decide_False by lia. apply (mo_rest _ _ Hok); [lia|]. cbn [length]. rewrite length_fmap. lia.
Qed.
End sealed.

Lemma main_run files : Forall file_fits files → (length files ≤ 198)%nat →
  nmeta + cost (16 * (2 + length files)) + total (contents <$> files) ≤ FSSIZE →
  ∃ s, main files (mkMk ∅ 1 0) = Ok tt (sealed s) ∧ mkfs_ok s ((T_DIR, root_bytes files) :: (contents <$> files)) ∧ low blank s.
Proof.
  intros Hff Hlen Hroom. unfold main. rewrite (seq_ok _ _ _ (mkMk ∅ 1 nmeta)) by done. rewrite (seq_ok _ _ _ _ (zero_run _ _)). cbn [m_img m_freeinode m_freeblock].
  fold sbblock. rewrite (seq_ok _ _ _ blank) by done.
  pose proof (total_pos (contents <$> files)) as Htp. pose proof (cost_mono 16 (16 * (2 + length files)) ltac:(lia)) as Hc1. pose proof (cost_mono 32 (16 * (2 + length files)) ltac:(lia)) as Hc2.
  destruct (ialloc_run blank [] T_DIR blank_ok) as (s1 & E1 & H1 & Hv1); [cbn; lia|done|]. rewrite (bind_ok _ _ _ _ _ E1). cbn [length]. change (1 + 0%nat) with 1.
  unfold assert_. change (1 =? ROOTINO) with true. rewrite (seq_ok _ _ s1 s1) by done. assert (Hf1 : m_freeblock s1 = nmeta) by (by rewrite (mo_fb _ _ H1)).
  set (de1 := mk_dirent 1 [46]). set (de2 := mk_dirent 1 [46; 46]). assert (L1 : length de1 = 16%nat) by apply length_mk_dirent. assert (L2 : length de2 = 16%nat) by apply length_mk_dirent.
  destruct (iappend_run s1 _ 0 T_DIR [] de1 H1) as (s2 & E2 & H2 & Hv2); [done|rewrite L1; cbn; lia|replace (Z.of_nat (length (@nil Z)) + length de1) with 16 by (rewrite L1; done); change (cost (length (@nil Z))) with 0; lia|].
  change (0%nat + 1) with 1 in E2. rewrite (seq_ok _ _ _ _ E2).
  assert (Hf2 : m_freeblock s2 = nmeta + cost 16) by (by rewrite (mo_fb _ _ H2)).
  destruct (iappend_run s2 _ 0 T_DIR de1 de2 H2) as (s3 & E3 & H3 & Hv3); [done|rewrite L1, L2; lia|replace (Z.of_nat (length de1) + length de2) with 32 by (rewrite L1, L2; done); rewrite L1, Hf2; change (Z.of_nat 16) with 16; lia|].
  change (0%nat + 1) with 1 in E3. rewrite (seq_ok _ _ _ _ E3).
  assert (Hf3 : m_freeblock s3 = nmeta + cost 32) by (by rewrite (mo_fb _ _ H3)).
  change (<[0%nat := (T_DIR, de1 ++ de2)]> _) with [(T_DIR, de1 ++ de2)] in H3. assert (L3 : length (de1 ++ de2) = 32%nat) by (by rewrite length_app, L1, L2).
  destruct (files_run files s3 (de1 ++ de2) [] H3 Hff) as (s4 & E4 & H4 & Hv4); [cbn; lia|rewrite L3; lia| |].
  { rewrite L3, Hf3. change (Z.of_nat 32) with 32. replace (32 + 16 * length files) with (16 * (2 + length files)) by lia. lia. }
  rewrite (seq_ok _ _ _ _ E4). change (2 + length []) with 2 in H4. rewrite <- app_assoc in H4. change (mkfs_ok s4 ((T_DIR, root_bytes files) :: (contents <$> files))) in H4.
  exists s4. split; [|split; [exact H4|intros b Hb; by rewrite Hv4, Hv3, Hv2, Hv1 by lia]].
  assert (Hir : rinode 1 s4 = Ok (dino s4 1) s4).
  { unfold rinode. rewrite (bind_ok _ _ _ _ _ (rsect_run s4 (IBLOCK 1 sb) (mo_img _ _ H4) ltac:(pose proof (iblock_range 1 ltac:(lia)); change FSSIZE with 2000; lia))). reflexivity. }
  rewrite (bind_ok _ _ _ _ _ Hir). destruct (seal_facts s4 _ _ H4) as (_ & _ & _ & _ & Ew); [rewrite length_root; lia|]. change ROOTINO with 1 in Ew. rewrite (seq_ok _ _ _ _ Ew).
  unfold balloc, assert_. pose proof (im_fb _ (mo_img _ _ H4)) as Hfb. change FSSIZE with 2000 in Hfb.
  set (s5 := wrote _ _ s4). rewrite (bind_ok _ _ s5 s5 s5) by done. change (m_freeblock s5) with (m_freeblock s4). change (BSIZE * 8) with 8192. rewrite (proj2 (Z.ltb_lt _ 8192)) by lia. done.
Qed.

(** C4: mkfs succeeds whenever the files fit, and its image is a file system for the
    kernel: the superblock, the free map and the inode blocks are as the kernel
    expects them, every file is there with exactly its contents and blocks of its own, the
    root directory has an entry for each and nothing else, and the other inodes are
    free. *)
Theorem mkfs_correct files : Forall file_fits files → (length files ≤ 198)%nat →
  nmeta + cost (16 * (2 + length files)) + total (contents <$> files) ≤ FSSIZE →
  ∃ s, main files (mkMk ∅ 1 0) = Ok tt s ∧ image (view s) files.
Proof.
  intros Hff Hlen Hroom. destruct (main_run files Hff Hlen Hroom) as (s & E & H & Hv). exists (sealed s). split; [done|]. by apply sealed_image.
Qed.

(** One file, user/_cat, read in two pieces. *)
Definition ex_files : list file := [([117; 115; 101; 114; 47; 95; 99; 97; 116], [replicate 1024 7; [8; 9]])].

Lemma mkfs_correct_witness : shortname [117; 115; 101; 114; 47; 95; 99; 97; 116] = [99; 97; 116] ∧ ∃ s, main ex_files (mkMk ∅ 1 0) = Ok tt s ∧ image (view s) ex_files.
Proof.
  split; [done|]. apply (mkfs_correct ex_files).
  - constructor; [|constructor]. split; [reflexivity|vm_compute; discriminate].
  - cbn. lia.
  - vm_compute. discriminate.
Defined.
