(* ===== verification/Asm.v ===== *)
(** The assembly of the kernel, instruction by instruction: src/kernel/entry.S,
    swtch.S, kernelvec.S ([kernelvec], [timervec]) and trampoline.S ([uservec],
    [userret]), with the instructions of the 64-bit RISC-V that they use.

    The translation of addresses by the hardware is a parameter; the theorems ask
    that it maps the memory that the code uses. *)

From S2P Require Import Prelude Machine Str Vm.

Module Asm.

(** ** The state of a hart *)

Inductive reg : Type :=
| ra | sp | gp | tp | t0 | t1 | t2 | s0 | s1 | a0 | a1 | a2 | a3 | a4 | a5 | a6 | a7
| s2 | s3 | s4 | s5 | s6 | s7 | s8 | s9 | s10 | s11 | t3 | t4 | t5 | t6.
#[global] Instance reg_eq_dec : EqDecision reg.
Proof. solve_decision. Defined.

(** [sie] and [sip] are views of [mie] and [mip]. *)
Inductive csr : Type :=
| mhartid | mstatus | mepc | mtvec | mscratch | medeleg | mideleg | mie | mip | pmpaddr0 | pmpcfg0
| satp | sscratch | sepc | stvec | sie | sip.
#[global] Instance csr_eq_dec : EqDecision csr.
Proof. solve_decision. Defined.

Inductive priv : Type := User | Supervisor | Machine.

Record hart : Type := mkHart { h_reg : reg → Z; h_csr : csr → Z; h_mem : memory; h_priv : priv; h_pc : Z }.

Definition set {K} `{EqDecision K} (f : K → Z) (k : K) (v : Z) : K → Z := λ j, if decide (j = k) then v else f j.
Definition set_reg (r : reg) (v : Z) (h : hart) : hart := mkHart (set (h_reg h) r v) (h_csr h) (h_mem h) (h_priv h) (h_pc h).
Definition set_csr (c : csr) (v : Z) (h : hart) : hart := mkHart (h_reg h) (set (h_csr h) c v) (h_mem h) (h_priv h) (h_pc h).
Definition set_hmem (m : memory) (h : hart) : hart := mkHart (h_reg h) (h_csr h) m (h_priv h) (h_pc h).
Definition jump (p : priv) (pc : Z) (h : hart) : hart := mkHart (h_reg h) (h_csr h) (h_mem h) p pc.

(** Bit 1 of [sip] is the only one that can be written. *)
Definition csr_read (c : csr) (h : hart) : Z :=
  match c with
  | sie => Z.land (h_csr h mie) (h_csr h mideleg)
  | sip => Z.land (h_csr h mip) (h_csr h mideleg)
  | _ => h_csr h c
  end.
Definition csr_write (c : csr) (v : Z) (h : hart) : hart :=
  match c with
  | sie => set_csr mie (Z.lor (Z.ldiff (h_csr h mie) (h_csr h mideleg)) (Z.land v (h_csr h mideleg))) h
  | sip => set_csr mip (Z.lor (Z.ldiff (h_csr h mip) 2) (Z.land v 2)) h
  | _ => set_csr c v h
  end.

(** ** Instructions *)

Inductive instr : Type :=
| Sd (r : reg) (off : Z) (b : reg)
| Ld (r : reg) (off : Z) (b : reg)
| Addi (rd rs : reg) (imm : Z)
| Add (rd r1 r2 : reg)
| Mul (rd r1 r2 : reg)
| Li (r : reg) (v : Z)
| Csrr (r : reg) (c : csr)
| Csrw (c : csr) (r : reg)
| Csrrw (rd : reg) (c : csr) (rs : reg)
| SfenceVma
| Jr (r : reg)
| Ret
| Sret
| Mret.

Definition bit_if (b : bool) (n : Z) : Z := if b then Z.shiftl 1 n else 0.

(** [SPP] is bit 8 of the status, [SPIE] bit 5 and [SIE] bit 1; [MPP] is in bits 11
    and 12, [MPIE] bit 7 and [MIE] bit 3. *)
Definition sret (h : hart) : hart :=
  let x := h_csr h mstatus in
  let x' := Z.lor (Z.lor (Z.ldiff x (Z.lor (Z.shiftl 1 8) (Z.shiftl 1 1))) (Z.shiftl 1 5)) (bit_if (Z.testbit x 5) 1) in
  jump (if Z.testbit x 8 then Supervisor else User) (h_csr h sepc) (set_csr mstatus x' h).
Definition mret_ (h : hart) : hart :=
  let x := h_csr h mstatus in
  let x' := Z.lor (Z.lor (Z.ldiff x (Z.lor (Z.shiftl 3 11) (Z.shiftl 1 3))) (Z.shiftl 1 7)) (bit_if (Z.testbit x 7) 3) in
  let p := match Z.land (Z.shiftr x 11) 3 with 0 => User | 1 => Supervisor | _ => Machine end in
  jump p (h_csr h mepc) (set_csr mstatus x' h).

Section exec.
(** [xlat satp va] is the translation of [va]. *)
Variable xlat : Z → Z → option Z.

Definition translate (h : hart) (va : Z) : option Z :=
  match h_priv h with Machine => Some va | _ => xlat (h_csr h satp) va end.

(** One instruction; [None] is a page fault. *)
Definition step1 (i : instr) (h : hart) : option hart :=
  match i with
  | Sd r off b => pa ← translate h (u64 (h_reg h b + off)); Some (set_hmem (st64 (h_mem h) pa (h_reg h r)) h)
  | Ld r off b => pa ← translate h (u64 (h_reg h b + off)); Some (set_reg r (ld64 (h_mem h) pa) h)
  | Addi rd rs imm => Some (set_reg rd (u64 (h_reg h rs + imm)) h)
  | Add rd r1 r2 => Some (set_reg rd (u64 (h_reg h r1 + h_reg h r2)) h)
  | Mul rd r1 r2 => Some (set_reg rd (u64 (h_reg h r1 * h_reg h r2)) h)
  | Li r v => Some (set_reg r v h)
  | Csrr r c => Some (set_reg r (csr_read c h) h)
  | Csrw c r => Some (csr_write c (h_reg h r) h)
  | Csrrw rd c rs => Some (set_reg rd (csr_read c h) (csr_write c (h_reg h rs) h))
  | SfenceVma => Some h
  | Jr r => Some (jump (h_priv h) (h_reg h r) h)
  | Ret => Some (jump (h_priv h) (h_reg h ra) h)
  | Sret => Some (sret h)
  | Mret => Some (mret_ h)
  end.

Fixpoint steps (l : list instr) (h : hart) : option hart :=
  match l with [] => Some h | i :: l' => h' ← step1 i h; steps l' h' end.

(** ** The code *)

Definition swtch : list instr :=
  [Sd ra 0 a0; Sd sp 8 a0; Sd s0 16 a0; Sd s1 24 a0; Sd s2 32 a0; Sd s3 40 a0; Sd s4 48 a0;
   Sd s5 56 a0; Sd s6 64 a0; Sd s7 72 a0; Sd s8 80 a0; Sd s9 88 a0; Sd s10 96 a0; Sd s11 104 a0;
   Ld ra 0 a1; Ld sp 8 a1; Ld s0 16 a1; Ld s1 24 a1; Ld s2 32 a1; Ld s3 40 a1; Ld s4 48 a1;
   Ld s5 56 a1; Ld s6 64 a1; Ld s7 72 a1; Ld s8 80 a1; Ld s9 88 a1; Ld s10 96 a1; Ld s11 104 a1;
   Ret].

Definition kernelvec_save : list instr :=
  [Addi sp sp (-256); Sd ra 0 sp; Sd sp 8 sp; Sd gp 16 sp; Sd tp 24 sp; Sd t0 32 sp; Sd t1 40 sp;
   Sd t2 48 sp; Sd s0 56 sp; Sd s1 64 sp; Sd a0 72 sp; Sd a1 80 sp; Sd a2 88 sp; Sd a3 96 sp;
   Sd a4 104 sp; Sd a5 112 sp; Sd a6 120 sp; Sd a7 128 sp; Sd s2 136 sp; Sd s3 144 sp;
   Sd s4 152 sp; Sd s5 160 sp; Sd s6 168 sp; Sd s7 176 sp; Sd s8 184 sp; Sd s9 192 sp;
   Sd s10 200 sp; Sd s11 208 sp; Sd t3 216 sp; Sd t4 224 sp; Sd t5 232 sp; Sd t6 240 sp].
Definition kernelvec_restore : list instr :=
  [Ld ra 0 sp; Ld sp 8 sp; Ld gp 16 sp; Ld t0 32 sp; Ld t1 40 sp; Ld t2 48 sp;
   Ld s0 56 sp; Ld s1 64 sp; Ld a0 72 sp; Ld a1 80 sp; Ld a2 88 sp; Ld a3 96 sp; Ld a4 104 sp;
   Ld a5 112 sp; Ld a6 120 sp; Ld a7 128 sp; Ld s2 136 sp; Ld s3 144 sp; Ld s4 152 sp;
   Ld s5 160 sp; Ld s6 168 sp; Ld s7 176 sp; Ld s8 184 sp; Ld s9 192 sp; Ld s10 200 sp;
   Ld s11 208 sp; Ld t3 216 sp; Ld t4 224 sp; Ld t5 232 sp; Ld t6 240 sp; Addi sp sp 256; Sret].
(** [call kerneltrap] is a parameter. *)
Definition kernelvec (kerneltrap : hart → option hart) (h : hart) : option hart :=
  h1 ← steps kernelvec_save h; h2 ← kerneltrap h1; steps kernelvec_restore h2.

Definition timervec : list instr :=
  [Csrrw a0 mscratch a0; Sd a1 0 a0; Sd a2 8 a0; Sd a3 16 a0; Ld a1 24 a0; Ld a2 32 a0; Ld a3 0 a1;
   Add a3 a3 a2; Sd a3 0 a1; Li a1 2; Csrw sip a1; Ld a3 16 a0; Ld a2 8 a0; Ld a1 0 a0;
   Csrrw a0 mscratch a0; Mret].

Definition uservec : list instr :=
  [Csrw sscratch a0; Li a0 TRAPFRAME; Sd ra 40 a0; Sd sp 48 a0; Sd gp 56 a0; Sd tp 64 a0;
   Sd t0 72 a0; Sd t1 80 a0; Sd t2 88 a0; Sd s0 96 a0; Sd s1 104 a0; Sd a1 120 a0; Sd a2 128 a0;
   Sd a3 136 a0; Sd a4 144 a0; Sd a5 152 a0; Sd a6 160 a0; Sd a7 168 a0; Sd s2 176 a0;
   Sd s3 184 a0; Sd s4 192 a0; Sd s5 200 a0; Sd s6 208 a0; Sd s7 216 a0; Sd s8 224 a0;
   Sd s9 232 a0; Sd s10 240 a0; Sd s11 248 a0; Sd t3 256 a0; Sd t4 264 a0; Sd t5 272 a0;
   Sd t6 280 a0; Csrr t0 sscratch; Sd t0 112 a0; Ld sp 8 a0; Ld tp 32 a0; Ld t0 16 a0; Ld t1 0 a0;
   SfenceVma; Csrw satp t1; SfenceVma; Jr t0].

Definition userret : list instr :=
  [SfenceVma; Csrw satp a0; SfenceVma; Li a0 TRAPFRAME; Ld ra 40 a0; Ld sp 48 a0; Ld gp 56 a0;
   Ld tp 64 a0; Ld t0 72 a0; Ld t1 80 a0; Ld t2 88 a0; Ld s0 96 a0; Ld s1 104 a0; Ld a1 120 a0;
   Ld a2 128 a0; Ld a3 136 a0; Ld a4 144 a0; Ld a5 152 a0; Ld a6 160 a0; Ld a7 168 a0;
   Ld s2 176 a0; Ld s3 184 a0; Ld s4 192 a0; Ld s5 200 a0; Ld s6 208 a0; Ld s7 216 a0;
   Ld s8 224 a0; Ld s9 232 a0; Ld s10 240 a0; Ld s11 248 a0; Ld t3 256 a0; Ld t4 264 a0;
   Ld t5 272 a0; Ld t6 280 a0; Ld a0 112 a0; Sret].

(** [la sp, stack0] loads the address of the stacks. *)
Definition _entry (stack0 : Z) : list instr :=
  [Li sp stack0; Li a0 (1024 * 4); Csrr a1 mhartid; Addi a1 a1 1; Mul a0 a0 a1; Add sp sp a0].

(** ** Sequences of stores and loads *)

Lemma exec_app l1 l2 h : steps (l1 ++ l2) h = h' ← steps l1 h; steps l2 h'.
Proof. revert h. induction l1 as [|i l1 IH]; intros h; [done|]. cbn. destruct (step1 i h); [apply IH|done]. Qed.

Abbreviation slot := (reg * Z)%type.
Definition saves (b : reg) (l : list slot) : list instr := (λ x, Sd x.1 x.2 b) <$> l.
Definition loads (b : reg) (l : list slot) : list instr := (λ x, Ld x.1 x.2 b) <$> l.
Definition store_all (m : memory) (pa : Z) (f : reg → Z) (l : list slot) : memory := foldl (λ m x, st64 m (pa + x.2) (f x.1)) m l.
Definition load_all (f : reg → Z) (m : memory) (pa : Z) (l : list slot) : reg → Z := foldl (λ f x, set f x.1 (ld64 m (pa + x.2))) f l.
Definition set_regs (f : reg → Z) (h : hart) : hart := mkHart f (h_csr h) (h_mem h) (h_priv h) (h_pc h).

(** Distinct registers in distinct doublewords below [n]. *)
Definition slots (n : Z) (l : list slot) : Prop :=
  NoDup l.*1 ∧ NoDup l.*2 ∧ Forall (λ o, 0 ≤ o ∧ o + 8 ≤ n ∧ o mod 8 = 0) l.*2.
#[local] Instance slots_dec n l : Decision (slots n l).
Proof. unfold slots. apply _. Defined.

(** The registers have 64 bits. *)
Definition regs_ok (f : reg → Z) : Prop := ∀ r, 0 ≤ f r < 2 ^ 64.

(** [n] bytes at [va] are mapped to [pa]. *)
Definition maps (h : hart) (va pa n : Z) : Prop := 0 ≤ va ∧ va + n ≤ 2 ^ 64 ∧ ∀ o, 0 ≤ o < n → translate h (va + o) = Some (pa + o).

Lemma set_eq {K} `{EqDecision K} (f : K → Z) k v : set f k v k = v.
Proof. unfold set. by rewrite decide_True. Qed.
Lemma set_ne {K} `{EqDecision K} (f : K → Z) k v j : j ≠ k → set f k v j = f j.
Proof. intros. unfold set. by rewrite decide_False. Qed.

Lemma maps_slot h va pa n o : maps h va pa n → 0 ≤ o → o + 8 ≤ n → translate h (u64 (va + o)) = Some (pa + o).
Proof. intros (H0 & H1 & H) ? ?. rewrite u64_small by lia. apply H. lia. Qed.

Lemma maps_ext h h' va pa n : h_priv h' = h_priv h → h_csr h' satp = h_csr h satp → maps h va pa n → maps h' va pa n.
Proof. intros E1 E2 (H0 & H1 & H). split_and!; [done..|]. intros o Ho. rewrite <- H by done. unfold translate. by rewrite E1, E2. Qed.

Lemma exec_saves b l n h pa : slots n l → maps h (h_reg h b) pa n → steps (saves b l) h = Some (set_hmem (store_all (h_mem h) pa (h_reg h) l) h).
Proof.
  intros (_ & _ & Hf). revert h. induction l as [|[r o] l IH]; intros h Hm; [by destruct h|].
  apply list.Forall_cons in Hf as [(Ho1 & Ho2 & _) Hf]. cbn. rewrite (maps_slot _ _ _ _ _ Hm) by done. cbn.
  rewrite IH; [done|done|]. by apply (maps_ext h).
Qed.

Lemma exec_loads b l n h pa : slots n l → maps h (h_reg h b) pa n → (∀ x, x ∈ l → x.1 = b → ld64 (h_mem h) (pa + x.2) = h_reg h b) →
  steps (loads b l) h = Some (set_regs (load_all (h_reg h) (h_mem h) pa l) h).
Proof.
  intros (_ & _ & Hf). revert h. induction l as [|[r o] l IH]; intros h Hm Hb; [by destruct h|].
  apply list.Forall_cons in Hf as [(Ho1 & Ho2 & _) Hf]. cbn. rewrite (maps_slot _ _ _ _ _ Hm) by done. cbn.
  set (h' := set_reg r _ h). assert (h_reg h' b = h_reg h b) as Eb.
  { cbn. destruct (decide (b = r)) as [->|]; [rewrite set_eq; apply (Hb (r, o)); [left|done]|by rewrite set_ne]. }
  rewrite IH; [done|done| |].
  - rewrite Eb. by apply (maps_ext h).
  - intros x Hx Ex. rewrite Eb. apply Hb; [by right|done].
Qed.

Lemma store_all_out8 l : ∀ m pa f a, (∀ x, x ∈ l → a < pa + x.2 ∨ pa + x.2 + 8 ≤ a) → ld8 (store_all m pa f l) a = ld8 m a.
Proof.
  induction l as [|x l IH]; intros m pa f a H; [done|]. cbn. fold (store_all (st64 m (pa + x.2) (f x.1)) pa f l).
  rewrite IH by (intros y Hy; apply H; by right). apply ld8_st64_out. apply H. left.
Qed.

Lemma store_all_out l m pa f a : (∀ x, x ∈ l → a + 8 ≤ pa + x.2 ∨ pa + x.2 + 8 ≤ a) → ld64 (store_all m pa f l) a = ld64 m a.
Proof. intros H. apply ld64_ext. intros b Hb. apply store_all_out8. intros x Hx. specialize (H x Hx). lia. Qed.

Lemma store_all_in n l m pa f r o : slots n l → regs_ok f → (r, o) ∈ l → ld64 (store_all m pa f l) (pa + o) = f r.
Proof.
  intros (_ & Hnd & Hf) Hr. revert m. induction l as [|x l IH]; intros m Hin; [by apply not_elem_of_nil in Hin|].
  apply list.NoDup_cons in Hnd as [Hx Hnd]. apply list.Forall_cons in Hf as [(Hx1 & _ & Hx2) Hf]. cbn. fold (store_all (st64 m (pa + x.2) (f x.1)) pa f l).
  apply elem_of_cons in Hin as [<-|Hin]; [|by apply IH]. rewrite store_all_out; [by apply ld64_st64_eq|].
  intros y Hy%(list_elem_of_fmap_2 snd). assert (y.2 ≠ o) by (intros <-; done).
  rewrite list.Forall_forall in Hf. destruct (Hf _ Hy) as (Hy1 & _ & Hy2). cbn in *. dlia.
Qed.

Lemma load_all_out l : ∀ f m pa r, r ∉ l.*1 → load_all f m pa l r = f r.
Proof.
  induction l as [|x l IH]; intros f m pa r Hr; [done|]. apply not_elem_of_cons in Hr as [Hx Hr]. cbn.
  fold (load_all (set f x.1 (ld64 m (pa + x.2))) m pa l). rewrite IH by done. by apply set_ne.
Qed.

Lemma load_all_in l f m pa r o : NoDup l.*1 → (r, o) ∈ l → load_all f m pa l r = ld64 m (pa + o).
Proof.
  revert f. induction l as [|x l IH]; intros f Hnd Hin; [by apply not_elem_of_nil in Hin|]. apply list.NoDup_cons in Hnd as [Hx Hnd]. cbn.
  fold (load_all (set f x.1 (ld64 m (pa + x.2))) m pa l).
  apply elem_of_cons in Hin as [<-|Hin]; [|by apply IH]. rewrite load_all_out by done. apply set_eq.
Qed.

Lemma exec_sd r off b l h va pa n : maps h va pa n → h_reg h b = va → 0 ≤ off → off + 8 ≤ n →
  steps (Sd r off b :: l) h = steps l (set_hmem (st64 (h_mem h) (pa + off) (h_reg h r)) h).
Proof. intros Hm <- H1 H2. cbn. by rewrite (maps_slot _ _ _ _ _ Hm). Qed.

Lemma exec_ld r off b l h va pa n : maps h va pa n → h_reg h b = va → 0 ≤ off → off + 8 ≤ n →
  steps (Ld r off b :: l) h = steps l (set_reg r (ld64 (h_mem h) (pa + off)) h).
Proof. intros Hm <- H1 H2. cbn. by rewrite (maps_slot _ _ _ _ _ Hm). Qed.

Lemma exec_cons i l h h' : step1 i h = Some h' → steps (i :: l) h = steps l h'.
Proof. intros E. cbn. by rewrite E. Qed.

(** ** Traps from user space *)

(** The offsets of [struct trapframe]. *)
Definition tf_off (r : reg) : Z :=
  match r with
  | ra => 40 | sp => 48 | gp => 56 | tp => 64 | t0 => 72 | t1 => 80 | t2 => 88 | s0 => 96 | s1 => 104
  | a0 => 112 | a1 => 120 | a2 => 128 | a3 => 136 | a4 => 144 | a5 => 152 | a6 => 160 | a7 => 168
  | s2 => 176 | s3 => 184 | s4 => 192 | s5 => 200 | s6 => 208 | s7 => 216 | s8 => 224 | s9 => 232 | s10 => 240 | s11 => 248
  | t3 => 256 | t4 => 264 | t5 => 272 | t6 => 280
  end.

(** The registers but [a0]. *)
Definition most_regs : list reg :=
  [ra; sp; gp; tp; t0; t1; t2; s0; s1; a1; a2; a3; a4; a5; a6; a7; s2; s3; s4; s5; s6; s7; s8; s9; s10; s11; t3; t4; t5; t6].
Definition uframe : list slot := (λ r, (r, tf_off r)) <$> most_regs.

Lemma most_regs_in r : r ≠ a0 → (r, tf_off r) ∈ uframe.
Proof. intros H. apply (list_elem_of_fmap_2 (λ r, (r, tf_off r))). destruct r; try done; unfold most_regs; repeat (left || right). Qed.

Lemma uframe_slots : slots 288 uframe.
Proof. apply (bool_decide_unpack (slots 288 uframe)). by vm_compute. Qed.

Lemma uframe_range x : x ∈ uframe → x.2 = tf_off x.1 ∧ x.1 ≠ a0.
Proof. intros (r & -> & Hr)%list_elem_of_fmap. split; [done|]. cbn. intros ->. apply (bool_decide_pack (a0 ∈ most_regs)) in Hr. by vm_compute in Hr. Qed.

Lemma tf_off_range r : 40 ≤ tf_off r ∧ tf_off r + 8 ≤ 288.
Proof. destruct r; cbn; lia. Qed.

Lemma tf_off_ne r r' : r ≠ r' → tf_off r + 8 ≤ tf_off r' ∨ tf_off r' + 8 ≤ tf_off r.
Proof.
  intros H. assert (tf_off r mod 8 = 0 ∧ tf_off r' mod 8 = 0 ∧ tf_off r ≠ tf_off r') as (? & ? & ?); [|dlia].
  split_and!; [by destruct r|by destruct r'|]. intros E. apply H. destruct r, r'; done.
Qed.

(** [uservec] saves every user register in the trapframe, changes no other memory and
    continues at the address, with the stack, the hart id and the page table that
    the trapframe has for the kernel. *)
Lemma uservec_run h tf : regs_ok (h_reg h) → maps h TRAPFRAME tf 288 → 
  ∃ h', steps uservec h = Some h' ∧ (∀ r, ld64 (h_mem h') (tf + tf_off r) = h_reg h r) ∧
    (∀ a, a < tf + 40 ∨ tf + 288 ≤ a → ld8 (h_mem h') a = ld8 (h_mem h) a) ∧
    h_csr h' satp = ld64 (h_mem h) tf ∧ h_reg h' sp = ld64 (h_mem h) (tf + 8) ∧ h_pc h' = ld64 (h_mem h) (tf + 16) ∧
    h_reg h' tp = ld64 (h_mem h) (tf + 32) ∧ h_priv h' = h_priv h.
Proof.
  intros Hr Hm. set (h1 := set_reg a0 TRAPFRAME (set_csr sscratch (h_reg h a0) h)).
  set (m1 := store_all (h_mem h) tf (h_reg h1) uframe). set (m2 := st64 m1 (tf + 112) (h_reg h a0)).
  assert (∀ r, ld64 m2 (tf + tf_off r) = h_reg h r) as Hin.
  { intros r. destruct (decide (r = a0)) as [->|Hne]; [by apply ld64_st64_eq|]. unfold m2.
    rewrite ld64_st64_ne by (destruct (tf_off_ne r a0 Hne); cbn in *; lia). unfold m1.
    rewrite (store_all_in 288 _ _ _ _ r); [by apply set_ne|apply uframe_slots| |by apply most_regs_in].
    intros r'. cbn. destruct (decide (r' = a0)) as [->|]; [by rewrite set_eq|by rewrite set_ne]. }
  assert (∀ a, a < tf + 40 ∨ tf + 288 ≤ a → ld8 m2 a = ld8 (h_mem h) a) as Hout.
  { intros a Ha. unfold m2. rewrite ld8_st64_out by lia. apply store_all_out8. intros x [-> _]%uframe_range. pose proof (tf_off_range x.1). lia. }
  assert (∀ o, 0 ≤ o ≤ 32 → ld64 m2 (tf + o) = ld64 (h_mem h) (tf + o)) as Hk by (intros o Ho; apply ld64_ext; intros a Ha; apply Hout; lia).
  change uservec with (Csrw sscratch a0 :: Li a0 TRAPFRAME :: saves a0 uframe ++ drop 32 uservec). cbn [steps step1 csr_write mbind option_bind].
  fold h1. rewrite exec_app, (exec_saves a0 uframe 288 h1 tf uframe_slots) by by apply (maps_ext h). cbn [mbind option_bind]. fold m1.
  change (drop 32 uservec) with [Csrr t0 sscratch; Sd t0 112 a0; Ld sp 8 a0; Ld tp 32 a0; Ld t0 16 a0; Ld t1 0 a0; SfenceVma; Csrw satp t1; SfenceVma; Jr t0].
  erewrite exec_cons by reflexivity.
  do 1 (erewrite exec_sd; [|by apply (maps_ext h)|reflexivity|lia|lia]).
  do 4 (erewrite exec_ld; [|by apply (maps_ext h)|reflexivity|lia|lia]).
  eexists. split; [reflexivity|]. split_and!; [exact Hin|exact Hout| |exact (Hk 8 ltac:(lia))|exact (Hk 16 ltac:(lia))|exact (Hk 32 ltac:(lia))|done].
  transitivity (ld64 m2 (tf + 0)); [reflexivity|]. by rewrite Hk, Z.add_0_r by lia.
Qed.

(** [userret] loads every user register from the trapframe, with the page table in
    [a0]. *)
Lemma userret_run h tf : maps (set_csr satp (h_reg h a0) h) TRAPFRAME tf 288 →
  ∃ h', steps userret h = Some h' ∧ (∀ r, h_reg h' r = ld64 (h_mem h) (tf + tf_off r)) ∧ h_mem h' = h_mem h ∧
    h_csr h' satp = h_reg h a0 ∧ h_pc h' = h_csr h sepc ∧ h_priv h' = (if Z.testbit (h_csr h mstatus) 8 then Supervisor else User).
Proof.
  intros Hm. set (h1 := set_reg a0 TRAPFRAME (set_csr satp (h_reg h a0) h)).
  change userret with (SfenceVma :: Csrw satp a0 :: SfenceVma :: Li a0 TRAPFRAME :: loads a0 uframe ++ [Ld a0 112 a0; Sret]).
  do 4 (erewrite exec_cons by reflexivity). change (csr_write satp (h_reg h a0) h) with (set_csr satp (h_reg h a0) h). fold h1.
  rewrite exec_app, (exec_loads a0 uframe 288 h1 tf uframe_slots); [|by apply (maps_ext (set_csr satp (h_reg h a0) h))|by intros x [_ Hx]%uframe_range ?].
  cbn [mbind option_bind]. erewrite exec_ld; [|by apply (maps_ext (set_csr satp (h_reg h a0) h))| |lia|lia].
  2:{ cbn [set_regs h_reg]. rewrite load_all_out; [done|]. apply (bool_decide_unpack (a0 ∉ uframe.*1)). by vm_compute. }
  eexists. split; [reflexivity|]. split_and!; try done. intros r. destruct (decide (r = a0)) as [->|Hr]; [exact (set_eq _ _ _)|].
  transitivity (load_all (h_reg h1) (h_mem h1) tf uframe r); [exact (set_ne _ _ _ _ Hr)|]. apply load_all_in; [apply uframe_slots|by apply most_regs_in].
Qed.

(** C10: A trap and the return to user space keep all registers of the user.  [uservec]
    enters the kernel with every register in the trapframe; whatever the kernel does
    with the machine, if the words of the registers in the trapframe are as before
    and it calls [userret] with the page table of the process, then the process goes
    on with all its registers. *)
Theorem trap_roundtrip h tf : regs_ok (h_reg h) → h_priv h = Supervisor → maps h TRAPFRAME tf 288 →
  ∃ h1, steps uservec h = Some h1 ∧ h_priv h1 = Supervisor ∧
    (∀ a, a < tf + 40 ∨ tf + 288 ≤ a → ld8 (h_mem h1) a = ld8 (h_mem h) a) ∧
    h_csr h1 satp = ld64 (h_mem h) tf ∧ h_reg h1 sp = ld64 (h_mem h) (tf + 8) ∧ h_pc h1 = ld64 (h_mem h) (tf + 16) ∧ h_reg h1 tp = ld64 (h_mem h) (tf + 32) ∧
    ∀ h2, (∀ r, ld64 (h_mem h2) (tf + tf_off r) = ld64 (h_mem h1) (tf + tf_off r)) →
      h_reg h2 a0 = h_csr h satp → h_priv h2 = Supervisor →
      ∃ h3, steps userret h2 = Some h3 ∧ (∀ r, h_reg h3 r = h_reg h r) ∧ h_csr h3 satp = h_csr h satp ∧ h_mem h3 = h_mem h2 ∧
        h_pc h3 = h_csr h2 sepc ∧ h_priv h3 = (if Z.testbit (h_csr h2 mstatus) 8 then Supervisor else User).
Proof.
  intros Hr Hp Hm. destruct (uservec_run h tf Hr Hm) as (h1 & E1 & Hin & Hout & Hs & Hsp & Hpc & Htp & Hp1). exists h1. rewrite Hp in Hp1. split_and!; [done..|].
  intros h2 H2 Ea Hp2. destruct (userret_run h2 tf) as (h3 & E3 & H3 & Hm3 & Hs3 & Hpc3 & Hp3).
  { apply (maps_ext h); [by cbn; rewrite Hp, Hp2|by cbn; rewrite set_eq|done]. }
  exists h3. split_and!; [done| |by rewrite Hs3|done..]. intros r. by rewrite H3, H2, Hin.
Qed.

(** ** Context switch *)

(** [struct context]. *)
Definition ctx : list slot :=
  [(ra, 0); (sp, 8); (s0, 16); (s1, 24); (s2, 32); (s3, 40); (s4, 48); (s5, 56); (s6, 64); (s7, 72); (s8, 80); (s9, 88); (s10, 96); (s11, 104)].

Lemma ctx_slots : slots 112 ctx.
Proof. apply (bool_decide_unpack (slots 112 ctx)). by vm_compute. Qed.

Lemma slots_range n l x : slots n l → x ∈ l → 0 ≤ x.2 ∧ x.2 + 8 ≤ n.
Proof. intros (_ & _ & Hf) Hx%(list_elem_of_fmap_2 snd). rewrite list.Forall_forall in Hf. by destruct (Hf _ Hx) as (? & ? & _). Qed.

Lemma swtch_run h old new : regs_ok (h_reg h) → maps h (h_reg h a0) old 112 → maps h (h_reg h a1) new 112 → old + 112 ≤ new ∨ new + 112 ≤ old →
  ∃ h', steps swtch h = Some h' ∧ (∀ r o, (r, o) ∈ ctx → ld64 (h_mem h') (old + o) = h_reg h r) ∧
    (∀ r o, (r, o) ∈ ctx → h_reg h' r = ld64 (h_mem h) (new + o)) ∧ (∀ r, r ∉ ctx.*1 → h_reg h' r = h_reg h r) ∧
    (∀ a, a < old ∨ old + 112 ≤ a → ld8 (h_mem h') a = ld8 (h_mem h) a) ∧ h_pc h' = ld64 (h_mem h) new ∧ h_priv h' = h_priv h ∧ h_csr h' = h_csr h.
Proof.
  intros Hr Ho Hn Hd. set (m1 := store_all (h_mem h) old (h_reg h) ctx). set (h1 := set_hmem m1 h).
  assert (∀ a, a < old ∨ old + 112 ≤ a → ld8 m1 a = ld8 (h_mem h) a) as Hout.
  { intros a Ha. apply store_all_out8. intros x Hx. pose proof (slots_range _ _ _ ctx_slots Hx). lia. }
  assert (∀ r o, (r, o) ∈ ctx → load_all (h_reg h1) m1 new ctx r = ld64 (h_mem h) (new + o)) as Hin.
  { intros r o Hx. rewrite (load_all_in _ _ _ _ r o); [|apply ctx_slots|done]. apply ld64_ext. intros a Ha. apply Hout.
    pose proof (slots_range _ _ _ ctx_slots Hx). cbn in *. lia. }
  change swtch with (saves a0 ctx ++ loads a1 ctx ++ [Ret]).
  rewrite exec_app, (exec_saves a0 ctx 112 h old ctx_slots) by done. cbn [mbind option_bind]. fold m1 h1.
  rewrite exec_app, (exec_loads a1 ctx 112 h1 new ctx_slots); [|by apply (maps_ext h)|].
  2:{ intros x Hx%(list_elem_of_fmap_2 fst) E. rewrite E in Hx. apply (bool_decide_pack (a1 ∈ ctx.*1)) in Hx. by vm_compute in Hx. }
  eexists. split; [reflexivity|]. split_and!; [|exact Hin|by intros; apply load_all_out|exact Hout| |done..].
  - intros r o Hx. by apply (store_all_in 112 _ _ _ _ _ _ ctx_slots).
  - transitivity (ld64 (h_mem h) (new + 0)); [apply Hin; left|by rewrite Z.add_0_r].
Qed.

(** C19: A thread that calls [swtch] with its context goes on where it was: when some
    later call of [swtch] switches to a context that still holds what was saved, the
    call returns to the return address of the first one, with its stack pointer and
    all registers that a called function has to keep. *)
Theorem swtch_resumes h old new : regs_ok (h_reg h) → maps h (h_reg h a0) old 112 → maps h (h_reg h a1) new 112 → old + 112 ≤ new ∨ new + 112 ≤ old →
  ∃ h1, steps swtch h = Some h1 ∧ h_pc h1 = ld64 (h_mem h) new ∧ (∀ r o, (r, o) ∈ ctx → h_reg h1 r = ld64 (h_mem h) (new + o)) ∧
    (∀ a, a < old ∨ old + 112 ≤ a → ld8 (h_mem h1) a = ld8 (h_mem h) a) ∧
    ∀ h2 old2, regs_ok (h_reg h2) → maps h2 (h_reg h2 a0) old2 112 → maps h2 (h_reg h2 a1) old 112 → old2 + 112 ≤ old ∨ old + 112 ≤ old2 →
      (∀ a, old ≤ a < old + 112 → ld8 (h_mem h2) a = ld8 (h_mem h1) a) →
      ∃ h3, steps swtch h2 = Some h3 ∧ h_pc h3 = h_reg h ra ∧ ∀ r, r ∈ ctx.*1 → h_reg h3 r = h_reg h r.
Proof.
  intros Hr Ho Hn Hd. destruct (swtch_run h old new Hr Ho Hn Hd) as (h1 & E1 & Hs & Hl & _ & Hout & Hpc & _ & _). exists h1. split_and!; [done..|].
  intros h2 old2 Hr2 Ho2 Hn2 Hd2 Hk. destruct (swtch_run h2 old2 old Hr2 Ho2 Hn2 Hd2) as (h3 & E3 & _ & Hl3 & _ & _ & Hpc3 & _ & _).
  assert (∀ r o, (r, o) ∈ ctx → ld64 (h_mem h2) (old + o) = h_reg h r) as Hw.
  { intros r o Hx. rewrite <- (Hs r o Hx). apply ld64_ext. intros a Ha. apply Hk. pose proof (slots_range _ _ _ ctx_slots Hx). cbn in *. lia. }
  exists h3. split_and!; [done| |].
  - rewrite Hpc3, <- (Hw ra 0); [by rewrite Z.add_0_r|left].
  - intros r ([r' o] & -> & Hx)%list_elem_of_fmap. cbn. by rewrite (Hl3 _ _ Hx), (Hw _ _ Hx).
Qed.

(** ** Traps in the kernel *)

Definition kframe : list slot :=
  [(ra, 0); (sp, 8); (gp, 16); (tp, 24); (t0, 32); (t1, 40); (t2, 48); (s0, 56); (s1, 64); (a0, 72); (a1, 80); (a2, 88); (a3, 96);
   (a4, 104); (a5, 112); (a6, 120); (a7, 128); (s2, 136); (s3, 144); (s4, 152); (s5, 160); (s6, 168); (s7, 176); (s8, 184); (s9, 192);
   (s10, 200); (s11, 208); (t3, 216); (t4, 224); (t5, 232); (t6, 240)].
(** What is restored. *)
Definition kframe' : list slot := filter (λ x, x.1 ≠ tp) kframe.

Lemma kframe_slots : slots 256 kframe ∧ slots 256 kframe'.
Proof. split; [apply (bool_decide_unpack (slots 256 kframe))|apply (bool_decide_unpack (slots 256 kframe'))]; by vm_compute. Qed.

Lemma kframe_all r : r ≠ tp → ∃ o, (r, o) ∈ kframe'.
Proof.
  intros H. assert (∃ o, (r, o) ∈ kframe) as [o Ho].
  { assert (r ∈ kframe.*1) as ([r' o] & -> & Ho)%list_elem_of_fmap by (destruct r; cbn; repeat (left || right)). by exists o. }
  exists o. by apply list_elem_of_filter.
Qed.

(** What [kernelvec] relies on when it calls [kerneltrap]: the call returns with the
    stack pointer, in the same address space, and without changes to the frame. *)
Record keeps (pa : Z) (h h' : hart) : Prop := {
  kp_sp : h_reg h' sp = h_reg h sp;
  kp_priv : h_priv h' = h_priv h;
  kp_satp : h_csr h' satp = h_csr h satp;
  kp_mem a : pa ≤ a < pa + 256 → ld8 (h_mem h') a = ld8 (h_mem h) a }.

(** C20: A trap in the kernel keeps all registers of the code that it stops, apart from
    [tp], which has the number of the hart and is left as [kerneltrap] has it; memory
    outside of the frame below the stack pointer is as [kerneltrap] leaves it. *)
Theorem kernelvec_correct (kerneltrap : hart → option hart) h pa :
  regs_ok (h_reg h) → 256 ≤ h_reg h sp → maps h (h_reg h sp - 256) pa 256 →
  (∀ h1, h_reg h1 sp = h_reg h sp - 256 → ∃ h2, kerneltrap h1 = Some h2 ∧ keeps pa h1 h2) →
  ∃ h1 h2 h3, steps kernelvec_save h = Some h1 ∧ kerneltrap h1 = Some h2 ∧ kernelvec kerneltrap h = Some h3 ∧
    (∀ r, r ≠ tp → h_reg h1 r = h_reg h r ∨ r = sp) ∧ (∀ a, a < pa ∨ pa + 256 ≤ a → ld8 (h_mem h1) a = ld8 (h_mem h) a) ∧
    (∀ r, r ≠ tp → h_reg h3 r = h_reg h r) ∧ h_reg h3 tp = h_reg h2 tp ∧ h_mem h3 = h_mem h2 ∧ h_pc h3 = h_csr h2 sepc ∧
    h_priv h3 = (if Z.testbit (h_csr h2 mstatus) 8 then Supervisor else User).
Proof.
  intros Hr Hsp Hm Hk. destruct kframe_slots as [Hs Hs']. set (v := h_reg h sp - 256) in *.
  assert (u64 (h_reg h sp + -256) = v) as Ev by (specialize (Hr sp); rewrite u64_small; lia).
  set (h0 := set_reg sp v h). set (m1 := store_all (h_mem h) pa (h_reg h0) kframe). set (h1 := set_hmem m1 h0).
  assert (steps kernelvec_save h = Some h1) as E1.
  { change kernelvec_save with (Addi sp sp (-256) :: saves sp kframe). erewrite exec_cons by reflexivity. rewrite Ev. fold h0.
    apply (exec_saves sp kframe 256 h0 pa Hs). by apply (maps_ext h). }
  destruct (Hk h1) as (h2 & E2 & [K1 K2 K3 K4]); [done|].
  assert (∀ r o, (r, o) ∈ kframe → ld64 (h_mem h2) (pa + o) = h_reg h0 r) as Hw.
  { intros r o Hx. rewrite <- (store_all_in 256 kframe (h_mem h) pa (h_reg h0) r o Hs); [|intros r'; cbn; unfold set; pose proof (Hr r'); pose proof (Hr sp); case_decide; unfold v; lia|done].
    apply ld64_ext. intros a Ha. apply K4. destruct (slots_range _ _ _ Hs Hx). cbn [snd] in *. lia. }
  assert (∀ x, x ∈ kframe' → (x.1, x.2) ∈ kframe ∧ x.1 ≠ tp) as Hsub by (intros [r o] [? ?]%list_elem_of_filter; done).
  set (f := load_all (h_reg h2) (h_mem h2) pa kframe').
  assert (∀ r, r ≠ tp → f r = h_reg h0 r) as Hf.
  { intros r Hne. destruct (kframe_all r Hne) as [o Ho]. unfold f. rewrite (load_all_in _ _ _ _ r o); [|apply Hs'|done]. by apply Hw, (Hsub (r, o)). }
  assert (steps kernelvec_restore h2 = Some (Asm.sret (set_reg sp (h_reg h sp) (set_regs f h2)))) as E3.
  { change kernelvec_restore with (loads sp kframe' ++ [Addi sp sp 256; Sret]).
    rewrite exec_app, (exec_loads sp kframe' 256 h2 pa Hs'); [|rewrite K1; by apply (maps_ext h)|].
    2:{ intros x Hx E. rewrite K1, (Hw x.1); [by rewrite E|by apply Hsub]. }
    cbn [mbind option_bind]. fold f. erewrite exec_cons by reflexivity. cbn [set_regs h_reg]. rewrite (Hf sp) by done.
    change (h_reg h0 sp) with v. replace (u64 (v + 256)) with (h_reg h sp) by (specialize (Hr sp); rewrite u64_small; lia). reflexivity. }
  exists h1, h2. eexists. split_and!; [exact E1|exact E2|unfold kernelvec; rewrite E1; cbn [mbind option_bind]; rewrite E2; exact E3|..|reflexivity|reflexivity|reflexivity].
  - intros r _. destruct (decide (r = sp)) as [->|Hne]; [by right|left]. exact (set_ne _ _ _ _ Hne).
  - intros a Ha. apply store_all_out8. intros x Hx. pose proof (slots_range _ _ _ Hs Hx). lia.
  - intros r Hne. destruct (decide (r = sp)) as [->|Hsp']; [exact (set_eq _ _ _)|].
    transitivity (f r); [exact (set_ne _ _ _ _ Hsp')|]. rewrite (Hf r Hne). exact (set_ne _ _ _ _ Hsp').
  - transitivity (f tp); [done|]. apply load_all_out. apply (bool_decide_unpack (tp ∉ kframe'.*1)). by vm_compute.
Qed.

(** ** The timer *)

Lemma exec_sd_m r off b l h va : h_priv h = Machine → h_reg h b = va → 0 ≤ va + off < 2 ^ 64 →
  steps (Sd r off b :: l) h = steps l (set_hmem (st64 (h_mem h) (va + off) (h_reg h r)) h).
Proof. intros Hp <- H. apply exec_cons. cbn. unfold translate. by rewrite Hp, u64_small by done. Qed.

Lemma exec_ld_m r off b l h va : h_priv h = Machine → h_reg h b = va → 0 ≤ va + off < 2 ^ 64 →
  steps (Ld r off b :: l) h = steps l (set_reg r (ld64 (h_mem h) (va + off)) h).
Proof. intros Hp <- H. apply exec_cons. cbn. unfold translate. by rewrite Hp, u64_small by done. Qed.

(** The scratch area of [timervec] at [sc]: the address of the compare register and
    the interval. *)
Record timer_area (h : hart) (sc cmp ival : Z) : Prop := {
  ta_scratch : h_csr h mscratch = sc;
  ta_range : 0 ≤ sc ∧ sc + 40 ≤ 2 ^ 64;
  ta_cmp : ld64 (h_mem h) (sc + 24) = cmp;
  ta_ival : ld64 (h_mem h) (sc + 32) = ival;
  ta_apart : 0 ≤ cmp ∧ cmp + 8 ≤ 2 ^ 64 ∧ (cmp + 8 ≤ sc ∨ sc + 40 ≤ cmp) }.

(** [timervec] adds the interval to the compare register and asks for a software
    interrupt in supervisor mode; every register, [mscratch] and all memory but its
    save area are as before, so that it can be entered again. *)
Theorem timervec_correct h sc cmp ival : h_priv h = Machine → regs_ok (h_reg h) → timer_area h sc cmp ival →
  ∃ h', steps timervec h = Some h' ∧ (∀ r, h_reg h' r = h_reg h r) ∧ timer_area h' sc cmp ival ∧
    ld64 (h_mem h') cmp = u64 (ld64 (h_mem h) cmp + ival) ∧ Z.testbit (h_csr h' mip) 1 = true ∧
    (∀ a, (a < sc ∨ sc + 24 ≤ a) → (a < cmp ∨ cmp + 8 ≤ a) → ld8 (h_mem h') a = ld8 (h_mem h) a) ∧ h_pc h' = h_csr h mepc.
Proof.
  intros Hp Hr [Hsc Hrg Hc Hi Ha].
  assert (0 ≤ h_reg h a1 < 2 ^ 64 ∧ 0 ≤ h_reg h a2 < 2 ^ 64 ∧ 0 ≤ h_reg h a3 < 2 ^ 64) as (R1 & R2 & R3) by (split_and!; apply Hr).
  set (m1 := st64 (h_mem h) (sc + 0) (h_reg h a1)). set (m2 := st64 m1 (sc + 8) (h_reg h a2)). set (m3 := st64 m2 (sc + 16) (h_reg h a3)).
  set (v := u64 (ld64 (h_mem h) cmp + ival)). set (m4 := st64 m3 (cmp + 0) v).
  assert (∀ a, a < sc ∨ sc + 24 ≤ a → ld8 m3 a = ld8 (h_mem h) a) as H3 by (intros a Hx; unfold m3, m2, m1; by rewrite !ld8_st64_out by lia).
  assert (ld64 m3 (sc + 24) = cmp ∧ ld64 m3 (sc + 32) = ival ∧ ld64 m3 (cmp + 0) = ld64 (h_mem h) cmp) as (E24 & E32 & Ecmp).
  { rewrite Z.add_0_r. split_and!; [rewrite <- Hc|rewrite <- Hi|]; apply ld64_ext; intros a Hx; apply H3; lia. }
  assert (ld64 m4 (sc + 0) = h_reg h a1 ∧ ld64 m4 (sc + 8) = h_reg h a2 ∧ ld64 m4 (sc + 16) = h_reg h a3) as (E0 & E8 & E16).
  { unfold m4. rewrite !(ld64_st64_ne m3) by lia. unfold m3. rewrite !(ld64_st64_ne m2), ld64_st64_eq by lia. unfold m2.
    rewrite (ld64_st64_ne m1), ld64_st64_eq by lia. unfold m1. by rewrite ld64_st64_eq by lia. }
  set (h1 := set_reg a0 sc (set_csr mscratch (h_reg h a0) h)). set (h4 := set_reg a1 cmp (set_hmem m3 h1)).
  set (h6 := set_reg a3 v (set_reg a3 (ld64 (h_mem h) cmp) (set_reg a2 ival h4))). set (h7 := csr_write sip 2 (set_reg a1 2 (set_hmem m4 h6))).
  set (h8 := set_reg a1 (h_reg h a1) (set_reg a2 (h_reg h a2) (set_reg a3 (h_reg h a3) h7))).
  assert (steps timervec h = Some (mret_ (set_reg a0 (h_reg h a0) (set_csr mscratch sc h8)))) as E.
  { unfold timervec. rewrite (exec_cons _ _ h h1) by (unfold h1; by rewrite <- Hsc). rewrite !(exec_sd_m _ _ a0 _ _ sc) by (done || lia).
    change (set_hmem _ _) with (set_hmem m3 h1). rewrite (exec_ld_m a1 24 a0 _ _ sc) by (done || lia). change (h_mem (set_hmem m3 h1)) with m3. rewrite E24. fold h4.
    rewrite (exec_ld_m a2 32 a0 _ _ sc) by (done || lia). change (h_mem h4) with m3. rewrite E32.
    rewrite (exec_ld_m a3 0 a1 _ _ cmp) by (done || lia). change (h_mem (set_reg a2 ival h4)) with m3. rewrite Ecmp.
    rewrite (exec_cons (Add a3 a3 a2) _ _ h6) by reflexivity. rewrite (exec_sd_m a3 0 a1 _ _ cmp) by (done || lia).
    rewrite (exec_cons (Li a1 2) _ _ (set_reg a1 2 (set_hmem m4 h6))) by reflexivity. rewrite (exec_cons (Csrw sip a1) _ _ h7) by reflexivity.
    rewrite (exec_ld_m a3 16 a0 _ _ sc) by (done || lia). change (h_mem h7) with m4. rewrite E16.
    rewrite (exec_ld_m a2 8 a0 _ _ sc) by (done || lia). change (h_mem (set_reg a3 (h_reg h a3) h7)) with m4. rewrite E8.
    rewrite (exec_ld_m a1 0 a0 _ _ sc) by (done || lia). change (h_mem (set_reg a2 _ _)) with m4. rewrite E0. reflexivity. }
  eexists. split; [exact E|]. split_and!.
  - intros r. by destruct r.
  - split; [done|done|..|done]; cbn [mret_ jump set_csr set_reg h_mem]; change (h_mem h8) with m4; unfold m4; by rewrite ld64_st64_ne by lia.
  - change (ld64 m4 cmp = v). unfold m4. rewrite Z.add_0_r, ld64_st64_eq; [done|apply u64_range].
  - change (Z.testbit (Z.lor (Z.ldiff (h_csr h mip) 2) 2) 1 = true). by rewrite Z.lor_spec, orb_true_r.
  - intros a Hx Hy. change (ld8 m4 a = ld8 (h_mem h) a). unfold m4. rewrite ld8_st64_out by lia. by apply H3.
  - done.
Qed.

(** ** Types *)

(** Registers and control registers hold 64 bits; so do the constants of [li]. *)
Definition word (z : Z) : Prop := 0 ≤ z < 2 ^ 64.
Definition typed (h : hart) : Prop := (∀ r, word (h_reg h r)) ∧ (∀ c, word (h_csr h c)) ∧ word (h_pc h).
Definition instr_typed (i : instr) : Prop := match i with Li _ v => word v | _ => True end.

Lemma word_ones a : word a ↔ Z.land a (Z.ones 64) = a.
Proof.
  rewrite Z.land_ones by done. split; [intros H; by apply Z.mod_small|]. intros <-. by apply Z.mod_pos_bound.
Qed.

Lemma word_bits a b : word a → word b → word (Z.lor a b) ∧ word (Z.land a b) ∧ word (Z.ldiff a b).
Proof.
  intros Ha Hb. split; [by apply lor_range|]. split; apply word_ones.
  - by rewrite <- Z.land_assoc, (proj1 (word_ones b) Hb).
  - rewrite Z.ldiff_land, (Z.land_comm a), <- Z.land_assoc, (proj1 (word_ones a) Ha). done.
Qed.

Lemma set_word {K} `{EqDecision K} (f : K → Z) k v : (∀ j, word (f j)) → word v → ∀ j, word (set f k v j).
Proof. intros Hf Hv j. unfold set. by case_decide. Qed.

Lemma typed_set_reg r v h : typed h → word v → typed (set_reg r v h).
Proof. intros (Hr & Hc & Hp) Hv. split_and!; [by apply set_word|done..]. Qed.
Lemma typed_set_csr c v h : typed h → word v → typed (set_csr c v h).
Proof. intros (Hr & Hc & Hp) Hv. split_and!; [done|by apply set_word|done]. Qed.
Lemma typed_csr_write c v h : typed h → word v → typed (csr_write c v h).
Proof.
  intros Ht Hv. pose proof Ht as (_ & Hc & _). destruct c; try (by apply typed_set_csr); (apply typed_set_csr; [done|]);
    apply word_bits; apply word_bits; first [done|apply Hc|by split].
Qed.
Lemma csr_read_word c h : typed h → word (csr_read c h).
Proof. intros (_ & Hc & _). destruct c; try apply Hc; by apply word_bits. Qed.
Lemma bit_if_word b n : 0 ≤ n < 64 → word (bit_if b n).
Proof.
  intros Hn. unfold bit_if, word. destruct b; [|lia]. rewrite Z.shiftl_mul_pow2, Z.mul_1_l by lia. split; [lia|]. apply Z.pow_lt_mono_r; lia.
Qed.
Lemma typed_ret x a p pc h : typed h → word x → word a → 0 ≤ p < 64 → ∀ q n b, 0 ≤ n < 64 → word pc →
  typed (jump q pc (set_csr mstatus (Z.lor (Z.lor (Z.ldiff x a) (Z.shiftl 1 p)) (bit_if b n)) h)).
Proof.
  intros Ht Hx Ha Hp q n b Hn Hpc. assert (word (Z.lor (Z.lor (Z.ldiff x a) (Z.shiftl 1 p)) (bit_if b n))) as Hw.
  { apply word_bits; [apply word_bits; [by apply word_bits|by apply (bit_if_word true)]|by apply bit_if_word]. }
  destruct (typed_set_csr mstatus _ h Ht Hw) as (H1 & H2 & _). by split_and!.
Qed.


End exec.

(** ** Instances *)

Lemma code_typed : Forall instr_typed (swtch ++ kernelvec_save ++ kernelvec_restore ++ timervec ++ uservec ++ userret).
Proof. repeat (constructor; [first [exact I|done]|]). constructor. Qed.

(** Addresses that are translated to themselves. *)
Definition flat (satp va : Z) : option Z := Some va.

Lemma flat_maps h va n : 0 ≤ va → va + n ≤ 2 ^ 64 → maps flat h va va n.
Proof. intros. split_and!; [done..|]. intros o _. unfold translate, flat. by destruct (h_priv h). Qed.

Definition ex_user : hart := mkHart tf_off (λ c, match c with satp => 7 | _ => 0 end) ∅ Supervisor 0.

Lemma ex_user_regs : regs_ok tf_off.
Proof. intros r. pose proof (tf_off_range r). lia. Qed.


Lemma trap_roundtrip_witness : ∃ h1 h3, steps flat uservec ex_user = Some h1 ∧ steps flat userret (set_reg a0 7 h1) = Some h3 ∧ ∀ r, h_reg h3 r = tf_off r.
Proof.
  destruct (trap_roundtrip flat ex_user TRAPFRAME ex_user_regs eq_refl) as (h1 & E1 & Hp & _ & _ & _ & _ & _ & H); [by apply flat_maps|].
  exists h1. destruct (H (set_reg a0 7 h1)) as (h3 & E3 & H3 & _); [intros r; reflexivity|apply set_eq|exact Hp|]. exists h3. split_and!; [exact E1|exact E3|exact H3].
Defined.

(** Two contexts at 0x1000 and 0x2000. *)
Definition ex_thread : hart := mkHart (λ r, match r with a0 => 0x1000 | a1 => 0x2000 | _ => tf_off r end) (λ _, 0) ∅ Supervisor 0.
Definition swapped (h : hart) : hart := set_reg a0 0x2000 (set_reg a1 0x1000 h).

Lemma ex_thread_regs : regs_ok (h_reg ex_thread).
Proof. intros r. pose proof (tf_off_range r). cbn. destruct r; lia. Qed.

Lemma swtch_resumes_witness : ∃ h1 h3, steps flat swtch ex_thread = Some h1 ∧ steps flat swtch (swapped h1) = Some h3 ∧ h_pc h3 = 40 ∧ h_reg h3 s11 = 248.
Proof.
  destruct (swtch_resumes flat ex_thread 0x1000 0x2000 ex_thread_regs) as (h1 & E1 & _ & Hr & _ & H); [by apply flat_maps..|lia|].
  destruct (swtch_run flat ex_thread 0x1000 0x2000 ex_thread_regs) as (h1' & E1' & _ & _ & Hk & _); [by apply flat_maps..|lia|].
  rewrite E1 in E1'. injection E1' as <-. exists h1.
  destruct (H (swapped h1) 0x2000) as (h3 & E3 & Hpc & H3); [|by apply flat_maps..|lia|done|].
  - intros r. cbn. unfold set. repeat case_decide; [lia..|]. destruct (decide (r ∈ ctx.*1)) as [([r' o] & -> & Hx)%list_elem_of_fmap|Hx]; [|rewrite Hk by done; apply ex_thread_regs].
    cbn. rewrite (Hr r' o Hx). apply ld64_range.
  - exists h3. split_and!; [done..|]. apply (H3 s11). apply (bool_decide_unpack (s11 ∈ ctx.*1)). by vm_compute.
Defined.

(** A handler of traps that changes [t0]. *)
Lemma kernelvec_correct_witness : ∃ h3, kernelvec flat (λ h, Some (set_reg t0 99 h)) (set_reg sp 0x3000 ex_thread) = Some h3 ∧ h_reg h3 t0 = 72 ∧ h_reg h3 sp = 0x3000.
Proof.
  destruct (kernelvec_correct flat (λ h, Some (set_reg t0 99 h)) (set_reg sp 0x3000 ex_thread) (0x3000 - 256)) as (h1 & h2 & h3 & _ & _ & E3 & _ & _ & H & _).
  - intros r. cbn. unfold set. case_decide; [lia|apply ex_thread_regs].
  - done.
  - by apply flat_maps.
  - intros h1 _. eexists. split; [done|]. by split.
  - exists h3. split_and!; [done|exact (H t0 ltac:(done))|exact (H sp ltac:(done))].
Defined.

Definition ex_timer : hart :=
  mkHart tf_off (λ c, match c with mscratch => 0x9000 | _ => 0 end) (st64 (st64 (st64 ∅ 0x2004000 500) 0x9018 0x2004000) 0x9020 1000000) Machine 0.

Lemma timervec_correct_witness : ∃ h', steps flat timervec ex_timer = Some h' ∧ h_reg h' a1 = 120 ∧ ld64 (h_mem h') 0x2004000 = 1000500.
Proof.
  destruct (timervec_correct flat ex_timer 0x9000 0x2004000 1000000) as (h' & E & Hr & _ & Hc & _); [done|apply ex_user_regs| |].
  - split; [done|lia|change (0x9000 + 24) with 0x9018|change (0x9000 + 32) with 0x9020|lia]; cbn [ex_timer h_mem].
    + by rewrite ld64_st64_ne, ld64_st64_eq by lia.
    + by rewrite ld64_st64_eq by lia.
  - exists h'. split_and!; [done|apply (Hr a1)|]. rewrite Hc. cbn [ex_timer h_mem]. by rewrite !ld64_st64_ne, ld64_st64_eq by lia.
Defined.
End Asm.
