(* ===== verification/Boot.v ===== *)
(** Start of the machine: src/kernel/start.c in machine mode, the initialisation of a
    hart in supervisor mode ([kvminithart], [trapinithart], src/kernel/plic.c), and the
    order of src/kernel/main.c on all harts. *)

From S2P Require Import Prelude Machine Str Types Proc Rely Sleeplock Kalloc Vm Bio Bytes Log Fs Dir Vma Pipe File ProcLife Exec Sysargs Sysfile Sysproc Trap Asm.
Import Asm.

(** ** start.c *)

(** The addresses that the linker gives to [main], [timervec], [kernelvec], the array
    [timer_scratch] and the stacks. *)
Record layout : Type := mkLayout { ad_main : Z; ad_timervec : Z; ad_kernelvec : Z; ad_scratch : Z; ad_stack0 : Z }.

Abbreviation H := (M hart).
Definition r_csr (c : csr) : H Z := gets (csr_read c).
Definition w_csr (c : csr) (v : Z) : H unit := modify (csr_write c v).
Definition load_at (a : Z) : H Z := gets (λ h, ld64 (h_mem h) a).
Definition store_at (a v : Z) : H unit := modify (λ h, set_hmem (st64 (h_mem h) a v) h).

Definition MSTATUS_MPP_MASK : Z := Z.shiftl 3 11.
Definition MSTATUS_MPP_S : Z := Z.shiftl 1 11.
Definition MSTATUS_MIE : Z := Z.shiftl 1 3.
Definition MIE_MTIE : Z := Z.shiftl 1 7.
Definition SIE_SEIE : Z := Z.shiftl 1 9.
Definition SIE_STIE : Z := Z.shiftl 1 5.
Definition SIE_SSIE : Z := Z.shiftl 1 1.
Definition CLINT : Z := 0x2000000.
Definition CLINT_MTIMECMP (hartid : Z) : Z := CLINT + 0x4000 + 8 * hartid.
Definition CLINT_MTIME : Z := CLINT + 0xBFF8.

Section boot.
Variable L : layout.

Definition timerinit : H unit :=
  id ← r_csr mhartid;
  let interval := 1000000 in
  mtime ← load_at CLINT_MTIME;
  store_at (CLINT_MTIMECMP id) (u64 (mtime + interval));;
  let scratch := ad_scratch L + 40 * id in
  store_at (scratch + 24) (CLINT_MTIMECMP id);;
  store_at (scratch + 32) interval;;
  w_csr mscratch scratch;;
  w_csr mtvec (ad_timervec L);;
  st ← r_csr mstatus; w_csr mstatus (Z.lor st MSTATUS_MIE);;
  ie ← r_csr mie; w_csr mie (Z.lor ie MIE_MTIE).

Definition start : H unit :=
  x ← r_csr mstatus;
  w_csr mstatus (Z.lor (Z.ldiff x MSTATUS_MPP_MASK) MSTATUS_MPP_S);;
  w_csr mepc (ad_main L);;
  w_csr satp 0;;
  w_csr medeleg 0xffff;;
  w_csr mideleg 0xffff;;
  ie ← r_csr sie; w_csr sie (Z.lor (Z.lor (Z.lor ie SIE_SEIE) SIE_STIE) SIE_SSIE);;
  w_csr pmpaddr0 0x3fffffffffffff;;
  w_csr pmpcfg0 0xf;;
  timerinit;;
  id ← r_csr mhartid;
  modify (set_reg tp id);;
  modify mret_.

(** ** A hart in supervisor mode *)

Definition kvminithart (kernel_pagetable : Z) : H unit := w_csr satp (MAKE_SATP kernel_pagetable).
Definition trapinithart : H unit := w_csr stvec (ad_kernelvec L).
Definition cpuid : H Z := gets (λ h, s32 (h_reg h tp)).

Definition PLIC_SENABLE (hart : Z) : Z := PLIC + 0x2080 + hart * 0x100.
Definition PLIC_SPRIORITY (hart : Z) : Z := PLIC + 0x201000 + hart * 0x2000.
Definition PLIC_SCLAIM (hart : Z) : Z := PLIC + 0x201004 + hart * 0x2000.
Definition store32 (a v : Z) : H unit := modify (λ h, set_hmem (st32 (h_mem h) a v) h).

Definition plicinit : H unit :=
  store32 (PLIC + UART0_IRQ * 4) 1;;
  store32 (PLIC + VIRTIO0_IRQ * 4) 1.
Definition plicinithart : H unit :=
  hart ← cpuid;
  store32 (PLIC_SENABLE hart) (Z.lor (Z.shiftl 1 UART0_IRQ) (Z.shiftl 1 VIRTIO0_IRQ));;
  store32 (PLIC_SPRIORITY hart) 0.
Definition plic_claim : H Z := hart ← cpuid; gets (λ h, s32 (ld32 (h_mem h) (PLIC_SCLAIM hart))).
Definition plic_complete (irq : Z) : H unit := hart ← cpuid; store32 (PLIC_SCLAIM hart) (u32 irq).

(** ** Correctness *)

(** What a hart is after start: in supervisor mode at [main], without paging, with
    every trap and interrupt of lower modes delegated, its number in [tp], and the
    timer armed so that [timervec] finds what it needs. *)
Record started_hart (t : Z) (h : hart) : Prop := {
  sh_priv : h_priv h = Supervisor;
  sh_pc : h_pc h = ad_main L;
  sh_satp : h_csr h satp = 0;
  sh_deleg : h_csr h medeleg = 0xffff ∧ h_csr h mideleg = 0xffff;
  sh_sie : csr_read sie h = Z.land (csr_read sie h) 0xffff ∧ Z.testbit (csr_read sie h) 9 = true ∧ Z.testbit (csr_read sie h) 5 = true ∧ Z.testbit (csr_read sie h) 1 = true;
  sh_mtie : Z.testbit (h_csr h mie) 7 = true;
  sh_tp : h_reg h tp = h_csr h mhartid;
  sh_mtvec : h_csr h mtvec = ad_timervec L;
  sh_timer : timer_area h (ad_scratch L + 40 * h_csr h mhartid) (CLINT_MTIMECMP (h_csr h mhartid)) 1000000;
  sh_cmp : ld64 (h_mem h) (CLINT_MTIMECMP (h_csr h mhartid)) = u64 (t + 1000000) }.

(** The mode that [start] leaves in [mstatus] for [mret]. *)
Lemma mpp_supervisor x : Z.land (Z.shiftr (Z.lor (Z.lor (Z.ldiff x MSTATUS_MPP_MASK) MSTATUS_MPP_S) MSTATUS_MIE) 11) 3 = 1.
Proof.
  apply Z.bits_inj'. intros n Hn. rewrite Z.land_spec, Z.shiftr_spec, !Z.lor_spec, Z.ldiff_spec by done.
  assert (n = 0 ∨ n = 1 ∨ 2 ≤ n) as [->|[->|Hn2]] by lia; [by cbn; rewrite orb_true_r|by cbn; rewrite andb_false_r|].
  rewrite (Z.bits_above_log2 3 n), (Z.bits_above_log2 1 n) by (cbn; lia). apply andb_false_r.
Qed.

Record layout_ok : Prop := {
  lo_scratch : KERNBASE ≤ ad_scratch L ∧ ad_scratch L + 40 * NCPU ≤ 2 ^ 64;
  lo_stack : 0 ≤ ad_stack0 L ∧ ad_stack0 L + 4096 * NCPU < 2 ^ 64 }.

Lemma timerinit_run h : let id := h_csr h mhartid in let sc := ad_scratch L + 40 * id in let cmp := CLINT_MTIMECMP id in
  ∃ h', timerinit h = Ok tt h' ∧
    h_mem h' = st64 (st64 (st64 (h_mem h) cmp (u64 (ld64 (h_mem h) CLINT_MTIME + 1000000))) (sc + 24) cmp) (sc + 32) 1000000 ∧
    h_csr h' mscratch = sc ∧ h_csr h' mtvec = ad_timervec L ∧ h_csr h' mstatus = Z.lor (h_csr h mstatus) MSTATUS_MIE ∧ h_csr h' mie = Z.lor (h_csr h mie) MIE_MTIE ∧
    h_reg h' = h_reg h ∧ ∀ c, c ∉ [mscratch; mtvec; mstatus; mie] → h_csr h' c = h_csr h c.
Proof.
  cbn zeta. eexists. split; [cbv [timerinit r_csr w_csr load_at store_at gets modify mbind M_bind obind]; reflexivity|]. do 6 (split; [reflexivity|]). intros c Hc.
  destruct c; first [reflexivity|exfalso; apply Hc; repeat (left || right)].
Qed.

(** The part of [start] before [timerinit]. *)
Lemma start_run h : let ie := Z.lor (Z.lor (Z.lor (Z.land (h_csr h mie) 0xffff) SIE_SEIE) SIE_STIE) SIE_SSIE in
  ∃ h', start h = (timerinit;; id ← r_csr mhartid; modify (set_reg tp id);; modify mret_) h' ∧
    h_mem h' = h_mem h ∧ h_reg h' = h_reg h ∧ h_csr h' mhartid = h_csr h mhartid ∧ h_csr h' mepc = ad_main L ∧ h_csr h' satp = 0 ∧
    h_csr h' medeleg = 0xffff ∧ h_csr h' mideleg = 0xffff ∧ h_csr h' mie = Z.lor (Z.ldiff (h_csr h mie) 0xffff) (Z.land ie 0xffff) ∧
    h_csr h' mstatus = Z.lor (Z.ldiff (h_csr h mstatus) MSTATUS_MPP_MASK) MSTATUS_MPP_S.
Proof. cbn zeta. eexists. split; [cbv [start]; reflexivity|]. split_and!; reflexivity. Qed.

(** From reset to [main]: [_entry] gives every hart its own stack in [stack0], and
    [start] leaves the hart as [started_hart] says. *)
Theorem boot_hart xlat h : layout_ok → h_priv h = Machine → 0 ≤ h_csr h mhartid < NCPU →
  ∃ h1 h2, steps xlat (_entry (ad_stack0 L)) h = Some h1 ∧ start h1 = Ok tt h2 ∧
    h_reg h2 sp = ad_stack0 L + 4096 * (h_csr h mhartid + 1) ∧ h_csr h2 mhartid = h_csr h mhartid ∧ started_hart (ld64 (h_mem h) CLINT_MTIME) h2.
Proof.
  intros [Hs Hk] Hp Hid. set (id := h_csr h mhartid) in *. unfold KERNBASE, NCPU in *.
  assert (∃ h1, steps xlat (_entry (ad_stack0 L)) h = Some h1 ∧ h_mem h1 = h_mem h ∧ h_csr h1 = h_csr h ∧ h_reg h1 sp = u64 (ad_stack0 L + u64 (4096 * u64 (id + 1)))) as (h1 & E1 & M1 & C1 & R1).
  { eexists. split; [reflexivity|]. by split_and!. }
  destruct (start_run h1) as (h2 & E2 & M2 & R2 & Ci & Ce & Cs & Cd & Cd' & Cie & Cst). destruct (timerinit_run h2) as (h3 & E3 & M3 & T1 & T2 & T3 & T4 & R3 & T5).
  rewrite (seq_ok _ _ _ _ E3) in E2. rewrite M2, M1, Ci, C1 in M3. rewrite Ci, C1 in T1. rewrite Cst, C1 in T3. rewrite Cie, C1 in T4. fold id in M3, T1.
  assert (h_csr h3 mhartid = id ∧ h_csr h3 mepc = ad_main L ∧ h_csr h3 satp = 0 ∧ h_csr h3 medeleg = 0xffff ∧ h_csr h3 mideleg = 0xffff) as (Fi & Fe & Fs & Fd & Fd').
  { rewrite !T5 by (apply (bool_decide_unpack (_ ∉ [mscratch; mtvec; mstatus; mie])); by vm_compute). by rewrite Ci, Ce, Cs, Cd, Cd', C1. }
  set (sc := ad_scratch L + 40 * id) in *. set (cmp := CLINT_MTIMECMP id) in *.
  assert (cmp + 8 ≤ sc ∧ 0 ≤ cmp ∧ sc + 40 ≤ 2 ^ 64) as Hc by (unfold cmp, CLINT_MTIMECMP, CLINT, sc; lia).
  exists h1, (mret_ (set_reg tp (h_csr h3 mhartid) h3)). split_and!; [done|exact E2| |exact Fi|].
  - transitivity (h_reg h3 sp); [done|]. rewrite R3, R2, R1, (u64_small (id + 1)), (u64_small (4096 * (id + 1))), u64_small by lia. done.
  - set (h4 := mret_ _). assert (∀ c, c ≠ mstatus → h_csr h4 c = h_csr h3 c) as F4 by (intros c Hne; by apply set_ne).
    assert (csr_read sie h4 = Z.land (h_csr h3 mie) 0xffff) as Esie by (unfold csr_read; by rewrite !F4, Fd' by done).
    split; rewrite ?F4, ?Fi by done; fold sc cmp; try done.
    + transitivity (match Z.land (Z.shiftr (h_csr h3 mstatus) 11) 3 with 0 => User | 1 => Supervisor | _ => Machine end); [done|]. by rewrite T3, mpp_supervisor.
    + rewrite Esie, T4. split; [by rewrite <- Z.land_assoc|]. rewrite !Z.land_spec, !Z.lor_spec, !Z.land_spec, !Z.lor_spec. cbn. by rewrite !orb_true_r.
    + rewrite T4. by rewrite Z.lor_spec, orb_true_r.
    + change (h_mem h4) with (h_mem h3). split; rewrite ?F4 by done; [done|lia|..|lia]; change (h_mem h4) with (h_mem h3); rewrite M3.
      * by rewrite ld64_st64_ne, ld64_st64_eq by lia.
      * by rewrite ld64_st64_eq by lia.
    + change (h_mem h4) with (h_mem h3). rewrite M3, !(ld64_st64_ne _ _ cmp) by lia. apply ld64_st64_eq, u64_range.
Qed.
End boot.

(** ** main.c *)

(** The calls of [main], the store to [started] and the loop that waits for it. *)
Inductive action : Type :=
| Consoleinit | Printfinit | Banner | Kinit | Kvminit | Kvminithart | Procinit | Trapinit | Trapinithart | Plicinit | Plicinithart
| Binit | Iinit | Fileinit | Virtio_disk_init | Userinit | Set_started | Await_started | Scheduler.
#[global] Instance action_eq_dec : EqDecision action.
Proof. solve_decision. Defined.

(** What the first hart does before it sets [started]. *)
Definition init_once : list action :=
  [Consoleinit; Printfinit; Banner; Kinit; Kvminit; Kvminithart; Procinit; Trapinit; Trapinithart; Plicinit; Plicinithart;
   Binit; Iinit; Fileinit; Virtio_disk_init; Userinit].
Definition main (cpuid : nat) : list action :=
  match cpuid with
  | O => init_once ++ [Set_started; Scheduler]
  | S _ => [Await_started; Banner; Kvminithart; Trapinithart; Plicinithart; Scheduler]
  end.

(** The harts with what they still have to do, the flag, and the actions so far. *)
Record machine : Type := mkMachine { mc_todo : list (list action); mc_started : bool; mc_trace : list (nat * action) }.

Definition reset (n : nat) : machine := mkMachine (main <$> seq 0 n) false [].

(** A hart makes its next action; it waits while [started] is 0. *)
Inductive mstep : machine → machine → Prop :=
| ms_act todo b tr i a l :
    todo !! i = Some (a :: l) → (a = Await_started → b = true) →
    mstep (mkMachine todo b tr) (mkMachine (<[i := l]> todo) (b || bool_decide (a = Set_started)) (tr ++ [(i, a)])).

(** What hart [i] has done. *)
Definition done_by (i : nat) (tr : list (nat * action)) : list action := (filter (λ x, x.1 = i) tr).*2.

Lemma done_by_app i tr1 tr2 : done_by i (tr1 ++ tr2) = done_by i tr1 ++ done_by i tr2.
Proof. unfold done_by. by rewrite list.filter_app, fmap_app. Qed.

Lemma done_by_cons i j a tr : done_by i ((j, a) :: tr) = (if decide (j = i) then [a] else []) ++ done_by i tr.
Proof. unfold done_by. case_decide; [by rewrite filter_cons_True|by rewrite filter_cons_False]. Qed.

Lemma done_by_in i a tr : a ∈ done_by i tr → (i, a) ∈ tr.
Proof. intros ([j b] & -> & [Hj Hb]%list_elem_of_filter)%list_elem_of_fmap. cbn in Hj. by subst j. Qed.

(** Every hart is where its own actions have brought it, and [started] is set by the
    first hart only, after all of its initialisation. *)
Record boot_inv (n : nat) (s : machine) : Prop := {
  bi_len : length (mc_todo s) = n;
  bi_range i a : (i, a) ∈ mc_trace s → (i < n)%nat;
  bi_todo i l : mc_todo s !! i = Some l → done_by i (mc_trace s) ++ l = main i;
  bi_started : mc_started s = true ↔ Set_started ∈ done_by 0 (mc_trace s);
  bi_order tr1 i a tr2 : mc_trace s = tr1 ++ (S i, a) :: tr2 → Set_started ∈ done_by 0 tr1 }.

Lemma set_started_last l1 l2 : main 0 = l1 ++ l2 → Set_started ∈ l1 → init_once `prefix_of` l1.
Proof.
  intros E [k Hk]%list_elem_of_lookup. assert (k = 16%nat) as ->.
  { apply (NoDup_lookup (main 0) k 16 Set_started); [apply (bool_decide_unpack (NoDup (main 0))); by vm_compute|rewrite E; by apply lookup_app_l_Some|done]. }
  apply lookup_lt_Some in Hk. exists (drop 16 l1). rewrite <- (take_drop 16 l1) at 1. f_equal.
  transitivity (take 16 (main 0)); [by rewrite E, take_app_le by lia|done].
Qed.

Lemma boot_inv_reset n : boot_inv n (reset n).
Proof.
  split; cbn; [by rewrite length_fmap, length_seq|by intros ? ? ?%not_elem_of_nil| |by split; [|intros ?%not_elem_of_nil]|by intros [] ? ? ?].
  intros i l. rewrite list_lookup_fmap. by intros (j & [-> _]%lookup_seq & ->)%fmap_Some.
Qed.

Lemma boot_inv_step n s s' : mstep s s' → boot_inv n s → boot_inv n s'.
Proof.
  intros [todo b tr i a l Hi Ha] [Hlen Hrg Htodo Hst Hord]. cbn [mc_todo mc_trace mc_started] in *. pose proof (Htodo i _ Hi) as Hti. split; cbn [mc_todo mc_trace mc_started].
  - by rewrite length_insert.
  - intros j c [Hin|Hin]%elem_of_app; [by eapply Hrg|]. apply list_elem_of_singleton in Hin as [= -> ->]. apply lookup_lt_Some in Hi. lia.
  - intros j l'. rewrite done_by_app, done_by_cons. destruct (decide (i = j)) as [->|Hne].
    + rewrite list_lookup_insert_eq by (by eapply lookup_lt_Some). intros [= <-]. by rewrite <- app_assoc.
    + rewrite list_lookup_insert_ne by done. rewrite app_nil_r. apply Htodo.
  - rewrite done_by_app, done_by_cons, elem_of_app, orb_true_iff, bool_decide_eq_true, Hst, app_nil_r. apply or_iff_compat_l. split.
    + intros ->. destruct i as [|i]; [left|]. exfalso. assert (Set_started ∈ main (S i)) as H by (rewrite <- Hti; set_solver).
      by apply (bool_decide_pack (Set_started ∈ _)) in H.
    + case_decide; [by intros ->%list_elem_of_singleton|by intros ?%not_elem_of_nil].
  - intros tr1 j c tr2 E. destruct tr2 as [|x tr2 _] using rev_ind.
    + apply app_inj_tail in E as [-> [= -> ->]]. destruct (done_by (S j) tr1) as [|d ds] eqn:Ed.
      { cbn in Hti. injection Hti as -> _. apply Hst, Ha. done. }
      assert ((S j, d) ∈ tr1) as (tr3 & tr4 & Et)%list_elem_of_split by (apply done_by_in; rewrite Ed; left).
      specialize (Hord _ _ _ _ Et). rewrite Et, done_by_app, elem_of_app. by left.
    + rewrite app_comm_cons, app_assoc in E. apply app_inj_tail in E as [E _]. by apply (Hord tr1 j c tr2).
Qed.

Lemma boot_inv_reach n s : rtc mstep (reset n) s → boot_inv n s.
Proof. intros H. eapply (rtc_ind_r (boot_inv n)); [apply boot_inv_reset| |exact H]. intros s1 s2 _ Hst. by apply boot_inv_step. Qed.

(** [Scheduler] is the last action of a hart. *)
Lemma scheduler_last i l k : main i = l ++ Scheduler :: k →
  l = removelast (main i) ∧ Kvminithart ∈ l ∧ Trapinithart ∈ l ∧ Plicinithart ∈ l.
Proof.
  intros E. assert (NoDup (main i)) as Hnd by (destruct i; apply (bool_decide_unpack (NoDup _)); by vm_compute).
  assert (main i !! length l = Some Scheduler) as Hl by (rewrite E; apply list_lookup_middle; done).
  assert (main i !! pred (length (main i)) = Some Scheduler) as Hp by by destruct i.
  pose proof (NoDup_lookup _ _ _ _ Hnd Hl Hp) as Hk. assert (l = removelast (main i)) as ->.
  { transitivity (take (length l) (main i)); [by rewrite E, take_app_length|]. rewrite Hk. by destruct i. }
  destruct i; (split; [done|]); split_and!; apply (bool_decide_unpack (_ ∈ _)); by vm_compute.
Qed.


(** A hart that does not have to wait makes all its actions. *)
Lemma run_hart i l : ∀ todo b tr, todo !! i = Some l → Await_started ∉ l ∨ b = true →
  ∃ tr', rtc mstep (mkMachine todo b tr) (mkMachine (<[i := []]> todo) (b || bool_decide (Set_started ∈ l)) tr').
Proof.
  induction l as [|a l IH]; intros todo b tr Hi Hw.
  - exists tr. rewrite list_insert_id, orb_false_r by done. reflexivity.
  - destruct (IH (<[i := l]> todo) (b || bool_decide (a = Set_started)) (tr ++ [(i, a)])) as [tr' H].
    + rewrite list_lookup_insert_eq by (by eapply lookup_lt_Some). done.
    + destruct Hw as [Hw| ->]; [left; set_solver|by right].
    + exists tr'. eapply rtc_l; [apply (ms_act _ _ _ i a l Hi)|].
      { intros ->. destruct Hw as [Hw|]; [set_solver|done]. }
      rewrite list_insert_insert_eq, <- orb_assoc in H. replace (bool_decide (Set_started ∈ a :: l)) with (bool_decide (a = Set_started) || bool_decide (Set_started ∈ l)); [done|].
      apply eq_bool_prop_intro. rewrite orb_True, !bool_decide_spec, elem_of_cons. naive_solver.
Qed.

(** The start cannot get stuck: from every state that can be reached, all harts can
    enter the scheduler. *)
Theorem boot_progress n s : (0 < n)%nat → rtc mstep (reset n) s → ∃ s', rtc mstep s s' ∧ length (mc_todo s') = n ∧ Forall (λ l, l = []) (mc_todo s').
Proof.
  intros Hn [Hlen _ Htodo Hst _]%boot_inv_reach. destruct s as [todo b tr]. cbn [mc_todo mc_trace mc_started] in *.
  destruct (lookup_lt_is_Some_2 todo 0) as [l0 H0]; [lia|]. pose proof (Htodo 0%nat l0 H0) as E0.
  assert (Await_started ∉ l0) as Hw by (intros H; assert (Await_started ∈ main 0) as H' by (rewrite <- E0; set_solver); by apply (bool_decide_pack (Await_started ∈ _)) in H').
  destruct (run_hart 0 l0 todo b tr H0 (or_introl Hw)) as [tr1 H1].
  assert (b || bool_decide (Set_started ∈ l0) = true) as Hb.
  { apply orb_true_iff. rewrite Hst, bool_decide_eq_true, <- elem_of_app, E0. apply (bool_decide_unpack (Set_started ∈ main 0)). by vm_compute. }
  rewrite Hb in H1. assert (∀ k, (k ≤ n)%nat → ∃ todo' tr', rtc mstep (mkMachine (<[0%nat := []]> todo) true tr1) (mkMachine todo' true tr') ∧
    length todo' = n ∧ ∀ j, (j < k)%nat → todo' !! j = Some []) as H.
  { induction k as [|k IH]; intros Hk; [exists (<[0%nat := []]> todo), tr1; split_and!; [reflexivity|by rewrite length_insert|lia]|].
    destruct IH as (todo' & tr' & Hr & Hl & Hj); [lia|]. destruct (lookup_lt_is_Some_2 todo' k) as [l Hlk]; [lia|].
    destruct (run_hart k l todo' true tr' Hlk (or_intror eq_refl)) as [tr2 H2]. exists (<[k := []]> todo'), tr2. split_and!; [by etransitivity|by rewrite length_insert|].
    intros j Hj'. destruct (decide (j = k)) as [->|]; [rewrite list_lookup_insert_eq by lia; done|rewrite list_lookup_insert_ne by done; apply Hj; lia]. }
  destruct (H n (le_n n)) as (todo' & tr' & Hr & Hl & Hj). exists (mkMachine todo' true tr'). split_and!; [by etransitivity|done|].
  apply list.Forall_lookup. intros j l Hl'. cbn in *. apply lookup_lt_Some in Hl' as ?. rewrite Hj in Hl' by lia. by injection Hl' as <-.
Qed.

(** ** Instances *)

Definition ex_layout : layout := mkLayout 0x80001000 0x80002000 0x80003000 0x80009000 0x8000a000.
Definition ex_hart : hart := mkHart (λ _, 0) (λ c, match c with mhartid => 2 | _ => 0 end) ∅ Machine 0x80000000.

Lemma boot_hart_witness : ∃ h1 h2, steps (λ _ va, Some va) (_entry 0x8000a000) ex_hart = Some h1 ∧ start ex_layout h1 = Ok tt h2 ∧ h_reg h2 sp = 0x8000d000 ∧ h_priv h2 = Supervisor.
Proof.
  destruct (boot_hart ex_layout (λ _ va, Some va) ex_hart) as (h1 & h2 & E1 & E2 & Hsp & _ & [Hp _ _ _ _ _ _ _ _ _]); [by split|done|done|].
  by exists h1, h2.
Defined.

(** The actions of the harts in a given order. *)
Definition act (i : nat) (s : machine) : option machine :=
  match mc_todo s !! i with
  | Some (a :: l) =>
      if bool_decide (a = Await_started) && negb (mc_started s) then None
      else Some (mkMachine (<[i := l]> (mc_todo s)) (mc_started s || bool_decide (a = Set_started)) (mc_trace s ++ [(i, a)]))
  | _ => None
  end.
Fixpoint acts (l : list nat) (s : machine) : option machine :=
  match l with [] => Some s | i :: l' => s' ← act i s; acts l' s' end.

Lemma acts_steps hs : ∀ s s', acts hs s = Some s' → rtc mstep s s'.
Proof.
  induction hs as [|i hs IH]; intros s s' E; [injection E as <-; reflexivity|]. cbn in E. destruct (act i s) as [s1|] eqn:E1; [|done].
  eapply rtc_l; [|by apply IH]. unfold act in E1. destruct s as [todo b tr]. cbn in E1. destruct (todo !! i) as [[|a l]|] eqn:Ei; try done.
  destruct (bool_decide (a = Await_started) && negb b) eqn:Eb; [done|]. injection E1 as <-. apply ms_act; [done|]. intros ->. by destruct b.
Qed.

(** Two harts: the second one starts when the first one has set the flag. *)
Definition ex_boot_trace : list (nat * action) :=
  ((λ a, (0%nat, a)) <$> init_once) ++ [(0%nat, Set_started); (1%nat, Await_started); (1%nat, Banner); (1%nat, Kvminithart); (1%nat, Trapinithart);
    (1%nat, Plicinithart); (1%nat, Scheduler); (0%nat, Scheduler)].

Lemma ex_boot_run : ∃ s, rtc mstep (reset 2) s ∧ mc_trace s = ex_boot_trace.
Proof.
  destruct (acts (ex_boot_trace.*1) (reset 2)) as [s|] eqn:E; [|by vm_compute in E]. exists s. split; [by eapply acts_steps|].
  vm_compute in E. by injection E as <-.
Qed.


Lemma boot_progress_witness : ∃ s', rtc mstep (reset 2) s' ∧ Forall (λ l, l = []) (mc_todo s').
Proof. destruct (boot_progress 2 (reset 2)) as (s' & H & _ & Hf); [lia|reflexivity|]. by exists s'. Defined.
