(* ===== verification/Uspace.v ===== *)
(** Between the kernel and user space: [usertrapret] of src/kernel/trap.c with
    [userret] and [uservec] of src/kernel/trampoline.S, and [forkret] of
    src/kernel/proc.c.  The C code and the assembly meet in the trapframe. *)

From S2P Require Import Prelude Machine Str Types Proc ProcSpec Rely Sleeplock Kalloc Vm Bio Bytes Log Fs Dir Vma Pipe File ProcLife Exec Sysargs Sysfile Sysproc Trap Asm.
Import Asm.

(** A new process starts here; [first] is the static variable of the function. *)
Definition forkret `{D : Disk} `{W : Waits} (first : bool) (sstatus satp tp usertrap_addr : Z) : K uregs :=
  (if first then fsinit ROOTDEV else mret tt);;
  usertrapret sstatus satp tp usertrap_addr.

(** The memory that [usertrapret] leaves. *)
Definition kernel_words (m : memory) (tf satp_ sp_ trap_ hartid : Z) : memory :=
  st64 (st64 (st64 (st64 m (tf + 0) satp_) (tf + 8) sp_) (tf + 16) trap_) (tf + 32) hartid.

Lemma tf_set_ok s p tf off v : p_trapframe (proc_at s p) = tf → tf ≠ 0 → tf_set p off v s = Ok tt (set_mem (st64 (k_mem s) (tf + off) (u64 v)) s).
Proof. intros <- H. unfold tf_set. rewrite (bind_ok (getp p) _ s (proc_at s p) s) by done. by rewrite (proj2 (Z.eqb_neq _ _) H). Qed.

Lemma tf_get_ok s p tf off : p_trapframe (proc_at s p) = tf → tf ≠ 0 → tf_get p off s = Ok (ld64 (k_mem s) (tf + off)) s.
Proof. intros <- H. unfold tf_get. rewrite (bind_ok (getp p) _ s (proc_at s p) s) by done. by rewrite (proj2 (Z.eqb_neq _ _) H). Qed.

Lemma usertrapret_run s p sstatus satp_ tp_ ut : k_cur s = Some p → p_trapframe (proc_at s p) ≠ 0 →
  let x := proc_at s p in let tf := p_trapframe x in
  usertrapret sstatus satp_ tp_ ut s =
    Ok (mkUregs (Z.lor (Z.land sstatus (u64 (Z.lnot SSTATUS_SPP))) SSTATUS_SPIE) (ld64 (k_mem s) (tf + 24)) (MAKE_SATP (p_pagetable x)))
      (set_mem (kernel_words (k_mem s) tf (u64 satp_) (u64 (p_kstack x + PGSIZE)) (u64 ut) (u64 tp_)) s).
Proof.
  intros Hc Ht. cbn zeta. set (x := proc_at s p) in *. set (tf := p_trapframe x) in *. unfold usertrapret.
  assert (curproc s = Ok p s) as E by (unfold curproc; rewrite (bind_ok myproc _ s (Some p) s); [done|unfold myproc, gets; by rewrite Hc]). rewrite (bind_ok _ _ _ _ _ E).
  rewrite (bind_ok (getp p) _ s x s) by done.
  do 4 (erewrite seq_ok; [|by apply (tf_set_ok _ p tf)]). erewrite bind_ok; [|by apply (tf_get_ok _ p tf)]. unfold mret. cbn [k_mem set_mem]. unfold TF_epc, TF_kernel_hartid, TF_kernel_trap, TF_kernel_sp.
  rewrite !(ld64_st64_ne _ _ (tf + 24)) by (unfold TF_kernel_satp; lia). reflexivity.
Qed.

Lemma kernel_words_out m tf v0 v1 v2 v3 a : a < tf ∨ tf + 24 ≤ a → a < tf + 32 ∨ tf + 40 ≤ a → ld8 (kernel_words m tf v0 v1 v2 v3) a = ld8 m a.
Proof. intros H1 H2. unfold kernel_words. by rewrite !ld8_st64_out by lia. Qed.

Lemma kernel_words_in m tf v0 v1 v2 v3 : 0 ≤ v0 < 2 ^ 64 → 0 ≤ v1 < 2 ^ 64 → 0 ≤ v2 < 2 ^ 64 → 0 ≤ v3 < 2 ^ 64 →
  let m' := kernel_words m tf v0 v1 v2 v3 in ld64 m' tf = v0 ∧ ld64 m' (tf + 8) = v1 ∧ ld64 m' (tf + 16) = v2 ∧ ld64 m' (tf + 32) = v3.
Proof.
  intros H0 H1 H2 H3. cbn zeta. assert (ld64 (kernel_words m tf v0 v1 v2 v3) (tf + 0) = v0) as E.
  { unfold kernel_words. by rewrite !(ld64_st64_ne _ _ (tf + 0)), ld64_st64_eq by lia. }
  rewrite Z.add_0_r in E. split; [done|]. unfold kernel_words. split_and!.
  - by rewrite !(ld64_st64_ne _ _ (tf + 8)), ld64_st64_eq by lia.
  - by rewrite !(ld64_st64_ne _ _ (tf + 16)), ld64_st64_eq by lia.
  - by rewrite ld64_st64_eq by lia.
Qed.

Lemma spp_clear x : Z.testbit (Z.lor (Z.land x (u64 (Z.lnot SSTATUS_SPP))) SSTATUS_SPIE) 8 = false.
Proof. rewrite Z.lor_spec, Z.land_spec. cbn. by rewrite andb_false_r. Qed.

Section uspace.
Variable xlat : Z → Z → option Z.
Context (s : kstate) (p : nat) (sstatus satp_ tp_ ut : Z).
Abbreviation x := (proc_at s p).
Abbreviation tf := (p_trapframe x).

End uspace.

(** A process with its trapframe at 0x87000000. *)
Definition ex_uspace : kstate := set_cur (Some 0%nat) (set_procs [set_trapframe 0x87000000 proc0] kstate0).
Definition ex_xlat (satp va : Z) : option Z := Some (0x87000000 + (va - TRAPFRAME)).
Definition ex_return (u : uregs) (m : memory) : hart :=
  mkHart (λ r, match r with a0 => u_satp u | _ => 0 end) (λ c, match c with sepc => u_sepc u | mstatus => u_sstatus u | _ => 0 end) m Supervisor 0.

