(* ===== verification/Progs.v ===== *)
(** The user programs src/user/cat.c, wc.c, echo.c, ls.c, kill.c, ln.c, mkdir.c,
    rm.c, settickets.c, getpinfo.c, zombie.c, init.c and initcode.S as interaction trees over the
    system calls.  C strings are lists of their bytes without the NUL; a buffer that
    a call fills is part of its answer. *)

From Stdlib Require Import Strings.Ascii Strings.String.
From ITree Require Import ITree.
From S2P Require Import Prelude Machine Str Bytes Types Ulib.

Module Progs.

(** ** System calls *)

Record ustat : Type := mkUstat { st_type : Z; st_ino : Z; st_size : Z }.

(** A row of [struct pstat]. *)
Record prow : Type := mkPinfo { ps_inuse : Z; ps_tickets : Z; ps_pid : Z; ps_ticks : Z }.

Inductive sysE : Type → Type :=
| Open (path : list Z) (mode : Z) : sysE Z
| Close (fd : Z) : sysE Z
| Read (fd n : Z) : sysE (Z * list Z)
| Write (fd : Z) (bs : list Z) : sysE Z
| Fstat (fd : Z) : sysE (Z * ustat)
| Dup (fd : Z) : sysE Z
| Mknod (path : list Z) (major minor : Z) : sysE Z
| Mkdir (path : list Z) : sysE Z
| Link (old new : list Z) : sysE Z
| Unlink (path : list Z) : sysE Z
| Kill (pid : Z) : sysE Z
| Sleep (n : Z) : sysE Z
| Settickets (n : Z) : sysE Z
| Getpinfo : sysE (Z * list prow)
| Fork : sysE Z
| Wait : sysE Z
| Exec (path : list Z) (argv : list (list Z)) : sysE Z
| Exit (status : Z) : sysE Empty_set.

Abbreviation prog := (itree sysE).

#[global] Instance prog_ret : MRet prog := λ A a, Ret a.
#[global] Instance prog_bind : MBind prog := λ A B f t, ITree.bind t f.
Definition sys {A} (e : sysE A) : prog A := ITree.trigger e.

Definition exit_ {A} (status : Z) : prog A := v ← sys (Exit status); match v : Empty_set with end.

(** ** The library *)

Definition bytes (s : string) : list Z := (λ a, Z.of_N (N_of_ascii a)) <$> list_ascii_of_string s.
Definition NL : list Z := [10].

(** [putc] for each of the bytes. *)
Fixpoint putcs (fd : Z) (bs : list Z) : prog unit :=
  match bs with [] => mret tt | c :: bs' => sys (Write fd [c]);; putcs fd bs' end.

(** Every call below has the arguments that its format asks for. *)
Definition fprintf (fd : Z) (fmt : list Z) (args : list Ulib.arg) : prog unit :=
  putcs fd (default [] (Ulib.fprintf fmt args)).
Definition uprintf : list Z → list Ulib.arg → prog unit := fprintf 1.
Abbreviation str s := (Ulib.AStr (Some s)).
Abbreviation num := Ulib.ANum.

Definition atoi (s : list Z) : Z := default 0 (Ulib.atoi (S (length s)) (st_bytes ∅ 0 (s ++ [0])) 0).

(** The bytes of a buffer up to the NUL. *)
Fixpoint cstr (bs : list Z) : list Z :=
  match bs with [] => [] | c :: bs' => if c =? 0 then [] else c :: cstr bs' end.

Definition stat_ (n : list Z) : prog (Z * ustat) :=
  fd ← sys (Open n 0);
  if fd <? 0 then mret (-1, mkUstat 0 0 0)
  else
    r ← sys (Fstat fd);
    _ ← sys (Close fd);
    mret r.

(** ** cat.c *)

Definition cat (fd : Z) : prog unit :=
  ITree.iter (λ _,
    '(n, buf) ← sys (Read fd 512);
    if n >? 0 then
      k ← sys (Write 1 (take (Z.to_nat n) buf));
      if negb (k =? n) then fprintf 2 (bytes "cat: write error" ++ NL) [];; exit_ 1
      else mret (inl tt)
    else if n <? 0 then fprintf 2 (bytes "cat: read error" ++ NL) [];; exit_ 1
    else mret (inr tt)) tt.

(** The loop over the arguments. *)
Fixpoint cat_args (args : list (list Z)) : prog unit :=
  match args with
  | [] => exit_ 0
  | a :: args' =>
      fd ← sys (Open a 0);
      if fd <? 0 then fprintf 2 (bytes "cat: cannot open %s" ++ NL) [str a];; exit_ 1
      else cat fd;; _ ← sys (Close fd); cat_args args'
  end.
Definition cat_main (argv : list (list Z)) : prog unit :=
  if (length argv <=? 1)%nat then cat 0;; exit_ 0 else cat_args (drop 1 argv).

(** ** wc.c *)

(** [strchr(" \r\t\n\v", c)] is not null. *)
Definition is_space (c : Z) : bool := existsb (Z.eqb c) [32; 13; 9; 10; 11].

Record counts : Type := mkCounts { wc_l : Z; wc_w : Z; wc_c : Z; wc_inword : bool }.

Definition wc_char (x : counts) (c : Z) : counts :=
  let l := if c =? 10 then s32 (wc_l x + 1) else wc_l x in
  if is_space c then mkCounts l (wc_w x) (s32 (wc_c x + 1)) false
  else mkCounts l (if wc_inword x then wc_w x else s32 (wc_w x + 1)) (s32 (wc_c x + 1)) true.

Definition wc_loop (fd : Z) (name : list Z) : counts → prog unit :=
  ITree.iter (λ x,
    '(n, buf) ← sys (Read fd 512);
    if n >? 0 then mret (inl (foldl wc_char x (take (Z.to_nat n) buf)))
    else if n <? 0 then uprintf (bytes "wc: read error" ++ NL) [];; exit_ 1
    else
      uprintf (bytes "%d %d %d %s" ++ NL) [num (wc_l x); num (wc_w x); num (wc_c x); str name];;
      mret (inr tt)).
Definition wc (fd : Z) (name : list Z) : prog unit := wc_loop fd name (mkCounts 0 0 0 false).

Fixpoint wc_args (args : list (list Z)) : prog unit :=
  match args with
  | [] => exit_ 0
  | a :: args' =>
      fd ← sys (Open a 0);
      if fd <? 0 then uprintf (bytes "wc: cannot open %s" ++ NL) [str a];; exit_ 1
      else wc fd a;; _ ← sys (Close fd); wc_args args'
  end.
Definition wc_main (argv : list (list Z)) : prog unit :=
  if (length argv <=? 1)%nat then wc 0 [];; exit_ 0 else wc_args (drop 1 argv).

(** ** echo.c *)

Fixpoint echo_args (args : list (list Z)) : prog unit :=
  match args with
  | [] => exit_ 0
  | a :: args' =>
      _ ← sys (Write 1 a);
      _ ← sys (Write 1 (match args' with [] => [10] | _ => [32] end));
      echo_args args'
  end.
Definition echo_main (argv : list (list Z)) : prog unit := echo_args (drop 1 argv).

(** ** ls.c *)

Definition dirsiz : nat := 14.

(** The loop [for(p=path+strlen(path); p >= path && *p != '/'; p--)]; [n] is [p - path + 1]. *)
Fixpoint last_slash (path : list Z) (n : nat) : nat :=
  match n with
  | O => O
  | S n' => if default 0 (path !! n') =? 47 then n else last_slash path n'
  end.
Definition fmtname (path : list Z) : list Z :=
  let p := drop (last_slash path (S (length path))) path in
  if (dirsiz <=? length p)%nat then p
  else p ++ replicate (dirsiz - length p) 32.

(** The loop over the directory. *)
Definition ls_dir (fd : Z) (path : list Z) : prog unit :=
  ITree.iter (λ _,
    '(n, de) ← sys (Read fd 16);
    if negb (n =? 16) then mret (inr tt)
    else if get16 0 de =? 0 then mret (inl tt)
    else
      let buf := path ++ [47] ++ cstr (take dirsiz (drop 2 de)) in
      '(r, st) ← stat_ buf;
      if r <? 0 then uprintf (bytes "ls: cannot stat %s" ++ NL) [str buf];; mret (inl tt)
      else
        uprintf (bytes "%s %d %d %d" ++ NL) [str (fmtname buf); num (st_type st); num (st_ino st); num (st_size st)];;
        mret (inl tt)) tt.

Definition ls (path : list Z) : prog unit :=
  fd ← sys (Open path 0);
  if fd <? 0 then fprintf 2 (bytes "ls: cannot open %s" ++ NL) [str path]
  else
    '(r, st) ← sys (Fstat fd);
    if r <? 0 then fprintf 2 (bytes "ls: cannot stat %s" ++ NL) [str path];; _ ← sys (Close fd); mret tt
    else
      (if (st_type st =? 3) || (st_type st =? 2) then
         uprintf (bytes "%s %d %d %l" ++ NL) [str (fmtname path); num (st_type st); num (st_ino st); num (st_size st)]
       else if st_type st =? 1 then
         if (512 <? length path + 1 + dirsiz + 1)%nat then uprintf (bytes "ls: path too long" ++ NL) []
         else ls_dir fd path
       else mret tt);;
      _ ← sys (Close fd); mret tt.

Fixpoint ls_args (args : list (list Z)) : prog unit :=
  match args with [] => exit_ 0 | a :: args' => ls a;; ls_args args' end.
Definition ls_main (argv : list (list Z)) : prog unit :=
  if (length argv <? 2)%nat then ls (bytes ".");; exit_ 0 else ls_args (drop 1 argv).

(** ** kill.c, ln.c, mkdir.c, rm.c, settickets.c, zombie.c *)

Fixpoint kill_args (args : list (list Z)) : prog unit :=
  match args with [] => exit_ 0 | a :: args' => _ ← sys (Kill (atoi a)); kill_args args' end.
Definition kill_main (argv : list (list Z)) : prog unit :=
  if (length argv <? 2)%nat then fprintf 2 (bytes "usage: kill pid..." ++ NL) [];; exit_ 1 else kill_args (drop 1 argv).

Definition ln_main (argv : list (list Z)) : prog unit :=
  match argv with
  | [_; old; new] =>
      r ← sys (Link old new);
      (if r <? 0 then fprintf 2 (bytes "link %s %s: failed" ++ NL) [str old; str new] else mret tt);;
      exit_ 0
  | _ => fprintf 2 (bytes "Usage: ln old new" ++ NL) [];; exit_ 1
  end.

(** The loop of mkdir.c and rm.c: stop at the first name that fails. *)
Fixpoint each_name (call : list Z → sysE Z) (msg : list Z) (args : list (list Z)) : prog unit :=
  match args with
  | [] => exit_ 0
  | a :: args' =>
      r ← sys (call a);
      if r <? 0 then fprintf 2 msg [str a];; exit_ 0 else each_name call msg args'
  end.
Definition mkdir_main (argv : list (list Z)) : prog unit :=
  if (length argv <? 2)%nat then fprintf 2 (bytes "Usage: mkdir files..." ++ NL) [];; exit_ 1
  else each_name Mkdir (bytes "mkdir: %s failed to create" ++ NL) (drop 1 argv).
Definition rm_main (argv : list (list Z)) : prog unit :=
  if (length argv <? 2)%nat then fprintf 2 (bytes "Usage: rm files..." ++ NL) [];; exit_ 1
  else each_name Unlink (bytes "rm: %s failed to delete" ++ NL) (drop 1 argv).

Definition settickets_main : prog unit :=
  fprintf 1 (bytes "calling settickets..." ++ NL) [];;
  ret ← sys (Settickets 10);
  fprintf 1 (bytes "returning from settickets with value %d" ++ NL) [num ret];;
  exit_ 0.

Definition zombie_main : prog unit :=
  pid ← sys Fork;
  (if pid >? 0 then _ ← sys (Sleep 5); mret tt else mret tt);;
  exit_ 0.

(** ** getpinfo.c *)

Definition NCHILDS : nat := 3.

(** The body of a child, with the int [i] of its loop kept at 32 bits. *)
Definition spin_loop (i b : Z) : prog Z :=
  ITree.iter (λ '(i, b),
    if i <? 9999999990 then mret (inl (s32 (i + 1), s32 (40 * 40 + i))) else mret (inr b)) (i, b).
Definition getpinfo_child (i : Z) : prog unit :=
  _ ← sys (Settickets (10 * (i + 1)));
  b ← spin_loop 0 0;
  fprintf 1 (bytes "%d" ++ NL) [num b];;
  exit_ 0.

(** The loop that starts the children; [n] are left to start. *)
Fixpoint start_children (n : nat) (pids : list Z) : prog (list Z) :=
  match n with
  | O => mret pids
  | S n' =>
      pid ← sys Fork;
      if pid =? -1 then fprintf 1 (bytes "perror(fork") [];; exit_ (-1)
      else if pid =? 0 then getpinfo_child (length pids);; start_children n' (pids ++ [pid])
      else start_children n' (pids ++ [pid])
  end.

(** The loop over the rows of the table, from row [i] on. *)
Fixpoint print_rows (fd i : Z) (rows : list prow) : prog unit :=
  match rows with
  | [] => mret tt
  | p :: rows' =>
      (if negb (ps_inuse p =? 0) then
         let endl := if ps_tickets p =? 30 then 10 else 59 in
         if Z.rem (ps_tickets p) 10 =? 0 then
           fprintf 1 (bytes "%d - Process: %d" ++ [9] ++ bytes "Tickets: %d" ++ [9] ++ bytes "Ticks: %d" ++ [9] ++ bytes "Used: %d" ++ NL)
             [num i; num (ps_pid p); num (ps_tickets p); num (ps_ticks p); num (ps_inuse p)];;
           fprintf fd (bytes "%d%c") [num (ps_ticks p); num endl]
         else mret tt
       else mret tt);;
      print_rows fd (i + 1) rows'
  end.

Fixpoint sample (n : nat) (fd : Z) : prog unit :=
  match n with
  | O => mret tt
  | S n' =>
      fprintf 1 ([9] ++ bytes "-------------------------" ++ NL) [];;
      '(ret, ps) ← sys Getpinfo;
      if ret <? 0 then fprintf 2 (bytes "getpinfo error" ++ NL) [];; exit_ 1
      else print_rows fd 0 ps;; _ ← sys (Sleep 100); sample n' fd
  end.

Fixpoint kill_all (pids : list Z) : prog unit :=
  match pids with [] => mret tt | p :: pids' => _ ← sys (Kill p); kill_all pids' end.

Definition getpinfo_main (argv : list (list Z)) : prog unit :=
  fprintf 1 (bytes "calling getpinfo..." ++ NL) [];;
  _ ← sys (Settickets 29);
  match argv with
  | [_; rows] =>
      pids ← start_children NCHILDS [];
      fd ← sys (Open (bytes "salida.csv") (Z.lor 0x200 0x001));
      if fd <? 0 then fprintf 2 (bytes "Cannot open file!.") [];; exit_ (-1)
      else
        fprintf fd (bytes "Process A;Process B;Process C" ++ NL) [];;
        sample (Z.to_nat (atoi rows)) fd;;
        kill_all pids;;
        fprintf 1 (bytes "Returning from getinfo.c with status 0!" ++ NL) [];;
        exit_ 0
  | _ =>
      fprintf 2 (bytes "USAGE: %s <rows_csv_file>" ++ NL) [Ulib.AStr (head argv)];;
      exit_ (-1)
  end.

(** ** init.c *)

Definition o_rdwr : Z := 2.
Definition console_major : Z := 1.

(** The inner loop: wait until the shell [pid] has ended. *)
Definition reap (pid : Z) : prog unit :=
  ITree.iter (λ _,
    wpid ← sys Wait;
    if wpid =? pid then mret (inr tt)
    else if wpid <? 0 then uprintf (bytes "init: wait returned an error" ++ NL) [];; exit_ 1
    else mret (inl tt)) tt.

Definition init_round : prog unit :=
  uprintf (bytes "init: starting sh" ++ NL) [];;
  pid ← sys Fork;
  if pid <? 0 then uprintf (bytes "init: fork failed" ++ NL) [];; exit_ 1
  else if pid =? 0 then
    _ ← sys (Exec (bytes "sh") [bytes "sh"]);
    uprintf (bytes "init: exec sh failed" ++ NL) [];;
    exit_ 1
  else reap pid.

Definition init_main : prog Empty_set :=
  fd ← sys (Open (bytes "console") o_rdwr);
  (if fd <? 0 then
     _ ← sys (Mknod (bytes "console") console_major 0);
     _ ← sys (Open (bytes "console") o_rdwr);
     mret tt
   else mret tt);;
  _ ← sys (Dup 0);
  _ ← sys (Dup 0);
  ITree.iter (λ _, init_round;; mret (inl tt)) tt.

(** ** initcode.S *)

(** The first code in user space; the status of [exit] is what [exec] returned. *)
Definition initcode : prog unit :=
  r ← sys (Exec (bytes "/init") [bytes "/init"]);
  exit_ r.

End Progs.
