(* ===== verification/ProgsSpec.v ===== *)
(** What the user programs do with the system calls as they are promised to
    processes: class [Kernel] states the promise on a view of the files, the open
    descriptors and the output.  The programs end with the output and the status that
    a function on the view gives, however the kernel splits reads and chooses
    descriptors.  [init] is shown to keep a shell running with a coinductive
    predicate. *)

From ITree Require Import ITree ITreeFacts Events.State Events.StateFacts.
From Paco Require Import paco.
From S2P Require Import Prelude Machine Str Bytes Types Ulib Progs.
Import Progs.

#[local] Arguments Ulib.fprintf : simpl never.
#[local] Arguments Ulib.printint : simpl never.

(** ** The promise of the kernel *)

Record ufile : Type := mkUfile { f_st : ustat; f_data : list Z }.

(** The files by name, the descriptors open for reading with what is left to read,
    what was written to the descriptors open for writing, and the other calls with
    their results. *)
Record view : Type := mkView {
  v_files : gmap (list Z) ufile;
  v_in : gmap Z ufile;
  v_out : gmap Z (list Z);
  v_log : list (sysE Z * Z) }.

Definition set_in (i : gmap Z ufile) (v : view) : view := mkView (v_files v) i (v_out v) (v_log v).
Definition put (fd : Z) (bs : list Z) (v : view) : view := mkView (v_files v) (v_in v) (alter (.++ bs) fd (v_out v)) (v_log v).
(** A call that may change the files but no descriptor. *)
Definition logged (e : sysE Z) (r : Z) (v v' : view) : Prop :=
  ∃ fs, v' = mkView fs (v_in v) (v_out v) (v_log v ++ [(e, r)]).

Definition returns (v : view) {T} (e : sysE T) : view → T → Prop :=
  match e in sysE T return view → T → Prop with
  | Open path mode => λ v' fd,
      mode = 0 →
      match v_files v !! path with
      | Some f => 0 ≤ fd ∧ v_in v !! fd = None ∧ v' = set_in (<[fd := f]> (v_in v)) v
      | None => fd < 0 ∧ v' = v
      end
  | Close fd => λ v' r, is_Some (v_in v !! fd) → v' = set_in (delete fd (v_in v)) v
  | Read fd n => λ v' r,
      0 < n →
      match v_in v !! fd with
      | Some f => ∃ k : nat, r = (Z.of_nat k, take k (f_data f)) ∧ k ≤ n ∧ (k ≤ length (f_data f))%nat ∧
          (k = 0%nat → f_data f = []) ∧ (st_type (f_st f) = 1 → Z.of_nat k = n `min` length (f_data f)) ∧
          v' = set_in (<[fd := mkUfile (f_st f) (drop k (f_data f))]> (v_in v)) v
      | None => r.1 < 0 ∧ v' = v
      end
  | Write fd bs => λ v' r,
      match v_out v !! fd with
      | Some _ => r = length bs ∧ v' = put fd bs v
      | None => r < 0 ∧ v' = v
      end
  | Fstat fd => λ v' r,
      match v_in v !! fd with
      | Some f => r = (0, f_st f) ∧ v' = v
      | None => r.1 < 0 ∧ v' = v
      end
  | Mkdir p => λ v' r, logged (Mkdir p) r v v'
  | Unlink p => λ v' r, logged (Unlink p) r v v'
  | Link o n => λ v' r, logged (Link o n) r v v'
  | Kill p => λ v' r, logged (Kill p) r v v'
  | Settickets n => λ v' r, logged (Settickets n) r v v'
  | _ => λ _ _, True
  end.

Lemma put_nil fd v : put fd [] v = v.
Proof. destruct v as [f i o l]. unfold put. cbn. f_equal. apply alter_id. intros x _. apply app_nil_r. Qed.

Lemma put_app fd b1 b2 v : put fd (b1 ++ b2) v = put fd b2 (put fd b1 v).
Proof.
  unfold put. cbn. f_equal. apply map_eq. intros d. destruct (decide (fd = d)) as [->|]; [|by rewrite !lookup_alter_ne by done]. rewrite !lookup_alter_eq.
  destruct (v_out v !! d); cbn; [|done]. by rewrite app_assoc.
Qed.

Lemma put_split fd k bs v : put fd bs v = put fd (drop k bs) (put fd (take k bs) v).
Proof. by rewrite <- put_app, take_drop. Qed.

Lemma put_none fd bs v : v_out v !! fd = None → put fd bs v = v.
Proof. intros E. destruct v as [f i o l]. unfold put. cbn in *. f_equal. apply alter_id. intros x Hx. by simplify_eq. Qed.

Lemma put_out fd bs v d : is_Some (v_out (put fd bs v) !! d) ↔ is_Some (v_out v !! d).
Proof. cbn. by rewrite lookup_alter_is_Some. Qed.

Definition ends {T} (e : sysE T) (n : Z) : Prop := match e with Exit m => n = m | _ => False end.

Class Kernel (S : Type) : Type := {
  abs : S → view;
  call : ∀ T, sysE T → S → (S * T) + Z;
  call_ok T (e : sysE T) s : match call T e s with
    | inl (s', r) => returns (abs s) e (abs s') r
    | inr n => ends e n
    end }.

(** ** Running a program *)

(** The end of a process, with the state it leaves and its status. *)
Inductive doneE (S : Type) : Type → Type := Done (s : S) (status : Z) : doneE S Empty_set.
Arguments Done {S}.

Section run.
Context {S : Type} `{K : Kernel S}.

Definition ended {A} (s : S) (n : Z) : itree (doneE S) A := ITree.bind (ITree.trigger (Done s n)) (λ v, match v : Empty_set with end).

Definition handler : sysE ~> Monads.stateT S (itree (doneE S)) :=
  λ T e s, match call T e s with inl r => Ret r | inr n => ended s n end.

Definition run {A} (p : prog A) (s : S) : itree (doneE S) (S * A) := interp_state handler p s.

(** The program ends: it returns with [Q], or the process exits with [X]. *)
Definition total {A} (p : prog A) (s : S) (Q : A → S → Prop) (X : Z → S → Prop) : Prop :=
  (∃ a s', run p s ≈ Ret (s', a) ∧ Q a s') ∨ (∃ s' n, run p s ≈ ended s' n ∧ X n s').

Lemma ended_bind {A B} s n (k : A → itree (doneE S) B) : ITree.bind (ended s n) k ≈ ended s n.
Proof. unfold ended. rewrite bind_bind. apply eqit_bind; [reflexivity|]. by intros []. Qed.

Lemma tot_ret {A} (a : A) s Q X : Q a s → total (mret a) s Q X.
Proof. intros H. left. exists a, s. split; [|done]. unfold run, mret, prog_ret. by rewrite interp_state_ret. Qed.

Lemma tot_bind {A B} (p : prog A) (k : A → prog B) s Q X : total p s (λ a s', total (k a) s' Q X) X → total (p ≫= k) s Q X.
Proof.
  unfold total at 1. intros [(a & s1 & E & [(b & s2 & E2 & H)|(s2 & n & E2 & H)])|(s1 & n & E & H)].
  - left. exists b, s2. split; [|done]. unfold run, mbind, prog_bind in *. by rewrite interp_state_bind, E, bind_ret_l.
  - right. exists s2, n. split; [|done]. unfold run, mbind, prog_bind in *. by rewrite interp_state_bind, E, bind_ret_l.
  - right. exists s1, n. split; [|done]. unfold run, mbind, prog_bind in *. by rewrite interp_state_bind, E, ended_bind.
Qed.

Lemma tot_sys {T} (e : sysE T) s Q X :
  (∀ n, ¬ ends e n) → (∀ r s', returns (abs s) e (abs s') r → Q r s') → total (sys e) s Q X.
Proof.
  intros He H. pose proof (call_ok T e s) as Hc. left. destruct (call T e s) as [[s' r]|n] eqn:E; [|by destruct (He n)].
  exists r, s'. split; [|by apply H]. unfold run, sys. rewrite interp_state_trigger. unfold handler. by rewrite E.
Qed.

Lemma tot_exit {A} n s (Q : A → S → Prop) X : X n s → total (exit_ n) s Q X.
Proof.
  intros H. pose proof (call_ok _ (Exit n) s) as Hc. right. exists s, n. split; [|done].
  unfold run, exit_, mbind, prog_bind, sys. rewrite interp_state_bind, interp_state_trigger. unfold handler.
  destruct (call _ (Exit n) s) as [[_ []]|m] eqn:E. cbn in Hc. subst m. by rewrite ended_bind.
Qed.

Lemma tot_eutt {A} (p q : prog A) s Q X : run p s ≈ run q s → total q s Q X → total p s Q X.
Proof. intros E [(a & s' & E' & H)|(s' & n & E' & H)]; [left|right]; do 2 eexists; (split; [by rewrite E|done]). Qed.

Lemma tot_iter {A I} (body : I → prog (I + A)) i s Q X :
  total (body i) s (λ x s', match x with inl i' => total (ITree.iter body i') s' Q X | inr a => Q a s' end) X →
  total (ITree.iter body i) s Q X.
Proof.
  intros H. assert (run (ITree.iter body i) s ≈ run (x ← body i; match x with inl i' => ITree.iter body i' | inr a => mret a end) s) as E.
  { unfold run. apply eutt_interp_state_eq; [|done]. unfold mbind, prog_bind. rewrite unfold_iter. apply eqit_bind; [reflexivity|].
    intros [j|a]; [by rewrite tau_eutt|reflexivity]. }
  apply (tot_eutt _ _ _ _ _ E), tot_bind. destruct H as [(x & s1 & E1 & H)|H]; [left|by right].
  exists x, s1. split; [done|]. destruct x; [done|by apply tot_ret].
Qed.

Lemma tot_mono {A} (p : prog A) s (Q Q' : A → S → Prop) (X X' : Z → S → Prop) :
  total p s Q X → (∀ a s', Q a s' → Q' a s') → (∀ n s', X n s' → X' n s') → total p s Q' X'.
Proof. intros [(a & s' & E & H)|(s' & n & E & H)] HQ HX; [left|right]; eauto 10. Qed.

Lemma tot_ended {A} (p : prog A) s n Φ : total p s (λ _ _, False) (λ m s', m = n ∧ Φ s') → ∃ s', run p s ≈ ended s' n ∧ Φ s'.
Proof. intros [(a & s' & _ & [])|(s' & m & E & -> & H)]. by exists s'. Qed.

(** Formatted output goes to the descriptor, if it is open. *)
Lemma tot_putcs fd bs X : ∀ s Q, (∀ s', abs s' = put fd bs (abs s) → Q tt s') → total (putcs fd bs) s Q X.
Proof.
  induction bs as [|c bs IH]; intros s Q H; cbn [putcs].
  - apply tot_ret, H. by rewrite put_nil.
  - apply tot_bind, tot_sys; [by intros ? []|]. intros r s1 H1. apply IH. intros s2 H2. apply H. rewrite H2. change (c :: bs) with ([c] ++ bs). rewrite put_app. f_equal.
    cbn in H1. destruct (v_out (abs s) !! fd) eqn:E; [apply H1|]. destruct H1 as [_ ->]. by rewrite put_none.
Qed.

Lemma tot_fprintf fd fmt args out s Q X :
  Ulib.fprintf fmt args = Some out → (∀ s', abs s' = put fd out (abs s) → Q tt s') → total (fprintf fd fmt args) s Q X.
Proof. intros E H. unfold fprintf. rewrite E. by apply tot_putcs. Qed.

Lemma tot_write fd bs s Q X : is_Some (v_out (abs s) !! fd) →
  (∀ s', abs s' = put fd bs (abs s) → Q (Z.of_nat (length bs)) s') → total (sys (Write fd bs)) s Q X.
Proof. intros [o E] H. apply tot_sys; [by intros ? []|]. cbn. rewrite E. intros r s' [-> Hs]. by apply H. Qed.

Lemma tot_open path s Q X :
  (∀ fd f s', v_files (abs s) !! path = Some f → 0 ≤ fd → v_in (abs s) !! fd = None → abs s' = set_in (<[fd := f]> (v_in (abs s))) (abs s) → Q fd s') →
  (∀ fd s', v_files (abs s) !! path = None → fd < 0 → abs s' = abs s → Q fd s') → total (sys (Open path 0)) s Q X.
Proof.
  intros H1 H2. apply tot_sys; [by intros ? []|]. cbn. intros r s' H. specialize (H eq_refl).
  destruct (v_files (abs s) !! path) as [f|] eqn:E; [destruct H as (? & ? & ?); by eapply H1|destruct H; by apply H2].
Qed.

Lemma tot_close fd s Q X : is_Some (v_in (abs s) !! fd) →
  (∀ r s', abs s' = set_in (delete fd (v_in (abs s))) (abs s) → Q r s') → total (sys (Close fd)) s Q X.
Proof. intros Hi H. apply tot_sys; [by intros ? []|]. cbn. intros r s' H'. apply H, H', Hi. Qed.

Lemma tot_read fd n f s Q X : 0 < n → v_in (abs s) !! fd = Some f →
  (∀ (k : nat) s', k ≤ n → (k ≤ length (f_data f))%nat → (k = 0%nat → f_data f = []) → (st_type (f_st f) = 1 → Z.of_nat k = n `min` length (f_data f)) →
     abs s' = set_in (<[fd := mkUfile (f_st f) (drop k (f_data f))]> (v_in (abs s))) (abs s) → Q (Z.of_nat k, take k (f_data f)) s') →
  total (sys (Read fd n)) s Q X.
Proof.
  intros Hn E H. apply tot_sys; [by intros ? []|]. cbn. rewrite E. intros r s' Hr. destruct (Hr Hn) as (k & -> & ? & ? & ? & ? & ?). by apply H.
Qed.

Lemma tot_read_closed fd n s Q X : 0 < n → v_in (abs s) !! fd = None →
  (∀ r bs s', r < 0 → abs s' = abs s → Q (r, bs) s') → total (sys (Read fd n)) s Q X.
Proof. intros Hn E H. apply tot_sys; [by intros ? []|]. cbn. rewrite E. intros [r bs] s' Hr. destruct (Hr Hn). by apply H. Qed.
End run.

(** ** cat *)

Definition cat_missing (a : list Z) : list Z := bytes "cat: cannot open " ++ a ++ NL.

(** The files in turn to descriptor 1; a file that cannot be opened ends the program. *)
Fixpoint cat_spec (v : view) (args : list (list Z)) : view * Z :=
  match args with
  | [] => (v, 0)
  | a :: args' =>
      match v_files v !! a with
      | Some f => cat_spec (put 1 (f_data f) v) args'
      | None => (put 2 (cat_missing a) v, 1)
      end
  end.

Definition cat_result (v : view) (args : list (list Z)) : view * Z :=
  match args with
  | [] =>
      match v_in v !! 0 with
      | Some f => (put 1 (f_data f) (set_in (<[0 := mkUfile (f_st f) []]> (v_in v)) v), 0)
      | None => (put 2 (bytes "cat: read error" ++ NL) v, 1)
      end
  | _ => cat_spec v args
  end.

Lemma insert_back {A} (m : gmap Z A) fd x y : m !! fd = None → delete fd (<[fd := y]> (<[fd := x]> m)) = m.
Proof. intros E. by rewrite insert_insert_eq, delete_insert_id. Qed.

(** ** wc *)

(** The pieces between white space. *)
Fixpoint pieces (s : list Z) : list (list Z) :=
  match s with
  | [] => [[]]
  | c :: s' =>
      if is_space c then [] :: pieces s'
      else match pieces s' with w :: ws => (c :: w) :: ws | [] => [] end
  end.
Definition words (s : list Z) : list (list Z) := filter (λ w, w ≠ []) (pieces s).
Definition newlines (s : list Z) : list Z := filter (λ c, c = 10) s.

(** The line for a file. *)
Definition wc_line (d name : list Z) : list Z :=
  Ulib.printint (length (newlines d)) 10 true ++ [32] ++ Ulib.printint (length (words d)) 10 true ++ [32] ++
  Ulib.printint (length d) 10 true ++ [32] ++ name ++ NL.

Fixpoint wc_spec (v : view) (args : list (list Z)) : view * Z :=
  match args with
  | [] => (v, 0)
  | a :: args' =>
      match v_files v !! a with
      | Some f => wc_spec (put 1 (wc_line (f_data f) a) v) args'
      | None => (put 1 (bytes "wc: cannot open " ++ a ++ NL) v, 1)
      end
  end.

Lemma pieces_cons s : ∃ w ws, pieces s = w :: ws.
Proof. induction s as [|c s (w & ws & E)]; cbn [pieces]; [by eexists _, _|]. rewrite E. destruct (is_space c); by eexists _, _. Qed.

(** The words that start in [s]: if the byte before [s] is in a word, then the
    first piece goes on with it. *)
Definition starts (inword : bool) (s : list Z) : list (list Z) :=
  filter (λ w, w ≠ []) (if inword then tail (pieces s) else pieces s).

Lemma wc_chars s : ∀ l w c b, 0 ≤ l ≤ c → 0 ≤ w ≤ c → c + length s < 2 ^ 31 →
  ∃ b', foldl wc_char (mkCounts l w c b) s = mkCounts (l + length (newlines s)) (w + length (starts b s)) (c + length s) b'.
Proof.
  induction s as [|x s IH]; intros l w c b Hl Hw Hc.
  - exists b. assert (starts b [] = []) as -> by by destruct b. cbn. f_equal; lia.
  - cbn [foldl length] in *. unfold wc_char at 2. cbn [wc_l wc_w wc_c wc_inword].
    assert (∀ y, 0 ≤ y ≤ c → s32 (y + 1) = y + 1) as Hs by (intros y Hy; apply s32_small; lia). rewrite !Hs by lia.
    assert (newlines (x :: s) = if x =? 10 then x :: newlines s else newlines s) as ->.
    { unfold newlines. destruct (Z.eqb_spec x 10); [by rewrite filter_cons_True|by rewrite filter_cons_False]. }
    destruct (pieces_cons s) as (p & ps & Ep). unfold starts. cbn [pieces]. rewrite Ep. destruct (is_space x) eqn:Ex.
    + edestruct (IH (if x =? 10 then l + 1 else l) w (c + 1) false) as [b' E]; [destruct (x =? 10); lia..|].
      exists b'. rewrite E. unfold starts. rewrite Ep. destruct b; cbn [tail]; [|rewrite (filter_cons_False _ []) by auto]; f_equal; destruct (x =? 10); cbn [length]; lia.
    + edestruct (IH (if x =? 10 then l + 1 else l) (if b then w else w + 1) (c + 1) true) as [b' E]; [destruct (x =? 10), b; lia..|].
      exists b'. rewrite E. unfold starts. rewrite Ep. destruct b; cbn [tail]; [|rewrite filter_cons_True by done]; f_equal; destruct (x =? 10); cbn [length]; lia.
Qed.

(** ** echo, mkdir, rm *)

Fixpoint echo_line (args : list (list Z)) : list Z :=
  match args with [] => [] | [a] => a ++ [10] | a :: args' => a ++ [32] ++ echo_line args' end.

(** The calls that were made: for the first [k] names, with the results [rs]; all
    succeeded, or the last one failed with a message. *)
Record names_done (call : list Z → sysE Z) (text : list Z → list Z) (args : list (list Z)) (k : nat) (rs : list Z) (v v' : view) : Prop := {
  nd_len : length rs = k;
  nd_log : v_log v' = v_log v ++ zip (call <$> take k args) rs;
  nd_last :
    (k = length args ∧ Forall (λ r, 0 ≤ r) rs ∧ v_out v' = v_out v) ∨
    (∃ oks r p, rs = oks ++ [r] ∧ Forall (λ r, 0 ≤ r) oks ∧ r < 0 ∧ args !! length oks = Some p ∧ v_out v' = v_out (put 2 (text p) v)) }.

(** ** ls *)

(** The entries of 16 bytes of a directory. *)
Definition dirents (d : list Z) : list (list Z) := (λ i, take 16 (drop (16 * i) d)) <$> seq 0 (length d / 16).

Lemma dirents_step d : dirents d = if decide (length d < 16)%nat then [] else take 16 d :: dirents (drop 16 d).
Proof.
  unfold dirents. case_decide; [by rewrite Nat.div_small|]. rewrite length_drop.
  replace (length d / 16)%nat with (S ((length d - 16) / 16)) by (replace (length d) with (length d - 16 + 1 * 16)%nat at 2 by lia; rewrite Nat.div_add by done; lia).
  cbn [seq]. rewrite fmap_cons. f_equal. rewrite <- fmap_S_seq, <- list_fmap_compose. apply list_fmap_ext. intros i x _. cbn [compose].
  rewrite drop_drop. do 2 f_equal. lia.
Qed.

Definition ls_line (name : list Z) (st : ustat) (sgn : bool) : list Z :=
  fmtname name ++ [32] ++ Ulib.printint (st_type st) 10 true ++ [32] ++ Ulib.printint (st_ino st) 10 true ++ [32] ++ Ulib.printint (st_size st) 10 sgn ++ NL.

(** What is printed for an entry. *)
Definition ls_entry (files : gmap (list Z) ufile) (path de : list Z) : list Z :=
  if get16 0 de =? 0 then []
  else
    let name := path ++ [47] ++ cstr (take dirsiz (drop 2 de)) in
    match files !! name with
    | Some f => ls_line name (f_st f) true
    | None => bytes "ls: cannot stat " ++ name ++ NL
    end.

Definition ls_spec (v : view) (path : list Z) : view :=
  match v_files v !! path with
  | None => put 2 (bytes "ls: cannot open " ++ path ++ NL) v
  | Some f =>
      if (st_type (f_st f) =? 3) || (st_type (f_st f) =? 2) then put 1 (ls_line path (f_st f) false) v
      else if st_type (f_st f) =? 1 then
        if (512 <? length path + 1 + dirsiz + 1)%nat then put 1 (bytes "ls: path too long" ++ NL) v
        else put 1 (concat (ls_entry (v_files v) path <$> dirents (f_data f))) v
      else v
  end.

Lemma last_slash_spec path : ∀ n, (n ≤ S (length path))%nat →
  (last_slash path n ≤ length path)%nat ∧ (∀ i, (last_slash path n ≤ i < n)%nat → path !! i ≠ Some 47) ∧
  (last_slash path n = 0%nat ∨ path !! pred (last_slash path n) = Some 47).
Proof.
  induction n as [|n IH]; intros Hn; cbn [last_slash]; [split_and!; [lia|lia|by left]|].
  destruct (Z.eqb_spec (default 0 (path !! n)) 47) as [E|E].
  - destruct (path !! n) as [c|] eqn:En; cbn in E; [subst c|done]. apply lookup_lt_Some in En as ?. split_and!; [lia|lia|by right].
  - destruct IH as (H1 & H2 & H3); [lia|]. split_and!; [done| |done]. intros i Hi. destruct (decide (i = n)) as [->|]; [|apply H2; lia].
    intros Ei. by rewrite Ei in E.
Qed.

(** [fmtname] gives the part of the path behind the last slash, filled with blanks
    to 14 characters. *)
Theorem fmtname_correct path : ∃ dir base, path = dir ++ base ∧ (47 ∉ base) ∧ (dir = [] ∨ (∃ d, dir = d ++ [47])) ∧
  fmtname path = base ++ replicate (dirsiz - length base) 32.
Proof.
  unfold fmtname. destruct (last_slash_spec path (S (length path))) as (H1 & H2 & H3); [done|]. set (n := last_slash _ _) in *.
  exists (take n path), (drop n path). split_and!; [by rewrite take_drop| | |].
  - intros [i Hi]%list_elem_of_lookup. rewrite lookup_drop in Hi. apply lookup_lt_Some in Hi as ?. apply (H2 (n + i)%nat); [lia|done].
  - destruct H3 as [->|H3]; [by left|]. destruct n as [|n]; [by left|]. right. exists (take n path). by apply take_S_r.
  - case_match eqn:E; [|done]. apply Nat.leb_le in E. replace (_ - _)%nat with 0%nat by lia. by rewrite app_nil_r.
Qed.

Section programs.
Context {S : Type} `{K : Kernel S}.

Lemma cat_run fd X : ∀ n f s Q, (length (f_data f) ≤ n)%nat → v_in (abs s) !! fd = Some f → is_Some (v_out (abs s) !! 1) →
  (∀ s', abs s' = put 1 (f_data f) (set_in (<[fd := mkUfile (f_st f) []]> (v_in (abs s))) (abs s)) → Q tt s') →
  total (cat fd) s Q X.
Proof.
  induction n as [n IH] using lt_wf_ind. intros [st d] s Q Hn Ef Ho H. cbn in *. unfold cat. apply tot_iter, tot_bind.
  eapply (tot_read fd 512 (mkUfile st d)); [lia|done|]. cbn [f_data f_st]. intros k s1 Hk Hkd H0 _ E1. destruct k as [|k].
  - apply tot_ret, H. rewrite (H0 eq_refl), put_nil, E1. by rewrite (H0 eq_refl).
  - rewrite (proj2 (Z.gtb_gt _ _)) by lia. rewrite Nat2Z.id, take_idemp.
    apply tot_bind, tot_write; [by rewrite E1|]. intros s2 E2. rewrite length_take_le by done.
    rewrite Z.eqb_refl. cbn [negb]. apply tot_ret. rewrite E1 in E2. fold (cat fd).
    apply (IH (n - Datatypes.S k)%nat ltac:(lia) (mkUfile st (drop (Datatypes.S k) d))); cbn [f_data f_st].
    + rewrite length_drop. lia.
    + rewrite E2. cbn. by rewrite lookup_insert_eq.
    + rewrite E2. by apply put_out.
    + intros s3 E3. apply H. rewrite E3, E2. cbn. rewrite insert_insert_eq. by rewrite (put_split 1 (Datatypes.S k) d).
Qed.

Lemma cat_args_run args X : ∀ s, is_Some (v_out (abs s) !! 1) →
  (∀ s', abs s' = (cat_spec (abs s) args).1 → X (cat_spec (abs s) args).2 s') → total (cat_args args) s (λ _ _, False) X.
Proof.
  induction args as [|a args IH]; intros s Ho H; cbn [cat_args]; [by apply tot_exit, H|]. cbn [cat_spec] in H.
  apply tot_bind, tot_open.
  - intros fd f s1 Ea Hfd Ef E1. rewrite Ea in H. rewrite (proj2 (Z.ltb_ge _ _)) by lia.
    apply tot_bind, (cat_run fd _ _ f) with (1 := le_n _); [rewrite E1; apply lookup_insert_eq|by rewrite E1|]. intros s2 E2.
    apply tot_bind, tot_close; [rewrite E2; cbn; rewrite lookup_insert_eq; by eexists|]. intros _ s3 E3.
    assert (abs s3 = put 1 (f_data f) (abs s)) as E.
    { rewrite E3, E2, E1. cbn. rewrite insert_back by done. by destruct (abs s). }
    apply IH; rewrite E; [by apply put_out|done].
  - intros fd s1 Ea Hfd E1. rewrite Ea in H. rewrite (proj2 (Z.ltb_lt _ _)) by lia.
    apply tot_bind, (tot_fprintf 2 _ _ (cat_missing a)); [done|]. intros s2 E2. rewrite E1 in E2. by apply tot_exit, H.
Qed.

(** cat writes the contents of its arguments, or of standard input, to descriptor 1
    and ends with status 0; at the first file that is missing it writes a message to
    descriptor 2 and ends with status 1. *)
Theorem cat_correct name args s : is_Some (v_out (abs s) !! 1) →
  ∃ s', run (cat_main (name :: args)) s ≈ ended s' (cat_result (abs s) args).2 ∧ abs s' = (cat_result (abs s) args).1.
Proof.
  intros Ho. unfold cat_main. destruct args as [|a args]; cbn [length Nat.leb drop]; apply tot_ended.
  - unfold cat_result. destruct (v_in (abs s) !! 0) as [f|] eqn:E.
    + apply tot_bind, (cat_run 0 _ _ f) with (1 := le_n _); [done..|]. intros s' E'. by apply tot_exit.
    + apply tot_bind, tot_iter, tot_bind, tot_read_closed; [done..|]. intros n bs s1 Hn E1.
      rewrite (proj2 (Z.ltb_lt _ _)) by done. replace (n >? 0) with false by lia.
      apply tot_bind, (tot_fprintf 2 _ _ (bytes "cat: read error" ++ NL)); [done|]. intros s2 E2. apply tot_exit. by rewrite E2, E1.
  - apply cat_args_run; auto.
Qed.

Lemma wc_loop_run fd name X : ∀ n f x s Q, (length (f_data f) ≤ n)%nat → v_in (abs s) !! fd = Some f →
  (∀ s' y, y = foldl wc_char x (f_data f) →
    abs s' = put 1 (default [] (Ulib.fprintf (bytes "%d %d %d %s" ++ NL) [num (wc_l y); num (wc_w y); num (wc_c y); str name]))
      (set_in (<[fd := mkUfile (f_st f) []]> (v_in (abs s))) (abs s)) → Q tt s') →
  total (wc_loop fd name x) s Q X.
Proof.
  induction n as [n IH] using lt_wf_ind. intros [st d] x s Q Hn Ef H. cbn [f_data f_st] in Hn, H. apply tot_iter, tot_bind.
  eapply (tot_read fd 512 (mkUfile st d)); [lia|done|]. cbn [f_data f_st]. intros k s1 Hk Hkd H0 _ E1. destruct k as [|k].
  - apply tot_bind, tot_putcs. intros s2 E2. apply tot_ret. apply (H s2 x); [by rewrite (H0 eq_refl)|]. rewrite E2, E1. by rewrite (H0 eq_refl).
  - rewrite (proj2 (Z.gtb_gt _ _)), Nat2Z.id, take_idemp by lia. apply tot_ret.
    apply (IH (n - Datatypes.S k)%nat ltac:(lia) (mkUfile st (drop (Datatypes.S k) d))); cbn [f_data f_st].
    + rewrite length_drop. lia.
    + rewrite E1. cbn. by rewrite lookup_insert_eq.
    + intros s3 y Hy E3. apply (H s3 y); [by rewrite Hy, <- foldl_app, take_drop|]. rewrite E3, E1. cbn. by rewrite insert_insert_eq.
Qed.

Lemma wc_run fd name f s Q X : v_in (abs s) !! fd = Some f → length (f_data f) < 2 ^ 31 →
  (∀ s', abs s' = put 1 (wc_line (f_data f) name) (set_in (<[fd := mkUfile (f_st f) []]> (v_in (abs s))) (abs s)) → Q tt s') →
  total (wc fd name) s Q X.
Proof.
  intros Ef Hl H. apply (wc_loop_run fd name X _ f _ s Q (le_n _) Ef). intros s' y Hy E. apply H. rewrite E.
  destruct (wc_chars (f_data f) 0 0 0 false) as [b Eb]; [lia..|]. by rewrite Hy, Eb.
Qed.

Lemma wc_args_run args X : ∀ s, (∀ a f, a ∈ args → v_files (abs s) !! a = Some f → length (f_data f) < 2 ^ 31) →
  (∀ s', abs s' = (wc_spec (abs s) args).1 → X (wc_spec (abs s) args).2 s') → total (wc_args args) s (λ _ _, False) X.
Proof.
  induction args as [|a args IH]; intros s Hl H; cbn [wc_args]; [by apply tot_exit, H|]. cbn [wc_spec] in H.
  apply tot_bind, tot_open.
  - intros fd f s1 Ea Hfd Ef E1. rewrite Ea in H. rewrite (proj2 (Z.ltb_ge _ _)) by lia.
    apply tot_bind, (wc_run fd _ f); [rewrite E1; apply lookup_insert_eq|apply (Hl a); [left|done]|]. intros s2 E2.
    apply tot_bind, tot_close; [rewrite E2; cbn; rewrite lookup_insert_eq; by eexists|]. intros _ s3 E3.
    assert (abs s3 = put 1 (wc_line (f_data f) a) (abs s)) as E.
    { rewrite E3, E2, E1. cbn. rewrite insert_back by done. by destruct (abs s). }
    apply IH; rewrite E; [|done]. intros a' f' Ha. apply Hl. by right.
  - intros fd s1 Ea Hfd E1. rewrite Ea in H. rewrite (proj2 (Z.ltb_lt _ _)) by lia.
    apply tot_bind, (tot_fprintf 1 _ _ (bytes "wc: cannot open " ++ a ++ NL)); [done|]. intros s2 E2. rewrite E1 in E2. by apply tot_exit, H.
Qed.

(** wc prints for every argument its numbers of newlines, of words and of bytes,
    where a word is a longest part without white space, however the reads split the
    files; files have fewer than 2^31 bytes. *)
Theorem wc_correct name args s : args ≠ [] → (∀ a f, a ∈ args → v_files (abs s) !! a = Some f → length (f_data f) < 2 ^ 31) →
  ∃ s', run (wc_main (name :: args)) s ≈ ended s' (wc_spec (abs s) args).2 ∧ abs s' = (wc_spec (abs s) args).1.
Proof.
  intros Hn Hl. unfold wc_main. destruct args as [|a args]; [done|]. cbn [length Nat.leb drop].
  apply tot_ended, wc_args_run; auto.
Qed.

(** echo writes its arguments with blanks between them and a newline at the end. *)
Theorem echo_correct name args s : is_Some (v_out (abs s) !! 1) →
  ∃ s', run (echo_main (name :: args)) s ≈ ended s' 0 ∧ abs s' = put 1 (echo_line args) (abs s).
Proof.
  intros Ho. apply tot_ended. unfold echo_main. cbn [drop]. revert s Ho. induction args as [|a args IH]; intros s Ho; cbn [echo_args].
  - apply tot_exit. split; [done|]. cbn. by rewrite put_nil.
  - apply tot_bind, tot_write; [done|]. intros s1 E1. apply tot_bind, tot_write; [rewrite E1; by apply put_out|]. intros s2 E2.
    eapply tot_mono; [apply IH; rewrite E2, E1; by do 2 apply put_out|done|].
    intros n s3 [-> E3]. split; [done|]. rewrite E3, E2, E1, <- !put_app. f_equal. destruct args; cbn; by rewrite <- ?app_assoc, ?app_nil_r.
Qed.

(** mkdir and rm make the call for one name after another and stop at the first
    that fails, with a message; the status is 0 all the same. *)
Lemma each_name_run (call : list Z → sysE Z) msg (text : list Z → list Z) args :
  (∀ p n, ¬ ends (call p) n) → (∀ v p v' r, returns v (call p) v' r → logged (call p) r v v') →
  (∀ p, Ulib.fprintf msg [str p] = Some (text p)) → ∀ s,
  total (each_name call msg args) s (λ _ _, False) (λ n s', n = 0 ∧ ∃ k rs, names_done call text args k rs (abs s) (abs s')).
Proof.
  intros Hend Hret Hmsg. induction args as [|a args IH]; intros s; cbn [each_name].
  - apply tot_exit. split; [done|]. exists 0%nat, []. split; cbn; [done|by rewrite app_nil_r|by left].
  - apply tot_bind, tot_sys; [by apply Hend|]. intros r s1 [fs E1]%Hret. destruct (Z.ltb_spec r 0).
    + apply tot_bind, (tot_fprintf 2 _ _ (text a)); [done|]. intros s2 E2. apply tot_exit. split; [done|].
      exists 1%nat, [r]. rewrite E2, E1. split; cbn; [done|done|]. right. exists [], r, a. by split_and!.
    + eapply tot_mono; [apply IH|done|]. intros n s2 [-> (k & rs & [Hlen Hlog Hlast])]. split; [done|].
      exists (Datatypes.S k), (r :: rs). split; [cbn; lia|rewrite Hlog, E1; cbn; by rewrite <- app_assoc|]. rewrite E1 in Hlast.
      destruct Hlast as [(Hk & Hf & Ho)|(oks & r' & p & Hrs & Hf & Hr & Hp & Ho)]; [left|right].
      * split_and!; [cbn; lia|by constructor|done].
      * exists (r :: oks), r', p. split_and!; [by rewrite Hrs|by constructor|done..].
Qed.

Theorem mkdir_correct name args s : args ≠ [] →
  ∃ s', run (mkdir_main (name :: args)) s ≈ ended s' 0 ∧
    ∃ k rs, names_done Mkdir (λ p, bytes "mkdir: " ++ p ++ bytes " failed to create" ++ NL) args k rs (abs s) (abs s').
Proof.
  intros Hn. apply tot_ended. unfold mkdir_main. destruct args as [|a args]; [done|]. cbn [length Nat.ltb Nat.leb drop].
  apply each_name_run; [by intros ? ? []|by intros|by intros].
Qed.

Theorem rm_correct name args s : args ≠ [] →
  ∃ s', run (rm_main (name :: args)) s ≈ ended s' 0 ∧
    ∃ k rs, names_done Unlink (λ p, bytes "rm: " ++ p ++ bytes " failed to delete" ++ NL) args k rs (abs s) (abs s').
Proof.
  intros Hn. apply tot_ended. unfold rm_main. destruct args as [|a args]; [done|]. cbn [length Nat.ltb Nat.leb drop].
  apply each_name_run; [by intros ? ? []|by intros|by intros].
Qed.

Lemma stat_run n s Q X :
  (∀ r s', abs s' = abs s → (match v_files (abs s) !! n with Some f => r = (0, f_st f) | None => r.1 < 0 end) → Q r s') →
  total (stat_ n) s Q X.
Proof.
  intros H. apply tot_bind, tot_open.
  - intros fd f s1 Ea Hfd Ef E1. rewrite Ea in H. rewrite (proj2 (Z.ltb_ge _ _)) by lia.
    apply tot_bind, tot_sys; [by intros ? []|]. cbn [returns]. rewrite E1. cbn [set_in v_in]. rewrite lookup_insert_eq. intros r s2 [-> E2].
    apply tot_bind, tot_close; [rewrite E2; cbn; rewrite lookup_insert_eq; by eexists|]. intros _ s3 E3. apply tot_ret, H; [|done].
    rewrite E3, E2. cbn. rewrite delete_insert_id by done. by destruct (abs s).
  - intros fd s1 Ea Hfd E1. rewrite Ea in H. rewrite (proj2 (Z.ltb_lt _ _)) by lia. apply tot_ret, H; [done|cbn; lia].
Qed.

(** The listing of a directory. *)
Lemma ls_dir_run fd path X : ∀ n st d s Q, (length d ≤ n)%nat → v_in (abs s) !! fd = Some (mkUfile st d) → st_type st = 1 →
  (∀ s' d', abs s' = put 1 (concat (ls_entry (v_files (abs s)) path <$> dirents d)) (set_in (<[fd := mkUfile st d']> (v_in (abs s))) (abs s)) → Q tt s') →
  total (ls_dir fd path) s Q X.
Proof.
  induction n as [n IH] using lt_wf_ind. intros st d s Q Hn Ef Ht H. unfold ls_dir. apply tot_iter, tot_bind.
  eapply (tot_read fd 16 (mkUfile st d)); [lia|done|]. cbn [f_data f_st]. intros k s1 _ _ _ Hk E1. specialize (Hk Ht). rewrite dirents_step in H.
  destruct (decide (length d < 16)%nat).
  - replace (Z.of_nat k =? 16) with false by lia. apply tot_ret, (H s1 (drop k d)). by rewrite E1, put_nil.
  - assert (k = 16%nat) as -> by lia. change (negb (Z.of_nat 16 =? 16)) with false. cbn iota.
    assert (∀ s2, abs s2 = put 1 (ls_entry (v_files (abs s)) path (take 16 d)) (abs s1) → total (ls_dir fd path) s2 Q X) as Hrec.
    { intros s2 E2. apply (IH (n - 16)%nat ltac:(lia) st (drop 16 d)); [rewrite length_drop; lia|rewrite E2, E1; apply lookup_insert_eq|done|].
      intros s3 d' E3. apply (H s3 d'). rewrite E3, E2, E1. cbn. by rewrite insert_insert_eq, put_app. }
    unfold ls_entry in Hrec. destruct (get16 0 (take 16 d) =? 0); [apply tot_ret, Hrec; by rewrite put_nil|].
    apply tot_bind, stat_run. intros [r st'] s2 E2 Hr. assert (v_files (abs s1) = v_files (abs s)) as Es by by rewrite E1. rewrite Es in Hr.
    destruct (v_files (abs s) !! _) as [f|].
    + injection Hr as -> ->. cbn [Z.ltb Z.compare]. eapply tot_bind, tot_fprintf; [done|]. intros s3 E3. apply tot_ret, Hrec. by rewrite E3, E2.
    + cbn [fst] in Hr. rewrite (proj2 (Z.ltb_lt _ _)) by lia. eapply tot_bind, tot_fprintf; [done|]. intros s3 E3. apply tot_ret, Hrec. by rewrite E3, E2.
Qed.

Lemma ls_run path s Q X : (∀ s', abs s' = ls_spec (abs s) path → Q tt s') → total (ls path) s Q X.
Proof.
  intros H. unfold ls_spec in H. apply tot_bind, tot_open.
  2:{ intros fd s1 Ea Hfd E1. rewrite Ea in H. rewrite (proj2 (Z.ltb_lt _ _)) by lia. eapply tot_fprintf; [done|]. intros s2 E2. apply H. by rewrite E2, E1. }
  intros fd f s1 Ea Hfd Ef E1. rewrite Ea in H. rewrite (proj2 (Z.ltb_ge _ _)) by lia.
  assert (v_in (abs s1) !! fd = Some f) as Ef1 by (rewrite E1; apply lookup_insert_eq).
  apply tot_bind, tot_sys; [by intros ? []|]. cbn [returns]. rewrite Ef1. intros r s2 [-> E2]. cbn [Z.ltb Z.compare]. rewrite <- E2 in Ef1, E1. clear s1 E2.
  assert (∀ s3 out f', abs s3 = put 1 out (set_in (<[fd := f']> (v_in (abs s2))) (abs s2)) →
     (∀ s', abs s' = put 1 out (abs s) → Q tt s') → total (_ ← sys (Close fd); mret tt) s3 Q X) as Hc.
  { intros s3 out f' E3 HQ. apply tot_bind, tot_close; [rewrite E3; cbn; rewrite lookup_insert_eq; by eexists|].
    intros _ s4 E4. apply tot_ret, HQ. rewrite E4, E3, E1. cbn. rewrite insert_back by done. by destruct (abs s). }
  assert (abs s2 = set_in (<[fd := f]> (v_in (abs s2))) (abs s2)) as Eid.
  { destruct (abs s2) as [a b c d]. unfold set_in. cbn in *. by rewrite insert_id. }
  apply tot_bind. destruct ((st_type (f_st f) =? 3) || (st_type (f_st f) =? 2)) eqn:E32.
  { eapply tot_fprintf; [done|]. intros s3 E3. rewrite Eid in E3. by apply (Hc _ _ _ E3). }
  destruct (Z.eqb_spec (st_type (f_st f)) 1) as [Et|Et].
  - destruct (_ <? _)%nat; [eapply tot_fprintf; [done|]; intros s3 E3; rewrite Eid in E3; by apply (Hc _ _ _ E3)|].
    destruct f as [st d]. eapply (ls_dir_run fd path _ _ st d); [done|done|done|]. intros s3 d' E3. apply (Hc _ _ _ E3).
    intros s4 E4. apply H. rewrite E4, E1. done.
  - apply tot_ret, (Hc s2 [] f); [by rewrite put_nil|]. intros s' E'. apply H. by rewrite E', put_nil.
Qed.

(** ls lists every argument: a file on one line, a directory with a line for each
    of its entries in use, in order; without arguments it lists the directory in
    which it runs.  It ends with status 0. *)
Theorem ls_correct name args s :
  ∃ s', run (ls_main (name :: args)) s ≈ ended s' 0 ∧ abs s' = foldl ls_spec (abs s) (match args with [] => [bytes "."] | _ => args end).
Proof.
  apply tot_ended. unfold ls_main. destruct args as [|a args]; cbn [length Nat.ltb Nat.leb drop].
  { apply tot_bind, ls_run. intros s1 E1. apply tot_exit. by rewrite E1. }
  generalize (a :: args). clear a args. intros args. revert s. induction args as [|a args IH]; intros s; cbn [ls_args]; [by apply tot_exit|].
  apply tot_bind, ls_run. intros s1 E1. cbn [foldl]. rewrite <- E1. apply IH.
Qed.

End programs.

(** ** getpinfo *)

Lemma observe_bind {A B} (t : prog A) (k : A → prog B) :
  observe (ITree.bind t k) = match observe t with
    | RetF a => observe (k a)
    | TauF u => TauF (ITree.bind u k)
    | VisF e h => VisF e (λ x, ITree.bind (h x) k)
    end.
Proof.
  assert (observe (ITree.bind t k) = observe (bind_ t k)) as -> by reflexivity. by destruct (observe t).
Qed.

Lemma observe_iter {A I} (body : I → prog (I + A)) i :
  observe (ITree.iter body i) = observe (ITree.bind (body i) (λ x, match x with inl j => Tau (ITree.iter body j) | inr a => Ret a end)).
Proof. reflexivity. Qed.

Lemma spin_loop_diverges : ∀ i b, - 2 ^ 31 ≤ i < 2 ^ 31 → spin_loop i b ≈ ITree.spin.
Proof.
  pcofix CIH. intros i b Hi. pstep. unfold eqit_.
  assert (observe (spin_loop i b) = TauF (spin_loop (s32 (i + 1)) (s32 (40 * 40 + i)))) as ->.
  { unfold spin_loop. rewrite observe_iter. replace (i <? 9999999990) with true by lia. reflexivity. }
  cbn. constructor. red. right. apply CIH, s32_range.
Qed.

Lemma bind_spin {A B} (k : A → prog B) : ITree.bind ITree.spin k ≈ ITree.spin.
Proof. pcofix CIH. pstep. unfold eqit_. cbn. constructor. red. right. apply CIH. Qed.

(** A child of getpinfo does not end by itself: its loop bound does not fit an
    int, so that after the call of settickets it makes no other call. *)
Theorem getpinfo_child_spins i : getpinfo_child i ≈ (_ ← sys (Settickets (10 * (i + 1))); ITree.spin).
Proof.
  unfold getpinfo_child, mbind, prog_bind. apply eqit_bind; [reflexivity|]. intros r. rewrite spin_loop_diverges by lia. apply bind_spin.
Qed.

(** ** init *)

(** Where a run of init is: ready to start a shell, waiting for the shell [pid], in
    the child before exec, or after a call that failed. *)
Inductive phase : Type := Ready | Waits (pid : Z) | Child | Failed.

(** The calls other than write that may be made, and what follows. *)
Definition allowed {T} (q : phase) (e : sysE T) : Prop :=
  match e with
  | Open _ _ | Mknod _ _ _ | Dup _ | Fork => q = Ready
  | Wait => ∃ pid, q = Waits pid
  | Exec path argv => q = Child ∧ path = bytes "sh" ∧ argv = [bytes "sh"]
  | Exit _ => q = Failed
  | _ => False
  end.
Definition next {T} (q : phase) (e : sysE T) : T → phase :=
  match e in sysE T return T → phase with
  | Fork => λ pid, if pid <? 0 then Failed else if pid =? 0 then Child else Waits pid
  | Wait => λ w, match q with
                 | Waits pid => if w =? pid then Ready else if w <? 0 then Failed else q
                 | _ => q
                 end
  | Exec _ _ => λ _, Failed
  | _ => λ _, q
  end.

(** One call after finitely many steps and writes to descriptor 1, or the end; [R]
    holds of what follows the call. *)
Inductive upto_call {A} (R : phase → prog A → Prop) (Q : phase → A → Prop) : phase → itree' sysE A → Prop :=
| uc_ret q a : Q q a → upto_call R Q q (RetF a)
| uc_tau q t : upto_call R Q q (observe t) → upto_call R Q q (TauF t)
| uc_write q bs k : (∀ r, upto_call R Q q (observe (k r))) → upto_call R Q q (VisF (Write 1 bs) k)
| uc_call q T (e : sysE T) k : allowed q e → (∀ r, R (next q e r) (k r)) → upto_call R Q q (VisF e k).

Lemma upto_call_mono {A} (R R' : phase → prog A → Prop) (Q Q' : phase → A → Prop) q ot :
  upto_call R Q q ot → (∀ q t, R q t → R' q t) → (∀ q a, Q q a → Q' q a) → upto_call R' Q' q ot.
Proof. intros H HR HQ. induction H; [apply uc_ret|apply uc_tau|apply uc_write|apply uc_call]; auto. Qed.

Definition conforms_ {A} (Q : phase → A → Prop) (R : phase → prog A → Prop) (q : phase) (t : prog A) : Prop := upto_call R Q q (observe t).

Lemma conforms_mon {A} (Q : phase → A → Prop) : monotone2 (conforms_ Q).
Proof. intros q t R R' H HR. eapply upto_call_mono; eauto. Qed.
#[local] Hint Resolve conforms_mon : paco.

(** The calls follow the phases for ever, or until the program returns with [Q]. *)
Definition conforms {A} (Q : phase → A → Prop) : phase → prog A → Prop := paco2 (conforms_ Q) bot2.
(** The same, and the program returns with [P] before the first call. *)
Definition begins {A} (P Q : phase → A → Prop) (q : phase) (t : prog A) : Prop := upto_call (conforms Q) P q (observe t).

Lemma begins_conforms {A} (Q : phase → A → Prop) q t : begins Q Q q t ↔ conforms Q q t.
Proof.
  split; intros H.
  - pfold. eapply upto_call_mono; [exact H|by left|done].
  - punfold H. eapply upto_call_mono; [exact H| |done]. by intros q' t' [|[]].
Qed.

(** Sequences: the step of a [bind]. *)
Lemma upto_call_bind {A B} (k : A → prog B) (R : phase → prog A → Prop) (R' : phase → prog B → Prop) P Q q (t : prog A) :
  upto_call R P q (observe t) → (∀ q t, R q t → R' q (ITree.bind t k)) → (∀ q a, P q a → upto_call R' Q q (observe (k a))) →
  upto_call R' Q q (observe (ITree.bind t k)).
Proof.
  intros H HR HP. remember (observe t) as ot eqn:E. revert t E. induction H as [q a Ha|q u _ IH|q bs f _ IH|q T e f He Hf]; intros t E.
  - rewrite observe_bind, <- E. by apply HP.
  - rewrite observe_bind, <- E. apply uc_tau. by apply IH.
  - rewrite observe_bind, <- E. apply uc_write. intros r. by apply (IH r).
  - rewrite observe_bind, <- E. apply uc_call; [done|]. intros r. by apply HR.
Qed.

Lemma conforms_bind {A B} (k : A → prog B) (Q : phase → B → Prop) : ∀ q t,
  conforms (λ q' a, conforms Q q' (k a)) q t → conforms Q q (ITree.bind t k).
Proof.
  pcofix CIH. intros q t H. pfold. punfold H. eapply upto_call_bind; [exact H| |].
  - intros q' t' [H'|[]]. right. by apply CIH.
  - intros q' a Ha. punfold Ha. eapply upto_call_mono; [exact Ha| |done]. intros q2 t2 [H2|[]]. left. eapply paco2_mon; [exact H2|done].
Qed.

Lemma conforms_weaken {A} (Q Q' : phase → A → Prop) : (∀ q a, Q q a → Q' q a) → ∀ q t, conforms Q q t → conforms Q' q t.
Proof.
  intros HQ. pcofix CIH. intros q t H. pfold. punfold H. eapply upto_call_mono; [exact H| |done].
  intros q' t' [H'|[]]. right. by apply CIH.
Qed.

Lemma begins_bind {A B} (k : A → prog B) (P Q : phase → B → Prop) q (t : prog A) :
  begins (λ q' a, begins P Q q' (k a)) (λ q' a, conforms Q q' (k a)) q t → begins P Q q (t ≫= k).
Proof. intros H. eapply upto_call_bind; [exact H|apply conforms_bind|done]. Qed.

Lemma begins_ret {A} (P Q : phase → A → Prop) q a : P q a → begins P Q q (mret a).
Proof. apply uc_ret. Qed.

Lemma begins_sys {T} (P Q : phase → T → Prop) q (e : sysE T) : allowed q e → (∀ r, Q (next q e r) r) → begins P Q q (sys e).
Proof. intros He H. apply uc_call; [done|]. intros r. apply begins_conforms, begins_ret, H. Qed.

Lemma begins_exit {A} (P Q : phase → A → Prop) n : begins P Q Failed (exit_ n).
Proof. apply begins_bind, begins_sys; [done|]. by intros []. Qed.

Lemma begins_printf (P Q : phase → unit → Prop) q fmt args : P q tt → begins P Q q (uprintf fmt args).
Proof.
  intros H. unfold uprintf, fprintf. induction (default [] _) as [|c bs IH]; [by apply begins_ret|]. cbn [putcs].
  apply begins_bind, uc_write. intros r. by apply uc_ret.
Qed.

(** A loop that makes a call in every round. *)
Lemma conforms_iter {A I} (body : I → prog (I + A)) Q q0 :
  (∀ i, begins (λ _ _, False) (λ q x, match x with inl _ => q = q0 | inr a => Q q a end) q0 (body i)) →
  ∀ i, conforms Q q0 (ITree.iter body i).
Proof.
  intros Hb i. set (k := λ x, match x with inl j => Tau (ITree.iter body j) | inr a => Ret a end).
  assert (∀ q t, conforms (λ q x, match x with inl _ => q = q0 | inr a => Q q a end) q t → conforms Q q (ITree.bind t k)) as H.
  { pcofix CIH. intros q t H. pfold. punfold H. eapply upto_call_bind; [exact H| |].
    - intros q' t' [H'|[]]. right. by apply CIH.
    - intros q' [j|a]; [intros ->|by apply uc_ret]. apply uc_tau. rewrite observe_iter. eapply upto_call_bind; [exact (Hb j)| |done].
      intros q' t' H'. right. by apply CIH. }
  apply begins_conforms. unfold begins. rewrite observe_iter. eapply upto_call_bind; [exact (Hb i)|exact H|done].
Qed.

Lemma reap_conforms pid : conforms (λ q _, q = Ready) (Waits pid) (reap pid).
Proof.
  apply conforms_iter. intros _. apply begins_bind, begins_sys; [by exists pid|]. intros w. cbn [next]. apply begins_conforms.
  destruct (w =? pid); [by apply begins_ret|]. destruct (w <? 0); [|by apply begins_ret].
  apply begins_bind, begins_printf, begins_exit.
Qed.


(** ** An instance *)

(** A kernel that gives at most three bytes per read of a file that is no directory. *)
Definition newfd (i : gmap Z ufile) : Z := map_fold (λ k _ m, m `max` (k + 1)) 0 i.

Lemma newfd_fresh i : 0 ≤ newfd i ∧ i !! newfd i = None.
Proof.
  assert (0 ≤ newfd i ∧ ∀ k x, i !! k = Some x → k < newfd i) as [H0 H].
  { unfold newfd. apply (map_fold_weak_ind (λ r m, 0 ≤ r ∧ ∀ k x, m !! k = Some x → k < r)); [done|].
    intros k x m r Hm [Hr Hk]. split; [lia|]. intros j y. rewrite lookup_insert. case_decide; [lia|]. intros Hj%Hk. lia. }
  split; [done|]. destruct (i !! newfd i) eqn:E; [|done]. apply H in E. lia.
Qed.

Definition add_log (e : sysE Z) (v : view) : (view * Z) + Z := inl (mkView (v_files v) (v_in v) (v_out v) (v_log v ++ [(e, 0)]), 0).

Definition ram_call T (e : sysE T) (v : view) : (view * T) + Z :=
  match e in sysE T return (view * T) + Z with
  | Open path mode =>
      match v_files v !! path with
      | Some f => inl (set_in (<[newfd (v_in v) := f]> (v_in v)) v, newfd (v_in v))
      | None => inl (v, -1)
      end
  | Close fd => inl (set_in (delete fd (v_in v)) v, 0)
  | Read fd n =>
      match v_in v !! fd with
      | Some f =>
          let k := Nat.min (Z.to_nat (if st_type (f_st f) =? 1 then n else n `min` 3)) (length (f_data f)) in
          inl (set_in (<[fd := mkUfile (f_st f) (drop k (f_data f))]> (v_in v)) v, (Z.of_nat k, take k (f_data f)))
      | None => inl (v, (-1, []))
      end
  | Write fd bs => match v_out v !! fd with Some _ => inl (put fd bs v, Z.of_nat (length bs)) | None => inl (v, -1) end
  | Fstat fd => match v_in v !! fd with Some f => inl (v, (0, f_st f)) | None => inl (v, (-1, mkUstat 0 0 0)) end
  | Mkdir p => add_log (Mkdir p) v
  | Unlink p => add_log (Unlink p) v
  | Link o n => add_log (Link o n) v
  | Kill p => add_log (Kill p) v
  | Settickets n => add_log (Settickets n) v
  | Getpinfo => inl (v, (-1, []))
  | Exit n => inr n
  | _ => inl (v, -1)
  end.

#[global] Instance ram_kernel : Kernel view.
Proof.
  refine {| abs := λ v, v; call := ram_call |}. intros T e v. destruct e; cbn [ram_call returns ends add_log]; try done; try (by eexists).
  - destruct (v_files v !! path); intros _; [|done]. destruct (newfd_fresh (v_in v)). done.
  - destruct (v_in v !! fd) as [f|]; intros Hn; [|done]. eexists. split_and!; [done|..|done].
    + destruct (_ =? 1); lia.
    + lia.
    + intros Hk. apply nil_length_inv. destruct (_ =? 1); lia.
    + intros ->. cbn. lia.
  - by destruct (v_out v !! fd).
  - by destruct (v_in v !! fd).
Defined.

Definition ex_a : ufile := mkUfile (mkUstat 2 5 4) (bytes "to be").
Definition ex_b : ufile := mkUfile (mkUstat 2 6 9) (bytes " or not" ++ NL).
Definition ex_view : view := mkView {[bytes "a" := ex_a; bytes "b" := ex_b]} ∅ {[1 := []; 2 := []]} [].

Lemma cat_correct_witness :
  ∃ s' : view, run (cat_main [bytes "cat"; bytes "a"; bytes "b"; bytes "c"]) ex_view ≈ ended s' 1 ∧
    v_out s' = {[1 := bytes "to be or not" ++ NL; 2 := bytes "cat: cannot open c" ++ NL]}.
Proof.
  destruct (cat_correct (bytes "cat") [bytes "a"; bytes "b"; bytes "c"] ex_view) as (s' & E & H); [by eexists|].
  exists s'. split; [exact E|]. cbn in H. subst s'. reflexivity.
Defined.

Lemma wc_correct_witness :
  ∃ s' : view, run (wc_main [bytes "wc"; bytes "a"; bytes "b"]) ex_view ≈ ended s' 0 ∧ v_out s' !! 1 = Some (bytes "0 2 5 a" ++ NL ++ bytes "1 2 8 b" ++ NL).
Proof.
  destruct (wc_correct (bytes "wc") [bytes "a"; bytes "b"] ex_view) as (s' & E & H); [done| |].
  { intros a f Ha Hf. rewrite !elem_of_cons in Ha. destruct Ha as [->|[->|[]%not_elem_of_nil]]; injection Hf as <-; by vm_compute. }
  exists s'. split; [exact E|]. cbn in H. subst s'. reflexivity.
Defined.

Lemma echo_correct_witness : ∃ s' : view, run (echo_main [bytes "echo"; bytes "hello"; bytes "world"]) ex_view ≈ ended s' 0 ∧ v_out s' !! 1 = Some (bytes "hello world" ++ NL).
Proof.
  destruct (echo_correct (bytes "echo") [bytes "hello"; bytes "world"] ex_view) as (s' & E & H); [by eexists|].
  exists s'. split; [exact E|]. cbn in H. subst s'. reflexivity.
Defined.
